(* ===== verification/_CoqProject ===== *)
-Q . S2P
Prelude.v
GoStrings.v
GoRuntime.v
GoFloat.v
GoDuration.v
OldSuffix.v
Rfc3339.v
GoNet.v
GoPath.v
LocalFS.v
Remote.v
MemFS.v
FsWrappers.v
Bolt.v
Journal.v
World.v
AuditLog.v
StoreConflict.v
Prune.v
Retry.v
Push.v
PullConflict.v
Pull.v
Repair.v
BisyncJournal.v
Bisync.v
PathFilter.v
Debouncer.v
Watcher.v
WatcherLoop.v
Quota.v
Http.v
Mqtt.v
AgentConfig.v
Agent.v
Engine.v
AgentControl.v
AgentRun.v
Startup.v
Ctl.v
Drive.v
RcloneFS.v
Production.v
BisyncConverge.v
ChainRepair.v
PushSteps.v
PullFrame.v
Cli.v
PullAgain.v
