(* ===== verification/Prelude.v ===== *)
(** * homedrive: a verification development

    [homedrive] (src/homedrive) keeps a local folder and a Google Drive folder
    in step. A watcher turns file-system notifications into debounced events;
    the push syncer uploads, deletes and moves accordingly; the puller polls
    the remote's change list and downloads; a periodic bisync pass compares
    both sides as a safety net. They share a journal in a BoltDB file, keyed by
    root-relative path, which is how each path recognises the others' writes.
    A file that changed on both sides is kept twice: the loser is renamed to
    [name.old.N], on whichever side it is, and evicted later by age and count.

    ** How the program is modelled

    Go functions are Rocq functions. A stateful one is in [ST s A] (GoRuntime),
    explicit state passing; a fallible one returns [result A], whose errors
    keep Go's wrapping so that [errors.Is] can be computed. The state of the
    sync engine is a [World R S]: local file system, remote, store, the log of
    everything published, audited and slept, and a tick count. The clock, the
    context and the iteration order of maps are read through the class [Env],
    so every theorem holds for all of them: map ranges see an arbitrary
    permutation and [now] an arbitrary clock. Integers and durations are [Z]
    with the 64-bit wrap or saturation written out where the source can reach
    it (this file); times are nanoseconds, the zero time being 0.

    What is not part of the repository is a parameter with laws:
    the remote is the class [RemoteFS] with [RemoteLaws] and [RemoteWriteLaws]
    (Remote), which MemFS implements, and RcloneFS too given what rclone
    promises ([RcloneLaws]); theorems that need more of a remote ask for it by
    name -- what a download delivers ([RemoteContent]), what a failed call
    leaves alone ([RemoteFrame]), what a listing shows ([RemoteListed]) -- and
    MemFS has each; rclone's backend and the Drive API are the classes
    [RcloneBackend] and [DriveAPI], implemented by [MemDrive]; BoltDB is [Bolt] with [BoltLaws] (Bolt),
    which [MemBolt] implements; the store of push and pull is [Store] with
    [StoreLaws] (Journal), that of bisync [BJournal] (BisyncJournal), both
    implemented by the journal; cobra is [Cobra] with [CobraLaws] (Cli); the
    glob matcher, fsnotify and the YAML parser are arguments. Error texts leave out the quotation marks of [%q].

    ** Files

    - GoStrings, GoRuntime, GoFloat, GoDuration, Rfc3339, GoNet, GoPath, LocalFS:
      Go's byte strings and number formatting, errors and time, [float64], the
      texts of durations and of RFC 3339 times, host and port and IP addresses,
      [path] and [path/filepath], and the local file system as a tree whose
      calls the host may refuse.
    - OldSuffix: internal/oldsuffix. PathFilter: internal/pathfilter, the
      watcher's filter and [relToRoot].
    - Remote, MemFS, FsWrappers: internal/rcloneclient's interface, in-memory
      remote, dry-run and fault-injecting wrappers.
    - Bolt, Journal, AuditLog, StoreConflict, Prune: internal/store.
    - World: the engine's state and the audit adapter of cmd/homedrive.
    - Retry, Push, PullConflict, Pull: internal/syncer's retry.go, the push
      path (syncer.go, push_*.go), conflict.go and the pull path (puller.go,
      pull_*.go).
    - PushSteps: the handler of a file event call by call, and any number of
      them interleaved. PullFrame: what a remote change can touch, and the
      handlers interleaved with the changes of polls. PullAgain: a change
      delivered a second time.
    - Repair, BisyncJournal, Bisync: repair.go, the bisync journal adapter, and
      bisync.go with bisync_ops.go. BisyncConverge: a successful pass leaves
      nothing for the next one, over the interface [RemoteListed]. ChainRepair:
      the repair of a bisync pass on its files and its remote.
    - Debouncer, Watcher, WatcherLoop: internal/watcher, its handlers and the
      running watcher. Quota: internal/quota.
    - Http: internal/http, over the interfaces the agent implements. Mqtt:
      internal/mqtt.
    - AgentConfig: internal/config. Agent: the wiring of cmd/homedrive/agent.go
      and the parts a push handler falls into around the lock.
    - Engine: the goroutines of [Agent.Run] (agent_run.go), [Syncer.Run] and
      its workers, [Bisync.Run] and the repair requests, as a step relation on
      channels, workers and the read-write lock they share.
    - AgentRun: the life of [Agent.Run]: the watcher of WatcherLoop, the pump
      between its channel and the engine's, the engine, SIGHUP, the endpoint,
      the MQTT client and the shutdown sequence as one step relation; a step of
      a part is that part's own step on the shared world. Startup: [newAgent]
      from the configuration to the opened resources, and [runAgent] of main.go.
    - AgentControl: cmd/homedrive/agent_control.go, the endpoint over the engine.
      Ctl: ctl.go, the command line's client of it. Cli: main.go, the command
      tree, what each command runs, and the exit status.
    - Drive, RcloneFS: the production remote of internal/rcloneclient
      (driveapi.go, rootid.go, idpathcache.go, oauth*.go; rclonefs.go).
      Production: the sync engine run on it.

    ** What is shown

    - No data is lost: a resolved conflict keeps both versions on the pull path
      ([conflict_keeps_loser], under unlimited retention) and in bisync
      ([bisync_conflict_keeps_both]): the winner is at the path, the loser at a
      name the journal does not have (a file that is on disk without a journal
      entry is overwritten all the same: [conflict_overwrites_unjournaled]);
      a diff that is worked off never drops an entry or a mark
      ([syncDiffs_never_prunes]); retention evicts exactly what it should
      ([selectEvictions_spec]) and in the safe order
      ([evict_file_before_journal]); chain repair keeps every file and object
      under exactly one name and flattens the names
      ([chain_repair_flattens]).
    - Bisync converges: after a pass without conflicts whose transfers all
      succeeded the next diff is empty ([bisync_converges]), on a remote whose
      listing agrees with its uploads, as MemFS; on the production remote it
      does not ([pulled_file_conflicts]).
    - No loops: our own upload is not pulled ([push_then_pull_is_noop]), our
      own download is not pushed ([pulled_file_not_pushed]), and a change that
      Drive reports twice is processed once ([processChange_again]).
    - Dry run changes nothing ([execute_dry_run], [poll_dry_run],
      [push_dry_run], [DryRunFS_never_writes]).
    - The journal refines a finite map ([JournalStore_refines_map]), its prefix
      rewrite and scan are exact ([RewritePrefix_moves],
      [ListByPrefix_exact]); the diff and the walk are exact ([diff_exact],
      [walkLocal_exact]).
    - Configuration: the defaults ([Load_spec]) and the texts of durations, which
      are read exactly or refused ([UnmarshalYAML_spec]).
    - Errors, timing and state machines: retries, whose attempts and sleeps are
      counted ([retryFunc_outcome]), token resets, OAuth backoff,
      dangling shortcuts, the bisync pass's bracket and its coalesced trigger,
      debouncing under every interleaving of timers and callbacks, rename
      pairing ([dir_rename_paired], whatever happens in the window), quota
      hysteresis, the pull loop's delays ([Puller_Run_delays]);
      the running watcher hands on only what is not excluded
      ([watcher_emits_admitted]) and falls silent after a cancellation
      ([watcher_after_cancel]).
    - Concurrency: a bisync pass excludes handlers and polls in every reachable
      state ([bisync_excludes]), no event is lost or handled twice
      ([no_event_lost]), and the agent neither deadlocks nor fails to shut down
      ([engine_progress]); a pause drops file events and does nothing else
      ([pause_only_drops]). A pushed file is on the remote at its own path with
      its baseline in the journal ([push_upload_journals_baseline]). The handler
      call by call, which the interleavings use, is the handler run at once
      ([handler_steps]). A remote change touches its own path and the [.old]
      names of its base only ([processChange_frame]); so handlers of different
      files may interleave their calls with each other and with the changes of
      polls of other files without being disturbed ([interleaved_pushes],
      [pushes_and_polls]), while a poll of the same file is not harmless
      ([poll_before_journal]).
    - The whole agent: what the workers finish comes from admitted events of the
      watcher, in order, none lost on the way ([watcher_to_workers]); after the
      signal it always comes to an end ([agent_shuts_down]) and leaves nothing
      behind that writes ([shutdown_is_clean]); a start that fails closes the
      files it opened ([startup_releases]).
    - Control and reporting: a request without the token is inert
      ([unauthorized_is_inert]), one with it is the engine step it names
      ([request_steps]), and the command line reaches the agent built from its
      configuration ([ctl_controls_agent]); every command does what its name
      says ([cli_commands]; cobra's own [--help] and [--version] are part of
      [Cobra]); the request counters, the health verdict and the
      status times ([counters_count], [healthz_verdict], [status_last_push]);
      the presence topic ([client_presence]), one message per event
      ([emit_event]) and the agreement of discovery with the state topics
      ([discovery_matches_state]).
    - The production remote meets the interface the engine is verified against
      ([RcloneFS_implements]); its full walk and its page loop are complete
      ([full_walk_exact], [poll_pages_complete]), its errors classified exactly
      ([list_error_classified], [startup_rejects_credential]), its queries
      quoted safely ([escape_roundtrip]), its downloads exact
      ([download_exact]).
    - The store's own conflict resolver reserves a free name ([Resolve_spec],
      [Resolve_distinct]).
    - Where the code departs from what it means to do, the theorem states what
      it does: [execute_clobbers_nested_remote], [dir_rename_rewrites_sibling],
      [push_rename_never_executed], [zero_mtime_change_dropped],
      [conflict_overwrites_unjournaled], [local_win_journals_loser],
      [poll_before_journal], [folder_moved_aside],
      [NextOldN_exhausted], [New_accepts_unparseable], [debouncer_race],
      [push_retry_omitted], [same_path_reordered], [shutdown_drops_queue],
      [nested_change_misplaced], [dir_rename_never_moves],
      [truncated_download_pushed], [pulled_file_conflicts],
      [mqtt_names_and_qos], [pause_only_drops], [repair_outlives_store],
      [failed_start_keeps_broker].

    ** Bounds and fuel

    [Base] strips at most [maxDepth] = 64 suffixes and [NextOldN] probes at most
    [maxProbe] = 65536 numbers: these are the source's own bounds. [retry_loop]
    recurses on the attempts left, [double_interval] on the failures, decimal
    printing on the number of bits of the number ([itoa_fuel_enough]), and the
    scans of a string on its length. The Drive client's page loop and the
    remote walk run on [r_bound]: [poll_pages_complete] and [full_walk_exact]
    hold for every bound that reaches the number of pages and the height of the
    tree, so the bound restricts neither. Every other recursion is on a list or
    on the tree.

    ** What is not modelled

    Help texts and logging; in Cli flags have the form [--name=value], and
    cobra's own [completion] and [help] commands are left out; what net/http, paho and encoding/json do
    (a request is one step, a publication a recorded call, a JSON document a
    tree); symbolic links; in Startup the outcomes of the calls that open
    something are arguments, of what is opened the journal, the audit log and
    the client of the broker are followed, not the watcher's handle, and a write to a closed audit log, which the
    program ignores, is not told apart from one to an open log. In WatcherLoop a
    handler of a notification is one step: the callbacks of timers run before or
    after it, not within. In Engine a handler's work under the lock, a poll and a
    pass are one step each; push workers and polls hold the lock together, so in
    the program their calls may
    interleave: PushSteps has the handlers of file events call by call and
    PullFrame lets them run between the changes of a poll; the calls within one
    change and those of directory renames are not split. In Debouncer timers, their
    goroutines and the calls interleave. In AgentRun a request is accepted in one
    step, and the ten seconds of the endpoint's shutdown may run out at any time. *)
From stdpp Require Export base gmap strings list list_numbers sorting.
From Stdlib Require Export ZArith Lia Ascii.
From Stdlib Require Sorting.Permutation.

#[export] Set Default Goal Selector "!".
#[global] Open Scope Z_scope.

(** ** Machine integers

    Go's [int], [int64] and [time.Duration] are 64-bit two's-complement
    integers on the platforms the agent is built for; arithmetic on them
    wraps, and that wrap is written out wherever the source can reach it. *)

Definition max_int64 : Z := 2 ^ 63 - 1.

Definition min_int64 : Z := - 2 ^ 63.

Definition wrap64 (z : Z) : Z := (z + 2 ^ 63) `mod` 2 ^ 64 - 2 ^ 63.

Definition clamp64 (z : Z) : Z := Z.max min_int64 (Z.min max_int64 z).

#[global] Arguments wrap64 : simpl never.
#[global] Arguments clamp64 : simpl never.

Definition in_int64 (z : Z) : Prop := min_int64 <= z <= max_int64.

(** ** Options *)

Definition option_get {A} (d : A) (o : option A) : A :=
  match o with Some a => a | None => d end.

(** ** Automation shared by the files of the development *)

Create HintDb homedrive.
Create Rewrite HintDb homedrive.

Ltac destruct_match :=
  match goal with
  | |- context [match ?x with _ => _ end] => destruct x eqn:?
  end.

Ltac destruct_match_in H :=
  match type of H with
  | context [match ?x with _ => _ end] => destruct x eqn:?
  end.

(** [cases] splits every [match] of the goal and closes the branches that
    contradict a hypothesis. *)
Ltac cases := repeat (destruct_match; simplify_eq/=; try done).

(** [inv_match H] splits every [match] of the equation [H]. *)
Ltac inv_match H := repeat (destruct_match_in H; simplify_eq/=; try done).

Ltac bool_to_prop :=
  rewrite ?andb_true_iff, ?andb_false_iff, ?orb_true_iff, ?orb_false_iff,
    ?negb_true_iff, ?negb_false_iff, ?Z.eqb_eq, ?Z.eqb_neq, ?Z.ltb_lt, ?Z.ltb_ge,
    ?Z.leb_le, ?Z.leb_gt, ?Nat.eqb_eq, ?Nat.eqb_neq, ?Nat.leb_le, ?Nat.leb_gt,
    ?Nat.ltb_lt, ?Nat.ltb_ge, ?String.eqb_eq, ?String.eqb_neq in *.

(** ** Integer lemmas *)

Lemma wrap64_id z : in_int64 z -> wrap64 z = z.
Proof.
  unfold in_int64, min_int64, max_int64, wrap64. intros H.
  rewrite Z.mod_small by lia. lia.
Qed.

Lemma wrap64_add a b : wrap64 (wrap64 a + b) = wrap64 (a + b).
Proof.
  unfold wrap64. replace ((a + 2 ^ 63) mod 2 ^ 64 - 2 ^ 63 + b + 2 ^ 63) with ((a + 2 ^ 63) mod 2 ^ 64 + b) by lia.
  rewrite Z.add_mod_idemp_l by done. do 2 f_equal. lia.
Qed.

(** Distinct keys make distinct images. *)
Lemma NoDup_map_via {A B C} (f : A -> B) (g : A -> C) (l : list A) :
  (forall x y, x ∈ l -> y ∈ l -> f x = f y -> g x = g y) -> NoDup (map g l) -> NoDup (map f l).
Proof.
  induction l as [|x l IH]; intros Hi Hg; [constructor|]. cbn in *. inversion_clear Hg as [|? ? Hx Hg'].
  constructor.
  - intros (y & Hy & Hin)%list_elem_of_fmap. apply Hx. apply list_elem_of_fmap. exists y. split; [|done].
    apply Hi; [left|by right|done].
  - apply IH; [|done]. intros y z Hy Hz. apply Hi; by right.
Qed.

Lemma wrap64_range z : in_int64 (wrap64 z).
Proof.
  unfold in_int64, min_int64, max_int64, wrap64.
  pose proof (Z.mod_pos_bound (z + 2 ^ 63) (2 ^ 64) ltac:(lia)). lia.
Qed.

Lemma clamp64_id z : in_int64 z -> clamp64 z = z.
Proof. unfold in_int64, clamp64, min_int64, max_int64. lia. Qed.

Lemma clamp64_range z : in_int64 (clamp64 z).
Proof. unfold in_int64, clamp64, min_int64, max_int64. lia. Qed.

#[export] Hint Resolve wrap64_range clamp64_range : homedrive.

(** ** List lemmas *)

Lemma forallb_Forall {A} (f : A -> bool) l :
  forallb f l = true <-> Forall (fun x => f x = true) l.
Proof.
  induction l as [|x l IH]; simpl; [by split|].
  rewrite andb_true_iff, Forall_cons, IH. done.
Qed.

Lemma last_snoc_inv {A} (l : list A) : l = [] \/ exists l' x, l = l' ++ [x].
Proof.
  destruct l as [|x l] using rev_ind; [by left|right; eauto].
Qed.

Lemma imap_lookup_inj {A} (l : list A) i j x :
  NoDup l -> l !! i = Some x -> l !! j = Some x -> i = j.
Proof. intros Hnd Hi Hj. by eapply NoDup_lookup. Qed.

Lemma filter_none {A} (P : A -> Prop) `{!forall x, Decision (P x)} (l : list A) :
  (forall x, x ∈ l -> ~ P x) -> filter P l = [].
Proof.
  induction l as [|x l IH]; intros Hl; [done|]. rewrite filter_cons, decide_False.
  - apply IH. intros y Hy. apply Hl. by right.
  - apply Hl. by left.
Qed.

Lemma filter_all {A} (P : A -> Prop) `{!forall x, Decision (P x)} (l : list A) :
  (forall x, x ∈ l -> P x) -> filter P l = l.
Proof.
  induction l as [|x l IH]; intros Hl; [done|]. rewrite filter_cons, decide_True.
  - f_equal. apply IH. intros y Hy. apply Hl. by right.
  - apply Hl. by left.
Qed.

(** *** Sums over lists *)

Lemma sum_with_insert {A} (f : A -> nat) l i x y :
  l !! i = Some x ->
  (sum_list_with f (<[i := y]> l) + f x = sum_list_with f l + f y)%nat.
Proof.
  revert i. induction l as [|z l IH]; intros [|i] Hi; try done; cbn in *.
  - injection Hi as ->. lia.
  - rewrite <- !Nat.add_assoc. f_equal. exact (IH i Hi).
Qed.

Lemma sum_with_lookup {A} (f : A -> nat) l i x :
  l !! i = Some x -> (f x <= sum_list_with f l)%nat.
Proof. intros Hl. by apply sum_list_with_in, list_elem_of_lookup_2 with i. Qed.

Lemma sum_with_two {A} (f : A -> nat) l i j x y :
  i <> j -> l !! i = Some x -> l !! j = Some y -> (f x + f y <= sum_list_with f l)%nat.
Proof.
  revert i j. induction l as [|z l IH]; intros [|i] [|j] Hne Hi Hj; try done; cbn in *.
  - injection Hi as ->. pose proof (sum_with_lookup f l j y Hj). lia.
  - injection Hj as ->. pose proof (sum_with_lookup f l i x Hi). lia.
  - pose proof (IH i j ltac:(congruence) Hi Hj). lia.
Qed.

(** A positive sum has a positive summand. *)
Lemma sum_with_positive {A} (f : A -> nat) l :
  (0 < sum_list_with f l)%nat -> exists i x, l !! i = Some x /\ (0 < f x)%nat.
Proof.
  induction l as [|x l IH]; cbn; [lia|]. intros Hp.
  destruct (f x) eqn:E; [destruct (IH Hp) as (i & y & Hi & Hy); by exists (S i), y|].
  exists 0%nat, x. split; [done|lia].
Qed.

Lemma sum_with_zero {A} (f : A -> nat) l :
  sum_list_with f l = 0%nat <-> Forall (fun x => f x = 0%nat) l.
Proof.
  induction l as [|x l IH]; cbn; [done|]. rewrite Forall_cons, <- IH. lia.
Qed.

(** Lists with equal sums for every weight are permutations of each other. *)
Lemma sum_with_Permutation {A} `{EqDecision A} (l k : list A) :
  (forall f : A -> nat, sum_list_with f l = sum_list_with f k) -> l ≡ₚ k.
Proof.
  intros Hf. set (dec := fun x y : A => decide (x = y)).
  apply (Sorting.Permutation.Permutation_count_occ dec). intros x.
  assert (forall m, count_occ dec m x = sum_list_with (fun y => if dec y x then 1 else 0)%nat m) as E.
  { induction m as [|y m IH]; [done|]. cbn. rewrite IH. by destruct (dec y x). }
  by rewrite !E, Hf.
Qed.
