(* ===== verification/GoStrings.v ===== *)
(** The part of Go's [strings], [strconv] and [unicode/utf8] packages that the
    agent uses, on byte strings ([string] is a list of 8-bit [ascii]), and the
    lemmas about them that the path components share. *)
From S2P Require Import Prelude.

Declare Scope gostring_scope.
Delimit Scope gostring_scope with gs.

(** ** Definitions *)

Definition strlen (s : string) : nat := String.length s.

Fixpoint str_take (n : nat) (s : string) : string :=
  match n, s with
  | S n, String a s => String a (str_take n s)
  | _, _ => ""
  end.

Fixpoint str_drop (n : nat) (s : string) : string :=
  match n, s with
  | S n, String _ s => str_drop n s
  | _, _ => s
  end.

Definition HasPrefix (s p : string) : bool := String.prefix p s.

Definition HasSuffix (s p : string) : bool :=
  (strlen p <=? strlen s)%nat && String.eqb (str_drop (strlen s - strlen p) s) p.

Definition TrimPrefix (s p : string) : string :=
  if HasPrefix s p then str_drop (strlen p) s else s.

Definition TrimSuffix (s p : string) : string :=
  if HasSuffix s p then str_take (strlen s - strlen p) s else s.

(** [strings.LastIndex]: the greatest index at which [sub] occurs. *)
Fixpoint LastIndex (s sub : string) : option nat :=
  match (match s with "" => None | String _ s' => LastIndex s' sub end) with
  | Some i => Some (S i)
  | None => if HasPrefix s sub then Some 0%nat else None
  end.

(** [strings.Index]: the least index at which [sub] occurs. *)
Fixpoint Index (s sub : string) : option nat :=
  if HasPrefix s sub then Some 0%nat
  else match s with
       | "" => None
       | String _ s' => option_map S (Index s' sub)
       end.

(** [strings.Cut]: the text around the first occurrence of [sep]. *)
Definition Cut (s sep : string) : string * string * bool :=
  match Index s sep with
  | Some i => (str_take i s, str_drop (i + strlen sep) s, true)
  | None => (s, "", false)
  end.

(** [strings.Count] for a one-byte separator. *)
Fixpoint CountByte (s : string) (c : ascii) : nat :=
  match s with
  | "" => 0
  | String a s => (if Ascii.eqb a c then 1 else 0) + CountByte s c
  end.

(** [strings.Split] for a one-byte separator: never the empty list. *)
Fixpoint SplitByte (s : string) (c : ascii) : list string :=
  match s with
  | "" => [""]
  | String a s' =>
      if Ascii.eqb a c then "" :: SplitByte s' c
      else match SplitByte s' c with
           | [] => [String a ""]
           | w :: ws => String a w :: ws
           end
  end.

(** [strings.Join]. *)
Fixpoint Join (l : list string) (sep : string) : string :=
  match l with
  | [] => ""
  | [w] => w
  | w :: ws => w +:+ sep +:+ Join ws sep
  end.

Definition to_lower_ascii (c : ascii) : ascii :=
  let n := nat_of_ascii c in
  if (65 <=? n)%nat && (n <=? 90)%nat then ascii_of_nat (n + 32) else c.

Fixpoint ToLower (s : string) : string :=
  match s with "" => "" | String a s => String (to_lower_ascii a) (ToLower s) end.

(** [strings.EqualFold], ASCII folding: its one use compares a lowercase
    hexadecimal digest, and no non-ASCII letter folds to [0-9a-f]. *)
Definition EqualFold (s t : string) : bool := String.eqb (ToLower s) (ToLower t).

(** *** Decimal numbers ([strconv.Itoa], [strconv.Atoi]) *)

Definition is_digit (c : ascii) : bool :=
  (48 <=? nat_of_ascii c)%nat && (nat_of_ascii c <=? 57)%nat.

Definition digit_val (c : ascii) : Z := Z.of_nat (nat_of_ascii c) - 48.

Definition digit_char (d : Z) : ascii := ascii_of_nat (Z.to_nat (d + 48)).

Fixpoint str_forallb (f : ascii -> bool) (s : string) : bool :=
  match s with "" => true | String a s => f a && str_forallb f s end.

Fixpoint dec_value_go (acc : Z) (s : string) : Z :=
  match s with
  | "" => acc
  | String a s => dec_value_go (10 * acc + digit_val a) s
  end.

Definition dec_value (s : string) : Z := dec_value_go 0 s.

Fixpoint itoa_go (fuel : nat) (n : Z) (acc : string) : string :=
  match fuel with
  | O => acc
  | S f =>
      let acc' := String (digit_char (n `mod` 10)) acc in
      if n / 10 =? 0 then acc' else itoa_go f (n / 10) acc'
  end.

Definition itoa_fuel (n : Z) : nat := S (Z.to_nat (Z.log2 n)).

Definition Itoa (n : Z) : string :=
  if n <? 0 then "-" +:+ itoa_go (itoa_fuel (- n)) (- n) ""
  else itoa_go (itoa_fuel n) n "".

(** [strconv.Atoi]: an optional sign, at least one digit, and a value that
    fits [int]; [None] is the error. *)
#[global] Arguments Itoa : simpl never.

Definition Atoi (s : string) : option Z :=
  let '(neg, ds) :=
    match s with
    | String "-" r => (true, r)
    | String "+" r => (false, r)
    | _ => (false, s)
    end in
  if String.eqb ds "" || negb (str_forallb is_digit ds) then None
  else
    let v := if neg : bool then - dec_value ds else dec_value ds in
    if (min_int64 <=? v) && (v <=? max_int64) then Some v else None.

(** *** UTF-8 *)

Definition byte_val (c : ascii) : nat := nat_of_ascii c.

Definition is_cont (c : ascii) : bool :=
  (128 <=? byte_val c)%nat && (byte_val c <=? 191)%nat.

Definition in_range (lo hi : nat) (c : ascii) : bool :=
  (lo <=? byte_val c)%nat && (byte_val c <=? hi)%nat.

(** Number of bytes of the valid UTF-8 sequence [s] starts with, 0 if there is
    none ([utf8.DecodeRuneInString]: overlong forms, surrogates and values
    beyond U+10FFFF are invalid). *)
Definition rune_len (s : string) : nat :=
  match s with
  | "" => 0
  | String a r =>
    if (byte_val a <? 128)%nat then 1
    else match r with
    | "" => 0
    | String b r =>
      if in_range 194 223 a && is_cont b then 2
      else match r with
      | "" => 0
      | String c r =>
        if ((in_range 224 224 a && in_range 160 191 b)
            || (in_range 225 236 a && is_cont b)
            || (in_range 237 237 a && in_range 128 159 b)
            || (in_range 238 239 a && is_cont b)) && is_cont c then 3
        else match r with
        | "" => 0
        | String d _ =>
          if ((in_range 240 240 a && in_range 144 191 b)
              || (in_range 241 243 a && is_cont b)
              || (in_range 244 244 a && in_range 128 143 b))
             && is_cont c && is_cont d then 4
          else 0
        end
      end
    end
  end.

(** U+FFFD in UTF-8. *)
Definition replacement : string :=
  String (ascii_of_nat 239) (String (ascii_of_nat 191) (String (ascii_of_nat 189) "")).

Fixpoint to_valid_utf8_go (fuel : nat) (s : string) : string :=
  match fuel, s with
  | S f, String a r =>
      match rune_len s with
      | O => replacement +:+ to_valid_utf8_go f r
      | S k => str_take (S k) s +:+ to_valid_utf8_go f (str_drop (S k) s)
      end
  | _, _ => ""
  end.

(** What a string becomes when [encoding/json] writes and reads it back: each
    byte that starts no valid UTF-8 sequence turns into U+FFFD. *)
Definition to_valid_utf8 (s : string) : string := to_valid_utf8_go (strlen s) s.

Fixpoint valid_utf8_go (fuel : nat) (s : string) : bool :=
  match fuel, s with
  | _, "" => true
  | O, _ => false
  | S f, _ =>
      match rune_len s with O => false | S k => valid_utf8_go f (str_drop (S k) s) end
  end.

Definition valid_utf8 (s : string) : bool := valid_utf8_go (strlen s) s.

(** ** Lemmas on taking, dropping and appending *)

Lemma sapp_nil_l s : "" +:+ s = s.
Proof. done. Qed.

Lemma sapp_cons a s t : String a s +:+ t = String a (s +:+ t).
Proof. done. Qed.

Lemma sapp_nil_r s : s +:+ "" = s.
Proof. induction s as [|a s IH]; [done|]. rewrite sapp_cons. by f_equal. Qed.

Lemma sapp_assoc s t u : (s +:+ t) +:+ u = s +:+ t +:+ u.
Proof. induction s as [|a s IH]; [done|]. rewrite !sapp_cons. by f_equal. Qed.

Lemma strlen_app s t : strlen (s +:+ t) = (strlen s + strlen t)%nat.
Proof. induction s as [|a s IH]; [done|]. rewrite sapp_cons. cbn. by f_equal. Qed.

Lemma strlen_nil s : strlen s = 0%nat -> s = "".
Proof. by destruct s. Qed.

Lemma str_take_drop n s : str_take n s +:+ str_drop n s = s.
Proof.
  revert s. induction n as [|n IH]; intros [|a s]; try done.
  cbn [str_take str_drop]. rewrite sapp_cons. by rewrite IH.
Qed.

Lemma str_take_app s t : str_take (strlen s) (s +:+ t) = s.
Proof.
  induction s as [|a s IH]; [by destruct t|]. rewrite sapp_cons. cbn. by f_equal.
Qed.

Lemma str_drop_app s t : str_drop (strlen s) (s +:+ t) = t.
Proof. induction s as [|a s IH]; [by destruct t|]. rewrite sapp_cons. by cbn. Qed.

Lemma str_drop_0 s : str_drop 0 s = s.
Proof. by destruct s. Qed.

Lemma str_take_0 s : str_take 0 s = "".
Proof. by destruct s. Qed.

Lemma str_drop_app_plus s t n : str_drop (strlen s + n) (s +:+ t) = str_drop n t.
Proof. induction s as [|a s IH]; [done|]. rewrite sapp_cons. by cbn. Qed.

Lemma str_drop_drop n m s : str_drop n (str_drop m s) = str_drop (m + n) s.
Proof.
  revert s. induction m as [|m IH]; intros [|a s]; try done; [by destruct n|].
  cbn. apply IH.
Qed.

Lemma strlen_take n s : (n <= strlen s)%nat -> strlen (str_take n s) = n.
Proof.
  unfold strlen. revert s. induction n as [|n IH]; intros [|a s] H; cbn in *; try done; [lia|].
  f_equal. apply IH. lia.
Qed.

Lemma strlen_drop n s : strlen (str_drop n s) = (strlen s - n)%nat.
Proof. revert s. induction n as [|n IH]; intros [|a s]; cbn; try done. Qed.

Lemma sapp_inj_r s t u : s +:+ u = t +:+ u -> s = t.
Proof.
  intros H. assert (strlen s = strlen t) as Hl.
  { apply (f_equal strlen) in H. rewrite !strlen_app in H. lia. }
  rewrite <- (str_take_app s u), <- (str_take_app t u), H, Hl. done.
Qed.

Lemma sapp_inj_l s t u : u +:+ s = u +:+ t -> s = t.
Proof. intros H. rewrite <- (str_drop_app u s), H. apply str_drop_app. Qed.

Lemma sapp_eq_nil s t : s +:+ t = "" -> s = "" /\ t = "".
Proof. by destruct s; [|rewrite sapp_cons]. Qed.

#[export] Hint Rewrite sapp_nil_l sapp_nil_r sapp_assoc strlen_app str_take_app
  str_drop_app str_drop_0 str_take_0 str_take_drop : homedrive.

(** ** Prefixes and suffixes *)

Lemma HasPrefix_spec s p : HasPrefix s p = true <-> exists r, s = p +:+ r.
Proof.
  unfold HasPrefix. revert s. induction p as [|a p IH]; intros s.
  - split; [by exists s|]. by destruct s.
  - destruct s as [|b s]; cbn.
    + split; [done|]. intros [r H]. by rewrite sapp_cons in H.
    + destruct (ascii_dec a b) as [->|Hne].
      * rewrite IH. split; intros [r H]; exists r; rewrite sapp_cons in *; congruence.
      * split; [done|]. intros [r H]. rewrite sapp_cons in H. congruence.
Qed.

Lemma HasPrefix_app p r : HasPrefix (p +:+ r) p = true.
Proof. apply HasPrefix_spec. eauto. Qed.

Lemma HasPrefix_refl p : HasPrefix p p = true.
Proof. rewrite <- (sapp_nil_r p) at 1. apply HasPrefix_app. Qed.

Lemma HasPrefix_nil s : HasPrefix s "" = true.
Proof. by destruct s. Qed.

Lemma TrimPrefix_app p r : TrimPrefix (p +:+ r) p = r.
Proof. unfold TrimPrefix. by rewrite HasPrefix_app, str_drop_app. Qed.

Lemma HasPrefix_trans s p q :
  HasPrefix s p = true -> HasPrefix p q = true -> HasPrefix s q = true.
Proof.
  rewrite !HasPrefix_spec. intros [r ->] [r' ->]. exists (r' +:+ r).
  by rewrite sapp_assoc.
Qed.

Lemma HasPrefix_length s p : HasPrefix s p = true -> (strlen p <= strlen s)%nat.
Proof. rewrite HasPrefix_spec. intros [r ->]. rewrite strlen_app. lia. Qed.

(** Two prefixes of one string are comparable. *)
Lemma HasPrefix_comparable s p q :
  HasPrefix s p = true -> HasPrefix s q = true ->
  HasPrefix p q = true \/ HasPrefix q p = true.
Proof.
  rewrite !HasPrefix_spec. intros [r Hp] [t Hq]. subst s. revert q Hq.
  induction p as [|a p IH]; intros q Hq; [right; eauto|].
  destruct q as [|b q]; [left; eauto|].
  rewrite !sapp_cons in Hq. simplify_eq.
  destruct (IH q) as [[u ->]|[u ->]]; [done| |]; [left|right]; exists u; done.
Qed.

Lemma HasSuffix_spec s p : HasSuffix s p = true <-> exists b, s = b +:+ p.
Proof.
  unfold HasSuffix. split.
  - intros [H1 H2]%andb_true_iff. apply String.eqb_eq in H2.
    exists (str_take (strlen s - strlen p) s).
    rewrite <- H2 at 2. by rewrite str_take_drop.
  - intros [b ->]. rewrite strlen_app. apply andb_true_iff. split; [apply Nat.leb_le; lia|].
    replace (strlen b + strlen p - strlen p)%nat with (strlen b) by lia.
    rewrite str_drop_app. apply String.eqb_refl.
Qed.

Lemma HasSuffix_app b p : HasSuffix (b +:+ p) p = true.
Proof. apply HasSuffix_spec. eauto. Qed.

Lemma TrimSuffix_app b p : TrimSuffix (b +:+ p) p = b.
Proof.
  unfold TrimSuffix. rewrite HasSuffix_app, strlen_app.
  replace (strlen b + strlen p - strlen p)%nat with (strlen b) by lia.
  apply str_take_app.
Qed.

(** ** The last occurrence *)

Lemma LastIndex_Some s sub i :
  LastIndex s sub = Some i ->
  exists b r, s = b +:+ sub +:+ r /\ strlen b = i.
Proof.
  revert i. induction s as [|a s IH]; intros i; cbn [LastIndex].
  - destruct (HasPrefix "" sub) eqn:E; [|done]. intros ?; simplify_eq.
    apply HasPrefix_spec in E as [r E]. exists "", r. by rewrite sapp_nil_l.
  - destruct (LastIndex s sub) as [j|] eqn:El.
    + intros ?; simplify_eq. destruct (IH j) as (b & r & -> & <-); [done|].
      exists (String a b), r. by rewrite sapp_cons.
    + destruct (HasPrefix (String a s) sub) eqn:E; [|done]. intros ?; simplify_eq.
      apply HasPrefix_spec in E as [r E]. exists "", r. by rewrite sapp_nil_l.
Qed.

Lemma LastIndex_None s sub j :
  LastIndex s sub = None -> HasPrefix (str_drop j s) sub = false.
Proof.
  revert j. induction s as [|a s IH]; intros j; cbn [LastIndex].
  - destruct (HasPrefix "" sub) eqn:E; [done|]. by destruct j.
  - destruct (LastIndex s sub) eqn:El; [done|].
    destruct (HasPrefix (String a s) sub) eqn:E; [done|]. intros _.
    destruct j as [|j]; [done|]. by apply IH.
Qed.

(** [LastIndex] is the position of an occurrence after which there is none. *)
Lemma LastIndex_last b sub r :
  (forall j, HasPrefix (str_drop (S j) (sub +:+ r)) sub = false) ->
  LastIndex (b +:+ sub +:+ r) sub = Some (strlen b).
Proof.
  intros Hno. induction b as [|a b IH].
  - rewrite sapp_nil_l. destruct (sub +:+ r) as [|a t] eqn:Es.
    + apply sapp_eq_nil in Es as [-> ->]. done.
    + cbn [LastIndex]. rewrite <- Es.
      destruct (LastIndex t sub) as [i|] eqn:El.
      * exfalso. apply LastIndex_Some in El as (b' & r' & -> & <-).
        specialize (Hno (strlen b')). cbn [str_drop] in Hno.
        rewrite str_drop_app, HasPrefix_app in Hno. done.
      * by rewrite HasPrefix_app.
  - rewrite sapp_cons. cbn [LastIndex]. by rewrite IH.
Qed.

(** ** Decimal numerals *)

Lemma is_digit_val c : is_digit c = true -> 0 <= digit_val c <= 9.
Proof. unfold is_digit, digit_val. bool_to_prop. lia. Qed.

Lemma digit_char_nat d : 0 <= d <= 9 -> nat_of_ascii (digit_char d) = Z.to_nat (d + 48).
Proof. intros Hd. apply nat_ascii_embedding. lia. Qed.

Lemma digit_val_char d : 0 <= d <= 9 -> digit_val (digit_char d) = d.
Proof. intros Hd. unfold digit_val. rewrite digit_char_nat by done. lia. Qed.

Lemma is_digit_char d : 0 <= d <= 9 -> is_digit (digit_char d) = true.
Proof. intros Hd. unfold is_digit. rewrite digit_char_nat by done. bool_to_prop. lia. Qed.

Lemma digit_char_val c : is_digit c = true -> digit_char (digit_val c) = c.
Proof.
  unfold is_digit, digit_char, digit_val. bool_to_prop. intros Hc.
  rewrite <- (ascii_nat_embedding c) at 2. f_equal. lia.
Qed.

Lemma str_forallb_app f s t : str_forallb f (s +:+ t) = str_forallb f s && str_forallb f t.
Proof.
  induction s as [|a s IH]; [done|]. rewrite sapp_cons. cbn. by rewrite IH, andb_assoc.
Qed.

Lemma dec_value_go_app acc s t :
  dec_value_go acc (s +:+ t) = dec_value_go (dec_value_go acc s) t.
Proof. revert acc. induction s as [|a s IH]; intros acc; [done|]. apply IH. Qed.

Lemma dec_value_snoc s c : dec_value (s +:+ String c "") = 10 * dec_value s + digit_val c.
Proof. unfold dec_value. by rewrite dec_value_go_app. Qed.

Lemma str_snoc_ind (P : string -> Prop) :
  P "" -> (forall s c, P s -> P (s +:+ String c "")) -> forall s, P s.
Proof.
  intros H0 Hs s. assert (forall n s, strlen s = n -> P s) as Haux; [|by eapply Haux].
  clear s. induction n as [|n IH]; intros s Hl.
  { by rewrite (strlen_nil s Hl). }
  rewrite <- (str_take_drop n s).
  pose proof (strlen_drop n s) as Hd. rewrite Hl in Hd.
  destruct (str_drop n s) as [|c [|]]; [cbn in Hd; lia| |cbn in Hd; lia].
  apply Hs, IH, strlen_take. lia.
Qed.

Lemma dec_value_nonneg s : str_forallb is_digit s = true -> 0 <= dec_value s.
Proof.
  induction s as [|s c IH] using str_snoc_ind; [done|].
  rewrite str_forallb_app, dec_value_snoc. cbn [str_forallb].
  rewrite !andb_true_iff. intros (Hs & Hc & _).
  apply is_digit_val in Hc. specialize (IH Hs). lia.
Qed.

Lemma itoa_go_acc f n acc : itoa_go f n acc = itoa_go f n "" +:+ acc.
Proof.
  revert n acc. induction f as [|f IH]; intros n acc; [done|]. cbn [itoa_go].
  destruct (n / 10 =? 0); [done|].
  rewrite (IH _ (String _ acc)), (IH _ (String _ "")), sapp_assoc. done.
Qed.

(** The numeral of [n] is that of [n / 10] followed by the last digit. *)
Lemma itoa_go_snoc f n :
  10 <= n ->
  itoa_go (S f) n "" = itoa_go f (n / 10) "" +:+ String (digit_char (n `mod` 10)) "".
Proof.
  intros Hn. cbn [itoa_go].
  destruct (Z.eqb_spec (n / 10) 0) as [H0|_].
  { apply Z.div_small_iff in H0; lia. }
  apply itoa_go_acc.
Qed.

Lemma itoa_go_small f n : 0 <= n < 10 -> itoa_go (S f) n "" = String (digit_char n) "".
Proof.
  intros Hn. cbn [itoa_go]. rewrite Z.div_small, Z.mod_small by lia. done.
Qed.

Lemma div10_bound n f : n < 10 ^ Z.of_nat (S f) -> n / 10 < 10 ^ Z.of_nat f.
Proof.
  rewrite Nat2Z.inj_succ, Z.pow_succ_r by lia. intros H.
  apply Z.div_lt_upper_bound; lia.
Qed.

Lemma itoa_go_spec f n :
  0 <= n < 10 ^ Z.of_nat f -> f <> 0%nat ->
  dec_value (itoa_go f n "") = n /\ str_forallb is_digit (itoa_go f n "") = true.
Proof.
  revert n. induction f as [|f IH]; [done|]. intros n Hn _.
  destruct (Z_lt_ge_dec n 10) as [Hlt|Hge].
  - rewrite itoa_go_small by lia. unfold dec_value. cbn.
    rewrite digit_val_char, is_digit_char by lia. split; [lia|done].
  - rewrite itoa_go_snoc by lia.
    pose proof (div10_bound n f ltac:(lia)) as Hb.
    assert (1 <= n / 10) by (apply Z.div_le_lower_bound; lia).
    assert (f <> 0%nat) as Hf by (intros ->; cbn in Hb; lia).
    destruct (IH (n / 10) ltac:(lia) Hf) as [Hv Hd].
    pose proof (Z.mod_pos_bound n 10 ltac:(lia)).
    rewrite dec_value_snoc, str_forallb_app, Hv, Hd. cbn.
    rewrite digit_val_char, is_digit_char by lia. split; [|done].
    pose proof (Z.div_mod n 10 ltac:(lia)). lia.
Qed.

(** Enough fuel: any two sufficient amounts give the same numeral. *)
Lemma itoa_go_fuel f g n :
  0 <= n < 10 ^ Z.of_nat f -> n < 10 ^ Z.of_nat g -> f <> 0%nat -> g <> 0%nat ->
  itoa_go f n "" = itoa_go g n "".
Proof.
  revert g n. induction f as [|f IH]; [done|]. intros [|g] n Hf Hg _ Hg0; [done|].
  destruct (Z_lt_ge_dec n 10) as [Hlt|Hge]; [by rewrite !itoa_go_small by lia|].
  rewrite !itoa_go_snoc by lia. f_equal.
  pose proof (div10_bound n f ltac:(lia)). pose proof (div10_bound n g ltac:(lia)).
  assert (1 <= n / 10) by (apply Z.div_le_lower_bound; lia).
  apply IH; [lia|lia| |].
  - intros ->. cbn in *. lia.
  - intros ->. cbn in *. lia.
Qed.

Lemma itoa_fuel_enough n : 0 <= n -> n < 10 ^ Z.of_nat (itoa_fuel n).
Proof.
  intros Hn. unfold itoa_fuel.
  destruct (Z.eq_dec n 0) as [->|Hnz]; [done|].
  pose proof (Z.log2_spec n ltac:(lia)) as [_ H]. pose proof (Z.log2_nonneg n).
  replace (Z.of_nat (S (Z.to_nat (Z.log2 n)))) with (Z.succ (Z.log2 n)) by lia.
  eapply Z.lt_le_trans; [exact H|]. apply Z.pow_le_mono_l. lia.
Qed.

Lemma Itoa_nonneg n : 0 <= n -> Itoa n = itoa_go (itoa_fuel n) n "".
Proof. intros Hn. unfold Itoa. destruct (Z.ltb_spec n 0); [lia|done]. Qed.

Lemma Itoa_spec n :
  0 <= n -> dec_value (Itoa n) = n /\ str_forallb is_digit (Itoa n) = true.
Proof.
  intros Hn. rewrite Itoa_nonneg by done. apply itoa_go_spec; [|done].
  split; [done|by apply itoa_fuel_enough].
Qed.

Lemma Itoa_snoc n :
  10 <= n -> Itoa n = Itoa (n / 10) +:+ String (digit_char (n `mod` 10)) "".
Proof.
  intros Hn. assert (1 <= n / 10) by (apply Z.div_le_lower_bound; lia).
  rewrite !Itoa_nonneg by lia.
  rewrite (itoa_go_fuel _ (S (itoa_fuel (n / 10))) n).
  - by apply itoa_go_snoc.
  - split; [lia|apply itoa_fuel_enough; lia].
  - pose proof (itoa_fuel_enough (n / 10) ltac:(lia)).
    rewrite Nat2Z.inj_succ, Z.pow_succ_r by lia.
    pose proof (Z.div_mod n 10 ltac:(lia)). pose proof (Z.mod_pos_bound n 10 ltac:(lia)). lia.
  - done.
  - done.
Qed.

Lemma Itoa_digit d : 0 <= d < 10 -> Itoa d = String (digit_char d) "".
Proof. intros Hd. rewrite Itoa_nonneg by lia. by apply itoa_go_small. Qed.

Lemma Itoa_nonempty n : 0 <= n -> Itoa n <> "".
Proof.
  intros Hn. destruct (Z_lt_ge_dec n 10); [by rewrite Itoa_digit by lia|].
  rewrite Itoa_snoc by lia. intros [_ ?]%sapp_eq_nil. done.
Qed.

Lemma Itoa_inj n m : 0 <= n -> 0 <= m -> Itoa n = Itoa m -> n = m.
Proof.
  intros Hn Hm H. destruct (Itoa_spec n Hn) as [<- _], (Itoa_spec m Hm) as [<- _].
  by f_equal.
Qed.

Definition no_leading_zero (s : string) : bool :=
  match s with String c (String _ _) => negb (Ascii.eqb c "0") | _ => true end.

Lemma dec_value_pos c s :
  str_forallb is_digit (String c s) = true -> c <> "0"%char -> 1 <= dec_value (String c s).
Proof.
  revert c. induction s as [|s d IH] using str_snoc_ind; intros c Hd Hc.
  - cbn in Hd. rewrite andb_true_r in Hd.
    assert (digit_val c <> 0).
    { intros H0. apply Hc. rewrite <- (digit_char_val c Hd), H0. done. }
    pose proof (is_digit_val c Hd). unfold dec_value. cbn. lia.
  - rewrite <- sapp_cons in *. rewrite str_forallb_app in Hd.
    apply andb_true_iff in Hd as [H1 H2]. cbn in H2. rewrite andb_true_r in H2.
    rewrite dec_value_snoc. specialize (IH c H1 Hc). apply is_digit_val in H2. lia.
Qed.

(** A numeral without a superfluous leading zero is the numeral of its value. *)
Lemma Itoa_dec_value s :
  s <> "" -> str_forallb is_digit s = true -> no_leading_zero s = true ->
  Itoa (dec_value s) = s.
Proof.
  induction s as [|s c IH] using str_snoc_ind; [done|]. intros _ Hd Hz.
  rewrite str_forallb_app in Hd. apply andb_true_iff in Hd as [Hs Hc].
  cbn in Hc. rewrite andb_true_r in Hc. rewrite dec_value_snoc.
  pose proof (is_digit_val c Hc) as Hcv.
  destruct s as [|a s].
  - rewrite sapp_nil_l. change (dec_value "") with 0. rewrite Z.mul_0_r, Z.add_0_l.
    rewrite Itoa_digit by lia. by rewrite digit_char_val.
  - assert (a <> "0"%char) as Ha.
    { rewrite sapp_cons in Hz. cbn in Hz. destruct (s +:+ String c "") eqn:E.
      - by apply sapp_eq_nil in E as [_ ?].
      - intros ->. done. }
    pose proof (dec_value_pos a s Hs Ha) as Hpos.
    rewrite Itoa_snoc by lia.
    replace ((10 * dec_value (String a s) + digit_val c) / 10)
      with (dec_value (String a s)) by (Z.to_euclidean_division_equations; lia).
    replace ((10 * dec_value (String a s) + digit_val c) `mod` 10)
      with (digit_val c) by (Z.to_euclidean_division_equations; lia).
    rewrite digit_char_val by done. f_equal. apply IH; [done..|].
    destruct s; [done|]. cbn. destruct (Ascii.eqb_spec a "0"); done.
Qed.

Lemma Itoa_head n : 1 <= n -> exists c s, Itoa n = String c s /\ c <> "0"%char.
Proof.
  induction n as [n IH] using (well_founded_induction (Z.lt_wf 0)). intros Hn.
  destruct (Z_lt_ge_dec n 10) as [Hlt|Hge].
  - rewrite Itoa_digit by lia. eexists _, _. split; [done|].
    intros H. apply (f_equal digit_val) in H. rewrite digit_val_char in H by lia.
    change (digit_val "0") with 0 in H. lia.
  - assert (n / 10 < n) by (apply Z.div_lt; lia).
    assert (1 <= n / 10) by (apply Z.div_le_lower_bound; lia).
    destruct (IH (n / 10)) as (c & s & E & Hc); [lia|lia|].
    rewrite Itoa_snoc, E by lia. rewrite sapp_cons. eauto.
Qed.

Lemma Itoa_no_leading_zero n : 0 <= n -> no_leading_zero (Itoa n) = true.
Proof.
  intros Hn. destruct (Z.eq_dec n 0) as [->|]; [done|].
  destruct (Itoa_head n) as (c & s & -> & Hc); [lia|].
  destruct s; [done|]. cbn. destruct (Ascii.eqb_spec c "0"); done.
Qed.

(** ** UTF-8 *)

Lemma to_valid_utf8_go_id f s :
  (strlen s <= f)%nat -> valid_utf8_go f s = true -> to_valid_utf8_go f s = s.
Proof.
  revert s. induction f as [|f IH]; intros s Hl Hv.
  - by rewrite (strlen_nil s ltac:(lia)).
  - destruct s as [|a r]; [done|]. cbn [to_valid_utf8_go valid_utf8_go] in *.
    destruct (rune_len (String a r)) as [|k]; [done|].
    rewrite IH; [apply str_take_drop| |done].
    rewrite strlen_drop. cbn in *. lia.
Qed.

(** A valid string survives the JSON encoding unchanged. *)
Lemma to_valid_utf8_id s : valid_utf8 s = true -> to_valid_utf8 s = s.
Proof. by apply to_valid_utf8_go_id. Qed.

(** ASCII text is valid. *)
Definition is_ascii (c : ascii) : bool := (byte_val c <? 128)%nat.

Lemma valid_utf8_ascii s : str_forallb is_ascii s = true -> valid_utf8 s = true.
Proof.
  unfold valid_utf8. induction s as [|a s IH]; [done|]. cbn [str_forallb].
  intros [Ha Hs]%andb_true_iff. unfold is_ascii in Ha.
  cbn [strlen String.length valid_utf8_go rune_len]. rewrite Ha. by apply IH.
Qed.

Lemma str_forallb_impl (f g : ascii -> bool) s :
  (forall c, f c = true -> g c = true) -> str_forallb f s = true -> str_forallb g s = true.
Proof.
  intros Hfg. induction s as [|a s IH]; [done|]. cbn. rewrite !andb_true_iff. naive_solver.
Qed.

Lemma Itoa_ascii n : str_forallb is_ascii (Itoa n) = true.
Proof.
  assert (forall m, 0 <= m -> str_forallb is_ascii (Itoa m) = true) as Hn.
  { intros m Hm. eapply str_forallb_impl, (Itoa_spec m Hm).
    intros c. unfold is_digit, is_ascii, byte_val. rewrite andb_true_iff, !Nat.leb_le, Nat.ltb_lt. lia. }
  destruct (Z_lt_ge_dec n 0) as [Hlt|]; [|apply Hn; lia].
  specialize (Hn (- n) ltac:(lia)). rewrite Itoa_nonneg in Hn by lia. unfold Itoa.
  destruct (Z.ltb_spec n 0); [|lia]. exact Hn.
Qed.

Lemma valid_utf8_nil : valid_utf8 "" = true.
Proof. done. Qed.

#[export] Hint Resolve valid_utf8_nil : homedrive.
