(* ===== verification/GoRuntime.v ===== *)
(** What the agent's packages share of the Go runtime and standard library:
    error values and [errors.Is], [(T, error)] results, [time.Time] and
    [time.Duration], and the explicit state passing in which stateful code is
    written. *)
From S2P Require Import Prelude.
From S2P Require Import GoStrings.

(** ** Errors *)

(** The sentinel errors of the agent's packages ([rcloneclient/errors.go],
    [store], [syncer], [oldsuffix]) and those of [context] and [io/fs] it
    tests for. *)
Inductive sentinel :=
| ErrNotFound | ErrIsDir | ErrDanglingShortcut | ErrQuotaExhausted
| ErrPermissionDenied | ErrNetworkUnavailable | ErrOAuthExpired
| ErrAlreadyExists | ErrGone | ErrTokenRejected | ErrOAuthClientMissing
| ErrOAuthClientMisconfigured | ErrOAuthTokenInvalid
| ErrStoreNotFound | ErrDBClosed | ErrStoreConflict | ErrRenameFailed
| ErrUnknownPolicy
| ErrRetriesExhausted | ErrBisyncCanceled | ErrBisyncRunning
| ErrBadFormat
| ErrCanceled | ErrDeadlineExceeded
| ErrNotExist.

#[export] Instance sentinel_eq_dec : EqDecision sentinel.
Proof. solve_decision. Defined.

(** An error value: a sentinel, an opaque error of a dependency,
    [fmt.Errorf("msg: %w", e)] and [fmt.Errorf("%w: %w", e1, e2)]. *)
Inductive error :=
| ESent (s : sentinel)
| EText (msg : string)
| EWrap (msg : string) (e : error)
| EJoin (e1 e2 : error).

(** [errors.Is] against a sentinel. *)
Fixpoint errors_Is (e : error) (s : sentinel) : bool :=
  match e with
  | ESent s' => bool_decide (s' = s)
  | EText _ => false
  | EWrap _ e => errors_Is e s
  | EJoin e1 e2 => errors_Is e1 s || errors_Is e2 s
  end.

(** [os.IsNotExist], which does not look inside wrapped errors. *)
Definition os_IsNotExist (e : error) : bool :=
  match e with ESent ErrNotExist => true | _ => false end.

Definition sentinel_text (s : sentinel) : string :=
  match s with
  | ErrNotFound => "remote object not found"
  | ErrIsDir => "remote path is a directory"
  | ErrDanglingShortcut => "remote object is a dangling Drive shortcut"
  | ErrQuotaExhausted => "remote quota exhausted"
  | ErrPermissionDenied => "permission denied"
  | ErrNetworkUnavailable => "network unavailable"
  | ErrOAuthExpired => "oauth token expired"
  | ErrAlreadyExists => "remote object already exists"
  | ErrGone => "rcloneclient: page token expired (410 GONE)"
  | ErrTokenRejected => "rcloneclient: page token rejected (non-410)"
  | ErrOAuthClientMissing =>
      "rcloneclient: oauth client_id/client_secret not configured for remote"
  | ErrOAuthClientMisconfigured =>
      "rcloneclient: oauth client_id/client_secret rejected by token endpoint at startup"
  | ErrOAuthTokenInvalid =>
      "rcloneclient: oauth refresh token rejected by token endpoint at startup"
  | ErrStoreNotFound => "store: entry not found"
  | ErrDBClosed => "store: database is closed"
  | ErrStoreConflict => "store: conflict detected"
  | ErrRenameFailed => "store: loser rename failed"
  | ErrUnknownPolicy => "store: unknown conflict policy"
  | ErrRetriesExhausted => "all retry attempts exhausted"
  | ErrBisyncCanceled => "bisync canceled"
  | ErrBisyncRunning => "bisync already running"
  | ErrBadFormat => "oldsuffix: invalid suffix format"
  | ErrCanceled => "context canceled"
  | ErrDeadlineExceeded => "context deadline exceeded"
  | ErrNotExist => "file does not exist"
  end.

(** [err.Error()]. *)
Fixpoint Error (e : error) : string :=
  match e with
  | ESent s => sentinel_text s
  | EText m => m
  | EWrap m e => m +:+ ": " +:+ Error e
  | EJoin e1 e2 => Error e1 +:+ ": " +:+ Error e2
  end.

(** ** Results *)

Inductive result (A : Type) :=
| Ok (a : A)
| Err (e : error).
Arguments Ok {_} _.
Arguments Err {_} _.

Definition is_ok {A} (r : result A) : bool := match r with Ok _ => true | Err _ => false end.

Definition map_err {A} (f : error -> error) (r : result A) : result A :=
  match r with Ok a => Ok a | Err e => Err (f e) end.

(** [if err != nil { return fmt.Errorf("msg: %w", err) }]. *)
Definition wrap {A} (msg : string) (r : result A) : result A := map_err (EWrap msg) r.

Definition result_bind {A B} (r : result A) (k : A -> result B) : result B :=
  match r with Ok a => k a | Err e => Err e end.

(** A dereference of [nil] ends the goroutine. *)
Definition panic_nil : error := EText "panic: nil pointer dereference".

(** ** Time

    A [time.Time] is its distance in nanoseconds from Go's zero time
    (January 1, year 1, UTC), so [0] is the zero value; a [time.Duration] is
    an [int64] number of nanoseconds. *)

Definition Time := Z.
Definition Duration := Z.

Definition Nanosecond : Duration := 1.
Definition Millisecond : Duration := 1000000.
Definition Second : Duration := 1000000000.
Definition Minute : Duration := 60 * Second.
Definition Hour : Duration := 60 * Minute.

Definition IsZero (t : Time) : bool := t =? 0.
Definition After (t u : Time) : bool := u <? t.
Definition Before (t u : Time) : bool := t <? u.
Definition Equal (t u : Time) : bool := t =? u.

(** [t.Sub(u)] saturates at the ends of [time.Duration]. *)
Definition Sub (t u : Time) : Duration := clamp64 (t - u).

(** [diff := t.Sub(u); if diff < 0 { diff = -diff }], with the [int64]
    negation of Go. *)
Definition abs_sub (t u : Time) : Duration :=
  let d := Sub t u in if d <? 0 then wrap64 (- d) else d.

(** [d.Milliseconds()]. *)
Definition Milliseconds (d : Duration) : Z := Z.quot d Millisecond.

(** Nanoseconds from the zero time to the Unix epoch. *)
Definition unix_epoch : Z := 62135596800 * Second.

(** [t.UnixNano()], an [int64]. *)
Definition UnixNano (t : Time) : Z := wrap64 (t - unix_epoch).

(** First instant of year 10000, where [encoding/json] refuses a time. *)
Definition year_10000 : Z := 315537897600 * Second.

(** ** Explicit state passing *)

Definition ST (W A : Type) : Type := W -> A * W.

Definition st_ret {W A} (a : A) : ST W A := fun w => (a, w).

Definition st_bind {W A B} (m : ST W A) (k : A -> ST W B) : ST W B :=
  fun w => let '(a, w') := m w in k a w'.

(** Early return: [if err != nil { return err }] with the error passed through
    [f]. *)
Definition st_try {W A B} (f : error -> error) (m : ST W (result A))
    (k : A -> ST W (result B)) : ST W (result B) :=
  fun w => let '(r, w') := m w in
    match r with Ok a => k a w' | Err e => (Err (f e), w') end.

Declare Scope go_scope.
Delimit Scope go_scope with go.
#[global] Open Scope go_scope.

Notation "'let*' x ':=' m 'in' k" := (st_bind m (fun x => k))
  (at level 10, x name, m at level 99, k at level 200) : go_scope.

Notation "'let*' ' pat ':=' m 'in' k" := (st_bind m (fun x => match x with pat => k end))
  (at level 10, pat pattern, m at level 99, k at level 200) : go_scope.

Notation "m ';;' k" := (st_bind m (fun _ => k))
  (at level 100, k at level 200, right associativity) : go_scope.

(** [let? x := m in k]: return the error of [m] as it is. *)
Notation "'let?' x ':=' m 'in' k" := (st_try (fun e => e) m (fun x => k))
  (at level 10, x name, m at level 99, k at level 200) : go_scope.

(** [let? x := m ?: msg in k]: return the error of [m] wrapped in [msg]. *)
Notation "'let?' x ':=' m '?:' msg 'in' k" := (st_try (EWrap msg) m (fun x => k))
  (at level 10, x name, m at level 99, msg at level 99, k at level 200) : go_scope.

(** ** Lemmas *)

Lemma abs_sub_exact t u : Z.abs (t - u) <= max_int64 -> abs_sub t u = Z.abs (t - u).
Proof.
  intros H. unfold abs_sub, Sub. unfold max_int64 in *.
  rewrite clamp64_id by (unfold in_int64, min_int64, max_int64; lia).
  destruct (Z.ltb_spec (t - u) 0); [|lia].
  rewrite wrap64_id by (unfold in_int64, min_int64, max_int64; lia). lia.
Qed.

(** Where the difference saturates downwards the negation overflows, and the
    "absolute value" is the least [int64]. *)
Lemma abs_sub_overflow t u : t - u <= min_int64 -> abs_sub t u = min_int64.
Proof.
  intros H. unfold abs_sub, Sub, clamp64. unfold min_int64, max_int64 in *.
  rewrite Z.max_l by lia. reflexivity.
Qed.

Lemma abs_sub_saturate t u : max_int64 <= t - u -> abs_sub t u = max_int64.
Proof.
  intros H. unfold abs_sub, Sub, clamp64. unfold min_int64, max_int64 in *.
  rewrite (Z.min_l (2 ^ 63 - 1)) by lia. reflexivity.
Qed.

Lemma st_bind_ret {W A B} (a : A) (k : A -> ST W B) w : st_bind (st_ret a) k w = k a w.
Proof. done. Qed.

Lemma st_bind_assoc {W A B C} (m : ST W A) (k : A -> ST W B) (h : B -> ST W C) w :
  st_bind (st_bind m k) h w = st_bind m (fun a => st_bind (k a) h) w.
Proof. unfold st_bind. by destruct (m w). Qed.

(** An action that succeeded through [let?]. *)
Lemma is_ok_Ok {A} (r : result A) : is_ok r = true -> exists a, r = Ok a.
Proof. destruct r; [eauto|done]. Qed.

Lemma st_try_Ok {W A B} f (m : ST W (result A)) (k : A -> ST W (result B)) w b w' :
  st_try f m k w = (Ok b, w') -> exists a w1, m w = (Ok a, w1) /\ k a w1 = (Ok b, w').
Proof. unfold st_try. destruct (m w) as [[a|e] w1]; [eauto|done]. Qed.

Lemma st_bind_inv {W A B} (m : ST W A) (k : A -> ST W B) w b w' :
  st_bind m k w = (b, w') -> exists a w1, m w = (a, w1) /\ k a w1 = (b, w').
Proof. unfold st_bind. destruct (m w) as [a w1]. eauto. Qed.

(** *** Actions that keep a relation between the states before and after *)

Definition preserves {W A} (rel : W -> W -> Prop) (m : ST W A) : Prop := forall w, rel w (snd (m w)).

Section preserves.
Context {W : Type} (rel : W -> W -> Prop) `{!PreOrder rel}.

Lemma preserves_ret {A} (a : A) : preserves rel (st_ret a).
Proof. by intros w. Qed.

Lemma preserves_bind {A B} (m : ST W A) (k : A -> ST W B) :
  preserves rel m -> (forall a, preserves rel (k a)) -> preserves rel (st_bind m k).
Proof.
  intros Hm Hk w. unfold st_bind. specialize (Hm w). destruct (m w) as [a w'].
  etrans; [exact Hm|apply Hk].
Qed.

Lemma preserves_try {A B} f (m : ST W (result A)) (k : A -> ST W (result B)) :
  preserves rel m -> (forall a, preserves rel (k a)) -> preserves rel (st_try f m k).
Proof.
  intros Hm Hk w. unfold st_try. specialize (Hm w). destruct (m w) as [[a|e] w']; [|exact Hm].
  etrans; [exact Hm|apply Hk].
Qed.

End preserves.

(** Splits a [do]-block into its calls. *)
Ltac preserves_step :=
  match goal with
  | |- preserves _ (st_ret _) => apply preserves_ret; typeclasses eauto
  | |- preserves _ (st_bind _ _) => apply preserves_bind; [typeclasses eauto| |intros ?]
  | |- preserves _ (st_try _ _ _) => apply preserves_try; [typeclasses eauto| |intros ?]
  | |- preserves _ (match ?x with _ => _ end) => destruct x
  end.

Ltac solve_preserves := repeat preserves_step; eauto with homedrive.
