(* ===== verification/GoFloat.v ===== *)
(** Go's [float64], kept as the standard library's specification of
    binary64. *)
From Stdlib Require Import Floats.SpecFloat.
From S2P Require Import Prelude.

Definition float64 : Type := spec_float.

Definition f64_prec : Z := 53.

Definition f64_emax : Z := 1024.

(** [float64(z)], rounded to nearest even. *)
Definition float64_of_Z (z : Z) : float64 := binary_normalize f64_prec f64_emax z 0 false.

Definition f64_div (x y : float64) : float64 := SFdiv f64_prec f64_emax x y.

Definition f64_mul (x y : float64) : float64 := SFmul f64_prec f64_emax x y.

(** [x >= y]; false when either is NaN. *)
Definition f64_geb (x y : float64) : bool := SFleb y x.

(** [uint64(x)] of a number that is neither negative nor above the range. *)
Definition uint64_of_float64 (x : float64) : Z :=
  match x with
  | S754_finite false m e =>
      if 0 <=? e then Z.shiftl (Zpos m) e else Z.shiftr (Zpos m) (- e)
  | _ => 0
  end.
