(* ===== verification/GoDuration.v ===== *)
(** [time.ParseDuration], through which the configuration's durations and the
    command line's timeout are read: ["2s"], ["500ms"], ["1h30m"], ["1.5h"]. *)
From S2P Require Import Prelude.
From S2P Require Import GoStrings.
From S2P Require Import GoRuntime.
From S2P Require Import GoFloat.

(** ** Definitions *)

Definition two63 : Z := 2 ^ 63.

(** [leadingInt]: the digits [s] starts with, failing above [1<<63]. *)
Fixpoint leadingInt (x : Z) (s : string) : option (Z * string) :=
  match s with
  | "" => Some (x, "")
  | String c r =>
      if is_digit c then
        if two63 / 10 <? x then None
        else
          let x := x * 10 + digit_val c in
          if two63 <? x then None else leadingInt x r
      else Some (x, s)
  end.

(** [leadingFraction]: digits beyond the precision are skipped. *)
Fixpoint leadingFraction (overflow : bool) (x : Z) (scale : float64) (s : string) :
    Z * float64 * string :=
  match s with
  | "" => (x, scale, "")
  | String c r =>
      if is_digit c then
        if overflow then leadingFraction true x scale r
        else if (two63 - 1) / 10 <? x then leadingFraction true x scale r
        else
          let y := x * 10 + digit_val c in
          if two63 <? y then leadingFraction true x scale r
          else leadingFraction false y (f64_mul scale (float64_of_Z 10)) r
      else (x, scale, s)
  end.

Definition numeric (c : ascii) : bool := Ascii.eqb c "." || is_digit c.

(** The bytes up to the next digit or dot, and the rest. *)
Fixpoint unit_span (s : string) : string * string :=
  match s with
  | "" => ("", "")
  | String c r =>
      if numeric c then ("", s) else let '(u, rest) := unit_span r in (String c u, rest)
  end.

(** The two spellings of the micro sign, U+00B5 and U+03BC, in UTF-8. *)
Definition micro_sign : string := String (ascii_of_nat 194) (String (ascii_of_nat 181) "").

Definition greek_mu : string := String (ascii_of_nat 206) (String (ascii_of_nat 188) "").

Definition unitMap (u : string) : option Z :=
  if String.eqb u "ns" then Some 1
  else if String.eqb u "us" || String.eqb u (micro_sign +:+ "s") || String.eqb u (greek_mu +:+ "s")
  then Some 1000
  else if String.eqb u "ms" then Some Millisecond
  else if String.eqb u "s" then Some Second
  else if String.eqb u "m" then Some Minute
  else if String.eqb u "h" then Some Hour
  else None.

(** One number with its unit: its nanoseconds and the rest; [inl] is the
    message of the failure. *)
Definition parse_term (s : string) : string + Z * string :=
  match s with
  | "" => inl "time: invalid duration "
  | String c0 _ =>
      if negb (numeric c0) then inl "time: invalid duration "
      else
        match leadingInt 0 s with
        | None => inl "time: invalid duration "
        | Some (v, s1) =>
            let pre := negb (strlen s =? strlen s1)%nat in
            let '(f, scale, s2, post) :=
              match s1 with
              | String "." r =>
                  let '(f, scale, s2) := leadingFraction false 0 (float64_of_Z 1) r in
                  (f, scale, s2, negb (strlen r =? strlen s2)%nat)
              | _ => (0, float64_of_Z 1, s1, false)
              end in
            if negb pre && negb post then inl "time: invalid duration "
            else
              let '(u, s3) := unit_span s2 in
              if String.eqb u "" then inl "time: missing unit in duration "
              else
                match unitMap u with
                | None => inl ("time: unknown unit " +:+ u +:+ " in duration ")
                | Some unit =>
                    if two63 / unit <? v then inl "time: invalid duration "
                    else
                      let v := v * unit in
                      if 0 <? f then
                        let v := v + uint64_of_float64
                          (f64_mul (float64_of_Z f) (f64_div (float64_of_Z unit) scale)) in
                        if two63 <? v then inl "time: invalid duration " else inr (v, s3)
                      else inr (v, s3)
                end
        end
  end.

(** The loop; a round consumes at least one byte, so [fuel] is the length.
    The sum is a [uint64] and wraps. *)
Fixpoint parse_terms (fuel : nat) (s : string) (d : Z) : string + Z :=
  match fuel, s with
  | _, "" => inr d
  | O, _ => inl "time: invalid duration "
  | S fuel, _ =>
      match parse_term s with
      | inl msg => inl msg
      | inr (v, s) =>
          let d := (d + v) `mod` 2 ^ 64 in
          if two63 <? d then inl "time: invalid duration " else parse_terms fuel s d
      end
  end.

Definition parse_sign (s : string) : bool * string :=
  match s with
  | String "-" r => (true, r)
  | String "+" r => (false, r)
  | _ => (false, s)
  end.

Definition ParseDuration (orig : string) : result Duration :=
  let '(neg, s) := parse_sign orig in
  if String.eqb s "0" then Ok 0
  else if String.eqb s "" then Err (EText ("time: invalid duration " +:+ orig))
  else
    match parse_terms (strlen s) s 0 with
    | inl msg => Err (EText (msg +:+ orig))
    | inr d =>
        if neg then Ok (wrap64 (- wrap64 d))
        else if max_int64 <? d then Err (EText ("time: invalid duration " +:+ orig))
        else Ok d
    end.

(** ** Lemmas *)

Lemma dec_value_go_mono acc s : 0 <= acc -> str_forallb is_digit s = true -> acc <= dec_value_go acc s.
Proof.
  revert acc. induction s as [|c s IH]; intros acc Ha; cbn; [lia|].
  intros [Hc%is_digit_val Hs]%andb_true_iff. specialize (IH (10 * acc + digit_val c) ltac:(lia) Hs). lia.
Qed.

(** [leadingInt] reads a numeral exactly, up to [1<<63]. *)
Lemma leadingInt_app x ds u :
  0 <= x <= two63 -> str_forallb is_digit ds = true ->
  (match u with String c _ => is_digit c = false | "" => True end) ->
  leadingInt x (ds +:+ u) =
    if dec_value_go x ds <=? two63 then Some (dec_value_go x ds, u) else None.
Proof.
  intros Hx Hd Hu. revert x Hx. induction ds as [|c ds IH]; intros x Hx.
  - rewrite sapp_nil_l. cbn [dec_value_go]. rewrite (proj2 (Z.leb_le _ _)) by lia.
    destruct u as [|c u]; [done|]. cbn. by rewrite Hu.
  - cbn [str_forallb] in Hd. apply andb_true_iff in Hd as [Hc Hd]. pose proof (is_digit_val _ Hc) as Hv.
    rewrite sapp_cons. cbn [leadingInt dec_value_go]. rewrite Hc.
    replace (10 * x + digit_val c) with (x * 10 + digit_val c) by lia.
    pose proof (dec_value_go_mono (x * 10 + digit_val c) ds ltac:(lia) Hd) as Hm.
    unfold two63 in *. destruct (Z.ltb_spec (2 ^ 63 / 10) x).
    { destruct (Z.leb_spec (dec_value_go (x * 10 + digit_val c) ds) (2 ^ 63)); [|done]. exfalso.
      change (2 ^ 63 / 10) with 922337203685477580 in *. change (2 ^ 63) with 9223372036854775808 in *. lia. }
    destruct (Z.ltb_spec (2 ^ 63) (x * 10 + digit_val c)).
    { destruct (Z.leb_spec (dec_value_go (x * 10 + digit_val c) ds) (2 ^ 63)); [lia|done]. }
    apply IH; [done|lia].
Qed.

Lemma parse_terms_range fuel s d d' :
  0 <= d <= two63 -> parse_terms fuel s d = inr d' -> 0 <= d' <= two63.
Proof.
  revert s d. induction fuel as [|fuel IH]; intros s d Hd; destruct s as [|c s]; cbn [parse_terms];
    [by intros [= <-]|done|by intros [= <-]|].
  destruct (parse_term _) as [|[v r]]; [done|].
  pose proof (Z.mod_pos_bound (d + v) (2 ^ 64) ltac:(lia)).
  destruct (Z.ltb_spec two63 ((d + v) `mod` 2 ^ 64)); [done|]. apply IH. lia.
Qed.

Lemma unit_span_all u : str_forallb (fun c => negb (numeric c)) u = true -> unit_span u = (u, "").
Proof.
  induction u as [|c u IH]; [done|]. cbn. intros [Hc Hu]%andb_true_iff.
  apply negb_true_iff in Hc. by rewrite Hc, IH.
Qed.

Lemma unitMap_spec u n :
  unitMap u = Some n ->
  1 <= n <= Hour /\ str_forallb (fun c => negb (numeric c)) u = true /\
  exists c r, u = String c r /\ is_digit c = false /\ c <> "."%char.
Proof.
  unfold unitMap. intros Hu.
  repeat match type of Hu with
  | (if ?b then _ else _) = _ => destruct b eqn:?E
  end; [..|done]; injection Hu as <-; rewrite ?orb_true_iff in *;
    repeat match goal with
    | H : _ \/ _ |- _ => destruct H
    | H : String.eqb _ _ = true |- _ => apply String.eqb_eq in H; subst u
    end; (split; [by vm_compute|]; split; [done|]; by do 2 eexists).
Qed.

(** The first byte of a numeral. *)
Lemma Itoa_first k : 0 <= k -> exists a ds, Itoa k = String a ds /\ is_digit a = true.
Proof.
  intros Hk. destruct (Itoa_spec k Hk) as [_ Hd]. pose proof (Itoa_nonempty k Hk).
  destruct (Itoa k) as [|a ds]; [done|]. cbn in Hd. apply andb_true_iff in Hd as [? _]. eauto.
Qed.

(** A numeral followed by a unit is one term. *)
Lemma parse_term_exact k u n :
  0 <= k -> unitMap u = Some n ->
  parse_term (Itoa k +:+ u) =
    if k * n <=? two63 then inr (k * n, "") else inl "time: invalid duration ".
Proof.
  intros Hk Hu. pose proof (unitMap_spec u n Hu) as (Hn & Hnum & c & r & Eu & Hc & Hdot).
  destruct (Itoa_spec k Hk) as [Hv Hd]. destruct (Itoa_first k Hk) as (a & ds & Ek & Ha).
  unfold parse_term. rewrite Ek at 1. rewrite sapp_cons. cbn match beta. unfold numeric at 1.
  rewrite Ha, orb_true_r. cbn [negb].
  rewrite leadingInt_app by (done || (by vm_compute) || by rewrite Eu). fold (dec_value (Itoa k)). rewrite Hv.
  assert ((strlen (Itoa k +:+ u) =? strlen u)%nat = false) as Hl.
  { apply Nat.eqb_neq. rewrite strlen_app, Ek. cbn. lia. }
  destruct (Z.leb_spec k two63); [|rewrite (proj2 (Z.leb_gt _ _)); [done|nia]].
  rewrite Hl. cbn [negb andb].
  assert ((match u with String "." r0 => let '(f, scale, s2) := leadingFraction false 0 (float64_of_Z 1) r0 in
      (f, scale, s2, negb (strlen r0 =? strlen s2)%nat) | _ => (0, float64_of_Z 1, u, false) end)
    = (0, float64_of_Z 1, u, false)) as ->.
  { rewrite Eu. destruct c as [[] [] [] [] [] [] [] []]; done. }
  rewrite unit_span_all, Hu by done. rewrite Eu at 1. cbn [String.eqb].
  destruct (Z.ltb_spec (two63 / n) k) as [Hlt|Hge]; cbn.
  - rewrite (proj2 (Z.leb_gt _ _)); [done|]. unfold two63 in *.
    pose proof (Z.mul_succ_div_gt (2 ^ 63) n ltac:(lia)). nia.
  - rewrite (proj2 (Z.leb_le _ _)); [done|]. pose proof (Z.mul_div_le two63 n ltac:(lia)). nia.
Qed.

Lemma parse_terms_exact k u n fuel :
  0 <= k -> unitMap u = Some n ->
  parse_terms (S fuel) (Itoa k +:+ u) 0 =
    if k * n <=? two63 then inr (k * n) else inl "time: invalid duration ".
Proof.
  intros Hk Hu. pose proof (unitMap_spec u n Hu) as (Hn & _). destruct (Itoa_first k Hk) as (a & ds & Ek & _).
  cbn [parse_terms]. rewrite parse_term_exact with (n := n) by done. rewrite Ek, sapp_cons.
  destruct (Z.leb_spec (k * n) two63); [|done]. unfold two63 in *.
  rewrite Z.add_0_l, Z.mod_small by nia. rewrite (proj2 (Z.ltb_ge _ _)) by lia. by destruct fuel.
Qed.

(** ** Properties *)

(** A parsed duration fits its 64 bits, whatever the text. *)
Theorem ParseDuration_bounds s d : ParseDuration s = Ok d -> in_int64 d.
Proof.
  unfold ParseDuration. destruct (parse_sign s) as [neg r]. destruct (String.eqb r "0"); [by intros [= <-]|].
  destruct (String.eqb r ""); [done|]. destruct (parse_terms _ _ _) as [|v] eqn:E; [done|].
  apply parse_terms_range in E; [|by vm_compute]. destruct neg; [intros [= <-]; apply wrap64_range|].
  destruct (Z.ltb_spec max_int64 v); [done|]. intros [= <-].
  unfold in_int64, min_int64, max_int64, two63 in *. lia.
Qed.

(** A whole number of a unit is read exactly when it fits 64 bits, and refused
    otherwise: no configured duration is silently another one. *)
Theorem ParseDuration_exact k u n :
  0 <= k -> unitMap u = Some n ->
  ParseDuration (Itoa k +:+ u) =
    if k * n <=? max_int64 then Ok (k * n)
    else Err (EText ("time: invalid duration " +:+ Itoa k +:+ u)).
Proof.
  intros Hk Hu. pose proof (unitMap_spec u n Hu) as (Hn & _ & c & r & Eu & _).
  destruct (Itoa_first k Hk) as (a & ds & Ek & Ha).
  assert (parse_sign (Itoa k +:+ u) = (false, Itoa k +:+ u)) as Hsign.
  { rewrite Ek, sapp_cons. unfold parse_sign.
    destruct a as [[] [] [] [] [] [] [] []]; try done; by vm_compute in Ha. }
  unfold ParseDuration. rewrite Hsign.
  assert (String.eqb (Itoa k +:+ u) "0" = false) as ->.
  { apply String.eqb_neq. rewrite Ek, sapp_cons, Eu. intros [= _ E].
    by apply sapp_eq_nil in E as [_ ?]. }
  assert (String.eqb (Itoa k +:+ u) "" = false) as -> by (rewrite Ek; by apply String.eqb_neq).
  destruct (strlen (Itoa k +:+ u)) as [|fuel] eqn:El; [by rewrite Ek in El|].
  rewrite parse_terms_exact with (n := n) by done. unfold two63, max_int64.
  destruct (Z.leb_spec (k * n) (2 ^ 63)), (Z.leb_spec (k * n) (2 ^ 63 - 1)); try lia.
  - by rewrite (proj2 (Z.ltb_ge _ _)) by lia.
  - by rewrite (proj2 (Z.ltb_lt _ _)) by lia.
  - done.
Qed.

(** The durations of the shipped configuration file. *)
Example shipped_durations :
  map ParseDuration ["2s"; "500ms"; "5s"; "5m"; "30s"; "1h"; "0s"; "24h"; "10s"; "1h30m"; "1.5s"; "-1.5h"]
  = map Ok [2 * Second; 500 * Millisecond; 5 * Second; 5 * Minute; 30 * Second; Hour; 0; 24 * Hour;
            10 * Second; 90 * Minute; 1500 * Millisecond; -90 * Minute].
Proof. vm_compute. reflexivity. Qed.
