(* ===== verification/OldSuffix.v ===== *)
(** Model of [internal/oldsuffix/oldsuffix.go]: the [".old.<N>"] suffix that
    names conflict losers -- compiling a format, printing and parsing one
    suffix, stripping a whole chain, and choosing the next free [N]. *)
From S2P Require Import Prelude.
From S2P Require Import GoStrings.
From S2P Require Import GoRuntime.

(** ** Definitions *)

Definition DefaultFormat : string := ".old.%d".

Definition maxDepth : nat := 64.

Definition maxProbe : Z := 65536.

(** One suffix layout, compiled from a format such as [".old.%d"]. *)
Record Matcher := mkMatcher {
  pre : string;    (* literal text before %d *)
  post : string    (* literal text after %d *)
}.

Definition bad_format (format why : string) : error :=
  EJoin (ESent ErrBadFormat) (EText (format +:+ ": " +:+ why)).

Definition New (format0 : string) : result Matcher :=
  let format := if String.eqb format0 "" then DefaultFormat else format0 in
  if negb (CountByte format "%" =? 1)%nat then
    Err (bad_format format "must contain exactly one %-verb")
  else
    let '(before, after, ok) := Cut format "%d" in
    if negb ok then Err (bad_format format "the one %-verb must be %d")
    else if String.eqb before "" then
      Err (bad_format format "must have a non-empty literal before %d")
    else Ok (mkMatcher before after).

Definition Format (m : Matcher) (base : string) (n : Z) : string :=
  base +:+ pre m +:+ Itoa n +:+ post m.

(** [TrimOne] strips exactly one suffix. The digit test of the source walks the
    runes of [digits]; a byte outside ['0'..'9'] is exactly what makes some
    rune fall outside that range. *)
Definition TrimOne (m : Matcher) (path : string) : option (string * Z) :=
  if negb (HasSuffix path (post m)) then None
  else
    let rest := TrimSuffix path (post m) in
    match LastIndex rest (pre m) with
    | None => None
    | Some i =>
        let digits := str_drop (i + strlen (pre m)) rest in
        if String.eqb digits "" then None
        else if negb (str_forallb is_digit digits) then None
        else if negb (no_leading_zero digits) then None
        else match Atoi digits with
             | None => None
             | Some num =>
                 if num <? 1 then None
                 else
                   let base := str_take i rest in
                   if String.eqb base "" then None else Some (base, num)
             end
    end.

Fixpoint Base_loop (m : Matcher) (fuel : nat) (base : string) (depth : nat) : string * nat :=
  match fuel with
  | O => (base, depth)
  | S f =>
      match TrimOne m base with
      | None => (base, depth)
      | Some (next, _) => Base_loop m f next (S depth)
      end
  end.

(** [for depth < maxDepth { ... }]: the fuel is the loop's own bound. *)
Definition Base (m : Matcher) (path : string) : string * nat := Base_loop m maxDepth path 0.

Definition IsOld (m : Matcher) (path : string) : bool :=
  match TrimOne m path with Some _ => true | None => false end.

Definition Pre (m : Matcher) : string := pre m.

(** [for n = 1; n <= maxProbe; n++ { if !exists(...) { return n } }; return maxProbe]. *)
Fixpoint probe (m : Matcher) (exists_ : string -> bool) (base : string)
    (fuel : nat) (n : Z) : Z :=
  match fuel with
  | O => maxProbe
  | S f => if exists_ (Format m base n) then probe m exists_ base f (n + 1) else n
  end.

Definition NextOldN (m : Matcher) (path : string) (exists_ : string -> bool) : string * Z :=
  let '(base0, depth) := Base m path in
  let base := if (0 <? depth)%nat && negb (exists_ base0) then path else base0 in
  (base, probe m exists_ base (Z.to_nat maxProbe) 1).

(** The matcher compiled from the default format. *)
Definition default_matcher : Matcher := mkMatcher ".old." "".

#[global] Arguments Base : simpl never.
#[global] Arguments TrimOne : simpl never.
#[global] Arguments NextOldN : simpl never.

(** *** Specification vocabulary *)

(** The text before [%d] does not end in a digit, as in [".old."]. *)
Definition ends_in_nondigit (s : string) : bool :=
  match String.rev s with "" => false | String c _ => negb (is_digit c) end.

(** [strips m p b]: [b] is [p] without its last suffix. *)
Definition strips (m : Matcher) (p b : string) : Prop := exists n, TrimOne m p = Some (b, n).

(** ** Lemmas *)

Lemma New_default : New "" = Ok default_matcher.
Proof. reflexivity. Qed.

Lemma rev_app_spec s t : String.rev_app s t = String.rev s +:+ t.
Proof.
  unfold String.rev. revert t. induction s as [|a s IH]; intros t; [done|]. cbn.
  rewrite IH, (IH (String a "")), sapp_assoc. done.
Qed.

Lemma rev_snoc s c : String.rev (s +:+ String c "") = String c (String.rev s).
Proof.
  induction s as [|a s IH]; [done|]. rewrite sapp_cons. unfold String.rev. cbn.
  rewrite !rev_app_spec, IH. done.
Qed.

Lemma ends_in_nondigit_snoc s :
  ends_in_nondigit s = true -> exists q c, s = q +:+ String c "" /\ is_digit c = false.
Proof.
  destruct s as [|s c _] using str_snoc_ind; [done|].
  unfold ends_in_nondigit. rewrite rev_snoc. intros ?%negb_true_iff. eauto.
Qed.

Lemma str_drop_le k u v :
  (k <= strlen u)%nat -> str_drop k (u +:+ v) = str_drop k u +:+ v.
Proof.
  revert u. induction k as [|k IH]; intros [|a u] H; cbn in H; try done; [lia|].
  rewrite sapp_cons. cbn. apply IH. unfold strlen. lia.
Qed.

Lemma str_drop_ge k u : (strlen u <= k)%nat -> str_drop k u = "".
Proof. intros H. apply strlen_nil. rewrite strlen_drop. lia. Qed.

(** After [pre] and digits there is no further occurrence of [pre]. *)
Lemma no_later_pre p ds j :
  ends_in_nondigit p = true -> str_forallb is_digit ds = true ->
  HasPrefix (str_drop (S j) (p +:+ ds)) p = false.
Proof.
  intros (q & c & -> & Hc)%ends_in_nondigit_snoc Hds.
  destruct (HasPrefix _ _) eqn:E; [|done]. exfalso.
  apply HasPrefix_spec in E as [r E].
  set (p := q +:+ String c "") in *.
  destruct (Nat.le_gt_cases (S j) (strlen (p +:+ ds))) as [Hle|Hgt].
  2: { rewrite str_drop_ge in E by lia. subst p.
       rewrite !sapp_assoc in E. symmetry in E. by apply sapp_eq_nil in E as [_ E]. }
  assert (p +:+ ds = (str_take (S j) (p +:+ ds) +:+ q) +:+ String c r) as Hsplit.
  { rewrite <- (str_take_drop (S j) (p +:+ ds)) at 1. rewrite E. subst p.
    by rewrite !sapp_assoc. }
  apply (f_equal (str_drop (strlen p))) in Hsplit. rewrite str_drop_app in Hsplit.
  rewrite str_drop_le in Hsplit.
  2: { rewrite strlen_app, strlen_take by done. subst p. rewrite strlen_app. cbn. lia. }
  rewrite Hsplit, str_forallb_app in Hds. cbn in Hds. rewrite Hc in Hds.
  by rewrite andb_false_r in Hds.
Qed.

Lemma Atoi_digits ds :
  ds <> "" -> str_forallb is_digit ds = true ->
  Atoi ds = if dec_value ds <=? max_int64 then Some (dec_value ds) else None.
Proof.
  intros Hne Hd. destruct ds as [|a r]; [done|].
  assert (a <> "-"%char /\ a <> "+"%char) as [H1 H2].
  { cbn in Hd. apply andb_true_iff in Hd as [Ha _]. by split; intros ->. }
  pose proof (dec_value_nonneg _ Hd) as Hv.
  assert (Atoi (String a r) =
    if String.eqb (String a r) "" || negb (str_forallb is_digit (String a r)) then None
    else if (min_int64 <=? dec_value (String a r)) && (dec_value (String a r) <=? max_int64)
         then Some (dec_value (String a r)) else None) as ->.
  { unfold Atoi. destruct a as [[] [] [] [] [] [] [] []]; done. }
  rewrite Hd. cbn [String.eqb orb negb].
  replace (min_int64 <=? dec_value (String a r)) with true; [done|].
  symmetry. apply Z.leb_le. unfold min_int64. lia.
Qed.

(** What a parsed path looks like, whatever the matcher. *)
Lemma TrimOne_sound m p b n :
  TrimOne m p = Some (b, n) -> p = Format m b n /\ 1 <= n <= max_int64 /\ b <> "".
Proof.
  unfold TrimOne. destruct (HasSuffix p (post m)) eqn:Hs; [|done]. cbn [negb].
  apply HasSuffix_spec in Hs as [rest ->]. rewrite TrimSuffix_app.
  destruct (LastIndex rest (pre m)) as [i|] eqn:Hi; [|done].
  apply LastIndex_Some in Hi as (u & ds & -> & <-).
  replace (str_drop (strlen u + strlen (pre m)) (u +:+ pre m +:+ ds)) with ds
    by (rewrite str_drop_app_plus; symmetry; apply str_drop_app).
  rewrite str_take_app.
  destruct (String.eqb_spec ds "") as [|Hne]; [done|].
  destruct (str_forallb is_digit ds) eqn:Hd; [|done]. cbn [negb].
  destruct (no_leading_zero ds) eqn:Hz; [|done]. cbn [negb].
  rewrite Atoi_digits by done.
  destruct (Z.leb_spec (dec_value ds) max_int64); [|done].
  destruct (Z.ltb_spec (dec_value ds) 1); [done|].
  destruct (String.eqb_spec u "") as [|Hu]; [done|].
  intros ?; simplify_eq. unfold Format. rewrite Itoa_dec_value by done.
  split; [by rewrite !sapp_assoc|]. split; [lia|done].
Qed.

Lemma TrimOne_Format m b n :
  ends_in_nondigit (pre m) = true -> b <> "" -> 1 <= n <= max_int64 ->
  TrimOne m (Format m b n) = Some (b, n).
Proof.
  intros Hpre Hb Hn. destruct (Itoa_spec n) as [Hv Hd]; [lia|].
  unfold TrimOne, Format.
  replace (b +:+ pre m +:+ Itoa n +:+ post m) with ((b +:+ pre m +:+ Itoa n) +:+ post m)
    by (by rewrite !sapp_assoc).
  rewrite HasSuffix_app, TrimSuffix_app. cbn [negb].
  rewrite LastIndex_last by (intros j; by apply no_later_pre).
  rewrite str_drop_app_plus, str_drop_app, str_take_app.
  destruct (String.eqb_spec (Itoa n) "") as [H|_].
  { by destruct (Itoa_nonempty n); [lia|]. }
  rewrite Hd, Itoa_no_leading_zero by lia. cbn [negb].
  rewrite Atoi_digits by (try done; apply Itoa_nonempty; lia).
  rewrite Hv. destruct (Z.leb_spec n max_int64); [|lia].
  destruct (Z.ltb_spec n 1); [lia|].
  destruct (String.eqb_spec b ""); [done|]. done.
Qed.

Lemma Format_nonempty m b n : b <> "" -> Format m b n <> "".
Proof. intros Hb H. by apply sapp_eq_nil in H as [? _]. Qed.

Lemma Format_inj_n m b n k : 0 <= n -> 0 <= k -> Format m b n = Format m b k -> n = k.
Proof.
  intros Hn Hk H. unfold Format in H.
  apply sapp_inj_l, sapp_inj_l, sapp_inj_r in H. by apply Itoa_inj.
Qed.

(** *** Stripping a whole chain *)

Lemma Base_loop_spec m fuel p d b d' :
  Base_loop m fuel p d = (b, d') ->
  exists k, d' = (d + k)%nat /\ (k <= fuel)%nat /\ nsteps (strips m) k p b /\
    ((k < fuel)%nat -> IsOld m b = false).
Proof.
  revert p d. induction fuel as [|f IH]; intros p d; cbn [Base_loop].
  - intros ?; simplify_eq. exists 0%nat. repeat split; [lia|lia|constructor|lia].
  - destruct (TrimOne m p) as [[q n]|] eqn:E; intros H.
    + apply IH in H as (k & -> & Hk & Hs & Ho). exists (S k).
      repeat split; [lia|lia| |intros; apply Ho; lia].
      apply nsteps_l with q; [by exists n|done].
    + simplify_eq. exists 0%nat. repeat split; [lia|lia|constructor|].
      intros _. unfold IsOld. by rewrite E.
Qed.

Lemma Base_spec m p :
  nsteps (strips m) (snd (Base m p)) p (fst (Base m p)) /\
  (snd (Base m p) <= maxDepth)%nat /\
  ((snd (Base m p) < maxDepth)%nat -> IsOld m (fst (Base m p)) = false).
Proof.
  unfold Base. destruct (Base_loop m maxDepth p 0) as [b d] eqn:E.
  apply Base_loop_spec in E as (k & -> & Hk & Hs & Ho). done.
Qed.

(** Conversely, a chain of at most [maxDepth] suffixes is stripped whole. *)
Lemma Base_loop_chain m fuel p d k b :
  nsteps (strips m) k p b -> IsOld m b = false -> (k <= fuel)%nat ->
  Base_loop m fuel p d = (b, (d + k)%nat).
Proof.
  intros Hs Ho. revert fuel d. induction Hs as [b|k p q b [n Hn] Hs IH]; intros fuel d Hk.
  - rewrite Nat.add_0_r. destruct fuel as [|f]; [done|]. cbn [Base_loop].
    unfold IsOld in Ho. by destruct (TrimOne m b).
  - destruct fuel as [|f]; [lia|]. cbn [Base_loop]. rewrite Hn.
    rewrite IH by (done || lia). f_equal. lia.
Qed.

Lemma Base_chain m p k b :
  nsteps (strips m) k p b -> IsOld m b = false -> (k <= maxDepth)%nat -> Base m p = (b, k).
Proof. intros. unfold Base. by rewrite (Base_loop_chain _ _ _ _ k b). Qed.

Lemma Base_not_old m p : IsOld m p = false -> Base m p = (p, 0%nat).
Proof. intros. apply Base_chain; [constructor|done|lia]. Qed.

(** *** Probing for a free number *)

Lemma probe_spec m ex base fuel n :
  let r := probe m ex base fuel n in
  (exists k, (k < fuel)%nat /\ r = n + Z.of_nat k /\ ex (Format m base r) = false /\
     forall j, n <= j < r -> ex (Format m base j) = true)
  \/ (r = maxProbe /\ forall j, n <= j < n + Z.of_nat fuel -> ex (Format m base j) = true).
Proof.
  revert n. induction fuel as [|f IH]; intros n r; subst r; cbn [probe].
  - right. split; [done|lia].
  - destruct (ex (Format m base n)) eqn:E.
    + destruct (IH (n + 1)) as [(k & Hk & -> & Hf & Hall)|[-> Hall]].
      * left. exists (S k). repeat split; [lia|lia|done|].
        intros j Hj. destruct (Z.eq_dec j n) as [->|]; [done|]. apply Hall. lia.
      * right. split; [done|]. intros j Hj.
        destruct (Z.eq_dec j n) as [->|]; [done|]. apply Hall. lia.
    + left. exists 0%nat. repeat split; [lia|lia|done|lia].
Qed.

(** Fewer taken names than candidates leave a free one. *)
Lemma some_candidate_free m ex base (taken : gset string) :
  (forall p, ex p = true -> p ∈ taken) -> (size taken < Z.to_nat maxProbe)%nat ->
  exists j, 1 <= j <= maxProbe /\ ex (Format m base j) = false.
Proof.
  intros Htaken Hsize.
  destruct (decide (Exists (fun j => ex (Format m base j) = false) (seqZ 1 maxProbe)))
    as [Hex|Hnex].
  { apply Exists_exists in Hex as (j & Hj & Hf). apply elem_of_seqZ in Hj.
    exists j. split; [lia|done]. }
  exfalso. set (names := Format m base <$> seqZ 1 maxProbe).
  assert (NoDup names) as Hnd.
  { apply NoDup_fmap_2_strong; [|apply NoDup_seqZ].
    intros x y Hx Hy. apply elem_of_seqZ in Hx, Hy. apply Format_inj_n; lia. }
  assert (list_to_set names ⊆ taken) as Hsub.
  { intros p Hp. apply elem_of_list_to_set, list_elem_of_fmap in Hp as (j & -> & Hj).
    apply Htaken. destruct (ex (Format m base j)) eqn:E; [done|]. exfalso.
    apply Hnex, Exists_exists. eauto. }
  apply subseteq_size in Hsub. rewrite size_list_to_set in Hsub by done.
  subst names. rewrite length_fmap, length_seqZ in Hsub. lia.
Qed.

Lemma NextOldN_eq m path ex :
  NextOldN m path ex =
  let base := if (0 <? snd (Base m path))%nat && negb (ex (fst (Base m path)))
              then path else fst (Base m path) in
  (base, probe m ex base (Z.to_nat maxProbe) 1).
Proof. unfold NextOldN. by destruct (Base m path). Qed.

Lemma NextOldN_pos m path ex : 1 <= snd (NextOldN m path ex).
Proof.
  rewrite NextOldN_eq. cbn zeta. cbn [snd].
  set (b := if _ : bool then _ else fst _).
  destruct (probe_spec m ex b (Z.to_nat maxProbe) 1) as [(k & _ & -> & _)|[-> _]]; [lia|].
  unfold maxProbe. lia.
Qed.

Lemma Format_ne m b n : 0 <= n -> Format m b n <> b.
Proof.
  intros Hn E. apply (f_equal strlen) in E. unfold Format in E. rewrite !strlen_app in E.
  pose proof (Itoa_nonempty n Hn) as Hne. destruct (Itoa n) as [|a s]; [done|].
  unfold strlen in E. cbn in E. lia.
Qed.

(** What [NextOldN] names, while fewer than [maxProbe] names are taken: a name
    nobody has, the least such, of a base that exists or is the path itself --
    and so another name than the path, if that exists or has no suffix. *)
Lemma NextOldN_fresh m path ex (taken : gset string) :
  (forall p, ex p = true -> p ∈ taken) -> (size taken < Z.to_nat maxProbe)%nat ->
  ex path = true \/ IsOld m path = false ->
  let '(base, n) := NextOldN m path ex in
  (base = path \/ ex base = true) /\ 1 <= n <= maxProbe /\ ex (Format m base n) = false /\
  (forall j, 1 <= j < n -> ex (Format m base j) = true) /\ Format m base n <> path.
Proof.
  intros Htaken Hsize Hpath. rewrite NextOldN_eq. cbv zeta.
  set (base := if (0 <? snd (Base m path))%nat && negb (ex (fst (Base m path))) then path else fst (Base m path)).
  assert ((base = path \/ ex base = true) /\ (IsOld m path = false -> base = path)) as [Hb Hold].
  { unfold base. split.
    - destruct (Nat.ltb_spec 0 (snd (Base m path))) as [Hd|Hd].
      + destruct (ex (fst (Base m path))) eqn:E; cbn [andb negb]; auto.
      + cbn [andb]. left. pose proof (proj1 (Base_spec m path)) as Hs.
        assert (snd (Base m path) = 0%nat) as E0 by lia. rewrite E0 in Hs. revert Hs. generalize (fst (Base m path)). by inversion 1.
    - intros Ho. rewrite (Base_not_old m path Ho). done. }
  destruct (some_candidate_free m ex base taken Htaken Hsize) as (j & Hj & Hfree).
  destruct (probe_spec m ex base (Z.to_nat maxProbe) 1) as [(i & Hi & Hr & Hf & Hall)|[_ Hall]].
  - unfold maxProbe in *. split_and!; [done|lia|lia|done|intros; apply Hall; lia|].
    intros E. destruct Hpath as [Hp|Hp]; [by rewrite E, Hp in Hf|].
    rewrite (Hold Hp) in E, Hr. revert E. apply Format_ne. lia.
  - rewrite Hall in Hfree; [done|]. unfold maxProbe in *. lia.
Qed.

(** ** Properties *)

(** C35: printing and parsing are inverse for every layout whose literal before
    [%d] does not end in a digit (".old." among them): a path parses as
    [(b, n)] exactly when it is what [Format] prints for a non-empty [b] and a
    positive [int] [n] -- no sign, no leading zero, no overflowing number is
    ever taken for a suffix. *)
Theorem TrimOne_parses_Format m p b n :
  ends_in_nondigit (pre m) = true ->
  TrimOne m p = Some (b, n) <-> p = Format m b n /\ b <> "" /\ 1 <= n <= max_int64.
Proof.
  intros Hpre. split.
  - intros H. apply TrimOne_sound in H. tauto.
  - intros (-> & Hb & Hn). by apply TrimOne_Format.
Qed.

Lemma TrimOne_parses_Format_witness :
  ends_in_nondigit (pre default_matcher) = true /\
  TrimOne default_matcher "notes.md.old.1.old.12" = Some ("notes.md.old.1", 12).
Proof.
  split; [reflexivity|].
  apply (TrimOne_parses_Format default_matcher "notes.md.old.1.old.12" "notes.md.old.1" 12).
  - reflexivity.
  - split; [reflexivity|]. split; [discriminate|]. unfold max_int64. lia.
Defined.

(** A conflict on an already suffixed path collapses onto its tracked base
    (issue #65): for a chain of up to 64 suffixes over a base that exists,
    [NextOldN] returns that base itself and the least positive number whose
    name is free, as long as fewer than 65536 names are taken. *)
Theorem NextOldN_collapses m path k base ex (taken : gset string) :
  nsteps (strips m) k path base -> IsOld m base = false ->
  (0 < k <= maxDepth)%nat -> ex base = true ->
  (forall p, ex p = true -> p ∈ taken) -> (size taken < Z.to_nat maxProbe)%nat ->
  exists n, NextOldN m path ex = (base, n) /\ 1 <= n <= maxProbe /\
    ex (Format m base n) = false /\
    forall j, 1 <= j < n -> ex (Format m base j) = true.
Proof.
  intros Hs Ho Hk Hex Htaken Hsize.
  rewrite NextOldN_eq, (Base_chain m path k base) by (done || lia). cbn [fst snd].
  rewrite Hex, andb_false_r. eexists. split; [done|].
  destruct (some_candidate_free m ex base taken Htaken Hsize) as (j & Hj & Hfree).
  destruct (probe_spec m ex base (Z.to_nat maxProbe) 1) as [(i & Hi & Hr & Hf & Hall)|[_ Hall]].
  - unfold maxProbe in *. split; [lia|]. split; [done|]. intros. apply Hall. lia.
  - rewrite Hall in Hfree; [done|]. unfold maxProbe in *. lia.
Qed.

Lemma NextOldN_collapses_witness :
  exists n, NextOldN default_matcher "f.md.old.1.old.1"
      (fun p => bool_decide (p ∈ ["f.md"; "f.md.old.1"])) = ("f.md", n) /\
    1 <= n <= maxProbe /\
    bool_decide (Format default_matcher "f.md" n ∈ ["f.md"; "f.md.old.1"]) = false /\
    forall j, 1 <= j < n ->
      bool_decide (Format default_matcher "f.md" j ∈ ["f.md"; "f.md.old.1"]) = true.
Proof.
  apply (NextOldN_collapses default_matcher "f.md.old.1.old.1" 2 "f.md"
           (fun p => bool_decide (p ∈ ["f.md"; "f.md.old.1"])) {["f.md"; "f.md.old.1"]}).
  - apply nsteps_l with "f.md.old.1"; [exists 1; reflexivity|].
    apply nsteps_l with "f.md"; [exists 1; reflexivity|]. constructor.
  - reflexivity.
  - unfold maxDepth. lia.
  - reflexivity.
  - intros p Hp%bool_decide_eq_true. rewrite elem_of_union, !elem_of_singleton.
    rewrite !elem_of_cons, elem_of_nil in Hp. tauto.
  - replace (size ({["f.md"; "f.md.old.1"]} : gset string)) with 2%nat
      by (vm_compute; reflexivity). unfold maxProbe. lia.
Defined.

(** A path that merely looks suffixed keeps its own numbering when the
    stripped base is not a known path: the base returned is the path itself,
    so a user's "budget.old.2" is never renumbered onto "budget". *)
Theorem NextOldN_literal m path ex :
  ex (fst (Base m path)) = false -> fst (NextOldN m path ex) = path.
Proof.
  intros Hex. rewrite NextOldN_eq, Hex. cbn [fst].
  destruct (snd (Base m path)) eqn:Ed; [|done]. cbn.
  pose proof (Base_spec m path) as (Hs & _). rewrite Ed in Hs.
  revert Hs. generalize (fst (Base m path)). intros b Hs. by inversion Hs.
Qed.

Lemma NextOldN_literal_witness :
  fst (NextOldN default_matcher "budget.old.2" (fun p => String.eqb p "budget.old.2"))
  = "budget.old.2".
Proof. apply NextOldN_literal. reflexivity. Defined.

(** [Base] stops after at most 64 strips, every strip removes one
    well-formed suffix, and below that bound nothing is left to strip. *)
Theorem Base_strips m p :
  nsteps (strips m) (snd (Base m p)) p (fst (Base m p)) /\
  (snd (Base m p) <= maxDepth)%nat /\
  ((snd (Base m p) < maxDepth)%nat -> IsOld m (fst (Base m p)) = false).
Proof. exact (Base_spec m p). Qed.

(** When all 65536 candidate names are taken, [NextOldN] still returns
    [maxProbe], a number that is in use: the exhaustion its comment says the
    caller can detect is not distinguishable from a free slot. *)
Theorem NextOldN_exhausted m path ex b :
  fst (NextOldN m path ex) = b ->
  (forall j, 1 <= j <= maxProbe -> ex (Format m b j) = true) ->
  NextOldN m path ex = (b, maxProbe) /\ ex (Format m b maxProbe) = true.
Proof.
  intros Hb Hall. split; [|apply Hall; unfold maxProbe; lia].
  rewrite NextOldN_eq in *. cbn [fst] in Hb. cbv zeta. rewrite Hb. f_equal.
  destruct (probe_spec m ex b (Z.to_nat maxProbe) 1) as [(i & Hi & Hr & Hf & _)|[Hr _]].
  - rewrite Hall in Hf; [done|]. unfold maxProbe in *. lia.
  - done.
Qed.

Lemma NextOldN_exhausted_witness :
  NextOldN default_matcher "f" (fun _ => true) = ("f", maxProbe) /\
  (fun _ : string => true) (Format default_matcher "f" maxProbe) = true.
Proof.
  apply (NextOldN_exhausted default_matcher "f" (fun _ => true) "f"); reflexivity.
Defined.

(** [New] accepts a layout it cannot parse back: with "1%d" the first
    conflict loser of "f" is "f11", which [TrimOne] does not recognise. *)
Theorem New_accepts_unparseable :
  exists m, New "1%d" = Ok m /\ Format m "f" 1 = "f11" /\ TrimOne m (Format m "f" 1) = None.
Proof. exists (mkMatcher "1" ""). repeat split; vm_compute; reflexivity. Qed.
