(* ===== verification/Rfc3339.v ===== *)
(** [time.Parse(time.RFC3339, s)] and [t.UTC().Format(time.RFC3339)] of Go's
    standard library, as the Drive client, the control endpoint and MQTT use
    them: the date and time fields with Go's
    leniency (a one-digit hour, a fraction after a point or a comma, offsets up
    to 24:60), as the instant they denote. *)
From S2P Require Import Prelude.
From S2P Require Import GoStrings.
From S2P Require Import GoRuntime.

(** ** Definitions *)

Definition is_leap (y : Z) : bool :=
  (y mod 4 =? 0) && (negb (y mod 100 =? 0) || (y mod 400 =? 0)).

Definition month_days (y m : Z) : Z :=
  if m =? 2 then (if is_leap y then 29 else 28)
  else if existsb (Z.eqb m) [4; 6; 9; 11] then 30 else 31.

(** Days from January 1, year 1, to January 1 of [y]. *)
Definition days_before_year (y : Z) : Z :=
  365 * (y - 1) + (y - 1) / 4 - (y - 1) / 100 + (y - 1) / 400.

Definition days_before_month (y m : Z) : Z :=
  foldr Z.add 0 (map (month_days y) (map Z.of_nat (seq 1 (Z.to_nat (m - 1))))).

(** [time.Date(y, m, d, hh, mm, ss, ns, UTC)]. *)
Definition date (y m d hh mm ss ns : Z) : Time :=
  (days_before_year y + days_before_month y m + (d - 1)) * (24 * Hour)
  + hh * Hour + mm * Minute + ss * Second + ns.

Definition digit1 (s : string) : option (Z * string) :=
  match s with String c r => if is_digit c then Some (digit_val c, r) else None | "" => None end.

Definition digit2 (s : string) : option (Z * string) :=
  '(a, s) ← digit1 s; '(b, s) ← digit1 s; Some (10 * a + b, s).

Definition digit4 (s : string) : option (Z * string) :=
  '(a, s) ← digit2 s; '(b, s) ← digit2 s; Some (100 * a + b, s).

(** An hour may have one digit. *)
Definition digit12 (s : string) : option (Z * string) :=
  match digit2 s with Some x => Some x | None => digit1 s end.

Definition lit (c : ascii) (s : string) : option string :=
  match s with String c' r => if Ascii.eqb c c' then Some r else None | "" => None end.

Definition bounded (lo hi : Z) (x : Z * string) : option (Z * string) :=
  if (lo <=? fst x) && (fst x <=? hi) then Some x else None.

(** The digits of a fraction: the nanoseconds of the first nine. *)
Fixpoint fraction (unit : Z) (s : string) : Z * string :=
  match s with
  | String c r =>
      if is_digit c then let '(v, r) := fraction (unit / 10) r in (digit_val c * unit + v, r) else (0, s)
  | "" => (0, "")
  end.

Definition fractional (s : string) : Z * string :=
  match s with
  | String c r =>
      if Ascii.eqb c "." || Ascii.eqb c "," then
        match digit1 r with Some _ => fraction 100000000 r | None => (0, s) end
      else (0, s)
  | "" => (0, s)
  end.

(** ["Z"] or a signed offset, in seconds. *)
Definition zone (s : string) : option (Z * string) :=
  match s with
  | String c r =>
      if Ascii.eqb c "Z" then Some (0, r)
      else if Ascii.eqb c "+" || Ascii.eqb c "-" then
        '(hh, r) ← digit2 r; r ← lit ":" r; '(mm, r) ← digit2 r;
        if (24 <? hh) || (60 <? mm) then None
        else let off := (hh * 60 + mm) * 60 in Some (if Ascii.eqb c "-" then - off else off, r)
      else None
  | "" => None
  end.

Definition Parse_RFC3339 (s : string) : option Time :=
  '(y, s) ← digit4 s; s ← lit "-" s;
  '(m, s) ← digit2 s ≫= bounded 1 12; s ← lit "-" s;
  '(d, s) ← digit2 s; s ← lit "T" s;
  '(hh, s) ← digit12 s ≫= bounded 0 23; s ← lit ":" s;
  '(mm, s) ← digit2 s ≫= bounded 0 59; s ← lit ":" s;
  '(ss, s) ← digit2 s ≫= bounded 0 59;
  let '(ns, s) := fractional s in
  '(off, s) ← zone s;
  if (d <? 1) || (month_days y m <? d) || negb (String.eqb s "") then None
  else Some (date y m d hh mm ss ns - off * Second).

(** [parseDriveTime]: the zero time where the text is not a time. *)
Definition parseDriveTime (s : string) : Time :=
  match Parse_RFC3339 s with Some t => t | None => 0 end.

(** *** Formatting *)

(** The year of a day counted from January 1, year 1, and the day in it: cycles
    of 400, 100, 4 and 1 years. *)
Definition civil_year (n : Z) : Z * Z :=
  let a := n / 146097 in
  let n := n - 146097 * a in
  let b := n / 36524 - n / 36524 / 4 in
  let n := n - 36524 * b in
  let c := n / 1461 in
  let n := n - 1461 * c in
  let d := n / 365 - n / 365 / 4 in
  (400 * a + 100 * b + 4 * c + d + 1, n - 365 * d).

(** Month and day, counting from month [m]. *)
Fixpoint civil_month (more : nat) (y m yday : Z) : Z * Z :=
  match more with
  | O => (m, yday + 1)
  | S more =>
      if yday <? month_days y m then (m, yday + 1)
      else civil_month more y (m + 1) (yday - month_days y m)
  end.

Definition pad2 (z : Z) (rest : string) : string :=
  String (digit_char (z / 10)) (String (digit_char (z mod 10)) rest).

Definition pad_year (y : Z) (rest : string) : string :=
  if y <? 0 then "-" +:+ pad2 (- y / 100) (pad2 (- y mod 100) rest)
  else if y <? 10000 then pad2 (y / 100) (pad2 (y mod 100) rest)
  else Itoa y +:+ rest.

(** [t.UTC().Format(time.RFC3339)]. *)
Definition Format_RFC3339 (t : Time) : string :=
  let secs := t / Second in
  let '(y, yday) := civil_year (secs / 86400) in
  let '(m, d) := civil_month 11 y 1 yday in
  let sod := secs mod 86400 in
  pad_year y (String "-" (pad2 m (String "-" (pad2 d (String "T"
    (pad2 (sod / 3600) (String ":" (pad2 (sod / 60 mod 60) (String ":" (pad2 (sod mod 60) "Z")))))))))).

(** ** Lemmas *)

Lemma month_days_range y m : 28 <= month_days y m <= 31.
Proof. unfold month_days. repeat case_match; lia. Qed.

Ltac div_lia := Z.to_euclidean_division_equations; lia.

Lemma civil_year_spec n : 0 <= n ->
  let '(y, yday) := civil_year n in
  days_before_year y + yday = n /\ 1 <= y /\ 0 <= yday < 365 + (if is_leap y then 1 else 0).
Proof.
  intros Hn. unfold civil_year, days_before_year, is_leap.
  set (a := n / 146097). set (n1 := n - 146097 * a).
  assert (Hn1 : 0 <= n1 < 146097 /\ 0 <= a) by (subst n1 a; div_lia).
  set (b := n1 / 36524 - n1 / 36524 / 4). set (n2 := n1 - 36524 * b).
  assert (Hn2 : 0 <= b <= 3 /\ 0 <= n2 /\ (n2 < 36524 \/ (b = 3 /\ n2 = 36524))) by (subst n2 b; div_lia).
  set (c := n2 / 1461). set (n3 := n2 - 1461 * c).
  assert (Hn3 : 0 <= c <= 24 /\ 0 <= n3 < 1461 /\ (c = 24 -> n3 <= 1460)) by (subst n3 c; div_lia).
  set (d := n3 / 365 - n3 / 365 / 4).
  assert (Hd : 0 <= d <= 3 /\ 0 <= n3 - 365 * d /\ (n3 - 365 * d < 365 \/ (d = 3 /\ n3 - 365 * d = 365)))
    by (subst d; div_lia).
  set (y := 400 * a + 100 * b + 4 * c + d + 1).
  assert (E4 : (y - 1) / 4 = 100 * a + 25 * b + c) by (subst y; div_lia).
  assert (E100 : (y - 1) / 100 = 4 * a + b) by (subst y; div_lia).
  assert (E400 : (y - 1) / 400 = a) by (subst y; div_lia).
  rewrite E4, E100, E400. split; [subst n3 n2 n1 y; lia|]. split; [subst y; lia|].
  split; [lia|]. destruct Hd as (Hd1 & Hd2 & [Hd3|[-> Hd3]]); [case_match; lia|].
  assert (L4 : (y mod 4 =? 0) = true) by (apply Z.eqb_eq; subst y; div_lia).
  rewrite L4. cbn [andb]. rewrite Hd3.
  destruct (Z.eqb_spec (y mod 100) 0) as [L100|L100]; [|cbn; div_lia]. cbn [negb orb].
  destruct (Z.eqb_spec (y mod 400) 0) as [L400|L400]; [div_lia|]. exfalso.
  assert (c = 24) by (subst y; div_lia). subst y. div_lia.
Qed.

Lemma days_before_month_next y m : 1 <= m ->
  days_before_month y (m + 1) = days_before_month y m + month_days y m.
Proof.
  intros Hm. unfold days_before_month. replace (m + 1 - 1) with (Z.succ (m - 1)) by lia.
  rewrite Z2Nat.inj_succ, seq_S, !map_app, foldr_app by lia. cbn [map foldr].
  replace (Z.of_nat (1 + Z.to_nat (m - 1))) with m by lia.
  generalize (map (month_days y) (map Z.of_nat (seq 1 (Z.to_nat (m - 1))))).
  intros l. induction l as [|x l IH]; cbn; lia.
Qed.

Lemma year_days y : days_before_month y 13 = 365 + (if is_leap y then 1 else 0).
Proof. unfold days_before_month, month_days. cbn. by destruct (is_leap y). Qed.

Lemma civil_month_spec more y m yday :
  1 <= m -> m + Z.of_nat more = 12 -> 0 <= yday < days_before_month y 13 - days_before_month y m ->
  let '(m', d) := civil_month more y m yday in
  days_before_month y m' + (d - 1) = days_before_month y m + yday /\ m <= m' <= 12 /\
  1 <= d <= month_days y m'.
Proof.
  revert m yday. induction more as [|more IH]; intros m yday Hm Hs Hy; cbn [civil_month].
  - assert (m = 12) as -> by lia. pose proof (days_before_month_next y 12 ltac:(lia)) as E.
    change (12 + 1) with 13 in E. lia.
  - pose proof (days_before_month_next y m Hm) as E. pose proof (month_days_range y m).
    destruct (Z.ltb_spec yday (month_days y m)); [lia|].
    specialize (IH (m + 1) (yday - month_days y m) ltac:(lia) ltac:(lia) ltac:(lia)).
    destruct (civil_month more y (m + 1) (yday - month_days y m)) as [m' d]. lia.
Qed.

Lemma days_before_year_mono y : 10000 <= y -> 3652059 <= days_before_year y.
Proof.
  intros Hy. unfold days_before_year. set (x := y - 1). assert (Hx : 9999 <= x) by (subst x; lia).
  clearbody x. destruct (decide (x = 9999)) as [->|Hne]; [by vm_compute|].
  pose proof (Z.div_le_mono 10000 x 4 ltac:(lia) ltac:(lia)) as H4. change (10000 / 4) with 2500 in H4.
  pose proof (Z.div_le_mono 10000 x 400 ltac:(lia) ltac:(lia)) as H400. change (10000 / 400) with 25 in H400.
  pose proof (Z.mul_div_le x 100 ltac:(lia)). lia.
Qed.

Lemma digit1_char d rest : 0 <= d <= 9 -> digit1 (String (digit_char d) rest) = Some (d, rest).
Proof. intros Hd. unfold digit1. by rewrite is_digit_char, digit_val_char. Qed.

Lemma digit2_pad z rest : 0 <= z <= 99 -> digit2 (pad2 z rest) = Some (z, rest).
Proof.
  intros Hz. unfold digit2, pad2. rewrite digit1_char by div_lia. cbn [mbind option_bind].
  rewrite digit1_char by div_lia. cbn [mbind option_bind].
  change (Some (10 * (z / 10) + z mod 10, rest) = Some (z, rest)). do 2 f_equal. div_lia.
Qed.

Lemma digit4_pad y rest : 1 <= y <= 9999 -> digit4 (pad_year y rest) = Some (y, rest).
Proof.
  intros Hy. unfold pad_year, digit4. destruct (Z.ltb_spec y 0); [lia|].
  destruct (Z.ltb_spec y 10000); [|lia]. rewrite digit2_pad by div_lia. cbn [mbind option_bind].
  rewrite digit2_pad by div_lia.
  change (Some (100 * (y / 100) + y mod 100, rest) = Some (y, rest)). do 2 f_equal. div_lia.
Qed.

Lemma digit12_pad z rest : 0 <= z <= 99 -> digit12 (pad2 z rest) = Some (z, rest).
Proof. intros Hz. unfold digit12. by rewrite digit2_pad. Qed.

Lemma bounded_in lo hi z rest : lo <= z <= hi -> bounded lo hi (z, rest) = Some (z, rest).
Proof.
  intros Hz. unfold bounded; cbn [fst]. rewrite (proj2 (Z.leb_le lo z)), (proj2 (Z.leb_le z hi)) by lia. done.
Qed.

Lemma lit_eq c rest : lit c (String c rest) = Some rest.
Proof. unfold lit. by rewrite Ascii.eqb_refl. Qed.

Ltac parse_step :=
  first [rewrite digit2_pad by div_lia|rewrite digit12_pad by div_lia|rewrite bounded_in by div_lia|rewrite lit_eq];
  cbn [mbind option_bind].

(** Formatting and parsing are inverse up to the second, in the years 1 to
    9999. *)
Lemma parse_format t : 0 <= t < year_10000 -> Parse_RFC3339 (Format_RFC3339 t) = Some (t - t mod Second).
Proof.
  intros Ht. unfold Format_RFC3339, year_10000 in *.
  set (secs := t / Second). assert (Hsecs : 0 <= secs < 315537897600) 
    by (subst secs; unfold Second in *; split; [apply Z.div_pos|apply Z.div_lt_upper_bound]; lia).
  pose proof (civil_year_spec (secs / 86400) ltac:(div_lia)) as Hy.
  destruct (civil_year (secs / 86400)) as [y yday]. destruct Hy as (Ey & Hy1 & Hyd).
  assert (Hy2 : y <= 9999).
  { destruct (Z.le_gt_cases y 9999); [done|]. pose proof (days_before_year_mono y ltac:(lia)) as Hm.
    div_lia. }
  pose proof (civil_month_spec 11 y 1 yday ltac:(lia) ltac:(lia)) as Hmd.
  rewrite year_days in Hmd. change (days_before_month y 1) with 0 in Hmd. specialize (Hmd ltac:(lia)).
  destruct (civil_month 11 y 1 yday) as [m d]. destruct Hmd as (Em & Hm & Hd).
  pose proof (month_days_range y m). set (sod := secs mod 86400).
  assert (Hsod : 0 <= sod < 86400) by (subst sod; div_lia).
  unfold Parse_RFC3339. rewrite digit4_pad by lia. cbn [mbind option_bind]. repeat parse_step.
  change (fractional "Z") with (0, "Z"). cbv iota beta. change (zone "Z") with (Some (0, "")).
  cbn [mbind option_bind String.eqb negb].
  rewrite (proj2 (Z.ltb_ge d 1)), (proj2 (Z.ltb_ge (month_days y m) d)) by lia. cbn [orb]. f_equal.
  unfold date, Hour, Minute, Second in *. subst sod. revert Ey Em. clear -Hsecs. intros Ey Em.
  assert (Et : secs = t / 1000000000) by reflexivity. clearbody secs. div_lia.
Qed.

(** ** Examples *)

Example parse_epoch : Parse_RFC3339 "1970-01-01T00:00:00Z" = Some unix_epoch.
Proof. vm_compute. reflexivity. Qed.

Example parse_millis :
  Parse_RFC3339 "2024-02-29T12:34:56.789Z" = Some (unix_epoch + 1709210096 * Second + 789 * Millisecond).
Proof. vm_compute. reflexivity. Qed.

Example parse_offset : Parse_RFC3339 "2024-03-01T00:30:00+01:00" = Parse_RFC3339 "2024-02-29T23:30:00Z".
Proof. vm_compute. reflexivity. Qed.

Example parse_no_leap : Parse_RFC3339 "2023-02-29T00:00:00Z" = None /\ parseDriveTime "" = 0.
Proof. vm_compute. done. Qed.

Example format_epoch : Format_RFC3339 unix_epoch = "1970-01-01T00:00:00Z".
Proof. vm_compute. reflexivity. Qed.

Example format_leap :
  Format_RFC3339 (unix_epoch + 1709210096 * Second + 789 * Millisecond) = "2024-02-29T12:34:56Z".
Proof. vm_compute. reflexivity. Qed.
