(* ===== verification/GoNet.v ===== *)
(** Go's [net.SplitHostPort], [net.ParseIP] and [IP.IsLoopback], as the control
    endpoint uses them to decide whether an address is local. *)
From S2P Require Import Prelude.
From S2P Require Import GoStrings.

(** ** Definitions *)

Definition colon : ascii := ":"%char.

Definition has_byte (c : ascii) (s : string) : bool := negb (CountByte s c =? 0)%nat.

(** [net.SplitHostPort]: host and port, or an error. *)
Definition SplitHostPort (s : string) : option (string * string) :=
  match LastIndex s ":" with
  | None => None
  | Some i =>
      let port := str_drop (S i) s in
      if HasPrefix s "[" then
        match Index s "]" with
        | None => None
        | Some e =>
            if (S e =? i)%nat then
              let host := str_drop 1 (str_take e s) in
              if has_byte "[" (str_drop 1 s) || has_byte "]" (str_drop (S e) s) then None
              else Some (host, port)
            else None
        end
      else
        let host := str_take i s in
        if has_byte colon host || has_byte "[" s || has_byte "]" s then None else Some (host, port)
  end.

(** One decimal field of an IPv4 address: digits without a leading zero, at
    most 255. *)
Definition ipv4_field (s : string) : option Z :=
  if String.eqb s "" || negb (str_forallb is_digit s) then None
  else if (1 <? strlen s)%nat && HasPrefix s "0" then None
  else if (3 <? strlen s)%nat then None
  else let v := dec_value s in if v <=? 255 then Some v else None.

Definition parse_ipv4 (s : string) : option (list Z) :=
  match map ipv4_field (SplitByte s ".") with
  | [Some a; Some b; Some c; Some d] => Some [a; b; c; d]
  | _ => None
  end.

Definition hex_val (c : ascii) : option Z :=
  let n := Z.of_nat (nat_of_ascii c) in
  if (48 <=? n) && (n <=? 57) then Some (n - 48)
  else if (97 <=? n) && (n <=? 102) then Some (n - 87)
  else if (65 <=? n) && (n <=? 70) then Some (n - 55)
  else None.

(** The hexadecimal digits at the front: their value, how many, and the rest. *)
Fixpoint hex_group (acc : Z) (digits : nat) (s : string) : Z * nat * string :=
  match s with
  | String c rest =>
      match hex_val c with
      | Some v => hex_group (acc * 16 + v) (S digits) rest
      | None => (acc, digits, s)
      end
  | "" => (acc, digits, "")
  end.

(** The loop of [parseIPv6]: [before] are the groups read (before the ellipsis,
    once there is one) and [after] those behind it; an IPv4 tail counts as two
    groups. *)
Fixpoint ipv6_groups (fuel : nat) (before : list Z) (after : option (list Z)) (s : string) :
    option (list Z * option (list Z)) :=
  let count := (length before + match after with Some l => length l | None => 0 end)%nat in
  let put g := match after with None => (before ++ g, None) | Some l => (before, Some (l ++ g)) end in
  match fuel with
  | O => None
  | S fuel =>
      if (8 <=? count)%nat then if String.eqb s "" then Some (before, after) else None
      else
        let '(v, n, rest) := hex_group 0 0 s in
        if (n =? 0)%nat || (4 <? n)%nat then None
        else if HasPrefix rest "." then
          if match after with None => negb (count =? 6)%nat | Some _ => false end then None
          else if (6 <? count)%nat then None
          else match parse_ipv4 s with
               | Some [a; b; c; d] => Some (put [a * 256 + b; c * 256 + d])
               | _ => None
               end
        else
          let '(before, after) := put [v] in
          match rest with
          | "" => Some (before, after)
          | String c rest =>
              if negb (Ascii.eqb c colon) || String.eqb rest "" then None
              else if HasPrefix rest ":" then
                match after with
                | Some _ => None
                | None =>
                    let rest := str_drop 1 rest in
                    if String.eqb rest "" then Some (before, Some []) else ipv6_groups fuel before (Some []) rest
                end
              else ipv6_groups fuel before after rest
          end
  end.

Definition parse_ipv6 (s : string) : option (list Z) :=
  let parsed :=
    if HasPrefix s "::" then
      let s := str_drop 2 s in if String.eqb s "" then Some ([], Some []) else ipv6_groups 9 [] (Some []) s
    else ipv6_groups 9 [] None s in
  match parsed with
  | None => None
  | Some (before, None) => if (length before =? 8)%nat then Some before else None
  | Some (before, Some after) =>
      let n := (length before + length after)%nat in
      if (n <? 8)%nat then Some (before ++ repeat 0 (8 - n) ++ after) else None
  end.

(** The first of ['.'], [':'] and ['%'] decides the family. *)
Fixpoint ip_family (s : string) : option ascii :=
  match s with
  | "" => None
  | String c rest =>
      if Ascii.eqb c "." || Ascii.eqb c colon || Ascii.eqb c "%" then Some c else ip_family rest
  end.

(** [net.ParseIP], as eight 16-bit groups; a zone is refused. *)
Definition ParseIP (s : string) : option (list Z) :=
  match ip_family s with
  | Some c =>
      if Ascii.eqb c "." then
        match parse_ipv4 s with
        | Some [a; b; c; d] => Some [0; 0; 0; 0; 0; 65535; a * 256 + b; c * 256 + d]
        | _ => None
        end
      else if Ascii.eqb c colon then if has_byte "%" s then None else parse_ipv6 s
      else None
  | None => None
  end.

(** [IP.IsLoopback]: 127.0.0.0/8, also mapped into IPv6, and [::1]. *)
Definition IsLoopback (ip : list Z) : bool :=
  match ip with
  | [0; 0; 0; 0; 0; 65535; g; _] => g / 256 =? 127
  | _ => bool_decide (ip = [0; 0; 0; 0; 0; 0; 0; 1])
  end.

(** ** Examples *)

Example split_plain : SplitHostPort "127.0.0.1:6090" = Some ("127.0.0.1", "6090").
Proof. reflexivity. Qed.

Example split_bracket : SplitHostPort "[::1]:6090" = Some ("::1", "6090") /\ SplitHostPort "::1" = None.
Proof. done. Qed.

Example split_empty_host : SplitHostPort ":6090" = Some ("", "6090") /\ SplitHostPort "localhost" = None.
Proof. done. Qed.

Example parse_families :
  ParseIP "::1" = Some [0; 0; 0; 0; 0; 0; 0; 1] /\ ParseIP "2001:db8::7" = Some [8193; 3512; 0; 0; 0; 0; 0; 7] /\
  ParseIP "::ffff:127.0.0.1" = Some [0; 0; 0; 0; 0; 65535; 32512; 1] /\
  ParseIP "127.0.0.01" = None /\ ParseIP "127.1" = None /\ ParseIP "fe80::1%eth0" = None /\ ParseIP "1::2::3" = None.
Proof. repeat split. Qed.
