(* ===== verification/GoPath.v ===== *)
(** Go's [path] package and the Unix behaviour of [path/filepath], which the
    agent uses to move between root-relative, local and remote paths. *)
From S2P Require Import Prelude.
From S2P Require Import GoStrings.

(** ** Definitions *)

Definition slash : ascii := "/"%char.

Definition is_rooted (p : string) : bool := HasPrefix p "/".

(** One component of a path being cleaned; the stack is in reverse order. *)
Definition clean_step (rooted : bool) (stack : list string) (c : string) : list string :=
  if String.eqb c "" || String.eqb c "." then stack
  else if String.eqb c ".." then
    match stack with
    | top :: rest => if String.eqb top ".." then c :: stack else rest
    | [] => if rooted then [] else [c]
    end
  else c :: stack.

Definition clean_stack (rooted : bool) (stack : list string) (cs : list string) : list string :=
  fold_left (clean_step rooted) cs stack.

Definition unsplit (rooted : bool) (cs : list string) : string :=
  let out := Join cs "/" in
  if rooted then "/" +:+ out else if String.eqb out "" then "." else out.

(** [path.Clean]. *)
Definition Clean (p : string) : string :=
  if String.eqb p "" then "."
  else
    let rooted := is_rooted p in
    unsplit rooted (rev (clean_stack rooted [] (SplitByte p slash))).

(** [path.Join] of two elements. *)
Definition PathJoin (a b : string) : string :=
  if String.eqb a "" then (if String.eqb b "" then "" else Clean b)
  else Clean (a +:+ "/" +:+ b).

(** [path.Dir]: everything up to the last slash, cleaned. *)
Definition Dir (p : string) : string :=
  match LastIndex p "/" with
  | Some i => Clean (str_take (S i) p)
  | None => "."
  end.

Fixpoint strip_trailing_slashes (fuel : nat) (p : string) : string :=
  match fuel with
  | S f => if HasSuffix p "/" then strip_trailing_slashes f (TrimSuffix p "/") else p
  | O => p
  end.

(** [path.Base]: the last element, without trailing slashes. *)
Definition PathBase (p : string) : string :=
  if String.eqb p "" then "."
  else
    let q := strip_trailing_slashes (strlen p) p in
    let r := match LastIndex q "/" with Some i => str_drop (S i) q | None => q end in
    if String.eqb r "" then "/" else r.

(** *** Root-relative paths

    The sync engine's paths are slash-separated, relative to the sync root,
    without empty, ["."] or [".."] elements. *)

Definition has_slash (s : string) : bool := negb (CountByte s slash =? 0)%nat.

Definition valid_elem (s : string) : bool :=
  negb (String.eqb s "") && negb (String.eqb s ".") && negb (String.eqb s "..")
  && negb (has_slash s).

Definition rel_path (p : string) : bool :=
  negb (String.eqb p "") && forallb valid_elem (SplitByte p slash).

(** ** Lemmas on splitting and joining *)

Lemma CountByte_app s t c : CountByte (s +:+ t) c = (CountByte s c + CountByte t c)%nat.
Proof. induction s as [|a s IH]; [done|]. rewrite sapp_cons. cbn. rewrite IH. lia. Qed.

Lemma has_slash_app s t : has_slash (s +:+ t) = has_slash s || has_slash t.
Proof.
  unfold has_slash. rewrite CountByte_app.
  destruct (CountByte s slash), (CountByte t slash); done.
Qed.

Lemma SplitByte_nonempty s c : SplitByte s c <> [].
Proof.
  destruct s as [|a s]; [discriminate|]. cbn. destruct (Ascii.eqb a c); [discriminate|].
  destruct (SplitByte s c); discriminate.
Qed.

Lemma SplitByte_no_slash s : has_slash s = false -> SplitByte s slash = [s].
Proof.
  unfold has_slash. induction s as [|a s IH]; [done|]. cbn.
  destruct (Ascii.eqb_spec a slash); [done|]. cbn. intros H. by rewrite IH.
Qed.

Lemma SplitByte_app s t :
  has_slash s = false -> SplitByte (s +:+ "/" +:+ t) slash = s :: SplitByte t slash.
Proof.
  unfold has_slash. induction s as [|a s IH]; [done|]. rewrite sapp_cons. cbn.
  destruct (Ascii.eqb_spec a slash); [done|]. cbn. intros H. by rewrite IH.
Qed.

Lemma Join_cons w ws sep : ws <> [] -> Join (w :: ws) sep = w +:+ sep +:+ Join ws sep.
Proof. by destruct ws. Qed.

Lemma Join_app l1 l2 sep :
  l1 <> [] -> l2 <> [] -> Join (l1 ++ l2) sep = Join l1 sep +:+ sep +:+ Join l2 sep.
Proof.
  intros H1 H2. induction l1 as [|w l1 IH]; [done|].
  destruct l1 as [|v l1]; [exact (Join_cons w l2 sep H2)|].
  change ((w :: v :: l1) ++ l2) with (w :: (v :: l1) ++ l2).
  rewrite (Join_cons w), (Join_cons w), IH by (done || by destruct l2).
  by rewrite !sapp_assoc.
Qed.

Lemma SplitByte_Join l :
  l <> [] -> Forall (fun w => has_slash w = false) l -> SplitByte (Join l "/") slash = l.
Proof.
  induction l as [|w l IH]; [done|]. intros _ [Hw Hl]%Forall_cons.
  destruct l as [|v l]; [by apply SplitByte_no_slash|].
  rewrite Join_cons by done. rewrite SplitByte_app by done. f_equal. by apply IH.
Qed.

Lemma Join_SplitByte s : Join (SplitByte s slash) "/" = s.
Proof.
  induction s as [|a s IH]; [done|]. cbn. pose proof (SplitByte_nonempty s slash) as Hne.
  destruct (Ascii.eqb_spec a slash) as [->|].
  - rewrite Join_cons by done. by rewrite IH.
  - destruct (SplitByte s slash) as [|w ws]; [done|].
    destruct ws as [|v ws]; [by cbn in *; subst|].
    rewrite Join_cons in * by done. rewrite sapp_cons. by f_equal.
Qed.

Lemma SplitByte_elems s : Forall (fun w => has_slash w = false) (SplitByte s slash).
Proof.
  induction s as [|a s IH]; [by repeat constructor|]. cbn.
  destruct (Ascii.eqb_spec a slash); [by constructor|].
  destruct (SplitByte s slash) as [|w ws].
  - constructor; [|done]. unfold has_slash. cbn. by destruct (Ascii.eqb_spec a slash).
  - apply Forall_cons in IH as [Hw Hws]. constructor; [|done].
    unfold has_slash in *. cbn. by destruct (Ascii.eqb_spec a slash).
Qed.

Lemma SplitByte_app_all s t :
  SplitByte (s +:+ "/" +:+ t) slash = SplitByte s slash ++ SplitByte t slash.
Proof.
  rewrite <- (Join_SplitByte s) at 1. rewrite <- (Join_SplitByte t) at 1.
  rewrite <- Join_app by apply SplitByte_nonempty. apply SplitByte_Join.
  - pose proof (SplitByte_nonempty s slash). by destruct (SplitByte s slash).
  - apply Forall_app. split; apply SplitByte_elems.
Qed.

Lemma valid_elem_spec s :
  valid_elem s = true <-> s <> "" /\ s <> "." /\ s <> ".." /\ has_slash s = false.
Proof.
  unfold valid_elem. rewrite !andb_true_iff, !negb_true_iff, !String.eqb_neq. tauto.
Qed.

Lemma valid_elems_no_slash cs :
  Forall (fun c => valid_elem c = true) cs -> Forall (fun c => has_slash c = false) cs.
Proof. intros H. eapply Forall_impl; [exact H|]. intros c Hc. apply valid_elem_spec in Hc. tauto. Qed.

Lemma rel_path_spec p :
  rel_path p = true <->
  exists cs, cs <> [] /\ Forall (fun c => valid_elem c = true) cs /\ p = Join cs "/".
Proof.
  unfold rel_path. rewrite andb_true_iff, negb_true_iff, String.eqb_neq, forallb_Forall.
  split.
  - intros [Hp H]. exists (SplitByte p slash). split; [apply SplitByte_nonempty|].
    split; [done|]. by rewrite Join_SplitByte.
  - intros (cs & Hne & Hcs & ->).
    assert (SplitByte (Join cs "/") slash = cs) as E.
    { apply SplitByte_Join; [done|]. by apply valid_elems_no_slash. }
    rewrite E. split; [|done]. destruct cs as [|c cs]; [done|].
    apply Forall_cons in Hcs as [Hc _]. apply valid_elem_spec in Hc.
    destruct cs; [tauto|]. rewrite Join_cons by done. intros [? _]%sapp_eq_nil. tauto.
Qed.

(** A valid element stays one with anything without a slash behind it. *)
Lemma valid_elem_app s t : valid_elem s = true -> has_slash t = false -> valid_elem (s +:+ t) = true.
Proof.
  intros (H1 & H2 & H3 & H4)%valid_elem_spec Ht. apply valid_elem_spec.
  rewrite has_slash_app, H4, Ht. destruct s as [|a [|b s]]; [done| |]; rewrite ?sapp_cons.
  - split_and!; [done| | |done]; intros [= -> E]; done.
  - split_and!; [done| | |done]; intros E; injection E; [done|]. intros E' -> ->.
    by apply sapp_eq_nil in E' as [-> _].
Qed.

Lemma rel_path_app p t : rel_path p = true -> has_slash t = false -> rel_path (p +:+ t) = true.
Proof.
  intros (cs & Hne & Hcs & ->)%rel_path_spec Ht. apply rel_path_spec.
  destruct (last_snoc_inv cs) as [->|(ds & c & ->)]; [done|].
  apply Forall_app in Hcs as [Hds Hc]. rewrite Forall_singleton in Hc. exists (ds ++ [c +:+ t]).
  split; [by destruct ds|]. split.
  - apply Forall_app. split; [done|]. constructor; [by apply valid_elem_app|done].
  - destruct ds as [|d ds]; [done|]. rewrite !Join_app by done. cbn [Join]. by rewrite !sapp_assoc.
Qed.

(** ** Cleaning *)

Lemma clean_stack_valid rooted stack cs :
  Forall (fun c => valid_elem c = true) cs ->
  clean_stack rooted stack cs = rev cs ++ stack.
Proof.
  intros Hcs. revert stack. unfold clean_stack.
  induction Hcs as [|c cs Hc _ IH]; intros stack; [done|]. cbn [fold_left rev].
  rewrite IH, <- app_assoc. f_equal. cbn. unfold clean_step.
  apply valid_elem_spec in Hc as (H1 & H2 & H3 & _).
  apply String.eqb_neq in H1, H2, H3. by rewrite H1, H2, H3.
Qed.

(** Below an absolute root, cleaning leaves valid elements only. *)
Lemma clean_stack_rooted stack cs :
  Forall (fun c => has_slash c = false) cs ->
  Forall (fun c => valid_elem c = true) stack ->
  Forall (fun c => valid_elem c = true) (clean_stack true stack cs).
Proof.
  intros Hcs. revert stack. unfold clean_stack.
  induction Hcs as [|c cs Hc _ IH]; intros stack Hs; [done|]. cbn [fold_left].
  apply IH. unfold clean_step.
  destruct (String.eqb_spec c ""); [done|]. destruct (String.eqb_spec c "."); [done|]. cbn [orb].
  destruct (String.eqb_spec c "..").
  - destruct Hs as [|top rest Ht Hr]; [done|]. apply valid_elem_spec in Ht.
    destruct (String.eqb_spec top ".."); [tauto|done].
  - constructor; [by apply valid_elem_spec|done].
Qed.

Lemma clean_stack_app rooted stack cs ds :
  clean_stack rooted stack (cs ++ ds) = clean_stack rooted (clean_stack rooted stack cs) ds.
Proof. apply fold_left_app. Qed.

Lemma Join_valid_nonempty cs :
  cs <> [] -> Forall (fun c => valid_elem c = true) cs -> Join cs "/" <> "".
Proof.
  intros Hne Hcs H. assert (rel_path (Join cs "/") = true) as Hr by (apply rel_path_spec; eauto).
  rewrite H in Hr. done.
Qed.

Lemma valid_not_rooted cs :
  Forall (fun c => valid_elem c = true) cs -> is_rooted (Join cs "/") = false.
Proof.
  destruct cs as [|c cs]; [done|]. intros [Hc _]%Forall_cons.
  apply valid_elem_spec in Hc as (H1 & _ & _ & H4).
  destruct c as [|a c]; [done|]. unfold has_slash in H4. cbn in H4.
  assert (a <> slash) as Ha by (intros ->; done).
  assert (exists t, Join (String a c :: cs) "/" = String a t) as [t ->].
  { destruct cs; [by exists c|]. rewrite Join_cons by done. rewrite sapp_cons. eauto. }
  destruct (is_rooted (String a t)) eqn:E; [|done].
  apply HasPrefix_spec in E as [r E]. rewrite sapp_cons in E. by injection E as ->.
Qed.

Lemma Clean_rel p : rel_path p = true -> Clean p = p.
Proof.
  intros (cs & Hne & Hcs & ->)%rel_path_spec. unfold Clean.
  pose proof (Join_valid_nonempty cs Hne Hcs) as Hj.
  destruct (String.eqb_spec (Join cs "/") ""); [done|].
  rewrite SplitByte_Join, valid_not_rooted by (done || by apply valid_elems_no_slash).
  rewrite clean_stack_valid, app_nil_r, rev_involutive by done. unfold unsplit.
  by destruct (String.eqb_spec (Join cs "/") "").
Qed.

(** ** Directories and base names *)

Lemma not_has_slash_prefix s j :
  has_slash s = false -> HasPrefix (str_drop j s) "/" = false.
Proof.
  intros Hs. destruct (HasPrefix _ _) eqn:E; [|done]. exfalso.
  apply HasPrefix_spec in E as [r E].
  rewrite <- (str_take_drop j s), E, !has_slash_app in Hs.
  by rewrite orb_true_r in Hs.
Qed.

Lemma LastIndex_slash b s :
  has_slash s = false -> LastIndex (b +:+ "/" +:+ s) "/" = Some (strlen b).
Proof.
  intros Hs. apply LastIndex_last. intros j.
  change ("/" +:+ s) with (String "/" s). cbn [str_drop]. by apply not_has_slash_prefix.
Qed.

Lemma LastIndex_no_slash s : has_slash s = false -> LastIndex s "/" = None.
Proof.
  intros Hs. destruct (LastIndex s "/") eqn:E; [|done]. exfalso.
  apply LastIndex_Some in E as (b & r & -> & _).
  rewrite !has_slash_app in Hs. by rewrite orb_true_r in Hs.
Qed.

Lemma not_HasSuffix_slash b s :
  has_slash s = false -> s <> "" -> HasSuffix (b +:+ s) "/" = false.
Proof.
  intros Hs Hne. destruct (HasSuffix _ _) eqn:E; [|done]. exfalso.
  apply HasSuffix_spec in E as [c E].
  destruct s as [|s d _] using str_snoc_ind; [done|].
  rewrite <- sapp_assoc in E.
  assert (b +:+ s = c) as Hc.
  { apply (f_equal (str_take (strlen (b +:+ s)))) in E as E'.
    rewrite str_take_app in E'. rewrite E'.
    assert (strlen (b +:+ s) = strlen c) as ->; [|apply str_take_app].
    apply (f_equal strlen) in E. rewrite !(strlen_app _ (String _ "")) in E. cbn in E. lia. }
  subst c. apply sapp_inj_l in E. injection E as ->.
  rewrite has_slash_app in Hs. by rewrite orb_true_r in Hs.
Qed.

Lemma PathBase_app b s : valid_elem s = true -> PathBase (b +:+ "/" +:+ s) = s.
Proof.
  intros Hs%valid_elem_spec. destruct Hs as (Hne & _ & _ & Hs). unfold PathBase.
  destruct (String.eqb_spec (b +:+ "/" +:+ s) "") as [E|_].
  { by apply sapp_eq_nil in E as [_ E]. }
  assert (strip_trailing_slashes (strlen (b +:+ "/" +:+ s)) (b +:+ "/" +:+ s)
          = b +:+ "/" +:+ s) as ->.
  { destruct (strlen _) as [|f]; [done|]. cbn [strip_trailing_slashes].
    rewrite <- sapp_assoc. by rewrite not_HasSuffix_slash. }
  rewrite LastIndex_slash by done.
  replace (S (strlen b)) with (strlen b + 1)%nat by lia. rewrite str_drop_app_plus.
  change (str_drop 1 ("/" +:+ s)) with (str_drop 0 s). rewrite str_drop_0.
  by destruct (String.eqb_spec s "").
Qed.

Lemma Join_snoc cs c : cs <> [] -> Join (cs ++ [c]) "/" = Join cs "/" +:+ "/" +:+ c.
Proof. intros Hne. by rewrite Join_app. Qed.

(** The directory of a root-relative path below a directory. *)
Lemma Dir_snoc cs c :
  cs <> [] -> Forall (fun d => valid_elem d = true) (cs ++ [c]) ->
  Dir (Join (cs ++ [c]) "/") = Join cs "/".
Proof.
  intros Hne [Hcs Hc]%Forall_app. rewrite Forall_singleton in Hc.
  apply valid_elem_spec in Hc as (_ & _ & _ & Hc).
  unfold Dir. rewrite Join_snoc, LastIndex_slash by done.
  assert (str_take (S (strlen (Join cs "/"))) (Join cs "/" +:+ "/" +:+ c)
          = Join cs "/" +:+ "/") as ->.
  { rewrite <- sapp_assoc.
    replace (S (strlen (Join cs "/"))) with (strlen (Join cs "/" +:+ "/")).
    - apply str_take_app.
    - rewrite strlen_app. cbn. lia. }
  unfold Clean. destruct (String.eqb_spec (Join cs "/" +:+ "/") "") as [E|_].
  { by apply sapp_eq_nil in E as [_ E]. }
  assert (Join cs "/" +:+ "/" = Join (cs ++ [""]) "/") as E
    by (rewrite Join_snoc, sapp_nil_r by done; done).
  assert (is_rooted (Join cs "/" +:+ "/") = false) as ->.
  { destruct (is_rooted (Join cs "/" +:+ "/")) eqn:Er; [|done].
    apply HasPrefix_spec in Er as [r Er].
    pose proof (valid_not_rooted cs Hcs) as Hnr.
    destruct (Join cs "/") as [|a t] eqn:Ej; [by apply Join_valid_nonempty in Ej|].
    rewrite !sapp_cons in Er. injection Er as Ea _. subst a.
    assert (is_rooted (String "/" t) = true) as Hr by (apply HasPrefix_spec; by exists t).
    congruence. }
  rewrite E, SplitByte_Join.
  2: { by destruct cs. }
  2: { apply Forall_app. split; [by apply valid_elems_no_slash|by constructor]. }
  rewrite clean_stack_app, (clean_stack_valid false [] cs Hcs), app_nil_r. cbn.
  rewrite rev_involutive. unfold unsplit.
  destruct (String.eqb_spec (Join cs "/") "") as [E'|]; [|done].
  by apply Join_valid_nonempty in E'.
Qed.

Lemma Dir_elem c : has_slash c = false -> Dir c = ".".
Proof. intros Hc. unfold Dir. by rewrite LastIndex_no_slash. Qed.

(** The last element of a cleaned path below any root is the last element of
    the root-relative path. *)
Lemma PathBase_join root cs c :
  root <> "" -> Forall (fun d => valid_elem d = true) (cs ++ [c]) ->
  PathBase (PathJoin root (Join (cs ++ [c]) "/")) = c.
Proof.
  intros Hroot Hall. assert (valid_elem c = true) as Hc.
  { apply Forall_app in Hall as [_ H]. by rewrite Forall_singleton in H. }
  unfold PathJoin. destruct (String.eqb_spec root ""); [done|].
  unfold Clean. destruct (String.eqb_spec (root +:+ "/" +:+ Join (cs ++ [c]) "/") "") as [E|_].
  { by apply sapp_eq_nil in E as [? _]. }
  set (rooted := is_rooted _).
  rewrite SplitByte_app_all, SplitByte_Join.
  2: { by destruct cs. }
  2: { by apply valid_elems_no_slash. }
  rewrite clean_stack_app, clean_stack_valid, rev_app_distr, rev_involutive by done.
  rewrite app_assoc. set (ds := rev _ ++ cs). unfold unsplit.
  apply valid_elem_spec in Hc as Hc'.
  assert (PathBase c = c) as Hbc.
  { change c with ("" +:+ c) at 1. unfold PathBase.
    destruct (String.eqb_spec ("" +:+ c) ""); [tauto|].
    assert (strip_trailing_slashes (strlen ("" +:+ c)) ("" +:+ c) = c) as ->.
    { destruct (strlen _) as [|f]; [done|]. cbn [strip_trailing_slashes].
      by rewrite not_HasSuffix_slash by tauto. }
    rewrite LastIndex_no_slash by tauto. by destruct (String.eqb_spec c ""). }
  destruct ds as [|d ds]; cbn [app].
  - destruct rooted; [by apply (PathBase_app "")|]. cbn.
    destruct (String.eqb_spec c ""); [tauto|done].
  - change (d :: ds ++ [c]) with ((d :: ds) ++ [c]). rewrite Join_snoc by done.
    destruct rooted; [rewrite <- sapp_assoc; by apply PathBase_app|].
    destruct (String.eqb_spec (Join (d :: ds) "/" +:+ "/" +:+ c) "") as [E|_].
    + by apply sapp_eq_nil in E as [_ E].
    + by apply PathBase_app.
Qed.
