(* ===== verification/LocalFS.v ===== *)
(** The local file system as the agent uses it through [os] and
    [path/filepath]: a tree of files and folders addressed by path. Each call
    may also be refused by the host (permissions, I/O errors), which the
    [fs_fault] field decides. Symbolic links are not modelled, and a folder's
    modification time is the one of its creation. *)
From S2P Require Import Prelude.
From S2P Require Import GoStrings.
From S2P Require Import GoRuntime.
From S2P Require Import GoPath.

(** ** Definitions *)

(** The address of an absolute path: its cleaned elements. *)
Definition path_key (p : string) : list string :=
  rev (clean_stack true [] (SplitByte p slash)).

Inductive node :=
| File (mtime : Time) (content : string)
| Folder (mtime : Time).

#[export] Instance node_eq_dec : EqDecision node.
Proof. solve_decision. Defined.

Inductive fsop := FsStat | FsRemove | FsRename | FsMkdir | FsWrite | FsRead | FsWalk.

Record LocalFS := mkFS {
  fs_nodes : gmap (list string) node;
  fs_fault : fsop -> list string -> option error;
  fs_time : Time;
}.

Definition set_nodes (ns : gmap (list string) node) (fs : LocalFS) : LocalFS :=
  mkFS ns (fs_fault fs) (fs_time fs).

(** [os.FileInfo]. *)
Record FileInfo := mkInfo { IsDir : bool; ModTime : Time; Size : Z }.

Definition node_info (n : node) : FileInfo :=
  match n with
  | File t c => mkInfo false t (Z.of_nat (strlen c))
  | Folder t => mkInfo true t 0
  end.

Definition ENOTDIR : error := EText "not a directory".
Definition EISDIR : error := EText "is a directory".
Definition ENOTEMPTY : error := EText "directory not empty".
Definition EINVAL : error := EText "invalid argument".

(** Whether a proper ancestor of [k] is a file. *)
Fixpoint below_file (ns : gmap (list string) node) (done k : list string) : bool :=
  match k with
  | [] | [_] => false
  | c :: rest =>
      match ns !! (done ++ [c]) with
      | Some (File _ _) => true
      | _ => below_file ns (done ++ [c]) rest
      end
  end.

(** The resolution of an address: the node, or [ENOENT]/[ENOTDIR]. *)
Definition resolve (fs : LocalFS) (k : list string) : result node :=
  match fs_nodes fs !! k with
  | Some n => Ok n
  | None => Err (if below_file (fs_nodes fs) [] k then ENOTDIR else ESent ErrNotExist)
  end.

Definition with_fault {A} (op : fsop) (k : list string) (m : ST LocalFS (result A)) :
    ST LocalFS (result A) :=
  fun fs => match fs_fault fs op k with Some e => (Err e, fs) | None => m fs end.

(** [os.Stat] (and [os.Lstat], without symbolic links). *)
Definition os_Stat (p : string) : ST LocalFS (result FileInfo) :=
  let k := path_key p in
  with_fault FsStat k (fun fs =>
    (match resolve fs k with Ok n => Ok (node_info n) | Err e => Err e end, fs)).

Definition list_prefix (k l : list string) : bool := bool_decide (k `prefix_of` l).

Definition has_children (ns : gmap (list string) node) (k : list string) : bool :=
  existsb (fun '(l, _) => list_prefix k l && negb (bool_decide (l = k))) (map_to_list ns).

(** [os.Remove]: a file, or a folder without entries. *)
Definition os_Remove (p : string) : ST LocalFS (result unit) :=
  let k := path_key p in
  with_fault FsRemove k (fun fs =>
    match resolve fs k with
    | Err e => (Err e, fs)
    | Ok (File _ _) => (Ok tt, set_nodes (delete k (fs_nodes fs)) fs)
    | Ok (Folder _) =>
        if has_children (fs_nodes fs) k then (Err ENOTEMPTY, fs)
        else (Ok tt, set_nodes (delete k (fs_nodes fs)) fs)
    end).

Definition parent (k : list string) : list string := removelast k.

(** Moving the node at [k] and everything below it to [l]. *)
Definition move_tree (k l : list string) (ns : gmap (list string) node) :
    gmap (list string) node :=
  list_to_map (map (fun '(m, n) =>
    (if list_prefix k m then l ++ drop (length k) m else m, n))
    (filter (fun '(m, _) => Is_true (negb (bool_decide (m = l)))) (map_to_list ns))).

(** [os.Rename]: a file replaces a file, a folder replaces an empty folder. *)
Definition os_Rename (oldp newp : string) : ST LocalFS (result unit) :=
  let k := path_key oldp in
  let l := path_key newp in
  with_fault FsRename k (fun fs =>
    let ns := fs_nodes fs in
    match resolve fs k with
    | Err e => (Err e, fs)
    | Ok n =>
        match resolve fs (parent l) with
        | Err e => (Err e, fs)
        | Ok (File _ _) => (Err ENOTDIR, fs)
        | Ok (Folder _) =>
            if bool_decide (k = l) then (Ok tt, fs)
            else
              match n, ns !! l with
              | File _ _, Some (Folder _) => (Err EISDIR, fs)
              | File _ _, _ => (Ok tt, set_nodes (<[l := n]> (delete k ns)) fs)
              | Folder _, Some (File _ _) => (Err ENOTDIR, fs)
              | Folder _, o =>
                  if list_prefix k l then (Err EINVAL, fs)
                  else if match o with Some _ => has_children ns l | None => false end
                  then (Err ENOTEMPTY, fs)
                  else (Ok tt, set_nodes (move_tree k l ns) fs)
              end
        end
    end).

(** The folders [os.MkdirAll] walks through, outermost first. *)
Fixpoint mkdirs (t : Time) (ns : gmap (list string) node) (done k : list string) :
    result (gmap (list string) node) :=
  match k with
  | [] => Ok ns
  | c :: rest =>
      match ns !! (done ++ [c]) with
      | Some (File _ _) => Err ENOTDIR
      | Some (Folder _) => mkdirs t ns (done ++ [c]) rest
      | None => mkdirs t (<[done ++ [c] := Folder t]> ns) (done ++ [c]) rest
      end
  end.

(** [os.MkdirAll]; a failure half-way leaves nothing behind here because
    [ENOTDIR] is found before any folder is created. *)
Definition os_MkdirAll (p : string) : ST LocalFS (result unit) :=
  let k := path_key p in
  with_fault FsMkdir k (fun fs =>
    match mkdirs (fs_time fs) (fs_nodes fs) [] k with
    | Ok ns => (Ok tt, set_nodes ns fs)
    | Err e => (Err e, fs)
    end).

(** [os.WriteFile]: creates or truncates. *)
Definition os_WriteFile (p content : string) : ST LocalFS (result unit) :=
  let k := path_key p in
  with_fault FsWrite k (fun fs =>
    match fs_nodes fs !! k with
    | Some (Folder _) => (Err EISDIR, fs)
    | Some (File _ _) =>
        (Ok tt, set_nodes (<[k := File (fs_time fs) content]> (fs_nodes fs)) fs)
    | None =>
        match resolve fs (parent k) with
        | Err e => (Err e, fs)
        | Ok (File _ _) => (Err ENOTDIR, fs)
        | Ok (Folder _) =>
            (Ok tt, set_nodes (<[k := File (fs_time fs) content]> (fs_nodes fs)) fs)
        end
    end).

(** [os.Chtimes]. *)
Definition os_Chtimes (p : string) (t : Time) : ST LocalFS (result unit) :=
  let k := path_key p in
  with_fault FsWrite k (fun fs =>
    match resolve fs k with
    | Err e => (Err e, fs)
    | Ok (File _ c) => (Ok tt, set_nodes (<[k := File t c]> (fs_nodes fs)) fs)
    | Ok (Folder _) => (Ok tt, set_nodes (<[k := Folder t]> (fs_nodes fs)) fs)
    end).

(** [os.Open] and reading to the end. *)
Definition os_ReadFile (p : string) : ST LocalFS (result string) :=
  let k := path_key p in
  with_fault FsRead k (fun fs =>
    match resolve fs k with
    | Err e => (Err e, fs)
    | Ok (File _ c) => (Ok c, fs)
    | Ok (Folder _) => (Err EISDIR, fs)
    end).

Definition is_file (n : node) : bool := match n with File _ _ => true | Folder _ => false end.

(** The path of the address [l] relative to its ancestor [k]
    ([filepath.Rel]). *)
Definition rel_of (k l : list string) : string :=
  if bool_decide (l = k) then "." else Join (drop (length k) l) "/".

(** What [filepath.WalkDir] visits: the node at [k] and everything below it.
    The callers put the entries into maps, so their order is not kept. *)
Definition walk_nodes (k : list string) (ns : gmap (list string) node) :
    list (list string * node) :=
  filter (fun kn => k `prefix_of` fst kn) (map_to_list ns).

Definition os_WalkDir (p : string) : ST LocalFS (result (list (list string * node))) :=
  let k := path_key p in
  with_fault FsWalk k (fun fs =>
    match resolve fs k with
    | Err e => (Err e, fs)
    | Ok _ => (Ok (walk_nodes k (fs_nodes fs)), fs)
    end).

(** [d.Info()] of a visited entry. *)
Definition os_Info (k : list string) : ST LocalFS (result FileInfo) :=
  with_fault FsStat k (fun fs =>
    (match resolve fs k with Ok n => Ok (node_info n) | Err e => Err e end, fs)).

(** ** Lemmas *)

Lemma path_key_valid p : Forall (fun c => valid_elem c = true) (path_key p).
Proof.
  unfold path_key. apply Forall_rev. apply clean_stack_rooted; [apply SplitByte_elems|done].
Qed.

Lemma path_key_sprintf root rel :
  rel_path rel = true -> path_key (root +:+ "/" +:+ rel) = path_key root ++ SplitByte rel slash.
Proof.
  intros (cs & Hne & Hcs & ->)%rel_path_spec. unfold path_key.
  rewrite SplitByte_app_all, clean_stack_app.
  rewrite SplitByte_Join by (done || by apply valid_elems_no_slash).
  by rewrite clean_stack_valid, rev_app_distr, rev_involutive.
Qed.

Lemma path_key_rooted ds :
  Forall (fun c => valid_elem c = true) ds -> path_key ("/" +:+ Join ds "/") = ds.
Proof.
  intros Hds. unfold path_key. change ("/" +:+ Join ds "/") with ("" +:+ "/" +:+ Join ds "/").
  rewrite SplitByte_app by done. destruct ds as [|d ds]; [done|].
  rewrite SplitByte_Join by (done || by apply valid_elems_no_slash).
  change ("" :: d :: ds) with ([""] ++ (d :: ds)).
  rewrite clean_stack_app, clean_stack_valid by done. cbn [clean_stack fold_left clean_step].
  by rewrite app_nil_r, rev_involutive.
Qed.

Lemma is_rooted_app p q : is_rooted p = true -> is_rooted (p +:+ q) = true.
Proof.
  unfold is_rooted. intros [r ->]%HasPrefix_spec. apply HasPrefix_spec. exists (r +:+ q).
  by rewrite sapp_assoc.
Qed.

Lemma Clean_rooted p : is_rooted p = true -> Clean p = "/" +:+ Join (path_key p) "/".
Proof. intros Hp. unfold Clean, path_key, unsplit. rewrite Hp. by destruct p. Qed.

Lemma path_key_Clean p : is_rooted p = true -> path_key (Clean p) = path_key p.
Proof. intros Hp. rewrite Clean_rooted by done. apply path_key_rooted, path_key_valid. Qed.

Lemma PathJoin_rooted root rel :
  is_rooted root = true -> PathJoin root rel = Clean (root +:+ "/" +:+ rel).
Proof. intros Hr. unfold PathJoin. by destruct root. Qed.

Lemma path_key_join root rel :
  is_rooted root = true -> rel_path rel = true ->
  path_key (PathJoin root rel) = path_key root ++ SplitByte rel slash.
Proof.
  intros Hr Hrel. rewrite PathJoin_rooted by done.
  rewrite path_key_Clean by by apply is_rooted_app. by apply path_key_sprintf.
Qed.

(** Distinct root-relative paths have distinct addresses. *)
Lemma path_key_join_inj root r1 r2 :
  is_rooted root = true -> rel_path r1 = true -> rel_path r2 = true ->
  path_key (PathJoin root r1) = path_key (PathJoin root r2) -> r1 = r2.
Proof.
  intros Hr H1 H2. rewrite !path_key_join by done. intros E%app_inv_head.
  by rewrite <- (Join_SplitByte r1), <- (Join_SplitByte r2), E.
Qed.

Lemma has_children_spec ns k :
  has_children ns k = true <-> exists l n, ns !! l = Some n /\ k `prefix_of` l /\ l <> k.
Proof.
  unfold has_children. rewrite existsb_exists. split.
  - intros ([l n] & Hin & H). apply list_elem_of_In, elem_of_map_to_list in Hin.
    apply andb_true_iff in H as [H1 H2]. unfold list_prefix in H1.
    rewrite negb_true_iff in H2. apply bool_decide_eq_true in H1. apply bool_decide_eq_false in H2.
    eauto.
  - intros (l & n & Hl & Hp & Hne). exists (l, n). split.
    + by apply list_elem_of_In, elem_of_map_to_list.
    + unfold list_prefix. rewrite bool_decide_eq_true_2, bool_decide_eq_false_2 by done. done.
Qed.

(** What [os.Remove] can change: the node it removes, which is a file or a
    folder without entries. *)
Lemma os_Remove_spec p fs :
  let k := path_key p in
  match os_Remove p fs with
  | (Ok _, fs') =>
      fs_nodes fs' = delete k (fs_nodes fs) /\
      (exists n, fs_nodes fs !! k = Some n) /\
      (forall t, fs_nodes fs !! k = Some (Folder t) -> has_children (fs_nodes fs) k = false)
  | (Err _, fs') => fs' = fs
  end.
Proof.
  cbn. unfold os_Remove, with_fault, resolve.
  destruct (fs_fault fs FsRemove (path_key p)); [done|].
  destruct (fs_nodes fs !! path_key p) as [[t c|t]|] eqn:E; cbn.
  - split; [done|]. split; [eauto|]. intros t' Ht. congruence.
  - destruct (has_children _ _) eqn:Hc; cbn; [done|]. split; [done|]. split; [eauto|done].
  - by destruct (below_file (fs_nodes fs) [] (path_key p)).
Qed.

Lemma os_Stat_state p fs : snd (os_Stat p fs) = fs.
Proof. unfold os_Stat, with_fault. by destruct (fs_fault fs FsStat (path_key p)). Qed.

Lemma os_WalkDir_state p fs : snd (os_WalkDir p fs) = fs.
Proof.
  unfold os_WalkDir, with_fault. destruct (fs_fault _ _ _); [done|]. by destruct (resolve _ _).
Qed.

Lemma os_Info_state k fs : snd (os_Info k fs) = fs.
Proof. unfold os_Info, with_fault. by destruct (fs_fault _ _ _). Qed.

(** What the writing calls leave alone. *)
Lemma mkdirs_keeps t ns done k ns' l n :
  mkdirs t ns done k = Ok ns' -> ns !! l = Some n -> ns' !! l = Some n.
Proof.
  revert ns done. induction k as [|c k IH]; intros ns done; cbn; [by intros [= ->]|].
  destruct (ns !! (done ++ [c])) as [[]|] eqn:E; [discriminate|apply IH|].
  intros Hm Hl. eapply IH; [exact Hm|]. rewrite lookup_insert_ne; [exact Hl|congruence].
Qed.

Lemma os_MkdirAll_keeps p fs l n :
  fs_nodes fs !! l = Some n -> fs_nodes (snd (os_MkdirAll p fs)) !! l = Some n.
Proof.
  unfold os_MkdirAll, with_fault. destruct (fs_fault _ _ _); [done|].
  destruct (mkdirs _ _ _ _) eqn:E; [|done]. cbn. by eapply mkdirs_keeps.
Qed.

Lemma os_WriteFile_Ok p c fs fs' :
  os_WriteFile p c fs = (Ok tt, fs') ->
  fs_nodes fs' = <[path_key p := File (fs_time fs) c]> (fs_nodes fs).
Proof.
  unfold os_WriteFile, with_fault. intros Hw. destruct (fs_fault _ _ _); [done|].
  destruct (fs_nodes fs !! path_key p) as [[]|]; [by injection Hw as <-|done|].
  destruct (resolve _ _) as [[]|]; [done|by injection Hw as <-|done].
Qed.

Lemma os_Chtimes_Ok p t fs fs' t0 c :
  fs_nodes fs !! path_key p = Some (File t0 c) -> os_Chtimes p t fs = (Ok tt, fs') ->
  fs_nodes fs' = <[path_key p := File t c]> (fs_nodes fs).
Proof.
  unfold os_Chtimes, with_fault, resolve. intros Hk Hw. destruct (fs_fault _ _ _); [done|].
  rewrite Hk in Hw. by injection Hw as <-.
Qed.

Lemma os_WriteFile_keeps p c fs l n :
  fs_nodes fs !! l = Some n -> l <> path_key p ->
  fs_nodes (snd (os_WriteFile p c fs)) !! l = Some n.
Proof.
  intros Hl Hne. unfold os_WriteFile, with_fault. destruct (fs_fault _ _ _); [done|].
  destruct (fs_nodes fs !! path_key p) as [[]|]; cbn; [by rewrite lookup_insert_ne|done|].
  destruct (resolve _ _) as [[]|]; cbn; [done|by rewrite lookup_insert_ne|done].
Qed.

Lemma os_Chtimes_keeps p t fs l n :
  fs_nodes fs !! l = Some n -> l <> path_key p ->
  fs_nodes (snd (os_Chtimes p t fs)) !! l = Some n.
Proof.
  intros Hl Hne. unfold os_Chtimes, with_fault. destruct (fs_fault _ _ _); [done|].
  destruct (resolve _ _) as [[]|]; cbn; [by rewrite lookup_insert_ne..|done].
Qed.

(** Renaming a file. *)
(** A rename that fails changes nothing. *)
Lemma os_Rename_Err p q fs e fs' : os_Rename p q fs = (Err e, fs') -> fs' = fs.
Proof.
  unfold os_Rename, with_fault, resolve. intros Hr. repeat case_match; by inversion Hr.
Qed.

Lemma os_Rename_file p q fs fs' t c :
  os_Rename p q fs = (Ok tt, fs') -> path_key p <> path_key q ->
  fs_nodes fs !! path_key p = Some (File t c) ->
  fs_nodes fs' = <[path_key q := File t c]> (delete (path_key p) (fs_nodes fs)).
Proof.
  unfold os_Rename, with_fault, resolve. intros Hr Hne Hp. destruct (fs_fault _ _ _); [done|].
  rewrite Hp in Hr. destruct (fs_nodes fs !! parent (path_key q)) as [[]|]; [done| |done].
  rewrite bool_decide_eq_false_2 in Hr by done.
  destruct (fs_nodes fs !! path_key q) as [[]|]; by inversion Hr.
Qed.
