(* ===== verification/Remote.v ===== *)
(** [internal/rcloneclient]: the data the sync engine exchanges with a remote
    file system and the [RemoteFS] interface (remotefs.go, errors.go). *)
From S2P Require Import Prelude.
From S2P Require Import GoStrings.
From S2P Require Import GoRuntime.
From S2P Require Import GoFloat.
From S2P Require Import GoPath.
From S2P Require Import LocalFS.

(** ** Data *)

Record RemoteObject := mkRemoteObject {
  ro_Path : string;
  ro_Size : Z;
  ro_ModTime : Time;
  ro_MD5 : string;
  ro_RemoteID : string;
  ro_DryRun : bool;
  ro_IsDir : bool;
}.

#[export] Instance RemoteObject_eq_dec : EqDecision RemoteObject.
Proof. solve_decision. Defined.

(** [RemoteObject{}]. *)
Definition zeroRemoteObject : RemoteObject := mkRemoteObject "" 0 0 "" "" false false.

Record Change := mkChange {
  ch_Path : string;
  ch_Deleted : bool;
  ch_Object : option RemoteObject;
}.

#[export] Instance Change_eq_dec : EqDecision Change.
Proof. solve_decision. Defined.

Record Changes := mkChanges {
  Items : list Change;
  NextPageToken : string;
}.

Record Quota := mkQuota { q_Used : Z; q_Total : Z }.

(** [Quota.UsedPercent]: 0 where the total is zero or unlimited. *)
Definition Quota_UsedPercent (q : Quota) : float64 :=
  if q_Total q <=? 0 then float64_of_Z 0
  else f64_mul (f64_div (float64_of_Z (q_Used q)) (float64_of_Z (q_Total q))) (float64_of_Z 100).

(** ** The interface

    An implementation keeps a state [R]; an upload may read the local file
    system and a download writes to it. The [context] argument is not passed:
    the callers that look at it do so themselves. *)
Class RemoteFS (R : Type) := {
  CopyFile : string -> string -> LocalFS -> ST R (result RemoteObject);
  DeleteFile : string -> ST R (result unit);
  MoveFile : string -> string -> ST R (result unit);
  RemoteStat : string -> ST R (result RemoteObject);
  RemoteList : string -> ST R (result (list RemoteObject));
  ListChanges : string -> ST R (result Changes);
  GetStartPageToken : ST R (result string);
  DownloadFile : string -> string -> ST (R * LocalFS) (result unit);
  RemoteQuota : ST R (result Quota);
}.

(** What the sync engine relies on of a remote: the calls that read it leave
    its tree as it is. [remote_tree] is the tree the remote holds. *)
Class RemoteLaws (R : Type) `{RemoteFS R} (remote_tree : R -> gmap string RemoteObject) := {
  law_stat : forall p r, remote_tree (snd (RemoteStat p r)) = remote_tree r;
  law_list : forall d r, remote_tree (snd (RemoteList d r)) = remote_tree r;
  law_changes : forall t r, remote_tree (snd (ListChanges t r)) = remote_tree r;
  law_start : forall r, remote_tree (snd (GetStartPageToken r)) = remote_tree r;
  law_quota : forall r, remote_tree (snd (RemoteQuota r)) = remote_tree r;
  law_download : forall p l r fs,
    remote_tree (fst (snd (DownloadFile p l (r, fs)))) = remote_tree r;
  law_download_local : forall p l r fs k n,
    fs_nodes fs !! k = Some n -> k <> path_key l ->
    fs_nodes (snd (snd (DownloadFile p l (r, fs)))) !! k = Some n;
}.

Definition retitle (p : string) (o : RemoteObject) : RemoteObject :=
  mkRemoteObject p (ro_Size o) (ro_ModTime o) (ro_MD5 o) (ro_RemoteID o) (ro_DryRun o) (ro_IsDir o).

(** What a successful write does to the tree, on a remote that performs it. *)
Class RemoteWriteLaws (R : Type) `{RemoteFS R} (remote_tree : R -> gmap string RemoteObject) := {
  law_copy : forall src d fs r obj r', CopyFile src d fs r = (Ok obj, r') ->
    remote_tree r' = <[PathJoin d (PathBase src) := obj]> (remote_tree r);
  law_delete : forall p r r', DeleteFile p r = (Ok tt, r') ->
    remote_tree r' = delete p (remote_tree r);
  law_move : forall p q r r', MoveFile p q r = (Ok tt, r') ->
    exists o, remote_tree r !! p = Some o /\
      remote_tree r' = <[q := retitle q o]> (delete p (remote_tree r));
}.

(** What a successful download delivers: the object's content, under its
    modification time where it has one. *)
Class RemoteContent (R : Type) `{RemoteFS R} (remote_tree : R -> gmap string RemoteObject) := {
  remote_content : R -> string -> string;
  law_delivers : forall p l r fs r' fs', DownloadFile p l (r, fs) = (Ok tt, (r', fs')) ->
    exists o t, remote_tree r !! p = Some o /\
      (IsZero (ro_ModTime o) = false -> t = ro_ModTime o) /\
      fs_nodes fs' !! path_key l = Some (File t (remote_content r p));
}.

(** ** Errors *)

(** [NewTokenRejectedErr]. *)
Definition NewTokenRejectedErr (cause : error) : error :=
  EJoin (EJoin (ESent ErrGone) (ESent ErrTokenRejected)) cause.
