(* ===== verification/MemFS.v ===== *)
(** [internal/rcloneclient/memfs.go]: the in-memory [RemoteFS], the reference
    implementation every test of the sync engine runs against. It is also the
    concrete remote of this development's witnesses. *)
From S2P Require Import Prelude.
From S2P Require Import GoStrings.
From S2P Require Import GoRuntime.
From S2P Require Import GoPath.
From S2P Require Import LocalFS.
From S2P Require Import Remote.

(** ** State *)

(** The struct's fields. [m_clock] and [m_ticks] are the injected [Clock] and
    how often it was read; [m_order] is the iteration order of Go's maps, which
    may differ at each iteration. *)
Record MemFS := mkMemFS {
  m_files : gmap string RemoteObject;
  m_clock : nat -> Time;
  m_changes : list Change;
  m_quota : Quota;
  m_idSeq : Z;
  m_startToken : string;
  m_ticks : nat;
  m_order : nat -> list (string * RemoteObject) -> list (string * RemoteObject);
}.

Definition memfs_now : ST MemFS Time := fun m =>
  (m_clock m (m_ticks m),
   mkMemFS (m_files m) (m_clock m) (m_changes m) (m_quota m) (m_idSeq m)
     (m_startToken m) (S (m_ticks m)) (m_order m)).

Definition set_files (fs : gmap string RemoteObject) (m : MemFS) : MemFS :=
  mkMemFS fs (m_clock m) (m_changes m) (m_quota m) (m_idSeq m) (m_startToken m)
    (m_ticks m) (m_order m).

Definition set_quota (q : Quota) (m : MemFS) : MemFS :=
  mkMemFS (m_files m) (m_clock m) (m_changes m) q (m_idSeq m) (m_startToken m)
    (m_ticks m) (m_order m).

Definition set_idSeq (n : Z) (m : MemFS) : MemFS :=
  mkMemFS (m_files m) (m_clock m) (m_changes m) (m_quota m) n (m_startToken m)
    (m_ticks m) (m_order m).

(** ** Operations *)

(** [NewMemFS] with a clock. *)
Definition NewMemFS (clock : nat -> Time)
    (order : nat -> list (string * RemoteObject) -> list (string * RemoteObject)) : MemFS :=
  mkMemFS ∅ clock [] (mkQuota 0 (15 * 1024 * 1024 * 1024)) 0 "start" 0 order.

Definition next_id (m : MemFS) : MemFS := set_idSeq (wrap64 (m_idSeq m + 1)) m.

Definition SeedWithSize (remotePath : string) (mtime : Time) (md5 : string) (size : Z)
    (m : MemFS) : MemFS :=
  let m := next_id m in
  set_files (<[remotePath :=
    mkRemoteObject remotePath size mtime md5 ("id-" +:+ Itoa (m_idSeq m)) false false]>
    (m_files m)) m.

Definition Seed (remotePath : string) (mtime : Time) (md5 : string) (m : MemFS) : MemFS :=
  SeedWithSize remotePath mtime md5 1024 m.

Definition SetQuota (used total : Z) (m : MemFS) : MemFS := set_quota (mkQuota used total) m.

Definition SetStartPageToken (token : string) (m : MemFS) : MemFS :=
  mkMemFS (m_files m) (m_clock m) (m_changes m) (m_quota m) (m_idSeq m) token
    (m_ticks m) (m_order m).

Definition AddChange (c : Change) (m : MemFS) : MemFS :=
  mkMemFS (m_files m) (m_clock m) (m_changes m ++ [c]) (m_quota m) (m_idSeq m)
    (m_startToken m) (m_ticks m) (m_order m).

(** The local file is not read: the object is synthetic. *)
Definition MemFS_CopyFile (src dstDir : string) (_ : LocalFS) :
    ST MemFS (result RemoteObject) := fun m =>
  let remotePath := PathJoin dstDir (PathBase src) in
  let m := next_id m in
  let '(now, m) := memfs_now m in
  let obj := mkRemoteObject remotePath 1024 now ("md5-" +:+ Itoa (m_idSeq m))
               ("id-" +:+ Itoa (m_idSeq m)) false false in
  let m := set_files (<[remotePath := obj]> (m_files m)) m in
  let m := set_quota (mkQuota (wrap64 (q_Used (m_quota m) + ro_Size obj))
                        (q_Total (m_quota m))) m in
  (Ok obj, m).

Definition MemFS_DeleteFile (remotePath : string) : ST MemFS (result unit) := fun m =>
  match m_files m !! remotePath with
  | None => (Err (EWrap ("delete " +:+ remotePath) (ESent ErrNotFound)), m)
  | Some obj =>
      let m := set_quota (mkQuota (wrap64 (q_Used (m_quota m) - ro_Size obj))
                            (q_Total (m_quota m))) m in
      (Ok tt, set_files (delete remotePath (m_files m)) m)
  end.

Definition MemFS_MoveFile (src dst : string) : ST MemFS (result unit) := fun m =>
  match m_files m !! src with
  | None => (Err (EWrap ("move " +:+ src) (ESent ErrNotFound)), m)
  | Some obj =>
      match m_files m !! dst with
      | Some _ => (Err (EWrap ("move to " +:+ dst) (ESent ErrAlreadyExists)), m)
      | None =>
          (Ok tt, set_files (delete src (<[dst := retitle dst obj]> (m_files m))) m)
      end
  end.

Definition MemFS_Stat (remotePath : string) : ST MemFS (result RemoteObject) := fun m =>
  match m_files m !! remotePath with
  | None => (Err (EWrap ("stat " +:+ remotePath) (ESent ErrNotFound)), m)
  | Some obj => (Ok obj, m)
  end.

Fixpoint skip_space (s : string) : string :=
  match s with
  | String c r =>
      if existsb (Nat.eqb (nat_of_ascii c)) [9; 11; 12; 13; 32]%nat then skip_space r else s
  | "" => ""
  end.

Fixpoint digit_prefix (s : string) : string :=
  match s with
  | String c r => if is_digit c then String c (digit_prefix r) else ""
  | "" => ""
  end.

(** [fmt.Sscanf(s, "%d", &n)]: blanks, a sign, and the digits that follow;
    the rest of [s] is not looked at. *)
Definition Sscanf_d (s : string) : option Z :=
  match skip_space s with
  | String "-" r => Atoi ("-" +:+ digit_prefix r)
  | String "+" r => Atoi ("+" +:+ digit_prefix r)
  | r => Atoi (digit_prefix r)
  end.

Definition errBadToken : error := EText "invalid page token".

(** A negative token slices out of range, which panics. *)
Definition panic_slice : error := EText "panic: slice bounds out of range".

Definition MemFS_ListChanges (pageToken : string) : ST MemFS (result Changes) := fun m =>
  let len := Z.of_nat (length (m_changes m)) in
  match (if String.eqb pageToken "" then Some 0 else Sscanf_d pageToken) with
  | None => (Err errBadToken, m)
  | Some startIdx =>
      if len <=? startIdx then (Ok (mkChanges [] (Itoa len)), m)
      else if startIdx <? 0 then (Err panic_slice, m)
      else (Ok (mkChanges (drop (Z.to_nat startIdx) (m_changes m)) (Itoa len)), m)
  end.

Definition MemFS_Quota : ST MemFS (result Quota) := fun m => (Ok (m_quota m), m).

Definition in_dir (clean p : string) : bool :=
  String.eqb (Dir p) clean || (String.eqb clean "" && String.eqb (Dir p) ".").

Definition MemFS_List (dir : string) : ST MemFS (result (list RemoteObject)) := fun m =>
  let clean := if String.eqb dir "" then "" else Clean dir in
  let out := filter (fun '(p, _) => Is_true (in_dir clean p))
               (m_order m (m_ticks m) (map_to_list (m_files m))) in
  (Ok (map snd out),
   mkMemFS (m_files m) (m_clock m) (m_changes m) (m_quota m) (m_idSeq m)
     (m_startToken m) (S (m_ticks m)) (m_order m)).

Definition MemFS_GetStartPageToken : ST MemFS (result string) := fun m =>
  (Ok (m_startToken m), m).

Definition MemFS_DownloadFile (remotePath localPath : string) :
    ST (MemFS * LocalFS) (result unit) := fun '(m, fs) =>
  match m_files m !! remotePath with
  | None => (Err (EWrap ("download " +:+ remotePath) (ESent ErrNotFound)), (m, fs))
  | Some obj =>
      let '(r, fs) :=
        (let? _ := os_MkdirAll (Dir localPath) ?: "mkdirall for " +:+ localPath in
         let? _ := os_WriteFile localPath ("content-of-" +:+ remotePath)
                     ?: "write " +:+ localPath in
         if negb (IsZero (ro_ModTime obj)) then
           let? _ := os_Chtimes localPath (ro_ModTime obj) ?: "chtimes " +:+ localPath in
           st_ret (Ok tt)
         else st_ret (Ok tt)) fs in
      (r, (m, fs))
  end.

#[export] Instance MemFS_RemoteFS : RemoteFS MemFS := {
  CopyFile := MemFS_CopyFile;
  DeleteFile := MemFS_DeleteFile;
  MoveFile := MemFS_MoveFile;
  RemoteStat := MemFS_Stat;
  RemoteList := MemFS_List;
  ListChanges := MemFS_ListChanges;
  GetStartPageToken := MemFS_GetStartPageToken;
  DownloadFile := MemFS_DownloadFile;
  RemoteQuota := MemFS_Quota;
}.

(** ** Invariant

    A run of calls, in the order the mutex serialises them. *)

Inductive memfs_call :=
| CallSeed (p : string) (t : Time) (md5 : string) (size : Z)
| CallCopy (src dstDir : string)
| CallDelete (p : string)
| CallMove (src dst : string)
| CallList (dir : string)
| CallAddChange (c : Change)
| CallSetQuota (used total : Z)
| CallSetStart (token : string).

Definition memfs_step (c : memfs_call) (m : MemFS) : MemFS :=
  match c with
  | CallSeed p t md5 size => SeedWithSize p t md5 size m
  | CallCopy src dstDir =>
      snd (MemFS_CopyFile src dstDir (mkFS ∅ (fun _ _ => None) 0) m)
  | CallDelete p => snd (MemFS_DeleteFile p m)
  | CallMove src dst => snd (MemFS_MoveFile src dst m)
  | CallList dir => snd (MemFS_List dir m)
  | CallAddChange c => AddChange c m
  | CallSetQuota used total => SetQuota used total m
  | CallSetStart token => SetStartPageToken token m
  end.

Definition memfs_run (cs : list memfs_call) (m : MemFS) : MemFS :=
  fold_left (fun m c => memfs_step c m) cs m.

(** Every object is filed under its own path, and its id was issued to it
    alone. *)
Record memfs_ok (m : MemFS) : Prop := {
  ok_path : forall p o, m_files m !! p = Some o -> ro_Path o = p;
  ok_id : forall p o, m_files m !! p = Some o ->
    exists n, 1 <= n <= m_idSeq m /\ ro_RemoteID o = "id-" +:+ Itoa n;
  ok_unique : forall p q o o', m_files m !! p = Some o -> m_files m !! q = Some o' ->
    ro_RemoteID o = ro_RemoteID o' -> p = q;
}.

Lemma id_inj n k : 0 <= n -> 0 <= k -> "id-" +:+ Itoa n = "id-" +:+ Itoa k -> n = k.
Proof. intros Hn Hk E%sapp_inj_l. by apply Itoa_inj. Qed.

(** The invariant reads only the files and the id counter. *)
Lemma memfs_ok_eq m m' :
  m_files m' = m_files m -> m_idSeq m' = m_idSeq m -> memfs_ok m -> memfs_ok m'.
Proof.
  intros Ef Ei [H1 H2 H3]. constructor.
  - intros p o. rewrite Ef. apply H1.
  - intros p o. rewrite Ef, Ei. apply H2.
  - intros p q o o'. rewrite Ef. apply H3.
Qed.

(** Filing a new object under a fresh id. *)
Lemma memfs_ok_insert m p o m' :
  memfs_ok m -> 0 <= m_idSeq m ->
  ro_Path o = p -> ro_RemoteID o = "id-" +:+ Itoa (m_idSeq m + 1) ->
  m_files m' = <[p := o]> (m_files m) -> m_idSeq m' = m_idSeq m + 1 ->
  memfs_ok m'.
Proof.
  intros [H1 H2 H3] Hn Hp Hid Ef Ei.
  assert (forall q o', m_files m !! q = Some o' -> ro_RemoteID o' <> ro_RemoteID o) as Hfresh.
  { intros q o' Hq E. destruct (H2 q o' Hq) as (n & Hb & En).
    rewrite En, Hid in E. apply id_inj in E; lia. }
  constructor; intros q; rewrite Ef; [| |intros q2]; rewrite ?Ei.
  - intros o' [[<- <-]|[_ ?]]%lookup_insert_Some; [done|by apply H1].
  - intros o' [[<- <-]|[_ Hq]]%lookup_insert_Some.
    + exists (m_idSeq m + 1). split; [lia|done].
    + destruct (H2 q o' Hq) as (n & ? & ?). exists n. split; [lia|done].
  - intros o1 o2 [[<- <-]|[Hne Hq]]%lookup_insert_Some [[<- <-]|[Hne2 Hq2]]%lookup_insert_Some E.
    + done.
    + by destruct (Hfresh _ _ Hq2).
    + by destruct (Hfresh _ _ Hq).
    + by eapply H3.
Qed.

Lemma memfs_ok_delete m p m' :
  memfs_ok m -> m_files m' = delete p (m_files m) -> m_idSeq m' = m_idSeq m -> memfs_ok m'.
Proof.
  intros [H1 H2 H3] Ef Ei. constructor; intros q; rewrite Ef; [| |intros q2]; rewrite ?Ei.
  - intros o [_ Hq]%lookup_delete_Some. by apply H1.
  - intros o [_ Hq]%lookup_delete_Some. by eapply H2.
  - intros o1 o2 [_ Hq]%lookup_delete_Some [_ Hq2]%lookup_delete_Some. by eapply H3.
Qed.

Lemma memfs_ok_move m src dst m' o :
  memfs_ok m -> m_files m !! src = Some o -> m_files m !! dst = None ->
  m_files m' = delete src (<[dst := retitle dst o]> (m_files m)) ->
  m_idSeq m' = m_idSeq m -> memfs_ok m'.
Proof.
  intros [H1 H2 H3] Hsrc Hdst Ef Ei.
  constructor; intros q; rewrite Ef; [| |intros q2]; rewrite ?Ei.
  - intros o' [_ [[<- <-]|[_ Hq]]%lookup_insert_Some]%lookup_delete_Some; [done|by apply H1].
  - intros o' [_ [[<- <-]|[_ Hq]]%lookup_insert_Some]%lookup_delete_Some; [|by eapply H2].
    cbn. by eapply H2.
  - intros o1 o2 [Hs1 [[<- <-]|[_ Hq]]%lookup_insert_Some]%lookup_delete_Some
      [Hs2 [[<- <-]|[_ Hq2]]%lookup_insert_Some]%lookup_delete_Some E; cbn in E.
    + done.
    + by destruct Hs2; apply (H3 _ _ _ _ Hsrc Hq2).
    + by destruct Hs1; apply (H3 _ _ _ _ Hsrc Hq).
    + by eapply H3.
Qed.

Lemma memfs_step_ok c m :
  memfs_ok m -> 0 <= m_idSeq m < max_int64 ->
  memfs_ok (memfs_step c m) /\ 0 <= m_idSeq (memfs_step c m) <= m_idSeq m + 1.
Proof.
  intros Hok Hb.
  assert (wrap64 (m_idSeq m + 1) = m_idSeq m + 1) as Hw.
  { apply wrap64_id. unfold in_int64, min_int64, max_int64 in *. lia. }
  assert (m_idSeq (next_id m) = m_idSeq m + 1) as Hn by exact Hw.
  destruct c; cbn -[next_id].
  - split; [|rewrite Hn; lia]. unfold SeedWithSize. rewrite Hn.
    eapply (memfs_ok_insert m p); [done|lia| | |reflexivity|exact Hn]; reflexivity.
  - split; [|rewrite Hn; lia]. unfold MemFS_CopyFile. cbn -[next_id]. rewrite Hn.
    eapply (memfs_ok_insert m); [done|lia| | |reflexivity|reflexivity]; reflexivity.
  - unfold MemFS_DeleteFile. destruct (m_files m !! p) eqn:E; cbn; [|split; [done|lia]].
    split; [|lia]. by eapply memfs_ok_delete.
  - unfold MemFS_MoveFile. destruct (m_files m !! src) eqn:E; cbn; [|split; [done|lia]].
    destruct (m_files m !! dst) eqn:E2; cbn; [split; [done|lia]|].
    split; [|lia]. by eapply memfs_ok_move.
  - split; [by apply (memfs_ok_eq m)|lia].
  - split; [by apply (memfs_ok_eq m)|lia].
  - split; [by apply (memfs_ok_eq m)|lia].
  - split; [by apply (memfs_ok_eq m)|lia].
Qed.

(** C40: whatever calls are made on a new in-memory remote, in whatever order,
    every object stays filed under its own [Path] and no two paths share a
    [RemoteID] (up to the overflow of the [int64] id counter). *)
Theorem MemFS_paths_and_ids clock order cs :
  Z.of_nat (length cs) <= max_int64 -> memfs_ok (memfs_run cs (NewMemFS clock order)).
Proof.
  intros Hlen.
  enough (forall m, memfs_ok m -> 0 <= m_idSeq m ->
            m_idSeq m + Z.of_nat (length cs) <= max_int64 -> memfs_ok (memfs_run cs m)) as H.
  { apply H; cbn; [|lia|lia]. by constructor; intros ? *; cbn; rewrite lookup_empty. }
  clear Hlen. unfold memfs_run. induction cs as [|c cs IH]; intros m Hok H0 Hb; [done|].
  cbn [fold_left]. cbn [length] in Hb.
  destruct (memfs_step_ok c m Hok) as [Hok' Hb']; [lia|]. apply IH; [done|lia|lia].
Qed.

Definition const_order (_ : nat) (l : list (string * RemoteObject)) := l.

Lemma MemFS_paths_and_ids_witness :
  memfs_ok (memfs_run [CallCopy "/home/a.txt" "docs"; CallMove "docs/a.txt" "docs/b.txt";
                       CallCopy "/home/a.txt" "docs"] (NewMemFS (fun _ => 7) const_order)).
Proof. apply MemFS_paths_and_ids. vm_compute. discriminate. Defined.

#[export] Instance MemFS_RemoteLaws : RemoteLaws MemFS m_files.
Proof.
  constructor; cbn.
  - intros p r. unfold MemFS_Stat. by destruct (_ !! _).
  - done.
  - intros t r. unfold MemFS_ListChanges. destruct (if String.eqb t "" then _ else _); [|done].
    destruct (_ <=? _); [done|]. by destruct (_ <? _).
  - done.
  - done.
  - intros p l r fs. destruct (m_files r !! p); [|done].
    by destruct (st_try _ _ _ fs).
  - intros p l r fs k n Hk Hne. destruct (m_files r !! p) as [o|]; [|done].
    unfold st_try at 1. pose proof (os_MkdirAll_keeps (Dir l) fs k n Hk) as H1.
    destruct (os_MkdirAll (Dir l) fs) as [[[]|] fs1]; [|done]. cbn [snd] in H1.
    unfold st_try at 1.
    pose proof (os_WriteFile_keeps l ("content-of-" +:+ p) fs1 k n H1 Hne) as H2.
    destruct (os_WriteFile l _ fs1) as [[[]|] fs2]; [|done]. cbn [snd] in H2.
    destruct (negb _); [|done]. unfold st_try.
    pose proof (os_Chtimes_keeps l (ro_ModTime o) fs2 k n H2 Hne) as H3.
    by destruct (os_Chtimes l _ fs2) as [[[]|] fs3].
Qed.

Lemma MemFS_download_exact p l m fs m' fs' :
  MemFS_DownloadFile p l (m, fs) = (Ok tt, (m', fs')) ->
  m' = m /\ exists o t, m_files m !! p = Some o /\
    (IsZero (ro_ModTime o) = false -> t = ro_ModTime o) /\
    fs_nodes fs' = <[path_key l := File t ("content-of-" +:+ p)]> (fs_nodes (snd (os_MkdirAll (Dir l) fs))).
Proof.
  unfold MemFS_DownloadFile. destruct (m_files m !! p) as [o|]; [|done].
  destruct (st_try _ _ _ fs) as [r fs3] eqn:E. intros [= -> <- <-]. split; [done|].
  apply st_try_Ok in E as ([] & fs1 & Hm & E). rewrite Hm. cbn [snd].
  apply st_try_Ok in E as ([] & fs2 & Hw%os_WriteFile_Ok & E). exists o.
  destruct (IsZero (ro_ModTime o)) eqn:Ez; cbn [negb] in E.
  - injection E as <-. exists (fs_time fs1). by split_and!.
  - apply st_try_Ok in E as ([] & fs4 & Hc & [= <-]).
    eapply os_Chtimes_Ok in Hc; [|by rewrite Hw, lookup_insert_eq].
    exists (ro_ModTime o). split_and!; [done|done|]. by rewrite Hc, Hw, insert_insert_eq.
Qed.

#[export] Instance MemFS_RemoteContent : RemoteContent MemFS m_files.
Proof.
  refine {| remote_content := fun _ p => "content-of-" +:+ p |}; cbn.
  intros p l m fs m' fs' (_ & o & t & Ho & Ht & E)%MemFS_download_exact.
  exists o, t. split_and!; [done|done|]. by rewrite E, lookup_insert_eq.
Defined.

#[export] Instance MemFS_WriteLaws : RemoteWriteLaws MemFS m_files.
Proof.
  constructor; cbn.
  - by intros src d fs r obj r' [= <- <-].
  - intros p r r'. unfold MemFS_DeleteFile. destruct (m_files r !! p); by intros [= <-].
  - intros p q r r'. unfold MemFS_MoveFile. destruct (m_files r !! p) as [o|] eqn:E; [|done].
    destruct (m_files r !! q) eqn:E'; [done|]. intros [= <-]. exists o. split; [done|].
    cbn. apply delete_insert_ne. congruence.
Qed.
