(* ===== verification/FsWrappers.v ===== *)
(** The two decorators of [internal/rcloneclient]: [DryRunFS] (dryrunfs.go),
    which answers writes without performing them, and [FlakyFS] (flakyfs.go),
    which injects failures. Both are proved against the [RemoteFS] interface
    of whatever they wrap. *)
From S2P Require Import Prelude.
From S2P Require Import GoStrings.
From S2P Require Import GoRuntime.
From S2P Require Import GoPath.
From S2P Require Import LocalFS.
From S2P Require Import Remote.
From S2P Require Import MemFS.

(** ** A run of calls on any remote *)

Inductive remote_call :=
| RCopy (src dstDir : string)
| RDelete (p : string)
| RMove (src dst : string)
| RStat (p : string)
| RList (dir : string)
| RChanges (token : string)
| RStart
| RDownload (remotePath localPath : string)
| RQuota.

Definition on_fst {A B C} (m : ST A C) : ST (A * B) unit := fun '(a, b) =>
  let '(_, a) := m a in (tt, (a, b)).

Definition do_call {R} `{RemoteFS R} (c : remote_call) : ST (R * LocalFS) unit :=
  match c with
  | RCopy src dstDir => fun '(r, fs) => on_fst (CopyFile src dstDir fs) (r, fs)
  | RDelete p => on_fst (DeleteFile p)
  | RMove src dst => on_fst (MoveFile src dst)
  | RStat p => on_fst (RemoteStat p)
  | RList dir => on_fst (RemoteList dir)
  | RChanges token => on_fst (ListChanges token)
  | RStart => on_fst GetStartPageToken
  | RDownload rp lp => fun w => let '(_, w) := DownloadFile rp lp w in (tt, w)
  | RQuota => on_fst RemoteQuota
  end.

Definition run_calls {R} `{RemoteFS R} (cs : list remote_call) (w : R * LocalFS) : R * LocalFS :=
  fold_left (fun w c => snd (do_call c w)) cs w.

(** ** DryRunFS *)

Section DryRun.
Context {R : Type} `{RemoteFS R}.

Record DryRunFS := mkDryRunFS { dry_inner : R }.

Definition dry_read {A} (m : ST R A) : ST DryRunFS A := fun d =>
  let '(a, r) := m (dry_inner d) in (a, mkDryRunFS r).

Definition DryRunFS_CopyFile (src dstDir : string) (_ : LocalFS) :
    ST DryRunFS (result RemoteObject) :=
  st_ret (Ok (mkRemoteObject (PathJoin dstDir (PathBase src)) 0 0 "" "" true false)).

Definition DryRunFS_DeleteFile (_ : string) : ST DryRunFS (result unit) := st_ret (Ok tt).

Definition DryRunFS_MoveFile (_ _ : string) : ST DryRunFS (result unit) := st_ret (Ok tt).

Definition DryRunFS_DownloadFile (remotePath localPath : string) :
    ST (DryRunFS * LocalFS) (result unit) := fun '(d, fs) =>
  let '(a, (r, fs)) := DownloadFile remotePath localPath (dry_inner d, fs) in
  (a, (mkDryRunFS r, fs)).

#[export] Instance DryRunFS_RemoteFS : RemoteFS DryRunFS := {
  CopyFile := DryRunFS_CopyFile;
  DeleteFile := DryRunFS_DeleteFile;
  MoveFile := DryRunFS_MoveFile;
  RemoteStat := fun p => dry_read (RemoteStat p);
  RemoteList := fun d => dry_read (RemoteList d);
  ListChanges := fun t => dry_read (ListChanges t);
  GetStartPageToken := dry_read GetStartPageToken;
  DownloadFile := DryRunFS_DownloadFile;
  RemoteQuota := dry_read RemoteQuota;
}.

Lemma dry_read_tree {A} tree (m : ST R A) d :
  (forall r, tree (snd (m r)) = tree r :> gmap string RemoteObject) ->
  tree (dry_inner (snd (dry_read m d))) = tree (dry_inner d).
Proof.
  intros Hm. unfold dry_read. specialize (Hm (dry_inner d)). by destruct (m (dry_inner d)).
Qed.

Lemma do_call_dry c tree `{!RemoteLaws R tree} d fs :
  tree (dry_inner (fst (snd (do_call c (d, fs))))) = tree (dry_inner d).
Proof.
  assert (forall A (m : ST DryRunFS A), tree (dry_inner (snd (m d))) = tree (dry_inner d) ->
            tree (dry_inner (fst (snd (on_fst (B := LocalFS) m (d, fs))))) = tree (dry_inner d))
    as Hfst.
  { intros A m Hm. cbn. by destruct (m d). }
  destruct c; try (apply Hfst; cbn; done).
  - apply Hfst, dry_read_tree, law_stat.
  - apply Hfst, dry_read_tree, law_list.
  - apply Hfst, dry_read_tree, law_changes.
  - apply Hfst, dry_read_tree, law_start.
  - cbn. pose proof (law_download remotePath localPath (dry_inner d) fs) as Hd.
    by destruct (DownloadFile remotePath localPath (dry_inner d, fs)) as [? [? ?]].
  - apply Hfst, dry_read_tree, law_quota.
Qed.

End DryRun.
Arguments DryRunFS : clear implicits.

(** Through [DryRunFS] no sequence of calls, uploads, deletes and moves
    included, changes the tree of the wrapped remote. *)
Theorem DryRunFS_never_writes {R} `{RemoteFS R} tree `{!RemoteLaws R tree} cs r fs :
  tree (dry_inner (fst (run_calls cs (mkDryRunFS r, fs)))) = tree r.
Proof.
  change (tree r) with (tree (dry_inner (mkDryRunFS r))).
  generalize (mkDryRunFS r) as d. revert fs. unfold run_calls.
  induction cs as [|c cs IH]; intros fs d; [done|]. cbn [fold_left].
  pose proof (do_call_dry c tree d fs) as Hc.
  destruct (snd (do_call c (d, fs))) as [d' fs']. cbn [fst] in Hc. by rewrite IH.
Qed.

Lemma DryRunFS_never_writes_witness :
  let m := Seed "a" 5 "x" (NewMemFS (fun _ => 7) const_order) in
  m_files (dry_inner (fst (run_calls [RDelete "a"; RMove "a" "b"; RCopy "/l/c" ""; RStat "a"]
    (mkDryRunFS m, mkFS ∅ (fun _ _ => None) 0)))) = m_files m.
Proof. intros m. exact (DryRunFS_never_writes m_files _ m _). Defined.

(** ** FlakyFS *)

Record FlakyAction := mkFlakyAction {
  fa_Err : option error;
  fa_Delay : Duration;
  fa_Timeout : bool;
}.

Record FlakyRule := mkFlakyRule {
  fr_Method : string;
  fr_Match : option (string -> string -> bool);
  fr_Action : FlakyAction;
}.

(** The caller's context: how long until it is done, what it then reports, and
    how Go's [select] breaks a tie. A context that is never done would leave a
    [Timeout] action blocked for ever; it has no value here. *)
Record FlakyCtx := mkFlakyCtx { fc_left : Duration; fc_err : error; fc_tie : bool }.

Section Flaky.
Context {R : Type} `{RemoteFS R}.

Record FlakyFS := mkFlakyFS { flaky_inner : R; flaky_rules : list FlakyRule; flaky_ctx : FlakyCtx }.

Definition SetRules (rules : list FlakyRule) (f : FlakyFS) : FlakyFS :=
  mkFlakyFS (flaky_inner f) rules (flaky_ctx f).

Definition ClearRules (f : FlakyFS) : FlakyFS := SetRules [] f.

Definition executeAction (ctx : FlakyCtx) (a : FlakyAction) : option error :=
  if fa_Timeout a then Some (fc_err ctx)
  else if (0 <? fa_Delay a) &&
          ((fc_left ctx <? fa_Delay a) || ((fc_left ctx =? fa_Delay a) && fc_tie ctx))
  then Some (fc_err ctx)
  else fa_Err a.

Fixpoint applyRules (ctx : FlakyCtx) (rules : list FlakyRule) (method firstArg : string) :
    option error :=
  match rules with
  | [] => None
  | r :: rules =>
      if negb (String.eqb (fr_Method r) "*") && negb (String.eqb (fr_Method r) method)
      then applyRules ctx rules method firstArg
      else if match fr_Match r with Some f => negb (f method firstArg) | None => false end
      then applyRules ctx rules method firstArg
      else executeAction ctx (fr_Action r)
  end.

Definition applyRule (f : FlakyFS) (method firstArg : string) : option error :=
  applyRules (flaky_ctx f) (flaky_rules f) method firstArg.

(** Every method consults the rules first and then the wrapped remote. *)
Definition flaky {A} (method firstArg : string) (m : ST R (result A)) :
    ST FlakyFS (result A) := fun f =>
  match applyRule f method firstArg with
  | Some e => (Err e, f)
  | None => let '(a, r) := m (flaky_inner f) in (a, mkFlakyFS r (flaky_rules f) (flaky_ctx f))
  end.

Definition FlakyFS_CopyFile (src dstDir : string) (fs : LocalFS) :=
  flaky "CopyFile" src (CopyFile src dstDir fs).

Definition FlakyFS_DeleteFile (path : string) := flaky "DeleteFile" path (DeleteFile path).

Definition FlakyFS_MoveFile (src dst : string) := flaky "MoveFile" src (MoveFile src dst).

Definition FlakyFS_Stat (path : string) := flaky "Stat" path (RemoteStat path).

Definition FlakyFS_List (dir : string) := flaky "List" dir (RemoteList dir).

Definition FlakyFS_ListChanges (token : string) := flaky "ListChanges" token (ListChanges token).

Definition FlakyFS_GetStartPageToken := flaky "GetStartPageToken" "" GetStartPageToken.

Definition FlakyFS_DownloadFile (remotePath localPath : string) :
    ST (FlakyFS * LocalFS) (result unit) := fun '(f, fs) =>
  match applyRule f "DownloadFile" remotePath with
  | Some e => (Err e, (f, fs))
  | None =>
      let '(a, (r, fs)) := DownloadFile remotePath localPath (flaky_inner f, fs) in
      (a, (mkFlakyFS r (flaky_rules f) (flaky_ctx f), fs))
  end.

Definition FlakyFS_Quota := flaky "Quota" "" RemoteQuota.

#[export] Instance FlakyFS_RemoteFS : RemoteFS FlakyFS := {
  CopyFile := FlakyFS_CopyFile;
  DeleteFile := FlakyFS_DeleteFile;
  MoveFile := FlakyFS_MoveFile;
  RemoteStat := FlakyFS_Stat;
  RemoteList := FlakyFS_List;
  ListChanges := FlakyFS_ListChanges;
  GetStartPageToken := FlakyFS_GetStartPageToken;
  DownloadFile := FlakyFS_DownloadFile;
  RemoteQuota := FlakyFS_Quota;
}.

(** Rules that cannot fail the call they match: no error, and a delay that
    ends before the context does. *)
Definition harmless (ctx : FlakyCtx) (r : FlakyRule) : Prop :=
  executeAction ctx (fr_Action r) = None.

Lemma applyRules_harmless ctx rules method arg :
  Forall (harmless ctx) rules -> applyRules ctx rules method arg = None.
Proof.
  induction 1 as [|r rules Hr _ IH]; [done|]. cbn.
  destruct (_ && _); [done|].
  destruct (fr_Match r) as [f|]; [destruct (f method arg); cbn; done|done].
Qed.

Lemma flaky_transparent {A} method arg (m : ST R (result A)) f :
  Forall (harmless (flaky_ctx f)) (flaky_rules f) ->
  flaky method arg m f =
  (fst (m (flaky_inner f)),
   mkFlakyFS (snd (m (flaky_inner f))) (flaky_rules f) (flaky_ctx f)).
Proof.
  intros Hr. unfold flaky, applyRule. rewrite applyRules_harmless by done.
  by destruct (m (flaky_inner f)).
Qed.

Lemma do_call_flaky c f fs :
  Forall (harmless (flaky_ctx f)) (flaky_rules f) ->
  snd (do_call c (f, fs)) =
  let '(r, fs') := snd (do_call c (flaky_inner f, fs)) in
  (mkFlakyFS r (flaky_rules f) (flaky_ctx f), fs').
Proof.
  intros Hr.
  assert (forall A method arg (m : ST R (result A)),
    snd (on_fst (flaky method arg m) (f, fs)) =
    let '(r, fs') := snd (on_fst (B := LocalFS) m (flaky_inner f, fs)) in
    (mkFlakyFS r (flaky_rules f) (flaky_ctx f), fs')) as Hfst.
  { intros A method arg m. cbn. rewrite flaky_transparent by done.
    by destruct (m (flaky_inner f)). }
  destruct c; try apply Hfst.
  cbn. unfold applyRule. rewrite applyRules_harmless by done.
  by destruct (DownloadFile remotePath localPath (flaky_inner f, fs)) as [? [? ?]].
Qed.

End Flaky.
Arguments FlakyFS : clear implicits.
Arguments mkFlakyFS {R} _ _ _.

(** With rules that cannot fail a call, [FlakyFS] is transparent: any run
    of calls leaves the wrapped remote and the local file system exactly where
    the same run on the wrapped remote would. *)
Theorem FlakyFS_transparent {R} `{RemoteFS R} rules ctx cs r fs :
  Forall (harmless ctx) rules ->
  run_calls cs (mkFlakyFS r rules ctx, fs) =
  let '(r', fs') := run_calls cs (r, fs) in (mkFlakyFS r' rules ctx, fs').
Proof.
  intros Hr. unfold run_calls. revert r fs.
  induction cs as [|c cs IH]; intros r fs; [done|]. cbn [fold_left].
  rewrite (do_call_flaky c (mkFlakyFS r rules ctx) fs Hr). cbn [flaky_inner flaky_rules flaky_ctx].
  destruct (snd (do_call c (r, fs))) as [r' fs']. apply IH.
Qed.

Lemma FlakyFS_transparent_witness :
  let m := NewMemFS (fun _ => 7) const_order in
  let fs := mkFS ∅ (fun _ _ => None) 0 in
  let rules := [mkFlakyRule "*" None (mkFlakyAction None 5 false)] in
  let ctx := mkFlakyCtx 6 (ESent ErrCanceled) true in
  run_calls [RCopy "/l/c" ""; RStat "c"] (mkFlakyFS m rules ctx, fs) =
  let '(r', fs') := run_calls [RCopy "/l/c" ""; RStat "c"] (m, fs) in (mkFlakyFS r' rules ctx, fs').
Proof. apply FlakyFS_transparent. by repeat constructor. Defined.
