(* ===== verification/Bolt.v ===== *)
(** What the journal uses of the embedded key/value database [bbolt], which is
    not part of the sources: buckets of byte strings in key order, read through
    [View] and changed through [Update], whose transaction is rolled back when
    its function fails. The database is a parameter; [BoltLaws] states the
    documented behaviour the journal relies on and [MemBolt] is one database
    that has it. *)
From S2P Require Import Prelude.
From S2P Require Import GoStrings.
From S2P Require Import GoRuntime.

(** ** Journal entries and their stored form (store/journal.go) *)

Record JournalEntry := mkJournalEntry {
  je_Path : string;
  je_LocalMtime : Time;
  je_RemoteMtime : Time;
  je_RemoteMD5 : string;
  je_RemoteID : string;
  je_LastSyncedAt : Time;
  je_LastOrigin : string;
}.

#[export] Instance JournalEntry_eq_dec : EqDecision JournalEntry.
Proof. solve_decision. Defined.

Definition with_path (p : string) (e : JournalEntry) : JournalEntry :=
  mkJournalEntry p (je_LocalMtime e) (je_RemoteMtime e) (je_RemoteMD5 e) (je_RemoteID e)
    (je_LastSyncedAt e) (je_LastOrigin e).

(** The bytes of a value of the journal bucket: the JSON document of an entry,
    identified with the entry it decodes to, or bytes [json.Unmarshal] rejects. *)
Inductive value :=
| Encoded (e : JournalEntry)
| Garbage (bytes : string).

(** [time.Time.MarshalJSON] refuses years outside [0,9999]. *)
Definition json_time_ok (t : Time) : bool := (- 366 * 24 * Hour <=? t) && (t <? year_10000).

(** [encoding/json] replaces invalid UTF-8 in strings. *)
Definition json_norm (e : JournalEntry) : JournalEntry :=
  mkJournalEntry (to_valid_utf8 (je_Path e)) (je_LocalMtime e) (je_RemoteMtime e)
    (to_valid_utf8 (je_RemoteMD5 e)) (to_valid_utf8 (je_RemoteID e))
    (je_LastSyncedAt e) (to_valid_utf8 (je_LastOrigin e)).

Definition json_Marshal (e : JournalEntry) : result value :=
  if json_time_ok (je_LocalMtime e) && json_time_ok (je_RemoteMtime e)
     && json_time_ok (je_LastSyncedAt e)
  then Ok (Encoded (json_norm e))
  else Err (EText "Time.MarshalJSON: year outside of range [0,9999]").

Definition json_Unmarshal (v : value) : result JournalEntry :=
  match v with
  | Encoded e => Ok e
  | Garbage _ => Err (EText "invalid character in JSON input")
  end.

(** ** Key order *)

(** [bytes.Compare(s, t) < 0]. *)
Fixpoint str_ltb (s t : string) : bool :=
  match s, t with
  | _, "" => false
  | "", String _ _ => true
  | String a s, String b t =>
      if (nat_of_ascii a <? nat_of_ascii b)%nat then true
      else if (nat_of_ascii b <? nat_of_ascii a)%nat then false
      else str_ltb s t
  end.

Definition str_le (s t : string) : Prop := str_ltb t s = false.

#[export] Instance str_le_dec s t : Decision (str_le s t).
Proof. unfold str_le. apply _. Defined.

Definition key_le {V} (x y : string * V) : Prop := str_le (fst x) (fst y).

#[export] Instance key_le_dec {V} (x y : string * V) : Decision (key_le x y).
Proof. unfold key_le. apply _. Defined.

(** The entries of a bucket in key order, from the first key at or after [k]. *)
Definition sorted_entries {V} (m : gmap string V) : list (string * V) :=
  merge_sort key_le (map_to_list m).

Definition sorted_from {V} (k : string) (m : gmap string V) : list (string * V) :=
  filter (fun kv => str_le k (fst kv)) (sorted_entries m).

(** ** The database *)

Inductive bucket := BJournal | BMeta.

#[export] Instance bucket_eq_dec : EqDecision bucket.
Proof. solve_decision. Defined.

Definition bucket_val (b : bucket) : Type :=
  match b with BJournal => value | BMeta => string end.

Class Bolt (DB : Type) := {
  Tx : Type;
  bolt_begin : DB -> result Tx;
  bolt_commit : DB -> Tx -> result DB;
  bolt_close : ST DB (result unit);
  tx_has : bucket -> Tx -> bool;
  tx_create : bucket -> Tx -> result Tx;
  tx_get : forall b, Tx -> string -> option (bucket_val b);
  tx_put : forall b, string -> bucket_val b -> Tx -> result Tx;
  tx_delete : bucket -> string -> Tx -> result Tx;
  tx_seek : forall b, Tx -> string -> list (string * bucket_val b);
}.

Section transactions.
Context {DB : Type} `{Bolt DB}.

(** [db.Update(fn)]. *)
Definition bolt_Update {A} (fn : Tx -> result (A * Tx)) : ST DB (result A) := fun db =>
  match bolt_begin db with
  | Err e => (Err e, db)
  | Ok tx =>
      match fn tx with
      | Err e => (Err e, db)
      | Ok (a, tx) =>
          match bolt_commit db tx with
          | Err e => (Err e, db)
          | Ok db => (Ok a, db)
          end
      end
  end.

(** [db.View(fn)]. *)
Definition bolt_View {A} (fn : Tx -> result A) (db : DB) : result A :=
  result_bind (bolt_begin db) fn.

End transactions.

(** bbolt's documentation, over the contents [db_view] and [tx_view]. *)
Class BoltLaws (DB : Type) `{Bolt DB} := {
  db_view : forall b, DB -> gmap string (bucket_val b);
  tx_view : forall b, Tx -> gmap string (bucket_val b);
  bolt_begin_err : forall db e, bolt_begin db = Err e -> errors_Is e ErrStoreNotFound = false;
  bolt_begin_view : forall db tx b, bolt_begin db = Ok tx -> tx_view b tx = db_view b db;
  bolt_commit_view : forall db tx db' b, bolt_commit db tx = Ok db' -> db_view b db' = tx_view b tx;
  bolt_close_begin : forall db, is_ok (bolt_begin (snd (bolt_close db))) = false;
  bolt_close_view : forall db b, db_view b (snd (bolt_close db)) = db_view b db;
  tx_has_view : forall b tx, tx_has b tx = false -> tx_view b tx = ∅;
  tx_create_view : forall b tx tx' b', tx_create b tx = Ok tx' -> tx_view b' tx' = tx_view b' tx;
  tx_get_view : forall b tx k, tx_get b tx k = tx_view b tx !! k;
  tx_put_view : forall b k v tx tx', tx_put b k v tx = Ok tx' -> tx_view b tx' = <[k := v]> (tx_view b tx);
  tx_put_other : forall b k v tx tx' b', tx_put b k v tx = Ok tx' -> b' <> b -> tx_view b' tx' = tx_view b' tx;
  tx_delete_view : forall b k tx tx', tx_delete b k tx = Ok tx' -> tx_view b tx' = delete k (tx_view b tx);
  tx_delete_other : forall b k tx tx' b', tx_delete b k tx = Ok tx' -> b' <> b -> tx_view b' tx' = tx_view b' tx;
  tx_seek_view : forall b tx k, tx_seek b tx k = sorted_from k (tx_view b tx);
}.

(** ** An in-memory database with these laws *)

Record MemBolt := mkMemBolt {
  mb_open : bool;
  mb_journal : gmap string value;
  mb_meta : gmap string string;
}.

Definition mb_view (b : bucket) (db : MemBolt) : gmap string (bucket_val b) :=
  match b with BJournal => mb_journal db | BMeta => mb_meta db end.

Definition mb_set (b : bucket) : gmap string (bucket_val b) -> MemBolt -> MemBolt :=
  match b with
  | BJournal => fun m db => mkMemBolt (mb_open db) m (mb_meta db)
  | BMeta => fun m db => mkMemBolt (mb_open db) (mb_journal db) m
  end.

Definition mb_key_ok (k : string) : result unit :=
  if String.eqb k "" then Err (EText "key required")
  else if 32768 <? Z.of_nat (strlen k) then Err (EText "key too large")
  else Ok tt.

#[export] Instance MemBolt_Bolt : Bolt MemBolt := {
  Tx := MemBolt;
  bolt_begin := fun db => if mb_open db then Ok db else Err (EText "database not open");
  bolt_commit := fun _ tx => Ok tx;
  bolt_close := fun db => (Ok tt, mkMemBolt false (mb_journal db) (mb_meta db));
  tx_has := fun _ _ => true;
  tx_create := fun _ tx => Ok tx;
  tx_get := fun b tx k => mb_view b tx !! k;
  tx_put := fun b k v tx =>
    result_bind (mb_key_ok k) (fun _ => Ok (mb_set b (<[k := v]> (mb_view b tx)) tx));
  tx_delete := fun b k tx => Ok (mb_set b (delete k (mb_view b tx)) tx);
  tx_seek := fun b tx k => sorted_from k (mb_view b tx);
}.

#[export] Instance MemBolt_laws : BoltLaws MemBolt.
Proof.
  refine {| db_view := mb_view; tx_view := mb_view |}; cbn.
  - intros db e. destruct (mb_open db); [done|by intros [= <-]].
  - intros db tx b. destruct (mb_open db); [by intros [= ->]|done].
  - by intros ? ? ? ? [= ->].
  - done.
  - by intros db [].
  - done.
  - by intros ? ? ? ? [= ->].
  - done.
  - intros b k v tx tx'. unfold mb_key_ok. destruct (String.eqb k ""); [done|].
    destruct (_ <? _); [done|]. intros [= <-]. by destruct b.
  - intros b k v tx tx' b'. unfold mb_key_ok. destruct (String.eqb k ""); [done|].
    destruct (_ <? _); [done|]. intros [= <-]. by destruct b, b'.
  - intros b k tx tx' [= <-]. by destruct b.
  - intros b k tx tx' b' [= <-]. by destruct b, b'.
  - done.
Defined.

Definition emptyMemBolt : MemBolt := mkMemBolt true ∅ ∅.

(** ** Lemmas on the key order *)

#[local] Arguments Nat.ltb : simpl never.

Lemma str_ltb_irrefl s : str_ltb s s = false.
Proof.
  induction s as [|a s IH]; [done|]. cbn. by rewrite Nat.ltb_irrefl.
Qed.

Lemma nat_of_ascii_inj a b : nat_of_ascii a = nat_of_ascii b -> a = b.
Proof. intros E. by rewrite <- (ascii_nat_embedding a), <- (ascii_nat_embedding b), E. Qed.

Lemma str_le_total s t : str_le s t \/ str_le t s.
Proof.
  unfold str_le. revert t.
  induction s as [|a s IH]; intros [|b t]; cbn; try (by right); try (by left); [].
  destruct (Nat.ltb_spec (nat_of_ascii a) (nat_of_ascii b)),
    (Nat.ltb_spec (nat_of_ascii b) (nat_of_ascii a)); try lia; auto.
Qed.

Lemma str_le_trans s t u : str_le s t -> str_le t u -> str_le s u.
Proof.
  unfold str_le. revert t u. induction s as [|a s IH]; intros [|b t] [|c u]; cbn; try done.
  destruct (Nat.ltb_spec (nat_of_ascii b) (nat_of_ascii a)); [done|].
  destruct (Nat.ltb_spec (nat_of_ascii c) (nat_of_ascii b)); [done|].
  destruct (Nat.ltb_spec (nat_of_ascii a) (nat_of_ascii b)),
    (Nat.ltb_spec (nat_of_ascii b) (nat_of_ascii c)),
    (Nat.ltb_spec (nat_of_ascii c) (nat_of_ascii a)),
    (Nat.ltb_spec (nat_of_ascii a) (nat_of_ascii c)); try lia; try done.
  apply IH.
Qed.

#[export] Instance key_le_total {V} : Total (@key_le V).
Proof. intros x y. apply str_le_total. Qed.

#[export] Instance key_le_trans {V} : Transitive (@key_le V).
Proof. intros x y z. apply str_le_trans. Qed.

Lemma str_le_prefix p r : str_le p (p +:+ r).
Proof.
  unfold str_le. induction p as [|a p IH]; [by destruct r|].
  rewrite sapp_cons. cbn. by rewrite Nat.ltb_irrefl.
Qed.

(** The keys with prefix [p] are a contiguous range starting at [p]. *)
Lemma prefix_range p k k' :
  str_le p k -> str_le k k' -> HasPrefix k' p = true -> HasPrefix k p = true.
Proof.
  rewrite !HasPrefix_spec. intros Hpk Hkk [r ->]. unfold str_le in *.
  revert k Hpk Hkk. induction p as [|a p IH]; intros k Hpk Hkk; [by exists k|].
  destruct k as [|b k]; [done|]. rewrite sapp_cons in Hkk. cbn in Hpk, Hkk.
  destruct (Nat.ltb_spec (nat_of_ascii b) (nat_of_ascii a)); [done|].
  destruct (Nat.ltb_spec (nat_of_ascii a) (nat_of_ascii b)); [done|].
  assert (a = b) as <- by (apply nat_of_ascii_inj; lia).
  destruct (IH k Hpk Hkk) as [r' ->]. by exists r'.
Qed.

Lemma sorted_entries_perm {V} (m : gmap string V) : sorted_entries m ≡ₚ map_to_list m.
Proof. apply merge_sort_Permutation. Qed.

Lemma sorted_entries_sorted {V} (m : gmap string V) : StronglySorted key_le (sorted_entries m).
Proof. apply StronglySorted_merge_sort; apply _. Qed.

Lemma elem_of_sorted_entries {V} (m : gmap string V) k v :
  (k, v) ∈ sorted_entries m <-> m !! k = Some v.
Proof. rewrite sorted_entries_perm. apply elem_of_map_to_list. Qed.

Lemma StronglySorted_filter {A} (R : relation A) (P : A -> Prop) `{!forall x, Decision (P x)} l :
  StronglySorted R l -> StronglySorted R (filter P l).
Proof.
  induction 1 as [|x l Hl IH Hx]; [constructor|]. rewrite filter_cons.
  destruct (decide (P x)); [|done]. constructor; [done|].
  apply Forall_forall. intros y [_ Hy]%list_elem_of_filter.
  by apply (proj1 (Forall_forall _ _) Hx).
Qed.
