(* ===== verification/Journal.v ===== *)
(** [internal/store]: the BoltDB journal (journal.go), its bulk prefix rewrite
    (rename.go) and the adapter the sync engine sees (store.go). *)
From S2P Require Import Prelude.
From S2P Require Import GoStrings.
From S2P Require Import GoRuntime.
From S2P Require Import OldSuffix.
From S2P Require Import Bolt.

(** ** journal.go *)

Definition keyPageToken : string := "page_token".

(** [hasPrefix]: the byte-level comparison of keys. *)
Definition hasPrefix (key prefix : string) : bool := HasPrefix key prefix.

Section journal.
Context {DB : Type} `{Bolt DB}.

(** [OpenJournal] on a database [bolt.Open] returned; a failure closes it. *)
Definition OpenJournal : ST DB (result unit) := fun db =>
  let '(r, db) := bolt_Update (fun tx =>
    result_bind (tx_create BJournal tx) (fun tx =>
    result_bind (tx_create BMeta tx) (fun tx => Ok (tt, tx)))) db in
  match r with
  | Ok _ => (Ok tt, db)
  | Err e => (Err (EWrap "store: create bucket" e), snd (bolt_close db))
  end.

Definition Journal_Put (entry : JournalEntry) : ST DB (result unit) := fun db =>
  match json_Marshal entry with
  | Err e => (Err (EWrap ("store: marshal entry for " +:+ je_Path entry) e), db)
  | Ok data =>
      bolt_Update (fun tx =>
        result_bind (tx_put BJournal (je_Path entry) data tx) (fun tx => Ok (tt, tx))) db
  end.

Definition Journal_Get (path : string) (db : DB) : result JournalEntry :=
  bolt_View (fun tx =>
    match tx_get BJournal tx path with
    | None => Err (ESent ErrStoreNotFound)
    | Some data => json_Unmarshal data
    end) db.

Definition Journal_Exists (db : DB) (path : string) : bool :=
  match bolt_View (fun tx =>
    Ok (match tx_get BJournal tx path with Some _ => true | None => false end)) db with
  | Ok found => found
  | Err _ => false
  end.

Definition Journal_Delete (path : string) : ST DB (result unit) :=
  bolt_Update (fun tx => result_bind (tx_delete BJournal path tx) (fun tx => Ok (tt, tx))).

(** [Journal.Close], of a journal that was opened. *)
Definition Journal_Close : ST DB (result unit) := bolt_close.

(** [Journal.Count]: the bucket's number of keys. *)
Definition Journal_Count (db : DB) : result Z :=
  bolt_View (fun tx => Ok (Z.of_nat (length (tx_seek BJournal tx "")))) db.

(** The cursor loop over the keys with a prefix; [msg] is the wording of the
    unmarshal error. *)
Fixpoint scan_prefix (msg prefix : string) (l : list (string * value)) :
    result (list (string * JournalEntry)) :=
  match l with
  | [] => Ok []
  | (k, v) :: l =>
      if hasPrefix k prefix then
        match json_Unmarshal v with
        | Err e => Err (EWrap (msg +:+ k) e)
        | Ok entry => result_bind (scan_prefix msg prefix l) (fun es => Ok ((k, entry) :: es))
        end
      else Ok []
  end.

Definition Journal_ListByPrefix (prefix : string) (db : DB) : result (list JournalEntry) :=
  bolt_View (fun tx =>
    result_bind (scan_prefix "store: unmarshal entry for " prefix (tx_seek BJournal tx prefix))
      (fun es => Ok (map snd es))) db.

Definition Journal_GetMeta (key : string) (db : DB) : result string :=
  bolt_View (fun tx =>
    if negb (tx_has BMeta tx) then Ok ""
    else Ok (match tx_get BMeta tx key with Some v => v | None => "" end)) db.

Definition Journal_SetMeta (key val : string) : ST DB (result unit) :=
  bolt_Update (fun tx =>
    if negb (tx_has BMeta tx) then Err (EText "store: meta bucket missing")
    else result_bind (tx_put BMeta key val tx) (fun tx => Ok (tt, tx))).

Definition Journal_GetPageToken (db : DB) : result string := Journal_GetMeta keyPageToken db.

Definition Journal_SetPageToken (token : string) : ST DB (result unit) :=
  Journal_SetMeta keyPageToken token.

(** [Journal.NextOldN]; a nil matcher means the default format. *)
Definition Journal_NextOldN (m : option Matcher) (path : string) (db : DB) : string * Z :=
  NextOldN (match m with Some m => m | None => default_matcher end) path (Journal_Exists db).

(** The cursor loop of [ForEach], threading what the callback accumulates. *)
Fixpoint each_entry {A} (fn : JournalEntry -> A -> result A) (l : list (string * value)) (a : A) :
    result A :=
  match l with
  | [] => Ok a
  | (k, v) :: l =>
      match json_Unmarshal v with
      | Err e => Err (EWrap ("store: unmarshal entry for " +:+ k) e)
      | Ok entry => result_bind (fn entry a) (each_entry fn l)
      end
  end.

Definition Journal_ForEach {A} (fn : JournalEntry -> A -> result A) (a : A) (db : DB) : result A :=
  bolt_View (fun tx => each_entry fn (tx_seek BJournal tx "") a) db.

(** ** rename.go *)

Definition rewrite_one (op : string * JournalEntry) (tx : Tx) : result Tx :=
  let '(oldKey, entry) := op in
  result_bind (wrap ("store: delete old key " +:+ oldKey) (tx_delete BJournal oldKey tx)) (fun tx =>
  result_bind (wrap ("store: marshal entry for " +:+ je_Path entry) (json_Marshal entry)) (fun data =>
  wrap ("store: put new key " +:+ je_Path entry) (tx_put BJournal (je_Path entry) data tx))).

Fixpoint rewrite_all (ops : list (string * JournalEntry)) (tx : Tx) : result Tx :=
  match ops with
  | [] => Ok tx
  | op :: ops => result_bind (rewrite_one op tx) (rewrite_all ops)
  end.

Definition rebase (oldPrefix newPrefix : string) (e : JournalEntry) : JournalEntry :=
  with_path (newPrefix +:+ TrimPrefix (je_Path e) oldPrefix) e.

(** [RewritePrefix] without an auditor, which [JournalStore] never passes. *)
Definition RewritePrefix (oldPrefix newPrefix : string) : ST DB (result Z) := fun db =>
  if String.eqb oldPrefix newPrefix then (Ok 0, db)
  else
    bolt_Update (fun tx =>
      result_bind (scan_prefix "store: unmarshal during rename " oldPrefix
                     (tx_seek BJournal tx oldPrefix)) (fun es =>
      let ops := map (fun '(k, e) => (k, rebase oldPrefix newPrefix e)) es in
      result_bind (rewrite_all ops tx) (fun tx => Ok (Z.of_nat (length ops), tx)))) db.

End journal.

(** ** store.go *)

(** The [Store] interface of the sync engine. *)
Class Store (S : Type) := {
  GetPageToken : ST S (result string);
  SetPageToken : string -> ST S (result unit);
  Get : string -> ST S (result (option JournalEntry));
  Put : JournalEntry -> ST S (result unit);
  Delete : string -> ST S (result unit);
  StoreNextOldN : string -> ST S (result (string * Z));
  StoreRewritePrefix : string -> string -> ST S (result Z);
  ListOldSiblings : string -> ST S (result (list JournalEntry));
  ForEach : forall A, (JournalEntry -> A -> result A) -> A -> ST S (result A);
}.

Record JournalStore (DB : Type) := mkJournalStore { js_J : DB; js_Matcher : option Matcher }.
Arguments mkJournalStore {DB} _ _.
Arguments js_J {DB} _.
Arguments js_Matcher {DB} _.

Section journal_store.
Context {DB : Type} `{Bolt DB}.

Definition on_J {A} (m : ST DB A) : ST (JournalStore DB) A := fun s =>
  let '(a, db) := m (js_J s) in (a, mkJournalStore db (js_Matcher s)).

Definition of_J {A} (f : DB -> A) : ST (JournalStore DB) A := fun s => (f (js_J s), s).

(** [ErrNotFound] becomes [found = false]. *)
Definition JournalStore_Get (path : string) : ST (JournalStore DB) (result (option JournalEntry)) :=
  of_J (fun db =>
    match Journal_Get path db with
    | Ok e => Ok (Some e)
    | Err e => if errors_Is e ErrStoreNotFound then Ok None else Err e
    end).

Definition JournalStore_NextOldN (path : string) : ST (JournalStore DB) (result (string * Z)) :=
  fun s => (Ok (Journal_NextOldN (js_Matcher s) path (js_J s)), s).

#[export] Instance JournalStore_Store : Store (JournalStore DB) := {
  GetPageToken := of_J Journal_GetPageToken;
  SetPageToken := fun t => on_J (Journal_SetPageToken t);
  Get := JournalStore_Get;
  Put := fun e => on_J (Journal_Put e);
  Delete := fun p => on_J (Journal_Delete p);
  StoreNextOldN := JournalStore_NextOldN;
  StoreRewritePrefix := fun o n => on_J (RewritePrefix o n);
  ListOldSiblings := fun p => of_J (Journal_ListByPrefix p);
  ForEach := fun A fn a => of_J (Journal_ForEach fn a);
}.

End journal_store.

(** ** What a store promises

    The abstract state is a map from paths to entries and the page token.
    Reads do not change the state, a failed call changes nothing, and a
    successful one changes what its name says. *)

Definition entries_with_prefix (prefix : string) (m : gmap string JournalEntry) :
    list JournalEntry :=
  map snd (filter (fun kv => HasPrefix (fst kv) prefix = true) (map_to_list m)).

Class StoreLaws (S : Type) `{Store S} := {
  store_view : S -> gmap string JournalEntry;
  store_token : S -> string;
  store_has : S -> string -> bool;
  store_matcher : S -> Matcher;
  store_open : S -> Prop;
  store_has_view : forall s p e, store_open s -> store_view s !! p = Some e -> store_has s p = true;
  store_get_token : forall s r s', GetPageToken s = (r, s') ->
    s' = s /\ (forall t, r = Ok t -> t = store_token s);
  store_set_token : forall s t s', SetPageToken t s = (Ok tt, s') ->
    store_token s' = t /\ store_view s' = store_view s;
  store_set_token_err : forall s t e s', SetPageToken t s = (Err e, s') -> s' = s;
  store_get : forall s p r s', Get p s = (r, s') ->
    s' = s /\ (forall o, r = Ok o -> o = store_view s !! p);
  store_put : forall s e s', Put e s = (Ok tt, s') ->
    store_view s' = <[je_Path e := json_norm e]> (store_view s) /\ store_token s' = store_token s;
  store_put_err : forall s e err s', Put e s = (Err err, s') -> s' = s;
  store_delete : forall s p s', Delete p s = (Ok tt, s') ->
    store_view s' = delete p (store_view s) /\ store_token s' = store_token s;
  store_delete_err : forall s p err s', Delete p s = (Err err, s') -> s' = s;
  store_next : forall s p,
    StoreNextOldN p s = (Ok (NextOldN (store_matcher s) p (store_has s)), s);
  store_rewrite_err : forall s o n err s', StoreRewritePrefix o n s = (Err err, s') -> s' = s;
  store_list : forall s p r s', ListOldSiblings p s = (r, s') ->
    s' = s /\ (forall l, r = Ok l -> l ≡ₚ entries_with_prefix p (store_view s));
  store_each : forall A fn (a : A) s, snd (ForEach A fn a s) = s;
}.

(** ** The journal implements it *)

Definition decode (v : value) : option JournalEntry :=
  match v with Encoded e => Some e | Garbage _ => None end.

Definition jview (m : gmap string value) : gmap string JournalEntry := omap decode m.

(** Entries are filed under their own path. *)
Definition filed (m : gmap string JournalEntry) : Prop :=
  forall k e, m !! k = Some e -> je_Path e = k.

Lemma jview_lookup m k e : jview m !! k = Some e <-> m !! k = Some (Encoded e).
Proof.
  unfold jview. rewrite lookup_omap. destruct (m !! k) as [[e'|b]|]; cbn; [|done|done].
  split; by intros [= ->].
Qed.

Lemma jview_put m k e : jview (<[k := Encoded e]> m) = <[k := e]> (jview m).
Proof. unfold jview. by erewrite omap_insert_Some. Qed.

Lemma jview_delete m k : jview (delete k m) = delete k (jview m).
Proof. apply omap_delete. Qed.

Lemma json_Marshal_Ok e v : json_Marshal e = Ok v -> v = Encoded (json_norm e).
Proof. unfold json_Marshal. destruct_match; by intros [= <-]. Qed.

Section update.
Context {DB : Type} `{Bolt DB}.

Lemma bolt_Update_Err {A} (fn : Tx -> result (A * Tx)) db e db' :
  bolt_Update fn db = (Err e, db') -> db' = db.
Proof. unfold bolt_Update. intros Hu. by inv_match Hu. Qed.

Lemma bolt_Update_Ok {A} (fn : Tx -> result (A * Tx)) db a db' :
  bolt_Update fn db = (Ok a, db') ->
  exists tx tx', bolt_begin db = Ok tx /\ fn tx = Ok (a, tx') /\ bolt_commit db tx' = Ok db'.
Proof. unfold bolt_Update. intros Hu. inv_match Hu. eauto. Qed.

Lemma result_bind_Ok {A B} (r : result A) (k : A -> result B) b :
  result_bind r k = Ok b -> exists a, r = Ok a /\ k a = Ok b.
Proof. destruct r; cbn; [eauto|done]. Qed.

Lemma wrap_Ok {A} msg (r : result A) a : wrap msg r = Ok a -> r = Ok a.
Proof. by destruct r; intros [=->]. Qed.

Context `{!BoltLaws DB}.

Definition dbj (db : DB) : gmap string JournalEntry := jview (db_view BJournal db).

(** A successful update, seen on the contents. *)
Lemma bolt_Update_view {A} (fn : Tx -> result (A * Tx)) db a db' :
  bolt_Update fn db = (Ok a, db') ->
  exists tx tx', fn tx = Ok (a, tx') /\
    (forall b, tx_view b tx = db_view b db) /\ (forall b, db_view b db' = tx_view b tx').
Proof.
  intros (tx & tx' & Hb & Hf & Hc)%bolt_Update_Ok. exists tx, tx'. split; [done|].
  split; intros b; [by eapply bolt_begin_view|by eapply bolt_commit_view].
Qed.

Lemma Journal_Put_Ok e db db' :
  Journal_Put e db = (Ok tt, db') ->
  dbj db' = <[je_Path e := json_norm e]> (dbj db) /\ db_view BMeta db' = db_view BMeta db.
Proof.
  unfold Journal_Put, dbj. destruct (json_Marshal e) as [v|] eqn:Hm; [|done].
  apply json_Marshal_Ok in Hm as ->.
  intros (tx & tx' & (tx1 & Hp & [= ->])%result_bind_Ok & Hv & Hv')%bolt_Update_view.
  rewrite !Hv', <- !Hv. rewrite (tx_put_view _ _ _ _ _ Hp), jview_put.
  by rewrite (tx_put_other _ _ _ _ _ BMeta Hp).
Qed.

Lemma Journal_Delete_Ok p db db' :
  Journal_Delete p db = (Ok tt, db') ->
  dbj db' = delete p (dbj db) /\ db_view BMeta db' = db_view BMeta db.
Proof.
  unfold Journal_Delete, dbj.
  intros (tx & tx' & (tx1 & Hp & [= ->])%result_bind_Ok & Hv & Hv')%bolt_Update_view.
  rewrite !Hv', <- !Hv. rewrite (tx_delete_view _ _ _ _ Hp), jview_delete.
  by rewrite (tx_delete_other _ _ _ _ BMeta Hp).
Qed.

Lemma Journal_SetMeta_Ok k v db db' :
  Journal_SetMeta k v db = (Ok tt, db') ->
  db_view BMeta db' = <[k := v]> (db_view BMeta db) /\ dbj db' = dbj db.
Proof.
  unfold Journal_SetMeta, dbj. intros (tx & tx' & Hf & Hv & Hv')%bolt_Update_view.
  destruct (tx_has BMeta tx); [|done]. apply result_bind_Ok in Hf as (tx1 & Hp & [= ->]).
  rewrite !Hv', <- !Hv. rewrite (tx_put_view _ _ _ _ _ Hp).
  by rewrite (tx_put_other _ _ _ _ _ BJournal Hp).
Qed.

Lemma Journal_GetMeta_Ok k db v :
  Journal_GetMeta k db = Ok v -> v = option_get "" (db_view BMeta db !! k).
Proof.
  unfold Journal_GetMeta, bolt_View. intros (tx & Hb & Hf)%result_bind_Ok.
  rewrite <- (bolt_begin_view _ _ BMeta Hb). destruct (tx_has BMeta tx) eqn:Hh.
  - cbn in Hf. injection Hf as <-. rewrite tx_get_view. by destruct (tx_view BMeta tx !! k).
  - injection Hf as <-. by rewrite tx_has_view, lookup_empty.
Qed.

Lemma Journal_Get_spec p db r :
  Journal_Get p db = r ->
  match r with
  | Ok e => dbj db !! p = Some e
  | Err e => errors_Is e ErrStoreNotFound = true -> dbj db !! p = None
  end.
Proof.
  intros <-. unfold Journal_Get, bolt_View, dbj.
  destruct (bolt_begin db) as [tx|e] eqn:Hb; unfold result_bind.
  - pose proof (tx_get_view BJournal tx p) as Hg. rewrite (bolt_begin_view _ _ BJournal Hb) in Hg.
    destruct (tx_get BJournal tx p) as [[e|b]|]; cbn -[errors_Is].
    + by apply jview_lookup.
    + done.
    + intros _. destruct (jview (db_view BJournal db) !! p) eqn:E; [|done].
      apply jview_lookup in E. discriminate (eq_trans Hg E).
  - intros H1. by rewrite (bolt_begin_err _ _ Hb) in H1.
Qed.

End update.

(** *** Scanning *)

Definition dec_pair (kv : string * value) : option (string * JournalEntry) :=
  option_map (pair (fst kv)) (decode (snd kv)).

(** The prefix loop stops at the first key without the prefix, and that is
    past every key that has it. *)
Lemma scan_prefix_spec msg p l :
  StronglySorted key_le l -> Forall (fun kv => str_le p (fst kv)) l ->
  match scan_prefix msg p l with
  | Ok es =>
      es = omap dec_pair (filter (fun kv => HasPrefix (fst kv) p = true) l) /\
      (forall k v, (k, v) ∈ l -> HasPrefix k p = true -> exists e, v = Encoded e)
  | Err _ => exists k b, (k, Garbage b) ∈ l /\ HasPrefix k p = true
  end.
Proof.
  intros Hs. induction Hs as [|[k v] l Hs IH Hk]; intros Hp; [by split; [|intros ? ? []%elem_of_nil]|].
  apply Forall_cons in Hp as [Hpk Hpl]. cbn [scan_prefix]. unfold hasPrefix.
  rewrite filter_cons. cbn [fst].
  destruct (HasPrefix k p) eqn:E.
  - rewrite decide_True by done. destruct v as [e|b]; cbn [json_Unmarshal].
    + specialize (IH Hpl). destruct (scan_prefix msg p l) as [es|err]; cbn [result_bind].
      * destruct IH as [-> IH]. split; [done|].
        intros k' v' [[= -> ->]|Hin]%elem_of_cons; [eauto|by apply IH].
      * destruct IH as (k' & b & Hin & ?). exists k', b. split; [by right|done].
    + exists k, b. split; [by left|done].
  - rewrite decide_False by done.
    assert (forall k' v', (k', v') ∈ l -> HasPrefix k' p = false) as Hno.
    { intros k' v' Hin. destruct (HasPrefix k' p) eqn:E'; [|done].
      apply (proj1 (Forall_forall _ _) Hk) in Hin. unfold key_le in Hin; cbn in Hin.
      rewrite (prefix_range p k k') in E; done. }
    split.
    + rewrite filter_none; [done|].
      intros [k' v'] Hin. cbn [fst]. by rewrite (Hno _ _ Hin).
    + intros k' v' [[= -> ->]|Hin]%elem_of_cons E'; [congruence|].
      by rewrite (Hno _ _ Hin) in E'.
Qed.

Lemma sorted_from_sorted {V} k (m : gmap string V) :
  StronglySorted key_le (sorted_from k m) /\ Forall (fun kv => str_le k (fst kv)) (sorted_from k m).
Proof.
  split; [apply StronglySorted_filter, sorted_entries_sorted|].
  apply Forall_forall. by intros x [? _]%list_elem_of_filter.
Qed.

Lemma elem_of_sorted_from {V} p k v (m : gmap string V) :
  HasPrefix k p = true -> (k, v) ∈ sorted_from p m <-> m !! k = Some v.
Proof.
  intros [r ->]%HasPrefix_spec. unfold sorted_from.
  rewrite list_elem_of_filter, elem_of_sorted_entries. cbn. pose proof (str_le_prefix p r). tauto.
Qed.

Lemma elem_of_scan p m k e :
  (k, e) ∈ omap dec_pair (filter (fun kv => HasPrefix (fst kv) p = true) (sorted_from p m)) <->
  HasPrefix k p = true /\ jview m !! k = Some e.
Proof.
  rewrite list_elem_of_omap, jview_lookup. split.
  - intros ([k' v] & [Hp Hin]%list_elem_of_filter & Hd). unfold dec_pair in Hd. cbn in *.
    destruct v as [e'|]; [|done]. cbn in Hd. injection Hd as -> ->.
    split; [done|]. by apply elem_of_sorted_from in Hin.
  - intros [Hp Hm]. exists (k, Encoded e). split; [|done]. apply list_elem_of_filter.
    split; [done|]. by apply elem_of_sorted_from.
Qed.

Lemma NoDup_fst_omap l : NoDup (map fst l) -> NoDup (map fst (omap dec_pair l)).
Proof.
  induction l as [|[k v] l IH]; [done|]. cbn. intros [Hk Hl]%NoDup_cons.
  destruct v as [e|b]; cbn; [|by apply IH].
  constructor; [|by apply IH]. intros Hin. apply Hk.
  apply list_elem_of_fmap in Hin as ([k' e'] & -> & Hin). apply list_elem_of_fmap.
  apply list_elem_of_omap in Hin as ([k2 v2] & Hin & Hd). exists (k2, v2). split; [|done].
  unfold dec_pair in Hd. cbn in *. destruct v2; cbn in Hd; [|done]. by injection Hd as -> _.
Qed.

Lemma omap_sorted l :
  StronglySorted key_le l -> StronglySorted key_le (omap dec_pair l).
Proof.
  induction 1 as [|[k v] l Hl IH Hk]; [constructor|].
  change (omap dec_pair ((k, v) :: l)) with
    (match dec_pair (k, v) with Some y => y :: omap dec_pair l | None => omap dec_pair l end).
  destruct v as [e|]; cbn [dec_pair decode option_map fst snd]; [|done]. constructor; [done|].
  apply Forall_forall. intros [k' e'] ([k2 v2] & Hin & Hd)%list_elem_of_omap.
  apply (proj1 (Forall_forall _ _) Hk) in Hin. unfold dec_pair in Hd.
  destruct v2; cbn in Hd; [|done]. by injection Hd as -> _.
Qed.

Lemma NoDup_fst_filter {V} (P : string * V -> Prop) `{!forall x, Decision (P x)} l :
  NoDup (map fst l) -> NoDup (map fst (filter P l)).
Proof.
  induction l as [|x l IH]; [done|]. cbn [map]. intros [Hx Hl]%NoDup_cons. rewrite filter_cons.
  destruct (decide (P x)); [|by apply IH]. constructor; [|by apply IH].
  intros (y & E & [_ Hy]%list_elem_of_filter)%list_elem_of_fmap. apply Hx.
  apply list_elem_of_fmap. eauto.
Qed.

Lemma scan_NoDup p m :
  NoDup (map fst (omap dec_pair (filter (fun kv => HasPrefix (fst kv) p = true) (sorted_from p m)))).
Proof.
  apply NoDup_fst_omap, NoDup_fst_filter. unfold sorted_from. apply NoDup_fst_filter.
  assert (map fst (sorted_entries m) ≡ₚ map fst (map_to_list m)) as ->
    by apply fmap_Permutation, sorted_entries_perm.
  apply NoDup_fst_map_to_list.
Qed.

Lemma scan_permutation p m :
  map snd (omap dec_pair (filter (fun kv => HasPrefix (fst kv) p = true) (sorted_from p m)))
  ≡ₚ entries_with_prefix p (jview m).
Proof.
  unfold entries_with_prefix. apply (fmap_Permutation snd). apply NoDup_Permutation.
  - eapply NoDup_fmap_1. apply scan_NoDup.
  - apply NoDup_filter, NoDup_map_to_list.
  - intros [k e]. rewrite elem_of_scan, list_elem_of_filter, elem_of_map_to_list. cbn. tauto.
Qed.

Section list.
Context {DB : Type} `{BoltLaws DB}.

(** The scan of a transaction on [db]. *)
Lemma scan_tx msg p db tx :
  bolt_begin db = Ok tx ->
  match scan_prefix msg p (tx_seek BJournal tx p) with
  | Ok es =>
      es = omap dec_pair (filter (fun kv => HasPrefix (fst kv) p = true)
             (sorted_from p (db_view BJournal db))) /\
      (forall k v, db_view BJournal db !! k = Some v -> HasPrefix k p = true ->
         exists e, v = Encoded e)
  | Err _ => exists k b, db_view BJournal db !! k = Some (Garbage b) /\ HasPrefix k p = true
  end.
Proof.
  intros Hb. rewrite tx_seek_view, (bolt_begin_view _ _ BJournal Hb).
  generalize (db_view BJournal db). cbn [bucket_val]. intros m.
  destruct (sorted_from_sorted p m) as [H1 H2].
  pose proof (scan_prefix_spec msg p _ H1 H2) as Hspec.
  destruct (scan_prefix msg p (sorted_from p m)).
  - destruct Hspec as [E Hall]. split; [done|]. intros k v Hk Hp.
    apply (Hall k v); [|done]. by apply elem_of_sorted_from.
  - destruct Hspec as (k & b & Hin & Hp). exists k, b. split; [|done].
    by apply elem_of_sorted_from in Hin.
Qed.

Lemma ListByPrefix_perm p db l :
  Journal_ListByPrefix p db = Ok l -> l ≡ₚ entries_with_prefix p (dbj db).
Proof.
  unfold Journal_ListByPrefix, bolt_View. intros (tx & Hb & Hf)%result_bind_Ok.
  pose proof (scan_tx "store: unmarshal entry for " p db tx Hb) as Hs.
  destruct (scan_prefix _ _ _) as [es|]; [|done]. destruct Hs as [-> _].
  injection Hf as <-. apply scan_permutation.
Qed.

(** [Journal.ListByPrefix] returns exactly the entries whose key has the
    prefix, each once, in key order; it fails only when a value with that
    prefix is not a JSON entry. The cursor loop may stop at the first key
    without the prefix because the keys with it are contiguous. *)
Theorem ListByPrefix_exact prefix db tx :
  bolt_begin db = Ok tx ->
  match Journal_ListByPrefix prefix db with
  | Ok l => exists es,
      l = map snd es /\ StronglySorted key_le es /\ NoDup (map fst es) /\
      forall k e, (k, e) ∈ es <-> HasPrefix k prefix = true /\ dbj db !! k = Some e
  | Err _ => exists k b, db_view BJournal db !! k = Some (Garbage b) /\ HasPrefix k prefix = true
  end.
Proof.
  intros Hb. unfold Journal_ListByPrefix, bolt_View. rewrite Hb. cbn [result_bind].
  pose proof (scan_tx "store: unmarshal entry for " prefix db tx Hb) as Hs.
  destruct (scan_prefix _ _ _) as [es|]; [|done]. destruct Hs as [-> _]. cbn [result_bind].
  eexists. split; [done|]. split; [|split; [apply scan_NoDup|intros k e; apply elem_of_scan]].
  generalize (db_view BJournal db). cbn [bucket_val]. intros m.
  destruct (sorted_from_sorted prefix m) as [Hs _].
  apply (StronglySorted_filter _ (fun kv => HasPrefix (fst kv) prefix = true)) in Hs.
  by apply omap_sorted.
Qed.

End list.

Definition demo_entry (p : string) : JournalEntry := mkJournalEntry p 5 5 "m" "i" 9 "local".

Definition demo_db : MemBolt :=
  mkMemBolt true
    (<["docs/a" := Encoded (demo_entry "docs/a")]>
    (<["docs2/a" := Encoded (demo_entry "docs2/a")]>
    (<["docs/b" := Encoded (demo_entry "docs/b")]>
    (<["z" := Encoded (demo_entry "z")]> ∅)))) ∅.

Lemma ListByPrefix_exact_witness :
  match Journal_ListByPrefix "docs/" demo_db with
  | Ok l => exists es,
      l = map snd es /\ StronglySorted key_le es /\ NoDup (map fst es) /\
      forall k e, (k, e) ∈ es <-> HasPrefix k "docs/" = true /\ dbj demo_db !! k = Some e
  | Err _ => exists k b, db_view BJournal demo_db !! k = Some (Garbage b) /\
      HasPrefix k "docs/" = true
  end.
Proof. exact (ListByPrefix_exact "docs/" demo_db demo_db eq_refl). Defined.

Lemma ListByPrefix_demo :
  Journal_ListByPrefix "docs/" demo_db = Ok [demo_entry "docs/a"; demo_entry "docs/b"].
Proof. vm_compute. reflexivity. Qed.

(** *** Rewriting a prefix *)

Definition rewrite_entry (m : gmap string JournalEntry) (op : string * JournalEntry) :=
  <[je_Path (snd op) := json_norm (snd op)]> (delete (fst op) m).

(** When no new path is an old key and the new paths are distinct, the rewrites
    do not interfere. *)
Lemma rewrite_fold_spec ops m :
  NoDup (map (fun op => je_Path (snd op)) ops) ->
  (forall op op', op ∈ ops -> op' ∈ ops -> je_Path (snd op) <> fst op') ->
  (forall op, op ∈ ops ->
     fold_left rewrite_entry ops m !! je_Path (snd op) = Some (json_norm (snd op))) /\
  (forall k, k ∉ map (fun op => je_Path (snd op)) ops ->
     fold_left rewrite_entry ops m !! k = if decide (k ∈ map fst ops) then None else m !! k).
Proof.
  induction ops as [|op ops IH] using rev_ind; intros Hnd Hdis.
  { split; [by intros ? ?%elem_of_nil|]. intros k _. by rewrite decide_False by apply not_elem_of_nil. }
  rewrite map_app in Hnd. apply NoDup_app in Hnd as (Hnd & Hlast & _).
  destruct IH as [IH1 IH2]; [done| |].
  { intros o o' Ho Ho'. apply Hdis; apply elem_of_app; by left. }
  assert (op ∈ ops ++ [op]) as Hop by (apply elem_of_app; right; by apply list_elem_of_singleton).
  rewrite fold_left_app. cbn [fold_left]. unfold rewrite_entry at 1 3. split.
  - intros o [Ho| ->%list_elem_of_singleton]%elem_of_app; [|by rewrite lookup_insert_eq].
    rewrite lookup_insert_ne, lookup_delete_ne; [by apply IH1| |].
    + intros E. apply (Hdis o op); [apply elem_of_app; by left|done|done].
    + intros E. apply (Hlast (je_Path (snd o))).
      * apply list_elem_of_fmap. eauto.
      * rewrite <- E. by apply list_elem_of_singleton.
  - intros k. rewrite !map_app, !not_elem_of_app. cbn [map]. intros [Hk Hk2].
    rewrite list_elem_of_singleton in Hk2. rewrite lookup_insert_ne by done.
    destruct (decide (k = fst op)) as [->|Hne].
    + rewrite lookup_delete_eq, decide_True; [done|].
      apply elem_of_app. right. by apply list_elem_of_singleton.
    + rewrite lookup_delete_ne, IH2 by done. apply decide_ext.
      rewrite elem_of_app, list_elem_of_singleton. tauto.
Qed.

Section rewrite.
Context {DB : Type} `{BoltLaws DB}.

Lemma rewrite_all_view ops tx tx' :
  rewrite_all ops tx = Ok tx' ->
  jview (tx_view BJournal tx') = fold_left rewrite_entry ops (jview (tx_view BJournal tx)) /\
  tx_view BMeta tx' = tx_view BMeta tx.
Proof.
  revert tx. induction ops as [|[k e] ops IH]; intros tx; [by intros [= ->]|].
  cbn [rewrite_all rewrite_one fold_left].
  intros (tx1 & (tx2 & Hd%wrap_Ok & (v & Hm%wrap_Ok%json_Marshal_Ok & Hp%wrap_Ok)%result_bind_Ok)%result_bind_Ok & Hr)%result_bind_Ok.
  destruct (IH _ Hr) as [-> ->]. subst v.
  rewrite (tx_put_view _ _ _ _ _ Hp), (tx_delete_view _ _ _ _ Hd), jview_put, jview_delete.
  rewrite (tx_put_other _ _ _ _ _ BMeta Hp), (tx_delete_other _ _ _ _ BMeta Hd) by done. done.
Qed.

Lemma RewritePrefix_Ok old new db n db' :
  old <> new -> RewritePrefix old new db = (Ok n, db') ->
  exists es, NoDup (map fst es) /\
    (forall k e, (k, e) ∈ es <-> HasPrefix k old = true /\ dbj db !! k = Some e) /\
    dbj db' = fold_left rewrite_entry (map (fun '(k, e) => (k, rebase old new e)) es) (dbj db) /\
    n = Z.of_nat (length es) /\ db_view BMeta db' = db_view BMeta db.
Proof.
  intros Hne. unfold RewritePrefix. destruct (String.eqb_spec old new); [done|].
  intros (tx & tx' & Hb & Hf & Hc)%bolt_Update_Ok.
  pose proof (scan_tx "store: unmarshal during rename " old db tx Hb) as Hs.
  destruct (scan_prefix _ _ _) as [es|]; [|done]. destruct Hs as [Hes _]. cbn [result_bind] in Hf.
  apply result_bind_Ok in Hf as (tx1 & [Hv Hvm]%rewrite_all_view & [= <- ->]).
  exists es. rewrite Hes at 1. split; [apply scan_NoDup|]. split; [subst es; intros k e; apply elem_of_scan|].
  split; [|split].
  - unfold dbj. rewrite (bolt_commit_view _ _ _ BJournal Hc), Hv.
    by rewrite (bolt_begin_view _ _ BJournal Hb).
  - by rewrite length_map.
  - by rewrite (bolt_commit_view _ _ _ BMeta Hc), Hvm, (bolt_begin_view _ _ BMeta Hb).
Qed.

Lemma prefixes_disjoint old new s t :
  HasPrefix new old = false -> HasPrefix old new = false -> new +:+ s <> old +:+ t.
Proof.
  intros Hno Hon E. destruct (HasPrefix_comparable (new +:+ s) new old) as [Hx|Hx];
    [apply HasPrefix_app|rewrite E; apply HasPrefix_app|congruence..].
Qed.

(** Entries filed under distinct paths are rewritten to distinct keys. *)
Lemma rewrite_targets_distinct old new (es : list (string * JournalEntry)) :
  NoDup (map fst es) ->
  (forall k e, (k, e) ∈ es -> exists s, k = old +:+ s /\ je_Path (rebase old new e) = new +:+ s) ->
  NoDup (map (fun op => je_Path (snd op)) (map (fun '(k, e) => (k, rebase old new e)) es)).
Proof.
  intros Hnd Hkey. rewrite map_map.
  induction es as [|[k e] es IH]; [constructor|]. cbn in Hnd |- *. apply NoDup_cons in Hnd as [Hk Hnd].
  constructor; [|apply IH; [done|intros ? ? ?; apply Hkey; by right]].
  intros ([k' e'] & E & Hin)%list_elem_of_fmap. apply Hk.
  destruct (Hkey k e) as (s & -> & Es); [by left|].
  destruct (Hkey k' e') as (s' & -> & Es'); [by right|]. cbn in Es, Es', E.
  rewrite Es, Es' in E. apply sapp_inj_l in E as ->.
  apply list_elem_of_fmap. by exists (old +:+ s', e').
Qed.

(** C29: [RewritePrefix] either fails and leaves the journal untouched, or moves
    every entry below the old prefix to the same place below the new one,
    overwriting what was there, and leaves every other entry alone -- provided
    neither prefix is a prefix of the other. *)
Theorem RewritePrefix_moves old new db r db' :
  HasPrefix new old = false -> HasPrefix old new = false -> filed (dbj db) ->
  RewritePrefix old new db = (r, db') ->
  match r with
  | Err _ => db' = db
  | Ok n =>
      (forall s e, dbj db !! (old +:+ s) = Some e ->
         dbj db' !! (new +:+ s) = Some (json_norm (with_path (new +:+ s) e))) /\
      (forall s, dbj db' !! (old +:+ s) = None) /\
      (forall k, HasPrefix k old = false ->
         (forall s, k = new +:+ s -> dbj db !! (old +:+ s) = None) -> dbj db' !! k = dbj db !! k) /\
      n = Z.of_nat (length (entries_with_prefix old (dbj db)))
  end.
Proof.
  intros Hno Hon Hfiled Hr.
  pose proof (fun s t => prefixes_disjoint old new s t Hno Hon) as Hdis.
  destruct r as [n|e]; [|unfold RewritePrefix in Hr; destruct_match_in Hr; [done|by apply bolt_Update_Err in Hr]].
  assert (old <> new) as Hne by (intros ->; by rewrite HasPrefix_refl in Hno).
  destruct (RewritePrefix_Ok _ _ _ _ _ Hne Hr) as (es & Hnd & Hes & -> & -> & _).
  set (ops := map _ es).
  assert (forall k e, (k, e) ∈ es -> exists s, k = old +:+ s /\ je_Path (rebase old new e) = new +:+ s) as Hkey.
  { intros k e [Hp Hk]%Hes. apply HasPrefix_spec in Hp as [s ->]. exists s. split; [done|].
    cbn. by rewrite (Hfiled _ _ Hk), TrimPrefix_app. }
  assert (map fst ops = map fst es) as Hfst.
  { unfold ops. rewrite map_map. apply map_ext. by intros []. }
  destruct (rewrite_fold_spec ops (dbj db)) as [Hin Hout].
  - by apply rewrite_targets_distinct.
  - intros op op' ([k e] & -> & H1)%list_elem_of_fmap ([k' e'] & -> & H2)%list_elem_of_fmap.
    destruct (Hkey _ _ H1) as (s & -> & Es), (Hkey _ _ H2) as (s' & -> & _). cbn [fst snd].
    rewrite Es. apply Hdis.
  - split; [|split; [|split]].
    + intros s e He. assert ((old +:+ s, e) ∈ es) as Hin_es by (apply Hes; by rewrite HasPrefix_app).
      assert ((old +:+ s, rebase old new e) ∈ ops) as Hop.
      { apply list_elem_of_fmap. by exists (old +:+ s, e). }
      apply Hin in Hop. cbn [snd] in Hop. unfold rebase in Hop.
      rewrite (Hfiled _ _ He), TrimPrefix_app in Hop. exact Hop.
    + intros s. rewrite Hout.
      * destruct (decide _) as [|Hn]; [done|]. destruct (dbj db !! (old +:+ s)) as [e|] eqn:E; [|done].
        exfalso. apply Hn. rewrite Hfst. apply list_elem_of_fmap. exists (old +:+ s, e).
        split; [done|]. apply Hes. by rewrite HasPrefix_app.
      * unfold ops. rewrite map_map. intros ([k e] & E & Hk)%list_elem_of_fmap.
        destruct (Hkey _ _ Hk) as (s' & _ & Es). cbn [snd] in E. rewrite Es in E. by apply (Hdis s' s).
    + intros k Hk Hsrc. rewrite Hout.
      * rewrite decide_False; [done|]. rewrite Hfst. intros ([k' e] & -> & Hin')%list_elem_of_fmap.
        apply Hes in Hin' as [Hp _]. cbn [fst] in Hk. congruence.
      * unfold ops. rewrite map_map. intros ([k' e] & -> & Hk')%list_elem_of_fmap.
        destruct (Hkey _ _ Hk') as (s & -> & Es). cbn [snd] in Hsrc. specialize (Hsrc s Es).
        apply Hes in Hk' as [_ Hk']. congruence.
    + f_equal. unfold entries_with_prefix. rewrite length_map. apply Permutation_length.
      apply NoDup_Permutation; [by eapply NoDup_fmap_1|apply NoDup_filter, NoDup_map_to_list|].
      intros [k e]. rewrite Hes, list_elem_of_filter, elem_of_map_to_list. done.
Qed.

End rewrite.

Section implements.
Context {DB : Type} `{BoltLaws DB}.

Definition js_matcher (s : JournalStore DB) : Matcher :=
  match js_Matcher s with Some m => m | None => default_matcher end.

Lemma on_J_Ok {A} (m : ST DB (result A)) s a s' :
  on_J m s = (Ok a, s') -> exists db', m (js_J s) = (Ok a, db') /\ s' = mkJournalStore db' (js_Matcher s).
Proof. unfold on_J. destruct (m (js_J s)) as [r db]. intros [= -> <-]. eauto. Qed.

Lemma on_J_Err {A} (m : ST DB (result A)) s e s' :
  (forall db', m (js_J s) = (Err e, db') -> db' = js_J s) -> on_J m s = (Err e, s') -> s' = s.
Proof.
  unfold on_J. intros Hm. destruct (m (js_J s)) as [r db]. intros [= -> <-].
  rewrite (Hm db eq_refl). by destruct s.
Qed.

Lemma Journal_Put_Err e db err db' : Journal_Put e db = (Err err, db') -> db' = db.
Proof. unfold Journal_Put. destruct (json_Marshal e); [apply bolt_Update_Err|by intros [=]]. Qed.

Lemma JournalStore_Get_Ok p s o s' :
  JournalStore_Get p s = (Ok o, s') -> o = dbj (js_J s) !! p.
Proof.
  unfold JournalStore_Get, of_J. intros [= Ho _].
  pose proof (Journal_Get_spec p (js_J s) _ eq_refl) as Hg.
  destruct (Journal_Get p (js_J s)) as [e|e]; [by injection Ho as <-|].
  destruct (errors_Is e ErrStoreNotFound); [|done]. injection Ho as <-. by rewrite Hg.
Qed.

Definition is_open (db : DB) : Prop := exists tx, bolt_begin db = Ok tx.

Lemma Journal_Exists_view db p e :
  is_open db -> dbj db !! p = Some e -> Journal_Exists db p = true.
Proof.
  intros [tx Hb] Hp%jview_lookup. unfold Journal_Exists, bolt_View. rewrite Hb.
  cbn [result_bind]. pose proof (tx_get_view BJournal tx p) as Hg.
  rewrite (bolt_begin_view _ _ BJournal Hb) in Hg. pose proof (eq_trans Hg Hp) as E.
  by destruct (tx_get BJournal tx p).
Qed.

Lemma Journal_Get_view db p e : is_open db -> dbj db !! p = Some e -> Journal_Get p db = Ok e.
Proof.
  intros [tx Hb] Hp%jview_lookup. unfold Journal_Get, bolt_View. rewrite Hb.
  cbn [result_bind]. pose proof (tx_get_view BJournal tx p) as Hg.
  rewrite (bolt_begin_view _ _ BJournal Hb) in Hg. pose proof (eq_trans Hg Hp) as E.
  destruct (tx_get BJournal tx p) as [v|]; [|done]. by injection E as ->.
Qed.

#[export] Instance JournalStore_laws : StoreLaws (JournalStore DB).
Proof.
  refine {|
    store_view := fun s => dbj (js_J s);
    store_token := fun s => option_get "" (db_view BMeta (js_J s) !! keyPageToken);
    store_has := fun s => Journal_Exists (js_J s);
    store_open := fun s => is_open (js_J s);
    store_matcher := js_matcher |}; cbn.
  - intros s p e. apply Journal_Exists_view.
  - intros s r s' [= <- <-]. split; [done|]. apply Journal_GetMeta_Ok.
  - intros s t s' (db' & [Hm Hv]%Journal_SetMeta_Ok & ->)%on_J_Ok. cbn. split; [|done].
    rewrite Hm. cbn [bucket_val]. by rewrite lookup_insert_eq.
  - intros s t e s'. apply on_J_Err, bolt_Update_Err.
  - intros s p r s' Hg. split; [by injection Hg as _ <-|]. intros o ->. by apply JournalStore_Get_Ok in Hg.
  - intros s e s' (db' & [Hj Hm]%Journal_Put_Ok & ->)%on_J_Ok. cbn. by rewrite Hj, Hm.
  - intros s e err s'. apply on_J_Err, Journal_Put_Err.
  - intros s p s' (db' & [Hj Hm]%Journal_Delete_Ok & ->)%on_J_Ok. cbn. by rewrite Hj, Hm.
  - intros s p err s'. apply on_J_Err, bolt_Update_Err.
  - done.
  - intros s o n err s'. apply on_J_Err. intros db'. unfold RewritePrefix.
    destruct (String.eqb o n); [done|apply bolt_Update_Err].
  - intros s p r s' [= <- <-]. split; [done|]. intros l. apply ListByPrefix_perm.
  - done.
Defined.

End implements.

(** ** Refinement

    The abstract store: a map and a token, and what each call may do to them.
    Any call may fail, and then nothing has changed. *)

Inductive store_cmd :=
| SGetToken | SSetToken (t : string) | SGet (p : string) | SPut (e : JournalEntry)
| SDelete (p : string) | SList (prefix : string).

Inductive store_out :=
| OutToken (t : string) | OutEntry (o : option JournalEntry) | OutUnit
| OutList (l : list JournalEntry) | OutErr (e : error).

Definition out {A} (f : A -> store_out) (r : result A) : store_out :=
  match r with Ok a => f a | Err e => OutErr e end.

Definition do_cmd {S} `{Store S} (c : store_cmd) (s : S) : store_out * S :=
  match c with
  | SGetToken => let '(r, s) := GetPageToken s in (out OutToken r, s)
  | SSetToken t => let '(r, s) := SetPageToken t s in (out (fun _ => OutUnit) r, s)
  | SGet p => let '(r, s) := Get p s in (out OutEntry r, s)
  | SPut e => let '(r, s) := Put e s in (out (fun _ => OutUnit) r, s)
  | SDelete p => let '(r, s) := Delete p s in (out (fun _ => OutUnit) r, s)
  | SList p => let '(r, s) := ListOldSiblings p s in (out OutList r, s)
  end.

Fixpoint do_cmds {S} `{Store S} (cs : list store_cmd) (s : S) : list store_out * S :=
  match cs with
  | [] => ([], s)
  | c :: cs => let '(o, s) := do_cmd c s in let '(os, s) := do_cmds cs s in (o :: os, s)
  end.

Definition map_state : Type := gmap string JournalEntry * string.

Inductive map_step : map_state -> store_cmd -> store_out -> map_state -> Prop :=
| map_err st c e : map_step st c (OutErr e) st
| map_get_token m t : map_step (m, t) SGetToken (OutToken t) (m, t)
| map_set_token m t t' : map_step (m, t) (SSetToken t') OutUnit (m, t')
| map_get m t p : map_step (m, t) (SGet p) (OutEntry (m !! p)) (m, t)
| map_put m t e : map_step (m, t) (SPut e) OutUnit (<[je_Path e := json_norm e]> m, t)
| map_delete m t p : map_step (m, t) (SDelete p) OutUnit (delete p m, t)
| map_list m t p l : l ≡ₚ entries_with_prefix p m -> map_step (m, t) (SList p) (OutList l) (m, t).

Inductive map_steps : map_state -> list store_cmd -> list store_out -> map_state -> Prop :=
| map_nil st : map_steps st [] [] st
| map_cons st c o st1 cs os st2 :
    map_step st c o st1 -> map_steps st1 cs os st2 -> map_steps st (c :: cs) (o :: os) st2.

Section refinement.
Context {S : Type} `{StoreLaws S}.

Definition store_abs (s : S) : map_state := (store_view s, store_token s).

Lemma do_cmd_refines c s o s' : do_cmd c s = (o, s') -> map_step (store_abs s) c o (store_abs s').
Proof.
  unfold store_abs. destruct c as [|t|p|e|p|p]; cbn.
  - destruct (GetPageToken s) as [r s1] eqn:E. apply store_get_token in E as [-> Ht].
    intros [= <- <-]. destruct r; cbn; [rewrite (Ht a eq_refl); constructor|constructor].
  - destruct (SetPageToken t s) as [[[]|e] s1] eqn:E; intros [= <- <-].
    + apply store_set_token in E as [-> ->]. constructor.
    + apply store_set_token_err in E as ->. constructor.
  - destruct (Get p s) as [r s1] eqn:E. apply store_get in E as [-> Ho].
    intros [= <- <-]. destruct r; cbn; [rewrite (Ho a eq_refl); constructor|constructor].
  - destruct (Put e s) as [[[]|err] s1] eqn:E; intros [= <- <-].
    + apply store_put in E as [-> ->]. constructor.
    + apply store_put_err in E as ->. constructor.
  - destruct (Delete p s) as [[[]|err] s1] eqn:E; intros [= <- <-].
    + apply store_delete in E as [-> ->]. constructor.
    + apply store_delete_err in E as ->. constructor.
  - destruct (ListOldSiblings p s) as [r s1] eqn:E. apply store_list in E as [-> Hl].
    intros [= <- <-]. destruct r; cbn; [by constructor; apply Hl|constructor].
Qed.

End refinement.

(** C28: the BoltDB journal refines a map from paths to entries with a page
    token: in any sequence of [Store] calls each successful call answers and
    acts as the map does, and each failed call changes nothing. *)
Theorem JournalStore_refines_map {DB} `{BoltLaws DB} cs (s : JournalStore DB) os s' :
  do_cmds cs s = (os, s') -> map_steps (store_abs s) cs os (store_abs s').
Proof.
  revert s os. induction cs as [|c cs IH]; intros s os; cbn [do_cmds]; [intros [= <- <-]; constructor|].
  destruct (do_cmd c s) as [o s1] eqn:E. destruct (do_cmds cs s1) as [os1 s2] eqn:E2.
  intros [= <- <-]. econstructor; [by apply do_cmd_refines|by apply IH].
Qed.

Lemma JournalStore_refines_map_witness :
  let s := mkJournalStore demo_db None in
  let r := do_cmds [SPut (demo_entry "q"); SGet "q"; SDelete "z"; SList "docs/"; SSetToken "t"; SGetToken] s in
  map_steps (store_abs s)
    [SPut (demo_entry "q"); SGet "q"; SDelete "z"; SList "docs/"; SSetToken "t"; SGetToken]
    (fst r) (store_abs (snd r)).
Proof. intros s r. apply JournalStore_refines_map. apply surjective_pairing. Defined.

Lemma demo_filed : filed (dbj demo_db).
Proof.
  intros k e Hk. apply elem_of_map_to_list in Hk. revert Hk.
  assert (Forall (fun kv => je_Path (snd kv) = fst kv) (map_to_list (dbj demo_db))) as HF
    by (vm_compute; repeat constructor).
  intros Hin. by apply (proj1 (Forall_forall _ _) HF) in Hin.
Qed.

Lemma RewritePrefix_moves_witness :
  let r := RewritePrefix "docs/" "archive/" demo_db in
  match fst r with
  | Err _ => snd r = demo_db
  | Ok n =>
      (forall s e, dbj demo_db !! ("docs/" +:+ s) = Some e ->
         dbj (snd r) !! ("archive/" +:+ s) = Some (json_norm (with_path ("archive/" +:+ s) e))) /\
      (forall s, dbj (snd r) !! ("docs/" +:+ s) = None) /\
      (forall k, HasPrefix k "docs/" = false ->
         (forall s, k = "archive/" +:+ s -> dbj demo_db !! ("docs/" +:+ s) = None) ->
         dbj (snd r) !! k = dbj demo_db !! k) /\
      n = Z.of_nat (length (entries_with_prefix "docs/" (dbj demo_db)))
  end.
Proof.
  intros r.
  exact (RewritePrefix_moves "docs/" "archive/" demo_db (fst r) (snd r) eq_refl eq_refl demo_filed
           (surjective_pairing r)).
Defined.

Lemma RewritePrefix_demo : fst (RewritePrefix "docs/" "archive/" demo_db) = Ok 2.
Proof. vm_compute. reflexivity. Qed.
