(* ===== verification/World.v ===== *)
(** The world the sync engine runs in: the local file system, the remote, the
    store, and what has been published, audited and waited for; its clock, its
    context and Go's map iteration order. *)
From S2P Require Import Prelude.
From S2P Require Import GoStrings.
From S2P Require Import GoRuntime.
From S2P Require Import LocalFS.
From S2P Require Import Remote.
From S2P Require Import MemFS.
From S2P Require Import Bolt.
From S2P Require Import Journal.

(** ** AuditLog entries *)

(** [syncer.AuditEntry] (types of the push and pull paths). *)
Record AuditEntry := mkAudit {
  ae_Timestamp : Time;
  ae_Op : string;
  ae_Path : string;
  ae_Origin : string;
  ae_Bytes : Z;
  ae_DurationMs : Z;
  ae_Resolution : string;
  ae_OldPath : string;
  ae_DryRun : bool;
  ae_Error : string;
  ae_From : string;
  ae_To : string;
  ae_FilesCount : Z;
}.

(** [AuditEntry{Timestamp: ts, Op: op, Path: path, Origin: origin}]. *)
Definition audit (ts : Time) (op path origin : string) : AuditEntry :=
  mkAudit ts op path origin 0 0 "" "" false "" "" "" 0.

(** [store.AuditEntry], a line of the JSONL audit log (store/audit.go). *)
Record StoreAudit := mkStoreAudit {
  sa_Timestamp : Time;
  sa_Op : string;
  sa_Path : string;
  sa_Resolution : string;
  sa_OldPath : string;
  sa_NewPath : string;
  sa_FilesCount : Z;
  sa_Reason : string;
  sa_DryRun : bool;
  sa_Error : string;
}.

(** The adapter of [cmd/homedrive/adapters.go] from one to the other. *)
Definition auditLoggerAdapter_Log (e : AuditEntry) : StoreAudit :=
  mkStoreAudit (ae_Timestamp e) (ae_Op e) (ae_Path e) "" "" "" 0 "" (ae_DryRun e) (ae_Error e).

(** ** Outputs *)

Inductive pval := PStr (s : string) | PInt (z : Z) | PTime (t : Time) | PBool (b : bool).

(** [BisyncAuditEntry] (syncer/types.go). The timestamp is kept as the instant
    its RFC3339 text denotes. *)
Record BisyncAuditEntry := mkBisyncAudit {
  ba_Timestamp : Time;
  ba_Op : string;
  ba_Duration : string;
  ba_FilesChanged : Z;
  ba_FilesPushed : Z;
  ba_FilesPulled : Z;
  ba_Conflicts : Z;
  ba_DryRun : bool;
  ba_Error : string;
}.

Inductive output :=
| OPublish (topic : string) (payload : list (string * pval))
| OAudit (e : AuditEntry)
| OStoreAudit (e : StoreAudit)
| OBisyncAudit (e : BisyncAuditEntry)
| OSleep (d : Duration).

(** ** The environment *)

(** Everything the outside decides: the clock and the context at each reading,
    the iteration order of a map at each loop, and the MD5 function. *)
Class Env := {
  env_now : nat -> Time;
  env_ctx : nat -> option error;
  env_order : forall A, nat -> list A -> list A;
  env_order_perm : forall A n l, env_order A n l ≡ₚ l;
  env_md5 : string -> string;
}.

Record World (R S : Type) := mkWorld {
  w_fs : LocalFS;
  w_remote : R;
  w_store : S;
  w_tick : nat;
  w_out : list output;
}.
Arguments mkWorld {R S} _ _ _ _ _.
Arguments w_fs {R S} _.
Arguments w_remote {R S} _.
Arguments w_store {R S} _.
Arguments w_tick {R S} _.
Arguments w_out {R S} _.

Section world.
Context {R S : Type}.
Abbreviation W := (World R S).

Definition on_fs {A} (m : ST LocalFS A) : ST W A := fun w =>
  let '(a, fs) := m (w_fs w) in (a, mkWorld fs (w_remote w) (w_store w) (w_tick w) (w_out w)).

Definition on_remote {A} (m : ST R A) : ST W A := fun w =>
  let '(a, r) := m (w_remote w) in (a, mkWorld (w_fs w) r (w_store w) (w_tick w) (w_out w)).

Definition on_store {A} (m : ST S A) : ST W A := fun w =>
  let '(a, s) := m (w_store w) in (a, mkWorld (w_fs w) (w_remote w) s (w_tick w) (w_out w)).

(** An upload reads the local file system, a download writes it. *)
Definition on_upload {A} (m : LocalFS -> ST R A) : ST W A := fun w => on_remote (m (w_fs w)) w.

Definition on_download {A} (m : ST (R * LocalFS) A) : ST W A := fun w =>
  let '(a, (r, fs)) := m (w_remote w, w_fs w) in
  (a, mkWorld fs r (w_store w) (w_tick w) (w_out w)).

Definition emit (o : output) : ST W unit := fun w =>
  (tt, mkWorld (w_fs w) (w_remote w) (w_store w) (w_tick w) (w_out w ++ [o])).

Context `{Env}.

Definition tick {A} (f : nat -> A) : ST W A := fun w =>
  (f (w_tick w), mkWorld (w_fs w) (w_remote w) (w_store w) (Datatypes.S (w_tick w)) (w_out w)).

Definition now : ST W Time := tick env_now.

(** [ctx.Err()]. *)
Definition ctx_Err : ST W (option error) := tick env_ctx.

(** Ranging over a map with these bindings. *)
Definition ranged {A} (l : list A) : ST W (list A) := tick (fun n => env_order A n l).

(** [if p.pub != nil { p.pub.PublishJSON(p.pub.Topic(parts...), payload) }];
    the publisher's error is only logged. *)
Definition publish (pub : option (list string -> string)) (parts : list string)
    (payload : list (string * pval)) : ST W unit :=
  match pub with
  | None => st_ret tt
  | Some topic => emit (OPublish (topic parts) payload)
  end.

(** [if audit != nil { audit.Log(entry) }]. *)
Definition log_audit (enabled : bool) (e : AuditEntry) : ST W unit :=
  if enabled then emit (OAudit e) else st_ret tt.

End world.

(** A component with a state of its own threads it beside the world. *)
Definition in_world {R S St A} (m : ST (World R S) A) : ST (World R S * St) A := fun '(w, st) =>
  let '(a, w) := m w in (a, (w, st)).

Definition in_state {R S St A} (m : ST St A) : ST (World R S * St) A := fun '(w, st) =>
  let '(a, st) := m st in (a, (w, st)).

(** ** Lemmas: which part of the world an action touches *)

(** What the engine can change outside: everything but clock and outputs. *)
Definition same_data {R S} (w w' : World R S) : Prop :=
  w_fs w' = w_fs w /\ w_remote w' = w_remote w /\ w_store w' = w_store w.

#[export] Instance same_data_equiv R S : Equivalence (@same_data R S).
Proof. unfold same_data. split; [intros w|intros w w'|intros w w1 w2]; intuition congruence. Qed.

(** [m] changes at most clock and outputs. *)
Definition quiet {R S A} (m : ST (World R S) A) : Prop := preserves same_data m.

Section quiet.
Context {R S : Type}.
Abbreviation W := (World R S).

Lemma quiet_ret {A} (a : A) : quiet (R := R) (S := S) (st_ret a).
Proof. by intros w. Qed.

Lemma quiet_bind {A B} (m : ST W A) (k : A -> ST W B) :
  quiet m -> (forall a, quiet (k a)) -> quiet (st_bind m k).
Proof. apply preserves_bind. typeclasses eauto. Qed.

Lemma quiet_try {A B} f (m : ST W (result A)) (k : A -> ST W (result B)) :
  quiet m -> (forall a, quiet (k a)) -> quiet (st_try f m k).
Proof. apply preserves_try. typeclasses eauto. Qed.

Lemma quiet_emit o : quiet (R := R) (S := S) (emit o).
Proof. by intros w. Qed.

Lemma quiet_fs {A} (m : ST LocalFS A) : (forall fs, snd (m fs) = fs) -> quiet (S := S) (R := R) (on_fs m).
Proof.
  intros Hm w. unfold on_fs. specialize (Hm (w_fs w)). destruct (m (w_fs w)) as [a fs].
  cbn in Hm. by subst fs.
Qed.

Lemma quiet_store {A} (m : ST S A) : (forall s, snd (m s) = s) -> quiet (R := R) (on_store m).
Proof.
  intros Hm w. unfold on_store. specialize (Hm (w_store w)). destruct (m (w_store w)) as [a s].
  cbn in Hm. by subst s.
Qed.

Context `{Env}.

Lemma quiet_tick {A} (f : nat -> A) : quiet (R := R) (S := S) (tick f).
Proof. by intros w. Qed.

Lemma quiet_now : quiet (R := R) (S := S) now.
Proof. apply quiet_tick. Qed.

Lemma quiet_ctx : quiet (R := R) (S := S) ctx_Err.
Proof. apply quiet_tick. Qed.

Lemma quiet_ranged {A} (l : list A) : quiet (R := R) (S := S) (ranged l).
Proof. apply quiet_tick. Qed.

Lemma quiet_publish pub parts payload : quiet (R := R) (S := S) (publish pub parts payload).
Proof. destruct pub; [apply quiet_emit|apply quiet_ret]. Qed.

Lemma quiet_audit b e : quiet (R := R) (S := S) (log_audit b e).
Proof. destruct b; [apply quiet_emit|apply quiet_ret]. Qed.

End quiet.

Lemma quiet_run {R S A} (m : ST (World R S) A) w a w' :
  quiet m -> m w = (a, w') -> same_data w w'.
Proof. intros Hq E. specialize (Hq w). by rewrite E in Hq. Qed.

#[export] Hint Resolve quiet_ret quiet_emit quiet_now quiet_ctx quiet_ranged quiet_publish
  quiet_audit : homedrive.

(** Splits a [do]-block into its calls. *)
Ltac quiet_step :=
  match goal with
  | |- quiet (st_bind _ _) => apply quiet_bind; [|intros ?]
  | |- quiet (st_try _ _ _) => apply quiet_try; [|intros ?]
  | |- quiet (match ?x with _ => _ end) => destruct x
  end.

Ltac solve_quiet := repeat quiet_step; eauto with homedrive.

(** Relations between worlds, for a component that threads a state beside its
    world. *)
Definition on_fst {W St : Type} (rel : W -> W -> Prop) : W * St -> W * St -> Prop :=
  fun x y => rel (fst x) (fst y).

#[export] Instance on_fst_preorder {W St} (rel : W -> W -> Prop) `{!PreOrder rel} :
  PreOrder (on_fst (St := St) rel).
Proof. split; [intros x; cbv; reflexivity|intros x y z; unfold on_fst; apply transitivity]. Qed.

Lemma preserves_world {R S St A} (rel : World R S -> World R S -> Prop) (m : ST (World R S) A) :
  preserves rel m -> preserves (on_fst (St := St) rel) (in_world m).
Proof. intros Hm [w st]. unfold in_world, on_fst. specialize (Hm w). by destruct (m w). Qed.

Lemma preserves_state {R S St A} (rel : World R S -> World R S -> Prop) `{!PreOrder rel}
    (m : ST St A) : preserves (on_fst (St := St) rel) (in_state m).
Proof. intros [w st]. unfold in_state, on_fst. by destruct (m st). Qed.

(** A concrete environment for examples. *)
Definition demo_env : Env := {|
  env_now := fun n => 1000 * Second + Z.of_nat n;
  env_ctx := fun _ => None;
  env_order := fun _ _ l => l;
  env_order_perm := fun _ _ _ => reflexivity _;
  env_md5 := fun s => s;
|}.

(** A concrete world for examples: [/home/docs/a.txt] and an in-memory remote
    and journal. *)
Definition demo_fs : LocalFS :=
  mkFS (<[[] := Folder 0]> (<[["home"] := Folder 0]> (<[["home"; "docs"] := Folder 0]>
    (<[["home"; "docs"; "a.txt"] := File (500 * Second) "hello"]> ∅))))
    (fun _ _ => None) (700 * Second).

Definition demo_mem : MemFS := NewMemFS (fun n => 600 * Second + Z.of_nat n) const_order.

Definition demo_world (db : MemBolt) : World MemFS (JournalStore MemBolt) :=
  mkWorld demo_fs demo_mem (mkJournalStore db None) 0 [].
