(* ===== verification/AuditLog.v ===== *)
(** [internal/store/audit.go]: the JSONL audit log. A line is one
    [OStoreAudit] output; an entry [json.Marshal] refuses leaves no line. *)
From S2P Require Import Prelude.
From S2P Require Import GoStrings.
From S2P Require Import GoRuntime.
From S2P Require Import LocalFS.
From S2P Require Import Remote.
From S2P Require Import Bolt.
From S2P Require Import Journal.
From S2P Require Import World.

Section auditor.
Context {R S : Type} `{Env}.

(** [Auditor.Log]; [false] is a nil auditor, which the callers test for. *)
Definition Auditor_Log (auditor : bool) (e : StoreAudit) : ST (World R S) unit :=
  if negb auditor then st_ret tt
  else
    let* ts := (if IsZero (sa_Timestamp e) then now else st_ret (sa_Timestamp e)) in
    if json_time_ok ts then
      emit (OStoreAudit (mkStoreAudit ts (sa_Op e) (sa_Path e) (sa_Resolution e) (sa_OldPath e)
        (sa_NewPath e) (sa_FilesCount e) (sa_Reason e) (sa_DryRun e) (sa_Error e)))
    else st_ret tt.

Definition Auditor_LogOp (auditor : bool) (op path : string) : ST (World R S) unit :=
  Auditor_Log auditor (mkStoreAudit 0 op path "" "" "" 0 "" false "").

Definition Auditor_LogError (auditor : bool) (op path : string) (err : error) :
    ST (World R S) unit :=
  Auditor_Log auditor (mkStoreAudit 0 op path "" "" "" 0 "" false (Error err)).

Lemma quiet_Auditor_Log b e : quiet (R := R) (S := S) (Auditor_Log b e).
Proof.
  unfold Auditor_Log. destruct b; cbn; [|apply quiet_ret].
  apply quiet_bind; [destruct (IsZero _); eauto with homedrive|intros ts].
  destruct (json_time_ok ts); eauto with homedrive.
Qed.

End auditor.

#[export] Hint Resolve quiet_Auditor_Log : homedrive.
