(* ===== verification/StoreConflict.v ===== *)
(** [internal/store/conflict.go]: the journal's conflict resolver, which picks
    the winner by policy and reserves the loser's [.old.N] name. *)
From S2P Require Import Prelude.
From S2P Require Import GoStrings.
From S2P Require Import GoRuntime.
From S2P Require Import OldSuffix.
From S2P Require Import LocalFS.
From S2P Require Import Bolt.
From S2P Require Import Journal.
From S2P Require Import World.
From S2P Require Import AuditLog.

(** ** Definitions *)

(** [ConflictPolicy]. *)
Definition StoreNewerWins : string := "newer_wins".

Definition StoreLocalWins : string := "local_wins".

Definition StoreRemoteWins : string := "remote_wins".

Inductive ConflictSide := SideLocal | SideRemote.

#[export] Instance ConflictSide_eq_dec : EqDecision ConflictSide.
Proof. solve_decision. Defined.

Definition side_text (s : ConflictSide) : string :=
  match s with SideLocal => "local" | SideRemote => "remote" end.

(** [store.ConflictResult]. *)
Record StoreConflictResult := mkStoreConflictResult {
  sr_Winner : ConflictSide;
  sr_LoserSide : ConflictSide;
  sr_OldPath : string;
  sr_Warning : string;
}.

Record ConflictInput := mkConflictInput {
  ci_Path : string;
  ci_LocalMtime : Time;
  ci_RemoteMtime : Time;
  ci_LocalMD5 : string;
  ci_RemoteMD5 : string;
}.

(** The journal is the world's store; [cv_auditor] is whether there is an
    auditor. *)
Record ConflictResolver := mkConflictResolver {
  cv_auditor : bool;
  cv_policy : string;
  cv_OldSuffixFormat : string;
}.

Definition NewConflictResolver (auditor : bool) (policy : string) : ConflictResolver :=
  mkConflictResolver auditor policy ".old.%d".

(** [ErrUnknownPolicy]. *)
Definition unknown_policy (policy : string) : error :=
  EText ("store: unknown conflict policy: " +:+ policy).

(** The three cases of PLAN.md 11.2; [show] renders a time in its own
    location. *)
Definition newerWins (show : Time -> string) (input : ConflictInput) : result (ConflictSide * string) :=
  if After (ci_LocalMtime input) (ci_RemoteMtime input) then Ok (SideLocal, "")
  else if After (ci_RemoteMtime input) (ci_LocalMtime input) then Ok (SideRemote, "")
  else Ok (SideLocal, "equal mtime (" +:+ show (ci_LocalMtime input) +:+ ") but checksums differ: local="
             +:+ ci_LocalMD5 input +:+ " remote=" +:+ ci_RemoteMD5 input +:+ "; defaulting to local wins").

Section resolver.
Context {R DB : Type} `{Bolt DB} `{Env}.
Abbreviation W := (World R DB).
Variable show : Time -> string.
Variable r : ConflictResolver.

Definition resolver_winner (input : ConflictInput) : result (ConflictSide * string) :=
  if String.eqb (cv_policy r) StoreLocalWins then Ok (SideLocal, "")
  else if String.eqb (cv_policy r) StoreRemoteWins then Ok (SideRemote, "")
  else if String.eqb (cv_policy r) StoreNewerWins then newerWins show input
  else Err (unknown_policy (cv_policy r)).

Definition resolver_matcher : Matcher :=
  match New (cv_OldSuffixFormat r) with Ok m => m | Err _ => default_matcher end.

Definition nextOldPath (path : string) (db : DB) : string * string :=
  let '(base, n) := NextOldN resolver_matcher path (Journal_Exists db) in
  (base, Format resolver_matcher base n).

Definition NextOldPath (path : string) (db : DB) : string := snd (nextOldPath path db).

(** The entry of the loser's name. *)
Definition old_entry (input : ConflictInput) (loser : ConflictSide) (oldPath : string) (ts : Time) : JournalEntry :=
  match loser with
  | SideLocal => mkJournalEntry oldPath (ci_LocalMtime input) 0 "" "" ts (side_text loser)
  | SideRemote => mkJournalEntry oldPath 0 (ci_RemoteMtime input) (ci_RemoteMD5 input) "" ts (side_text loser)
  end.

Definition Resolve (input : ConflictInput) : ST W (result StoreConflictResult) :=
  let? picked := st_ret (resolver_winner input) in
  let '(winner, warning) := picked in
  let loser := if bool_decide (winner = SideRemote) then SideLocal else SideRemote in
  let* oldPath := on_store (fun db => (NextOldPath (ci_Path input) db, db)) in
  let* ts := now in
  let? _ := on_store (Journal_Put (old_entry input loser oldPath ts))
              ?: "store: record old entry " +:+ oldPath in
  let resolution := (if String.eqb warning "" then "newer_wins:" else "equal_mtime:") +:+ side_text winner in
  Auditor_Log (cv_auditor r) (mkStoreAudit 0 "conflict" (ci_Path input) resolution oldPath "" 0 "" false "") ;;
  st_ret (Ok (mkStoreConflictResult winner loser oldPath warning)).

(** ** Lemmas *)

(** A result names a free number while fewer than [maxProbe] names are taken. *)
Lemma NextOldN_free m path (ex : string -> bool) (taken : gset string) :
  (forall p, ex p = true -> p ∈ taken) -> (size taken < Z.to_nat maxProbe)%nat ->
  let '(base, n) := NextOldN m path ex in ex (Format m base n) = false.
Proof.
  intros Htaken Hsize. rewrite NextOldN_eq. cbv zeta.
  generalize (if (0 <? snd (Base m path))%nat && negb (ex (fst (Base m path))) then path else fst (Base m path)).
  intros base. destruct (some_candidate_free m ex base taken Htaken Hsize) as (j & Hj & Hfree).
  destruct (probe_spec m ex base (Z.to_nat maxProbe) 1) as [(i & Hi & Hr & Hf & Hall)|[_ Hall]]; [done|].
  rewrite Hall in Hfree; [done|]. unfold maxProbe in *. lia.
Qed.

Context `{!BoltLaws DB}.

(** The keys of the journal, whatever they hold. *)
Definition taken_names (db : DB) : gset string := dom (db_view BJournal db).

Lemma Journal_Exists_taken db p : is_open db -> Journal_Exists db p = bool_decide (p ∈ taken_names db).
Proof.
  intros [tx Hb]. unfold Journal_Exists, bolt_View. rewrite Hb. cbn [result_bind].
  pose proof (tx_get_view BJournal tx p) as Hg. rewrite (bolt_begin_view _ _ BJournal Hb) in Hg.
  destruct (tx_get BJournal tx p) as [v|]; symmetry in Hg; symmetry.
  - apply bool_decide_eq_true_2. unfold taken_names. apply elem_of_dom. eauto.
  - apply bool_decide_eq_false_2. unfold taken_names. intros [v Hv]%elem_of_dom. congruence.
Qed.

Lemma Journal_Put_taken e db db' : Journal_Put e db = (Ok tt, db') ->
  is_open db /\ taken_names db' = {[je_Path e]} ∪ taken_names db.
Proof.
  unfold Journal_Put, taken_names. destruct (json_Marshal e) as [v|]; [|done].
  intros (tx & tx' & Hb & (tx1 & Hp & [= ->])%result_bind_Ok & Hc)%bolt_Update_Ok. split; [by exists tx|].
  rewrite (bolt_commit_view _ _ _ _ Hc), (tx_put_view _ _ _ _ _ Hp), (bolt_begin_view _ _ _ Hb).
  apply dom_insert_L.
Qed.

Lemma Resolve_Ok input (w w' : W) res :
  Resolve input w = (Ok res, w') ->
  resolver_winner input = Ok (sr_Winner res, sr_Warning res) /\
  sr_LoserSide res = (if bool_decide (sr_Winner res = SideRemote) then SideLocal else SideRemote) /\
  sr_OldPath res = NextOldPath (ci_Path input) (w_store w) /\
  w_fs w' = w_fs w /\ w_remote w' = w_remote w /\
  Journal_Put (old_entry input (sr_LoserSide res) (sr_OldPath res) (env_now (w_tick w))) (w_store w) =
    (Ok tt, w_store w').
Proof.
  unfold Resolve. intros ([winner warning] & w1 & [= Hw <-] & Hrun)%st_try_Ok.
  apply st_bind_inv in Hrun as (oldPath & w2 & Ho & Hrun). unfold on_store in Ho. injection Ho as <- <-.
  apply st_bind_inv in Hrun as (ts & w3 & Ht & Hrun). unfold now, tick in Ht. injection Ht as <- <-.
  apply st_try_Ok in Hrun as ([] & w4 & Hp & Hrun). unfold on_store in Hp. cbn in Hp.
  destruct (Journal_Put _ (w_store w)) as [x db] eqn:E. injection Hp as -> <-.
  apply st_bind_inv in Hrun as (u & w5 & Ha & [= <- <-]).
  apply (quiet_run _ _ _ _ (quiet_Auditor_Log _ _)) in Ha as (F & Rm & St). cbn in F, Rm, St |- *.
  split; [done|]. split; [done|]. split; [done|]. rewrite F, Rm, St. auto.
Qed.

(** The loser's name was free. *)
Lemma Resolve_fresh input (w w' : W) res :
  Resolve input w = (Ok res, w') -> (size (taken_names (w_store w)) < Z.to_nat maxProbe)%nat ->
  sr_OldPath res ∉ taken_names (w_store w).
Proof.
  intros (_ & _ & Ho & _ & _ & Hp)%Resolve_Ok Hsize. apply Journal_Put_taken in Hp as [Hopen _].
  rewrite Ho. unfold NextOldPath, nextOldPath.
  pose proof (NextOldN_free resolver_matcher (ci_Path input) (Journal_Exists (w_store w))
    (taken_names (w_store w))) as Hn.
  destruct (NextOldN _ _ _) as [base n]. cbn. specialize (Hn ltac:(
    intros p; rewrite Journal_Exists_taken by done; apply bool_decide_eq_true) Hsize).
  rewrite Journal_Exists_taken in Hn by done. by apply bool_decide_eq_false in Hn.
Qed.

End resolver.

(** ** Properties *)

(** Resolving a conflict reserves a name for the loser: the winner is the
    policy's (the newer side, the local one at equal times), the loser is the
    other side, its name was free in the journal and is recorded there with
    the loser's own state, and neither files nor remote are touched. An
    unknown policy is an error. *)
Theorem Resolve_spec {R DB} `{BoltLaws DB} `{Env} show r input (w w' : World R DB) res :
  Resolve show r input w = (Ok res, w') -> (size (taken_names (w_store w)) < Z.to_nat maxProbe)%nat ->
  sr_Winner res =
    (if String.eqb (cv_policy r) StoreLocalWins then SideLocal
     else if String.eqb (cv_policy r) StoreRemoteWins then SideRemote
     else if After (ci_RemoteMtime input) (ci_LocalMtime input) then SideRemote else SideLocal) /\
  sr_LoserSide res <> sr_Winner res /\ sr_OldPath res ∉ taken_names (w_store w) /\
  taken_names (w_store w') = {[sr_OldPath res]} ∪ taken_names (w_store w) /\
  dbj (w_store w') !! sr_OldPath res =
    Some (json_norm (old_entry input (sr_LoserSide res) (sr_OldPath res) (env_now (w_tick w)))) /\
  w_fs w' = w_fs w /\ w_remote w' = w_remote w.
Proof.
  intros HR Hsize. pose proof (Resolve_fresh show r input w w' res HR Hsize) as Hfresh.
  apply Resolve_Ok in HR as (Hw & Hl & Ho & Hf & Hr & Hp).
  assert (Hpath : je_Path (old_entry input (sr_LoserSide res) (sr_OldPath res) (env_now (w_tick w))) = sr_OldPath res)
    by (by destruct (sr_LoserSide res)).
  pose proof Hp as [Hopen Htaken]%Journal_Put_taken. apply Journal_Put_Ok in Hp as [Hj _].
  rewrite Hpath in Htaken, Hj. split_and!; [| | |done| |done|done].
  - unfold resolver_winner, newerWins, After in Hw |- *.
    destruct (String.eqb (cv_policy r) StoreLocalWins); [by injection Hw|].
    destruct (String.eqb (cv_policy r) StoreRemoteWins); [by injection Hw|].
    destruct (String.eqb (cv_policy r) StoreNewerWins); [|done].
    destruct (Z.ltb_spec (ci_RemoteMtime input) (ci_LocalMtime input)), (Z.ltb_spec (ci_LocalMtime input) (ci_RemoteMtime input));
      (lia || by injection Hw).
  - rewrite Hl. by destruct (sr_Winner res).
  - done.
  - rewrite Hj. apply lookup_insert_eq.
Qed.

(** Two conflicts in a row never share a loser's name, whatever their paths. *)
Theorem Resolve_distinct {R DB} `{BoltLaws DB} `{Env} show r i1 i2 (w w1 w2 : World R DB) r1 r2 :
  Resolve show r i1 w = (Ok r1, w1) -> Resolve show r i2 w1 = (Ok r2, w2) ->
  (size (taken_names (w_store w1)) < Z.to_nat maxProbe)%nat -> sr_OldPath r1 <> sr_OldPath r2.
Proof.
  intros (_ & _ & _ & _ & _ & Hp)%Resolve_Ok H2 Hsize E.
  apply Journal_Put_taken in Hp as [_ Ht].
  apply (Resolve_fresh show r i2 w1 w2 r2 H2 Hsize). rewrite Ht, <- E. apply elem_of_union_l. by destruct (sr_LoserSide r1); apply elem_of_singleton.
Qed.

Definition demo_input : ConflictInput := mkConflictInput "docs/b" 5 7 "l" "r".

Definition demo_db_world : World unit MemBolt := mkWorld demo_fs tt demo_db 0 [].

Lemma Resolve_spec_witness :
  exists res w', @Resolve _ _ _ demo_env (fun _ => "") (NewConflictResolver true "newer_wins") demo_input demo_db_world
      = (Ok res, w') /\
    sr_Winner res = SideRemote /\ sr_OldPath res ∉ taken_names demo_db.
Proof.
  destruct (@Resolve _ _ _ demo_env (fun _ => "") (NewConflictResolver true "newer_wins") demo_input demo_db_world)
    as [[res|e] w'] eqn:E; [|vm_compute in E; discriminate E].
  exists res, w'. split; [reflexivity|].
  destruct (Resolve_spec (H1 := demo_env) (fun _ => "") (NewConflictResolver true "newer_wins") demo_input
    demo_db_world w' res E) as (Hw & _ & Hf & _).
  - apply Nat.ltb_lt. vm_compute. reflexivity.
  - split; [exact Hw|exact Hf].
Defined.
