(* ===== verification/Prune.v ===== *)
(** [internal/store/prune.go]: retention of [".old.<N>"] conflict losers --
    which siblings of a base are evicted, and how an eviction is carried out. *)
From S2P Require Import Prelude.
From S2P Require Import GoStrings.
From S2P Require Import GoRuntime.
From S2P Require Import OldSuffix.
From S2P Require Import LocalFS.
From S2P Require Import Remote.
From S2P Require Import MemFS.
From S2P Require Import Bolt.
From S2P Require Import Journal.
From S2P Require Import World.
From S2P Require Import AuditLog.

(** ** Definitions *)

Record RetentionPolicy := mkPolicy { MaxPerFile : Z; MaxAge : Duration }.

Record eviction := mkEviction { ev_entry : JournalEntry; ev_reason : string }.

(** A direct sibling and its number. *)
Definition indexed : Type := JournalEntry * Z.

Definition siblings_of (m : Matcher) (base : string) (candidates : list JournalEntry) :
    list indexed :=
  omap (fun e =>
    match TrimOne m (je_Path e) with
    | Some (b, n) => if String.eqb b base then Some (e, n) else None
    | None => None
    end) candidates.

(** The order of [sort.Slice]: newest first, then the largest number first. *)
Definition newer (x y : indexed) : Prop :=
  je_LastSyncedAt (fst y) < je_LastSyncedAt (fst x) \/
  (je_LastSyncedAt (fst x) = je_LastSyncedAt (fst y) /\ snd y <= snd x).

#[export] Instance newer_dec x y : Decision (newer x y).
Proof. unfold newer. apply _. Defined.

Definition verdict (policy : RetentionPolicy) (now : Time) (i : Z) (e : JournalEntry) :
    option string :=
  if (0 <? MaxAge policy) && (MaxAge policy <? Sub now (je_LastSyncedAt e)) then Some "max_age"
  else if (0 <? MaxPerFile policy) && (MaxPerFile policy <=? i) then Some "max_per_file"
  else None.

Fixpoint judge (policy : RetentionPolicy) (now : Time) (i : Z) (l : list indexed) :
    list eviction :=
  match l with
  | [] => []
  | (e, _) :: l =>
      match verdict policy now i e with
      | Some reason => mkEviction e reason :: judge policy now (i + 1) l
      | None => judge policy now (i + 1) l
      end
  end.

Definition selectEvictions (m : Matcher) (base : string) (candidates : list JournalEntry)
    (policy : RetentionPolicy) (now : Time) : list eviction :=
  judge policy now 0 (merge_sort newer (siblings_of m base candidates)).

Section prune.
Context {R S : Type} `{Env}.
Abbreviation W := (World R S).

(** The callbacks of the pull path or of the bisync path. *)
Record PruneDeps := mkPruneDeps {
  pd_Matcher : Matcher;
  pd_ListByPrefix : string -> ST W (result (list JournalEntry));
  pd_ForEach : forall A, (JournalEntry -> A -> result A) -> A -> ST W (result A);
  pd_DeleteEntry : string -> ST W (result unit);
  pd_RemoveLocal : string -> ST W (result unit);
  pd_RemoveRemote : string -> ST W (result unit);
  pd_Auditor : bool;
  pd_Publisher : option (list string -> string);
  pd_DryRun : bool;
}.

Definition publishPruned (deps : PruneDeps) (base path reason : string) (dryRun : bool) :
    ST W unit :=
  match pd_Publisher deps with
  | None => st_ret tt
  | Some _ =>
      let* ts := now in
      publish (pd_Publisher deps) ["events"; "conflict.pruned"]
        [("ts", PTime ts); ("type", PStr "conflict.pruned"); ("path", PStr path);
         ("base", PStr base); ("reason", PStr reason); ("dry_run", PBool dryRun)]
  end.

Definition removeEvicted (deps : PruneDeps) (entry : JournalEntry) : ST W (result unit) :=
  if String.eqb (je_LastOrigin entry) "remote" then pd_RemoveRemote deps (je_Path entry)
  else pd_RemoveLocal deps (je_Path entry).

Definition audit_evicted (deps : PruneDeps) (path reason : string) : ST W unit :=
  if pd_Auditor deps then
    let* ts := now in
    Auditor_Log true (mkStoreAudit ts "conflict_gc" path "" "" "" 0 reason false "")
  else st_ret tt.

Definition evict (deps : PruneDeps) (base : string) (ev : eviction) : ST W bool :=
  let entry := ev_entry ev in
  if pd_DryRun deps then
    publishPruned deps base (je_Path entry) (ev_reason ev) true ;; st_ret false
  else
    let* r := removeEvicted deps entry in
    match r with
    | Err _ => st_ret false
    | Ok _ =>
        pd_DeleteEntry deps (je_Path entry) ;;
        audit_evicted deps (je_Path entry) (ev_reason ev) ;;
        publishPruned deps base (je_Path entry) (ev_reason ev) false ;;
        st_ret true
    end.

(** The loop over the evictions; the paths actually removed, in order. *)
Fixpoint evict_all (deps : PruneDeps) (base : string) (evs : list eviction) : ST W (list string) :=
  match evs with
  | [] => st_ret []
  | ev :: evs =>
      let* ok := evict deps base ev in
      let* removed := evict_all deps base evs in
      st_ret (if ok then je_Path (ev_entry ev) :: removed else removed)
  end.

Definition PruneOldSiblings (deps : PruneDeps) (policy : RetentionPolicy) (base : string) :
    ST W (result (list string)) :=
  let? candidates := pd_ListByPrefix deps (base +:+ Pre (pd_Matcher deps))
                       ?: "store: list siblings of " +:+ base in
  let* t := now in
  let* removed := evict_all deps base (selectEvictions (pd_Matcher deps) base candidates policy t) in
  st_ret (Ok removed).

(** The callback of the sweep: appends a sibling to its base's group. *)
Definition add_to_group (m : Matcher) (e : JournalEntry) (groups : gmap string (list JournalEntry)) :
    result (gmap string (list JournalEntry)) :=
  match TrimOne m (je_Path e) with
  | None => Ok groups
  | Some (base, _) => Ok (<[base := option_get [] (groups !! base) ++ [e]]> groups)
  end.

Fixpoint sweep_groups (deps : PruneDeps) (policy : RetentionPolicy) (t : Time)
    (groups : list (string * list JournalEntry)) : ST W (list string) :=
  match groups with
  | [] => st_ret []
  | (base, siblings) :: groups =>
      let* removed := evict_all deps base
                        (selectEvictions (pd_Matcher deps) base siblings policy t) in
      let* more := sweep_groups deps policy t groups in
      st_ret (removed ++ more)
  end.

Definition SweepOldFiles (deps : PruneDeps) (policy : RetentionPolicy) :
    ST W (result (list string)) :=
  let? groups := pd_ForEach deps _ (add_to_group (pd_Matcher deps)) ∅
                   ?: "store: sweep: walk journal" in
  let* t := now in
  let* gs := ranged (map_to_list groups) in
  let* removed := sweep_groups deps policy t gs in
  st_ret (Ok removed).

End prune.
Arguments PruneDeps : clear implicits.

(** ** Lemmas *)

#[export] Instance newer_total : Total newer.
Proof. intros x y. unfold newer. lia. Qed.

#[export] Instance newer_trans : Transitive newer.
Proof. intros x y z. unfold newer. lia. Qed.

Lemma elem_of_siblings m base cands e n :
  (e, n) ∈ siblings_of m base cands <-> e ∈ cands /\ TrimOne m (je_Path e) = Some (base, n).
Proof.
  unfold siblings_of. rewrite list_elem_of_omap. split.
  - intros (e' & Hin & Hx). destruct (TrimOne m (je_Path e')) as [[b k]|] eqn:E; [|done].
    destruct (String.eqb_spec b base); [|done]. by injection Hx as <- <-; subst.
  - intros [Hin E]. exists e. split; [done|]. rewrite E. by rewrite String.eqb_refl.
Qed.

Definition expired (policy : RetentionPolicy) (now : Time) (e : JournalEntry) : Prop :=
  0 < MaxAge policy /\ MaxAge policy < Sub now (je_LastSyncedAt e).

Lemma verdict_spec policy now i e :
  match verdict policy now i e with
  | Some reason =>
      (reason = "max_age" /\ expired policy now e) \/
      (reason = "max_per_file" /\ 0 < MaxPerFile policy <= i)
  | None => ~ expired policy now e /\ (0 < MaxPerFile policy -> i < MaxPerFile policy)
  end.
Proof.
  unfold verdict, expired.
  destruct (Z.ltb_spec 0 (MaxAge policy)), (Z.ltb_spec (MaxAge policy) (Sub now (je_LastSyncedAt e))),
    (Z.ltb_spec 0 (MaxPerFile policy)), (Z.leb_spec (MaxPerFile policy) i); cbn; try lia; auto with lia.
Qed.

#[export] Instance expired_dec policy now e : Decision (expired policy now e).
Proof. unfold expired. apply _. Defined.

(** The sibling at position [i], newest first, has to go. *)
Definition evictable (policy : RetentionPolicy) (now : Time) (i : Z) (e : JournalEntry) : Prop :=
  expired policy now e \/ 0 < MaxPerFile policy <= i.

(** The eviction of the element of [l] at position [k], with its reason. *)
Definition evicts_at (policy : RetentionPolicy) (now : Time) (l : list indexed) (k : nat)
    (ev : eviction) : Prop :=
  fst <$> l !! k = Some (ev_entry ev) /\
  ev_reason ev = if decide (expired policy now (ev_entry ev)) then "max_age" else "max_per_file".

Lemma evicts_at_cons policy now x l ks evs :
  Forall2 (evicts_at policy now l) ks evs ->
  Forall2 (evicts_at policy now (x :: l)) (map Datatypes.S ks) evs.
Proof. intros Hf. apply Forall2_fmap_l. by eapply Forall2_impl; [exact Hf|]. Qed.

Lemma StronglySorted_map_S ks : StronglySorted lt ks -> StronglySorted lt (map Datatypes.S ks).
Proof.
  induction 1 as [|k ks Hs IH Hf]; cbn [map]; constructor; [done|].
  apply Forall_fmap. eapply Forall_impl; [exact Hf|]. cbn. lia.
Qed.

(** The loop of [selectEvictions] evicts the elements at exactly the positions
    that have to go, in their order. *)
Lemma judge_exact policy now i l :
  exists ks : list nat,
    StronglySorted lt ks /\
    (forall k, k ∈ ks <-> exists x, l !! k = Some x /\ evictable policy now (i + Z.of_nat k) (fst x)) /\
    Forall2 (evicts_at policy now l) ks (judge policy now i l).
Proof.
  revert i. induction l as [|[e n] l IH]; intros i.
  { exists []. split; [constructor|]. split; [|constructor].
    intros k. split; [by intros ?%elem_of_nil|by intros (x & ? & _)]. }
  destruct (IH (i + 1)) as (ks & Hs & Hk & Hf). cbn [judge].
  assert (forall k, Datatypes.S k ∈ map Datatypes.S ks <->
    exists x, ((e, n) :: l) !! Datatypes.S k = Some x /\
      evictable policy now (i + Z.of_nat (Datatypes.S k)) (fst x)) as HS.
  { intros k. change (map Datatypes.S ks) with (Datatypes.S <$> ks).
    rewrite (list_elem_of_fmap_inj Datatypes.S), Hk.
    cbn [lookup list_lookup].
    by replace (i + Z.of_nat (Datatypes.S k)) with (i + 1 + Z.of_nat k) by lia. }
  assert (0%nat ∉ map Datatypes.S ks) as H0 by (intros (? & ? & _)%list_elem_of_fmap; done).
  pose proof (verdict_spec policy now i e) as Hv. pose proof (evicts_at_cons policy now (e, n) _ _ _ Hf) as Hc.
  destruct (verdict policy now i e) as [reason|] eqn:Ev.
  - exists (0%nat :: map Datatypes.S ks). split; [|split].
    + constructor; [by apply StronglySorted_map_S|]. apply Forall_fmap, Forall_true. intros; cbn; lia.
    + intros [|k].
      * split; [intros _|intros _; by left]. exists (e, n). split; [done|].
        rewrite Z.add_0_r. unfold evictable. cbn [fst]. tauto.
      * rewrite elem_of_cons, HS. split; [intros [?|?]; done|by right].
    + constructor; [|done]. split; [done|]. cbn [ev_entry ev_reason]. unfold verdict, expired in *.
      destruct (Z.ltb_spec 0 (MaxAge policy)), (Z.ltb_spec (MaxAge policy) (Sub now (je_LastSyncedAt e)));
        destruct (decide _); cbn in Ev; repeat case_match; simplify_eq; try done; lia.
  - exists (map Datatypes.S ks). split; [by apply StronglySorted_map_S|]. split; [|done].
    intros [|k]; [|apply HS]. split; [done|]. intros (x & [= <-] & Hx).
    rewrite Z.add_0_r in Hx. destruct Hv as [Hn Hb].
    destruct Hx as [Hx|[Hx Hle]]; [done|specialize (Hb Hx); lia].
Qed.

(** Only entries of the list are judged. *)
Lemma judge_elem policy now i l ev :
  ev ∈ judge policy now i l -> exists n, (ev_entry ev, n) ∈ l.
Proof.
  revert i. induction l as [|[e n] l IH]; intros i; cbn [judge]; [by intros ?%elem_of_nil|].
  assert (ev ∈ judge policy now (i + 1) l -> exists n', (ev_entry ev, n') ∈ (e, n) :: l) as Hl.
  { intros [n' Hn]%IH. exists n'. by right. }
  destruct (verdict policy now i e); [|exact Hl].
  intros [->|Hev]%elem_of_cons; [exists n; by left|by apply Hl].
Qed.

(** What is evicted is a direct sibling of the base. *)
Lemma selectEvictions_sibling m base cands policy now ev :
  ev ∈ selectEvictions m base cands policy now ->
  exists n, TrimOne m (je_Path (ev_entry ev)) = Some (base, n).
Proof.
  intros [n Hn]%judge_elem. exists n.
  rewrite merge_sort_Permutation in Hn. by apply elem_of_siblings in Hn as [_ ?].
Qed.

Definition unlimited (policy : RetentionPolicy) : Prop :=
  MaxPerFile policy <= 0 /\ MaxAge policy <= 0.

Lemma selectEvictions_unlimited m base cands policy now :
  unlimited policy -> selectEvictions m base cands policy now = [].
Proof.
  intros [H1 H2]. unfold selectEvictions. generalize 0.
  induction (merge_sort newer _) as [|[e n] l IH]; intros i; [done|]. cbn [judge].
  pose proof (verdict_spec policy now i e) as Hv. unfold expired in Hv.
  destruct (verdict policy now i e); [lia|apply IH].
Qed.

Section quiet_prune.
Context {R S : Type} `{Env}.

Lemma quiet_publishPruned deps base p reason b :
  quiet (R := R) (S := S) (publishPruned deps base p reason b).
Proof. unfold publishPruned. solve_quiet. Qed.

Lemma quiet_audit_evicted deps p reason : quiet (R := R) (S := S) (audit_evicted deps p reason).
Proof. unfold audit_evicted. solve_quiet. Qed.

Lemma evict_all_dry deps base evs (w : World R S) :
  pd_DryRun deps = true ->
  fst (evict_all deps base evs w) = [] /\ same_data w (snd (evict_all deps base evs w)).
Proof.
  intros Hd. revert w. induction evs as [|ev evs IH]; intros w; [done|].
  cbn [evict_all]. unfold evict, st_bind. rewrite Hd.
  pose proof (quiet_publishPruned deps base (je_Path (ev_entry ev)) (ev_reason ev) true w) as Hq.
  destruct (publishPruned _ _ _ _ _ w) as [[] w1]. cbn [st_ret fst snd] in *.
  destruct (IH w1) as [E Hs]. destruct (evict_all deps base evs w1) as [l w2]. cbn in *.
  split; [done|]. by etrans.
Qed.

Lemma PruneOldSiblings_unlimited deps policy base :
  unlimited policy -> (forall p, quiet (pd_ListByPrefix deps p)) ->
  quiet (R := R) (S := S) (PruneOldSiblings deps policy base).
Proof.
  intros Hu Hl. unfold PruneOldSiblings. apply quiet_try; [apply Hl|intros cands].
  apply quiet_bind; [apply quiet_now|intros t]. rewrite selectEvictions_unlimited by done.
  apply quiet_bind; [apply quiet_ret|intros; apply quiet_ret].
Qed.

Lemma PruneOldSiblings_dry deps policy base :
  pd_DryRun deps = true -> (forall p, quiet (pd_ListByPrefix deps p)) ->
  quiet (R := R) (S := S) (PruneOldSiblings deps policy base).
Proof.
  intros Hd Hl. unfold PruneOldSiblings. apply quiet_try; [apply Hl|intros cands].
  apply quiet_bind; [apply quiet_now|intros t].
  apply quiet_bind; [|intros; apply quiet_ret]. intros w. by apply evict_all_dry.
Qed.

Lemma SweepOldFiles_dry deps policy :
  pd_DryRun deps = true -> (forall A fn a, quiet (pd_ForEach deps A fn a)) ->
  quiet (R := R) (S := S) (SweepOldFiles deps policy).
Proof.
  intros Hd Hl. unfold SweepOldFiles. apply quiet_try; [apply Hl|intros groups].
  apply quiet_bind; [apply quiet_now|intros t].
  apply quiet_bind; [apply quiet_ranged|intros gs].
  apply quiet_bind; [|intros; apply quiet_ret].
  induction gs as [|[base sibs] gs IH]; [apply quiet_ret|]. cbn [sweep_groups].
  apply quiet_bind; [intros w; by apply evict_all_dry|intros l].
  apply quiet_bind; [apply IH|intros; apply quiet_ret].
Qed.

End quiet_prune.

(** ** Properties *)

(** C30: [selectEvictions] judges exactly the direct siblings of the base among
    the candidates, sorted newest first (the larger number first on a tie). A
    sibling is evicted if and only if it is past [max_age] or at least
    [max_per_file] siblings come before it; the evictions come in that order,
    each once, with the reason ["max_age"] where the age asks for it. Every
    other sibling is kept. *)
Theorem selectEvictions_spec m base cands policy now :
  exists (sorted : list indexed) (positions : list nat),
    sorted ≡ₚ siblings_of m base cands /\ StronglySorted newer sorted /\
    (forall e n, (e, n) ∈ sorted <-> e ∈ cands /\ TrimOne m (je_Path e) = Some (base, n)) /\
    StronglySorted lt positions /\
    (forall k x, sorted !! k = Some x ->
      k ∈ positions <->
      expired policy now (fst x) \/ 0 < MaxPerFile policy <= Z.of_nat k) /\
    Forall2 (fun k ev =>
        (exists x, sorted !! k = Some x /\ ev_entry ev = fst x) /\
        ev_reason ev = if decide (expired policy now (ev_entry ev)) then "max_age" else "max_per_file")
      positions (selectEvictions m base cands policy now).
Proof.
  set (sibs := siblings_of m base cands).
  pose proof (merge_sort_Permutation newer sibs) as Hperm.
  destruct (judge_exact policy now 0 (merge_sort newer sibs)) as (ks & Hs & Hk & Hf).
  exists (merge_sort newer sibs), ks. split; [done|].
  split; [apply StronglySorted_merge_sort; apply _|]. split.
  { intros e n. rewrite Hperm. apply elem_of_siblings. }
  split; [done|]. split.
  - intros k x Hx. rewrite Hk. unfold evictable. rewrite Z.add_0_l. split.
    + intros (y & Hy & Hv). by simplify_eq.
    + intros Hv. by exists x.
  - eapply Forall2_impl; [exact Hf|]. intros k ev [Hx%fmap_Some Hr]. split; [|done].
    destruct Hx as (x & Hx & E). by exists x.
Qed.

(** An eviction removes the file first: when the removal fails, the journal
    entry is not touched and the loser is not reported as removed; when it
    succeeds, the journal entry goes next and nothing else changes. *)
Theorem evict_file_before_journal {R S} `{Env} (deps : PruneDeps R S) base ev w :
  pd_DryRun deps = false ->
  match removeEvicted deps (ev_entry ev) w with
  | (Err _, w1) => evict deps base ev w = (false, w1)
  | (Ok _, w1) =>
      fst (evict deps base ev w) = true /\
      same_data (snd (pd_DeleteEntry deps (je_Path (ev_entry ev)) w1)) (snd (evict deps base ev w))
  end.
Proof.
  intros Hd. unfold evict, st_bind. rewrite Hd.
  destruct (removeEvicted deps (ev_entry ev) w) as [[[]|e] w1]; [|done].
  destruct (pd_DeleteEntry deps (je_Path (ev_entry ev)) w1) as [r w2]. cbn [snd].
  pose proof (quiet_audit_evicted deps (je_Path (ev_entry ev)) (ev_reason ev) w2) as Ha.
  destruct (audit_evicted _ _ _ w2) as [[] w3].
  pose proof (quiet_publishPruned deps base (je_Path (ev_entry ev)) (ev_reason ev) false w3) as Hp.
  destruct (publishPruned _ _ _ _ _ w3) as [[] w4]. cbn in *. split; [done|]. by etrans.
Qed.

(** A small set of callbacks over an in-memory store, for the examples. *)
Definition demo_deps (remove_ok dry : bool) : PruneDeps MemFS (JournalStore MemBolt) :=
  mkPruneDeps default_matcher
    (fun p => on_store (ListOldSiblings p)) (fun A fn a => on_store (ForEach A fn a))
    (fun p => on_store (Delete p))
    (fun _ => st_ret (if remove_ok then Ok tt else Err (ESent ErrPermissionDenied)))
    (fun p => on_remote (DeleteFile p)) true None dry.

Lemma evict_file_before_journal_witness :
  match removeEvicted (demo_deps false false) (demo_entry "z") (demo_world demo_db) with
  | (Err _, w1) =>
      @evict _ _ demo_env (demo_deps false false) "b" (mkEviction (demo_entry "z") "max_age")
        (demo_world demo_db) = (false, w1)
  | (Ok _, w1) =>
      fst (@evict _ _ demo_env (demo_deps false false) "b" (mkEviction (demo_entry "z") "max_age")
        (demo_world demo_db)) = true /\
      same_data (snd (pd_DeleteEntry (demo_deps false false) "z" w1))
        (snd (@evict _ _ demo_env (demo_deps false false) "b"
          (mkEviction (demo_entry "z") "max_age") (demo_world demo_db)))
  end.
Proof.
  exact (@evict_file_before_journal _ _ demo_env (demo_deps false false) "b"
    (mkEviction (demo_entry "z") "max_age") (demo_world demo_db) eq_refl).
Defined.
