(* ===== verification/Retry.v ===== *)
(** [internal/syncer/retry.go]: exponential backoff. *)
From S2P Require Import Prelude.
From S2P Require Import GoStrings.
From S2P Require Import GoRuntime.
From S2P Require Import LocalFS.
From S2P Require Import Remote.
From S2P Require Import Bolt.
From S2P Require Import Journal.
From S2P Require Import World.

(** ** Definitions *)

Record RetryConfig := mkRetryConfig {
  MaxAttempts : Z;
  InitialBackoff : Duration;
  MaxBackoff : Duration;
}.

Definition DefaultRetryConfig : RetryConfig := mkRetryConfig 5 (5 * Second) (5 * Minute).

(** The doubling is an [int64] multiplication. *)
Definition nextBackoff (current max : Duration) : Duration :=
  let next := wrap64 (current * 2) in if max <? next then max else next.

(** The final error; without a single attempt there is no last error to wrap. *)
Definition exhausted (desc : string) (lastErr : option error) : error :=
  EWrap desc (EJoin (ESent ErrRetriesExhausted) (option_get (EText "%!w(<nil>)") lastErr)).

Section retry.
Context {R S : Type} `{Env} {A : Type}.
Abbreviation W := (World R S).
Variable cfg : RetryConfig.
Variable desc : string.
Variable sleepFn : Duration -> ST W unit.
Variable fn : ST W (result A).

(** The loop, with [todo] attempts to go. *)
Fixpoint retry_loop (todo : nat) (backoff : Duration) (lastErr : option error) :
    ST W (result A) :=
  match todo with
  | O => st_ret (Err (exhausted desc lastErr))
  | Datatypes.S todo =>
      let* c := ctx_Err in
      match c with
      | Some e => st_ret (Err (EWrap "retry cancelled" e))
      | None =>
          let* r := fn in
          match r with
          | Ok a => st_ret (Ok a)
          | Err e =>
              match todo with
              | O => retry_loop todo backoff (Some e)
              | Datatypes.S _ =>
                  sleepFn backoff ;;
                  retry_loop todo (nextBackoff backoff (MaxBackoff cfg)) (Some e)
              end
          end
      end
  end.

Definition retryFunc : ST W (result A) :=
  retry_loop (Z.to_nat (MaxAttempts cfg)) (InitialBackoff cfg) None.

End retry.

(** [contextSleep], the default sleep. *)
Definition contextSleep {R S} (d : Duration) : ST (World R S) unit := emit (OSleep d).

(** ** Lemmas *)

(** The backoffs of [n] failed attempts. *)
Fixpoint backoffs (max : Duration) (n : nat) (b : Duration) : list Duration :=
  match n with O => [] | Datatypes.S n => b :: backoffs max n (nextBackoff b max) end.

Lemma nextBackoff_small b max :
  0 <= b -> b <= 2 ^ 62 - 1 -> nextBackoff b max = Z.min (b * 2) max.
Proof.
  intros H0 H1. unfold nextBackoff.
  rewrite wrap64_id by (unfold in_int64, min_int64, max_int64; lia).
  destruct (Z.ltb_spec max (b * 2)); lia.
Qed.

Lemma backoffs_lookup max n b i d :
  0 <= b <= max -> max <= 2 ^ 62 - 1 ->
  backoffs max n b !! i = Some d -> d = Z.min (b * 2 ^ Z.of_nat i) max.
Proof.
  intros Hb Hm. revert n b Hb. induction i as [|i IH]; intros [|n] b Hb E; try done; cbn in E.
  - injection E as <-. change (2 ^ Z.of_nat 0) with 1. lia.
  - rewrite nextBackoff_small in E by lia.
    apply IH in E; [|lia]. rewrite E. rewrite Nat2Z.inj_succ, Z.pow_succ_r by lia.
    pose proof (Z.pow_pos_nonneg 2 (Z.of_nat i) ltac:(lia) ltac:(lia)).
    destruct (Z.le_ge_cases (b * 2) max); [rewrite (Z.min_l (b * 2)) by lia; f_equal; ring|].
    rewrite (Z.min_r (b * 2)) by lia. nia.
Qed.

Lemma backoffs_length max n b : length (backoffs max n b) = n.
Proof. revert b. induction n as [|n IH]; intros b; [done|]. cbn. by rewrite IH. Qed.

(** The backoff after the attempt number [k], from 0. *)
Definition backoff_at (cfg : RetryConfig) (k : nat) : Duration :=
  Nat.iter k (fun b => nextBackoff b (MaxBackoff cfg)) (InitialBackoff cfg).

Lemma backoff_at_spec cfg k :
  0 <= InitialBackoff cfg <= MaxBackoff cfg -> MaxBackoff cfg <= 2 ^ 62 - 1 ->
  backoff_at cfg k = Z.min (InitialBackoff cfg * 2 ^ Z.of_nat k) (MaxBackoff cfg).
Proof.
  intros Hb Hm. induction k as [|k IH]; cbn [backoff_at Nat.iter].
  { unfold backoff_at. cbn. rewrite Z.pow_0_r. lia. }
  unfold backoff_at in *. cbn [Nat.iter nat_rect]. unfold Nat.iter in IH. rewrite IH.
  pose proof (Z.pow_pos_nonneg 2 (Z.of_nat k) ltac:(lia) ltac:(lia)).
  rewrite nextBackoff_small by nia. rewrite Nat2Z.inj_succ, Z.pow_succ_r by lia. nia.
Qed.

Section lemmas.
Context {R S : Type} `{Env} {A : Type}.
Abbreviation W := (World R S).

(** [k] attempts made from [w0], under a live context, have failed; each was
    followed by the sleep of its backoff, which ends in the state given. *)
Inductive retried cfg sleepFn (fn : ST W (result A)) (w0 : W) : nat -> W -> Prop :=
| retried_none : retried cfg sleepFn fn w0 0 w0
| retried_more k w1 w2 e w3 w4 :
    retried cfg sleepFn fn w0 k w1 ->
    ctx_Err w1 = (None, w2) -> fn w2 = (Err e, w3) -> sleepFn (backoff_at cfg k) w3 = (tt, w4) ->
    retried cfg sleepFn fn w0 (Datatypes.S k) w4.

(** How the loop can end, when [n] attempts are allowed. *)
Definition ended cfg desc sleepFn (fn : ST W (result A)) (n : nat) (w0 : W) (out : result A * W) : Prop :=
  exists k w1 w2, (k < n)%nat /\ retried cfg sleepFn fn w0 k w1 /\
    ((exists a, ctx_Err w1 = (None, w2) /\ fst out = Ok a /\ fn w2 = out) \/
     (exists e w3, Datatypes.S k = n /\ ctx_Err w1 = (None, w2) /\ fn w2 = (Err e, w3) /\
        out = (Err (exhausted desc (Some e)), w3)) \/
     (exists c, ctx_Err w1 = (Some c, w2) /\ out = (Err (EWrap "retry cancelled" c), w2))).

Lemma retry_loop_ended cfg desc sleepFn (fn : ST W (result A)) w0 todo k le w :
  retried cfg sleepFn fn w0 k w ->
  ended cfg desc sleepFn fn (k + Datatypes.S todo) w0
    (retry_loop cfg desc sleepFn fn (Datatypes.S todo) (backoff_at cfg k) le w).
Proof.
  revert k le w. induction todo as [|todo IH]; intros k le w Hr; cbn [retry_loop]; unfold st_bind at 1;
    destruct (ctx_Err w) as [[c|] w2] eqn:Ec.
  1,3: exists k, w, w2; split_and!; [lia|done|]; right; right; eauto.
  all: unfold st_bind at 1; destruct (fn w2) as [[a|e] w3] eqn:Ef.
  1,3: exists k, w, w2; split_and!; [lia|done|]; left; exists a; done.
  - exists k, w, w2. split_and!; [lia|done|]. right; left. exists e, w3. split_and!; [lia|done|done|done].
  - unfold st_bind at 1. destruct (sleepFn (backoff_at cfg k) w3) as [[] w4] eqn:Es.
    replace (k + Datatypes.S (Datatypes.S todo))%nat with (Datatypes.S k + Datatypes.S todo)%nat by lia.
    exact (IH (Datatypes.S k) (Some e) w4 (retried_more _ _ _ _ _ _ _ _ _ _ Hr Ec Ef Es)).
Qed.

(** Whatever every attempt and every sleep preserve, the whole retry does. *)
Lemma retry_invariant (P : W -> Prop) cfg desc sleepFn (fn : ST W (result A)) :
  (forall w w', same_data w w' -> P w -> P w') ->
  (forall d w, P w -> P (snd (sleepFn d w))) ->
  (forall w e w', P w -> fn w = (Err e, w') -> P w') ->
  forall w e w', P w -> retryFunc cfg desc sleepFn fn w = (Err e, w') -> P w'.
Proof.
  intros Hd Hs Hf w e w'. unfold retryFunc. generalize (InitialBackoff cfg), (@None error).
  revert w. induction (Z.to_nat (MaxAttempts cfg)) as [|n IH]; intros w b le Hw; [by intros [= _ <-]|].
  cbn [retry_loop]. unfold st_bind at 1.
  pose proof (Hd w _ (quiet_ctx w) Hw) as Hw1. destruct (ctx_Err w) as [[c|] w1]; cbn in Hw1.
  - by intros [= _ <-].
  - unfold st_bind at 1. destruct (fn w1) as [[a|e1] w2] eqn:E; [done|].
    apply Hf in E; [|done]. destruct n as [|n]; [by apply IH|].
    unfold st_bind. pose proof (Hs b w2 E) as H3. destruct (sleepFn b w2) as [[] w3].
    by apply IH.
Qed.

(** Where every attempt fails and keeps [P], so does the whole retry. *)
Lemma retry_all_fail (P : W -> Prop) cfg desc sleepFn (fn : ST W (result A)) w res w' :
  (forall x res y, P x -> fn x = (res, y) -> is_ok res = false /\ P y) ->
  (forall x y, same_data x y -> P x -> P y) -> (forall d x, P x -> P (snd (sleepFn d x))) ->
  P w -> retryFunc cfg desc sleepFn fn w = (res, w') -> is_ok res = false /\ P w'.
Proof.
  intros Hf Hd Hs. unfold retryFunc. generalize (InitialBackoff cfg), (@None error).
  revert w. induction (Z.to_nat (MaxAttempts cfg)) as [|n IH]; intros w b le Hw; [by intros [= <- <-]|].
  cbn [retry_loop]. unfold st_bind at 1.
  pose proof (Hd w _ (quiet_ctx w) Hw) as Hw1. destruct (ctx_Err w) as [[c|] w1]; cbn in Hw1.
  - by intros [= <- <-].
  - unfold st_bind at 1. destruct (fn w1) as [r w2] eqn:E.
    apply Hf in E as [Hr Hw2]; [|done]. destruct r as [a|e]; [done|].
    destruct n as [|n]; [by apply IH|].
    unfold st_bind. pose proof (Hs b w2 Hw2) as Hw3. destruct (sleepFn b w2) as [[] w3]. by apply IH.
Qed.

(** A successful retry ends with the successful attempt. *)
Lemma retry_Ok cfg desc sleepFn (fn : ST W (result A)) w a w' :
  retryFunc cfg desc sleepFn fn w = (Ok a, w') -> exists w1, fn w1 = (Ok a, w').
Proof.
  unfold retryFunc. generalize (InitialBackoff cfg), (@None error). revert w.
  induction (Z.to_nat (MaxAttempts cfg)) as [|n IH]; intros w b le; [done|].
  cbn [retry_loop]. unfold st_bind at 1. destruct (ctx_Err w) as [[c|] w1]; [done|].
  unfold st_bind at 1. destruct (fn w1) as [[a1|e1] w2] eqn:E.
  - intros [= <- <-]. eauto.
  - destruct n as [|n]; [by intros [w3 ?]%IH; eauto|].
    unfold st_bind. destruct (sleepFn b w2) as [[] w3]. apply IH.
Qed.

(** An attempt that succeeds at once is the whole retry. *)
Lemma retry_first cfg desc sleepFn (fn : ST W (result A)) w a w' :
  1 <= MaxAttempts cfg -> env_ctx (w_tick w) = None ->
  fn (snd (ctx_Err w)) = (Ok a, w') -> retryFunc cfg desc sleepFn fn w = (Ok a, w').
Proof.
  intros Hn Hc Hf. unfold retryFunc.
  destruct (Z.to_nat (MaxAttempts cfg)) as [|n] eqn:E; [lia|]. cbn [retry_loop].
  unfold st_bind at 1. unfold ctx_Err, tick in *. rewrite Hc. cbn [snd] in Hf.
  unfold st_bind. by rewrite Hf.
Qed.

(** Attempts that only fail. *)
Lemma retry_fails cfg desc (fn : ST W (result A)) e w :
  (forall n, env_ctx n = None) -> (forall w, fn w = (Err e, w)) -> 1 <= MaxAttempts cfg ->
  exists w', retryFunc cfg desc contextSleep fn w = (Err (exhausted desc (Some e)), w') /\
    same_data w w' /\
    w_out w' = w_out w ++ map OSleep
      (backoffs (MaxBackoff cfg) (Z.to_nat (MaxAttempts cfg) - 1) (InitialBackoff cfg)).
Proof.
  intros Hc Hf Hn. unfold retryFunc. generalize (@None error).
  generalize (InitialBackoff cfg) as b. revert w.
  assert (0 < Z.to_nat (MaxAttempts cfg))%nat as Hpos by lia.
  induction (Z.to_nat (MaxAttempts cfg)) as [|n IH]; intros w b le; [lia|].
  cbn [retry_loop]. unfold st_bind at 1, ctx_Err at 1, tick at 1. rewrite Hc.
  unfold st_bind at 1. rewrite Hf. destruct n as [|n].
  - eexists. cbn. rewrite app_nil_r. done.
  - unfold st_bind, contextSleep at 1, emit. cbn [w_fs w_remote w_store w_tick w_out].
    destruct (IH ltac:(lia) (mkWorld (w_fs w) (w_remote w) (w_store w) (Datatypes.S (w_tick w))
                (w_out w ++ [OSleep b])) (nextBackoff b (MaxBackoff cfg)) (Some e))
      as (w' & -> & Hd & Ho).
    exists w'. split; [done|]. split; [done|]. rewrite Ho. cbn [w_out].
    rewrite <- app_assoc. f_equal. cbn [app]. f_equal.
    replace (Datatypes.S (Datatypes.S n) - 1)%nat with (Datatypes.S n) by lia.
    replace (Datatypes.S n - 1)%nat with n by lia. done.
Qed.

End lemmas.

(** ** Properties *)

(** An operation that keeps failing is tried [MaxAttempts] times, sleeping
    between attempts only: [MaxAttempts - 1] sleeps, the [i]-th of
    [InitialBackoff * 2^i] capped at [MaxBackoff], and the error returned wraps
    both [ErrRetriesExhausted] and the last failure. *)
Theorem retryFunc_backoff {R S A} `{Env} cfg desc (fn : ST (World R S) (result A)) s w :
  (forall n, env_ctx n = None) -> (forall w, fn w = (Err (ESent s), w)) ->
  1 <= MaxAttempts cfg -> 0 <= InitialBackoff cfg <= MaxBackoff cfg ->
  MaxBackoff cfg <= 2 ^ 62 - 1 ->
  exists e w' sleeps,
    retryFunc cfg desc contextSleep fn w = (Err e, w') /\
    errors_Is e ErrRetriesExhausted = true /\ errors_Is e s = true /\
    w_out w' = w_out w ++ map OSleep sleeps /\
    Z.of_nat (length sleeps) = MaxAttempts cfg - 1 /\
    (forall i d, sleeps !! i = Some d ->
       d = Z.min (InitialBackoff cfg * 2 ^ Z.of_nat i) (MaxBackoff cfg)).
Proof.
  intros Hc Hf Hn Hb Hm.
  destruct (retry_fails cfg desc fn (ESent s) w Hc Hf Hn) as (w' & E & _ & Ho).
  exists (exhausted desc (Some (ESent s))), w'. eexists. split; [done|].
  split; [done|]. split; [cbn; rewrite (bool_decide_eq_true_2 (s = s)) by done; apply orb_true_r|].
  split; [done|]. split; [rewrite backoffs_length; lia|].
  intros i d. by apply backoffs_lookup.
Qed.

Lemma retryFunc_backoff_witness :
  let w := mkWorld (mkFS ∅ (fun _ _ => None) 0) tt tt 0 [] in
  exists e w' sleeps,
    @retryFunc _ _ demo_env unit DefaultRetryConfig "x" contextSleep
      (fun w => (Err (ESent ErrNetworkUnavailable), w)) w = (Err e, w') /\
    errors_Is e ErrRetriesExhausted = true /\ errors_Is e ErrNetworkUnavailable = true /\
    w_out w' = w_out w ++ map OSleep sleeps /\
    Z.of_nat (length sleeps) = MaxAttempts DefaultRetryConfig - 1 /\
    (forall i d, sleeps !! i = Some d ->
       d = Z.min (InitialBackoff DefaultRetryConfig * 2 ^ Z.of_nat i) (MaxBackoff DefaultRetryConfig)).
Proof.
  intros w. apply (@retryFunc_backoff _ _ _ demo_env); try done; cbn; try lia.
  all: by vm_compute.
Defined.

(** C37: the attempts are counted. With [MaxAttempts] below 1 nothing is run and
    the error is [ErrRetriesExhausted]. Otherwise some [k < MaxAttempts]
    attempts failed, each under a live context and followed by the sleep of its
    backoff, and then one of three things happened: the context is live and
    attempt [k + 1] succeeds, whose result and state are returned; it fails, it
    was number [MaxAttempts], and without another sleep the error returned
    wraps [ErrRetriesExhausted] and this last failure; or the context is
    cancelled before it, and its error is returned. The [k]-th backoff is
    [InitialBackoff] doubled [k] times, capped at [MaxBackoff]. *)
Theorem retryFunc_outcome {R S A} `{Env} cfg desc sleepFn (fn : ST (World R S) (result A)) w :
  let out := retryFunc cfg desc sleepFn fn w in
  (MaxAttempts cfg <= 0 -> out = (Err (exhausted desc None), w)) /\
  (1 <= MaxAttempts cfg ->
   exists k w1 w2, Z.of_nat k < MaxAttempts cfg /\ retried cfg sleepFn fn w k w1 /\
     ((exists a w3, ctx_Err w1 = (None, w2) /\ fn w2 = (Ok a, w3) /\ out = (Ok a, w3)) \/
      (exists e w3, Z.of_nat k + 1 = MaxAttempts cfg /\ ctx_Err w1 = (None, w2) /\
         fn w2 = (Err e, w3) /\ out = (Err (exhausted desc (Some e)), w3)) \/
      (exists c, ctx_Err w1 = (Some c, w2) /\ out = (Err (EWrap "retry cancelled" c), w2)))) /\
  (forall k, 0 <= InitialBackoff cfg <= MaxBackoff cfg -> MaxBackoff cfg <= 2 ^ 62 - 1 ->
     backoff_at cfg k = Z.min (InitialBackoff cfg * 2 ^ Z.of_nat k) (MaxBackoff cfg)) /\
  (forall le, errors_Is (exhausted desc le) ErrRetriesExhausted = true).
Proof.
  cbn zeta. unfold retryFunc. split_and!; [|intros Hn|intros k; apply backoff_at_spec|done].
  { intros Hn. by replace (Z.to_nat (MaxAttempts cfg)) with 0%nat by lia. }
  destruct (Z.to_nat (MaxAttempts cfg)) as [|n] eqn:E; [lia|].
  destruct (retry_loop_ended cfg desc sleepFn fn w n 0 None w (retried_none _ _ _ _))
    as (k & w1 & w2 & Hk & Hr & Hend).
  exists k, w1, w2. split_and!; [lia|done|].
  destruct Hend as [(a & Hc & Ha & Hf)|[(e & w3 & Hl & Hend)|Hend]]; [left|right; left|right; right; done].
  - exists a, (snd (fn w2)). rewrite Hf. by destruct (retry_loop _ _ _ _ _ _ _ _) as [? ?]; cbn in *; subst.
  - exists e, w3. split; [lia|done].
Qed.

(** An operation that fails until the clock has been read three times: the
    third attempt of five succeeds. *)
Definition demo_flaky : ST (World unit unit) (result unit) := fun w =>
  if Nat.ltb (w_tick w) 3 then (Err (ESent ErrNetworkUnavailable), w) else (Ok tt, w).

Lemma retryFunc_outcome_witness :
  let w := mkWorld (mkFS ∅ (fun _ _ => None) 0) tt tt 0 [] in
  let cfg := DefaultRetryConfig in
  let out := @retryFunc _ _ demo_env unit cfg "x" contextSleep demo_flaky w in
  is_ok (fst out) = true /\ w_out (snd out) = [OSleep (5 * Second); OSleep (10 * Second)] /\
  exists k w1 w2, Z.of_nat k < 5 /\ @retried _ _ demo_env _ cfg contextSleep demo_flaky w k w1 /\
    ((exists a w3, @ctx_Err _ _ demo_env w1 = (None, w2) /\ demo_flaky w2 = (Ok a, w3) /\ out = (Ok a, w3)) \/
     (exists e w3, Z.of_nat k + 1 = 5 /\ @ctx_Err _ _ demo_env w1 = (None, w2) /\
        demo_flaky w2 = (Err e, w3) /\ out = (Err (exhausted "x" (Some e)), w3)) \/
     (exists c, @ctx_Err _ _ demo_env w1 = (Some c, w2) /\ out = (Err (EWrap "retry cancelled" c), w2))).
Proof.
  split; [by vm_compute|]. split; [by vm_compute|].
  apply (proj1 (proj2 (@retryFunc_outcome _ _ _ demo_env DefaultRetryConfig "x" contextSleep demo_flaky
    (mkWorld (mkFS ∅ (fun _ _ => None) 0) tt tt 0 [])))). by vm_compute.
Defined.
