(* ===== verification/Push.v ===== *)
(** The push syncer: [internal/syncer/syncer.go], [push_journal.go],
    [push_dir.go], [push_remove.go] and the event types of [ifaces.go]. The
    handlers of the workers; the pool that runs them is in Engine.v. *)
From S2P Require Import Prelude.
From S2P Require Import GoStrings.
From S2P Require Import GoRuntime.
From S2P Require Import GoPath.
From S2P Require Import LocalFS.
From S2P Require Import Remote.
From S2P Require Import MemFS.
From S2P Require Import FsWrappers.
From S2P Require Import OldSuffix.
From S2P Require Import Bolt.
From S2P Require Import Journal.
From S2P Require Import World.
From S2P Require Import Retry.

(** ** Definitions *)

Inductive Op := OpCreate | OpWrite | OpRemove | OpRename.

#[export] Instance Op_eq_dec : EqDecision Op.
Proof. solve_decision. Defined.

Definition Op_String (o : Op) : string :=
  match o with
  | OpCreate => "create" | OpWrite => "write" | OpRemove => "remove" | OpRename => "rename"
  end.

Record Event := mkEvent { ev_Path : string; ev_Op : Op; ev_At : Time }.

Record DirRename := mkDirRename { dr_From : string; dr_To : string; dr_At : Time }.

Record Config := mkConfig {
  Workers : Z;
  Retry : RetryConfig;
  cfg_DryRun : bool;
  cfg_LocalRoot : string;
}.

Definition DefaultConfig : Config := mkConfig 2 DefaultRetryConfig false "".

(** The syncer's fields that its handlers read: the sleep function is
    [contextSleep], the clock is the environment's. *)
Record Syncer := mkSyncer {
  s_cfg : Config;
  s_audit : bool;
  s_publisher : option (list string -> string);
}.

(** [New]: at least one worker, two by default. *)
Definition NewSyncer (cfg : Config) (audit : bool) (pub : option (list string -> string)) : Syncer :=
  mkSyncer
    (if Workers cfg <? 1 then mkConfig 2 (Retry cfg) (cfg_DryRun cfg) (cfg_LocalRoot cfg) else cfg)
    audit pub.

(** The remote directory of a root-relative file. *)
Definition remoteDir (rel : string) : string :=
  let dir := Dir rel in if String.eqb dir "." then "" else dir.

Section push.
Context {R S : Type} `{RemoteFS R} `{Store S} `{Env}.
Abbreviation W := (World R S).
Variable s : Syncer.

Definition local_path (rel : string) : string := PathJoin (cfg_LocalRoot (s_cfg s)) rel.

Definition appendAudit (e : AuditEntry) : ST W unit := log_audit (s_audit s) e.

Definition publishEvent (eventType : string) (payload : list (string * pval)) : ST W unit :=
  publish (s_publisher s) ["events"; eventType] payload.

(** A create or write of a local directory. *)
Definition skipDirEvent (ev : Event) : ST W bool :=
  match ev_Op ev with
  | OpCreate | OpWrite =>
      let* r := on_fs (os_Stat (local_path (ev_Path ev))) in
      st_ret (match r with Ok info => IsDir info | Err _ => false end)
  | _ => st_ret false
  end.

Definition logDryRun (ev : Event) : ST W unit :=
  let* ts := now in
  appendAudit (mkAudit ts (Op_String (ev_Op ev)) (ev_Path ev) "" 0 0 "" "" true "" "" "" 0).

Definition logDryRunDirRename (dr : DirRename) : ST W unit :=
  let* ts := now in
  appendAudit (mkAudit ts "dir_rename" "" "" 0 0 "" "" true "" (dr_From dr) (dr_To dr) 0).

(** An absent object or a folder is already the desired state. *)
Definition execRemove (rel : string) : ST W (result unit) :=
  let* r := on_remote (DeleteFile rel) in
  match r with
  | Ok _ => st_ret (Ok tt)
  | Err e =>
      if errors_Is e ErrNotFound then st_ret (Ok tt)
      else if errors_Is e ErrIsDir then st_ret (Ok tt)
      else st_ret (Err (EWrap ("delete file " +:+ rel) e))
  end.

Definition execEvent (ev : Event) : ST W (result (option RemoteObject)) :=
  match ev_Op ev with
  | OpCreate | OpWrite =>
      let? obj := on_upload (CopyFile (local_path (ev_Path ev)) (remoteDir (ev_Path ev)))
                    ?: "copy file " +:+ ev_Path ev in
      st_ret (Ok (Some obj))
  | OpRemove => let? _ := execRemove (ev_Path ev) in st_ret (Ok None)
  | OpRename => st_ret (Err (EText ("unhandled operation: " +:+ Op_String (ev_Op ev))))
  end.

(** The journal entry of a push. *)
Definition pushEntry (rel : string) (obj : option RemoteObject) : ST W JournalEntry :=
  let* ts := now in
  match obj with
  | None => st_ret (mkJournalEntry rel 0 0 "" "" ts "local")
  | Some obj =>
      let* r := on_fs (os_Stat (local_path rel)) in
      st_ret (mkJournalEntry rel (match r with Ok info => ModTime info | Err _ => 0 end)
        (ro_ModTime obj) (ro_MD5 obj) (ro_RemoteID obj) ts "local")
  end.

Definition recordResult (path op : string) (r : result (option RemoteObject)) (elapsed : Duration) :
    ST W unit :=
  match r with
  | Err err =>
      let* ts := now in
      appendAudit (mkAudit ts op path "" 0 (Milliseconds elapsed) "" "" false (Error err) "" "" 0) ;;
      let* ts := now in
      publishEvent "push.failure" [("ts", PTime ts); ("type", PStr op); ("path", PStr path);
        ("error", PStr (Error err)); ("duration_ms", PInt (Milliseconds elapsed))]
  | Ok obj =>
      let* record := pushEntry path obj in
      on_store (Put record) ;;
      let* ts := now in
      appendAudit (mkAudit ts op path "" 0 (Milliseconds elapsed) "" "" false "" "" "" 0) ;;
      let* ts := now in
      publishEvent "push.success" [("ts", PTime ts); ("type", PStr op); ("path", PStr path);
        ("duration_ms", PInt (Milliseconds elapsed))]
  end.

Definition handleEvent (ev : Event) : ST W unit :=
  let* start := now in
  let* skip := skipDirEvent ev in
  if skip : bool then st_ret tt
  else if cfg_DryRun (s_cfg s) then logDryRun ev
  else
    let* r := retryFunc (Retry (s_cfg s)) (Op_String (ev_Op ev)) contextSleep (execEvent ev) in
    let* finished := now in
    recordResult (ev_Path ev) (Op_String (ev_Op ev)) r (Sub finished start).

Definition dir_rename_ok (dr : DirRename) (elapsed : Duration) : ST W unit :=
  let* rw := on_store (StoreRewritePrefix (dr_From dr) (dr_To dr)) in
  let count := match rw with Ok n => n | Err _ => 0 end in
  let* ts := now in
  appendAudit (mkAudit ts "dir_rename" "" "" 0 (Milliseconds elapsed) "" "" false ""
    (dr_From dr) (dr_To dr) count) ;;
  let* ts := now in
  publishEvent "push.success" [("ts", PTime ts); ("type", PStr "dir_rename");
    ("from", PStr (dr_From dr)); ("to", PStr (dr_To dr)); ("files_count", PInt count);
    ("duration_ms", PInt (Milliseconds elapsed))].

Definition dir_rename_failed (dr : DirRename) (err : error) (elapsed : Duration) : ST W unit :=
  let* ts := now in
  appendAudit (mkAudit ts "dir_rename" "" "" 0 (Milliseconds elapsed) "" "" false (Error err)
    (dr_From dr) (dr_To dr) 0) ;;
  let* ts := now in
  publishEvent "push.failure" [("ts", PTime ts); ("type", PStr "dir_rename");
    ("from", PStr (dr_From dr)); ("to", PStr (dr_To dr)); ("error", PStr (Error err));
    ("duration_ms", PInt (Milliseconds elapsed))].

Definition handleDirRename (dr : DirRename) : ST W unit :=
  let* start := now in
  if cfg_DryRun (s_cfg s) then logDryRunDirRename dr
  else
    let* r := retryFunc (Retry (s_cfg s)) "dir_rename" contextSleep
                (on_remote (MoveFile (dr_From dr) (dr_To dr))) in
    let* finished := now in
    match r with
    | Ok _ => dir_rename_ok dr (Sub finished start)
    | Err err => dir_rename_failed dr err (Sub finished start)
    end.

End push.

(** ** Lemmas *)

Section lemmas.
Context {R S : Type} `{RemoteFS R} `{Store S} `{Env}.
Abbreviation W := (World R S).

Lemma on_fs_Stat p info (w : W) :
  fst (os_Stat p (w_fs w)) = Ok info -> on_fs (os_Stat p) w = (Ok info, w).
Proof.
  unfold on_fs. pose proof (os_Stat_state p (w_fs w)) as Hfs.
  destruct (os_Stat p (w_fs w)) as [r fs]. cbn in Hfs |- *. intros ->. subst fs. by destruct w.
Qed.

Lemma quiet_appendAudit s e : quiet (R := R) (S := S) (appendAudit s e).
Proof. apply quiet_audit. Qed.

Lemma quiet_publishEvent s t p : quiet (R := R) (S := S) (publishEvent s t p).
Proof. apply quiet_publish. Qed.

Lemma quiet_skipDirEvent s ev : quiet (R := R) (S := S) (skipDirEvent s ev).
Proof.
  unfold skipDirEvent. destruct (ev_Op ev); eauto with homedrive.
  all: apply quiet_bind; [apply quiet_fs, os_Stat_state|intros; apply quiet_ret].
Qed.

Lemma quiet_pushEntry s rel obj : quiet (R := R) (S := S) (pushEntry s rel obj).
Proof.
  unfold pushEntry. apply quiet_bind; [apply quiet_now|intros ts]. destruct obj; [|apply quiet_ret].
  apply quiet_bind; [apply quiet_fs, os_Stat_state|intros; apply quiet_ret].
Qed.

Lemma contextSleep_quiet d : quiet (R := R) (S := S) (contextSleep d).
Proof. apply quiet_emit. Qed.

End lemmas.

#[export] Hint Resolve quiet_appendAudit quiet_publishEvent quiet_skipDirEvent quiet_pushEntry
  contextSleep_quiet : homedrive.

(** *** Paths *)

(** The remote directory and the last element join to the path. *)
Lemma remoteDir_join ds c :
  Forall (fun d => valid_elem d = true) (ds ++ [c]) ->
  PathJoin (remoteDir (Join (ds ++ [c]) "/")) c = Join (ds ++ [c]) "/".
Proof.
  intros Hcs. apply Forall_app in Hcs as Hc. destruct Hc as [Hds Hc].
  rewrite Forall_singleton in Hc. unfold remoteDir.
  destruct (decide (ds = [])) as [->|Hds_ne].
  - cbn [app Join]. apply valid_elem_spec in Hc as Hc'. rewrite Dir_elem by tauto. cbn.
    destruct (String.eqb_spec c ""); [tauto|]. apply Clean_rel, rel_path_spec. by exists [c].
  - rewrite Dir_snoc by done.
    assert (Join ds "/" <> "." /\ Join ds "/" <> "") as [Hdot Hnil].
    { split; [|by apply Join_valid_nonempty].
      intros E. assert (SplitByte (Join ds "/") slash = ds) as Es
        by (apply SplitByte_Join; [done|by apply valid_elems_no_slash]).
      rewrite E in Es. cbn in Es. subst ds. by apply Forall_cons in Hds as [Hv _]. }
    destruct (String.eqb_spec (Join ds "/") "."); [done|].
    unfold PathJoin. destruct (String.eqb_spec (Join ds "/") ""); [done|].
    rewrite <- Join_snoc by done. apply Clean_rel, rel_path_spec. exists (ds ++ [c]).
    by split; [destruct ds|].
Qed.

Lemma upload_path root rel :
  root <> "" -> rel_path rel = true ->
  PathJoin (remoteDir rel) (PathBase (PathJoin root rel)) = rel.
Proof.
  intros Hroot (cs & Hne & Hcs & ->)%rel_path_spec.
  destruct (last_snoc_inv cs) as [->|(ds & c & ->)]; [done|].
  rewrite PathBase_join by done. by apply remoteDir_join.
Qed.

(** *** Handlers *)

Section handlers.
Context {R S : Type} `{RemoteFS R} `{Store S} `{Env}.
Abbreviation W := (World R S).

(** In dry-run mode the push handlers change neither the local files, nor
    the remote, nor the journal, for any event and any directory rename. *)
Theorem push_dry_run s ev dr (w : W) :
  cfg_DryRun (s_cfg s) = true ->
  same_data w (snd (handleEvent s ev w)) /\ same_data w (snd (handleDirRename s dr w)).
Proof.
  intros Hd. split.
  - enough (quiet (R := R) (S := S) (handleEvent s ev)) as Hq by apply Hq.
    unfold handleEvent. rewrite Hd. unfold logDryRun. solve_quiet.
  - enough (quiet (R := R) (S := S) (handleDirRename s dr)) as Hq by apply Hq.
    unfold handleDirRename. rewrite Hd. unfold logDryRunDirRename. solve_quiet.
Qed.

Lemma recordResult_err s p op e d : quiet (R := R) (S := S) (recordResult s p op (Err e) d).
Proof. unfold recordResult. solve_quiet. Qed.

Lemma recordResult_err_out s p op e d (w : W) :
  exists outs, w_out (snd (recordResult s p op (Err e) d w)) = w_out w ++ outs.
Proof.
  unfold recordResult, publishEvent, publish, appendAudit, log_audit, emit, st_bind, now, tick.
  destruct (s_audit s), (s_publisher s); cbn; eexists; rewrite <- ?app_assoc;
    first [done|symmetry; apply app_nil_r].
Qed.

Lemma execEvent_local s ev (w : W) :
  w_store (snd (execEvent s ev w)) = w_store w /\ w_fs (snd (execEvent s ev w)) = w_fs w.
Proof.
  unfold execEvent. destruct (ev_Op ev).
  1-2: unfold st_try, on_upload, on_remote; destruct (CopyFile _ _ _ _) as [[] ?]; done.
  - unfold st_try, execRemove, st_bind, on_remote. destruct (DeleteFile _ _) as [[] ?]; [done|].
    cbn. destruct (errors_Is e ErrNotFound); [done|]. by destruct (errors_Is e ErrIsDir).
  - done.
Qed.

(** The push handler changes the journal only after the remote operation
    succeeded: otherwise the journal and the local files are as before, however
    many attempts were made. *)
Theorem push_journals_only_success s ev (w : W) :
  (w_store (snd (handleEvent s ev w)) = w_store w /\ w_fs (snd (handleEvent s ev w)) = w_fs w) \/
  exists (w1 : W) obj w2, execEvent s ev w1 = (Ok obj, w2).
Proof.
  unfold handleEvent. unfold st_bind at 1 5. pose proof (quiet_now w) as (F1 & _ & S1).
  destruct (now w) as [start w1]. cbn in F1, S1. unfold st_bind at 1 4.
  pose proof (quiet_skipDirEvent s ev w1) as (F2 & _ & S2).
  destruct (skipDirEvent s ev w1) as [skip w2]. cbn in F2, S2.
  destruct skip; [left; cbn; split; congruence|].
  destruct (cfg_DryRun (s_cfg s)).
  { left. assert (quiet (R := R) (S := S) (logDryRun s ev)) as Hq by (unfold logDryRun; solve_quiet).
    destruct (Hq w2) as (F3 & _ & S3). split; congruence. }
  unfold st_bind at 1 3.
  destruct (retryFunc _ _ _ (execEvent s ev) w2) as [[obj|e] w3] eqn:E.
  { right. apply retry_Ok in E as [w1' E]. eauto. }
  left. apply (retry_invariant (fun w' => w_store w' = w_store w /\ w_fs w' = w_fs w)) in E as [S3 F3].
  - unfold st_bind. pose proof (quiet_now w3) as (F4 & _ & S4). destruct (now w3) as [fin w4].
    cbn in F4, S4.
    destruct (recordResult_err s (ev_Path ev) (Op_String (ev_Op ev)) e (Sub fin start) w4) as (F5 & _ & S5).
    split; congruence.
  - intros u u' (F & _ & S') [? ?]. split; congruence.
  - done.
  - intros u e' u' [Hs Hf] Hex. destruct (execEvent_local s ev u) as [Hs' Hf'].
    rewrite Hex in Hs', Hf'. cbn in Hs', Hf'. split; congruence.
  - split; congruence.
Qed.

(** A file rename the watcher could not pair ([OpRename]) is never carried
    out: whatever the remote holds, the handler retries an operation that has
    no case, sleeps [MaxAttempts - 1] times and leaves local files, remote and
    journal unchanged, so the old remote path stays. *)
Theorem push_rename_never_executed s ev (w : W) :
  ev_Op ev = OpRename -> cfg_DryRun (s_cfg s) = false -> (forall n, env_ctx n = None) ->
  1 <= MaxAttempts (Retry (s_cfg s)) ->
  same_data w (snd (handleEvent s ev w)) /\
  exists sleeps outs,
    w_out (snd (handleEvent s ev w)) = w_out w ++ map OSleep sleeps ++ outs /\
    Z.of_nat (length sleeps) = MaxAttempts (Retry (s_cfg s)) - 1.
Proof.
  intros Hop Hd Hc Hn.
  set (w1 := snd (now w)).
  destruct (retry_fails (A := option RemoteObject) (Retry (s_cfg s)) (Op_String OpRename)
    (execEvent s ev) (EText ("unhandled operation: " +:+ Op_String OpRename)) w1)
    as (w2 & E & Q2 & O2); [done| |done|].
  { intros u. unfold execEvent. by rewrite Hop. }
  set (m := recordResult (R := R) s (ev_Path ev) (Op_String OpRename)
    (Err (exhausted (Op_String OpRename)
       (Some (EText ("unhandled operation: " +:+ Op_String OpRename)))))
    (Sub (fst (now w2)) (fst (now w)))).
  assert (handleEvent s ev w = m (snd (now w2))) as ->.
  { unfold handleEvent, skipDirEvent, st_bind. rewrite Hop, Hd. cbn [st_ret].
    change (now w) with (fst (now w), w1). cbv beta iota. by rewrite E. }
  destruct (recordResult_err_out s (ev_Path ev) (Op_String OpRename)
    (exhausted (Op_String OpRename) (Some (EText ("unhandled operation: " +:+ Op_String OpRename))))
    (Sub (fst (now w2)) (fst (now w))) (snd (now w2))) as [outs Ho].
  split.
  - etrans; [apply (quiet_now w)|]. etrans; [exact Q2|]. etrans; [apply (quiet_now w2)|].
    apply recordResult_err.
  - eexists _, outs. split; [|].
    + unfold m. rewrite Ho. change (w_out (snd (now w2))) with (w_out w2).
      rewrite O2. change (w_out w1) with (w_out w). by rewrite <- app_assoc.
    + rewrite backoffs_length. lia.
Qed.

Lemma handleEvent_upload `{!StoreLaws S} s ev info obj r' (w : W) :
  let p := ev_Path ev in
  let entry := mkJournalEntry p (ModTime info) (ro_ModTime obj) (ro_MD5 obj) (ro_RemoteID obj)
                 (env_now (3 + w_tick w)) "local" in
  (ev_Op ev = OpCreate \/ ev_Op ev = OpWrite) -> cfg_DryRun (s_cfg s) = false ->
  1 <= MaxAttempts (Retry (s_cfg s)) -> env_ctx (1 + w_tick w) = None ->
  fst (os_Stat (local_path s p) (w_fs w)) = Ok info -> IsDir info = false ->
  CopyFile (local_path s p) (remoteDir p) (w_fs w) (w_remote w) = (Ok obj, r') ->
  fst (Put entry (w_store w)) = Ok tt ->
  let w' := snd (handleEvent s ev w) in
  w_fs w' = w_fs w /\ w_remote w' = r' /\
  store_view (w_store w') = <[p := json_norm entry]> (store_view (w_store w)) /\
  store_token (w_store w') = store_token (w_store w).
Proof.
  intros p entry Hop Hd Hn Hc Hstat Hdir Hcopy Hput w'.
  destruct (Put entry (w_store w)) as [r s'] eqn:Eput. cbn in Hput. subst r.
  apply store_put in Eput as Hs. destruct Hs as [Hview Htok].
  set (w1 := mkWorld (w_fs w) (w_remote w) (w_store w) (1 + w_tick w) (w_out w)).
  set (w2 := mkWorld (w_fs w) r' (w_store w) (2 + w_tick w) (w_out w)).
  assert (retryFunc (Retry (s_cfg s)) (Op_String (ev_Op ev)) contextSleep (execEvent s ev) w1
          = (Ok (Some obj), w2)) as Hretry.
  { apply retry_first; [done|done|]. unfold execEvent.
    destruct Hop as [-> | ->]; unfold st_try, on_upload, on_remote; cbn;
      fold p; unfold p in *; by rewrite Hcopy. }
  assert (skipDirEvent s ev w1 = (false, w1)) as Hskip.
  { unfold skipDirEvent, st_bind. fold p.
    destruct Hop as [-> | ->]; rewrite (on_fs_Stat _ _ w1 Hstat); cbn; by rewrite Hdir. }
  assert (exists outs, w' = mkWorld (w_fs w) r' s' (6 + w_tick w) (w_out w ++ outs)) as [outs ->].
  { unfold w', handleEvent. unfold st_bind at 1. change (now w) with (env_now (w_tick w), w1).
    unfold st_bind at 1. rewrite Hskip, Hd. unfold st_bind at 1. rewrite Hretry.
    set (w3 := mkWorld (w_fs w) r' (w_store w) (3 + w_tick w) (w_out w)).
    set (w4 := mkWorld (w_fs w) r' (w_store w) (4 + w_tick w) (w_out w)).
    assert (pushEntry s p (Some obj) w3 = (entry, w4)) as He.
    { unfold pushEntry, st_bind. change (now w3) with (env_now (3 + w_tick w), w4).
      cbv beta iota. by rewrite (on_fs_Stat _ _ w4 Hstat). }
    unfold recordResult, st_bind. cbv beta iota. fold p.
    change (now w2) with (env_now (w_tick w2), w3). cbv beta iota. rewrite He. cbv beta iota.
    unfold on_store. cbn [w_store w4]. rewrite Eput.
    unfold publishEvent, publish, appendAudit, log_audit, emit, now, tick.
    destruct (s_audit s), (s_publisher s); cbn; eexists; rewrite <- ?app_assoc;
      first [done|by rewrite app_nil_r]. }
  done.
Qed.

(** C14: after the push of a file the remote holds the upload at the file's own
    path, and the journal entry records the baseline the next pull compares
    against: the remote's mtime, MD5 and id, and the local mtime. *)
Theorem push_upload_journals_baseline `{!StoreLaws S} tree `{!RemoteWriteLaws R tree}
    s ev info obj r' (w : W) :
  let p := ev_Path ev in
  let entry := mkJournalEntry p (ModTime info) (ro_ModTime obj) (ro_MD5 obj) (ro_RemoteID obj)
                 (env_now (3 + w_tick w)) "local" in
  (ev_Op ev = OpCreate \/ ev_Op ev = OpWrite) -> cfg_DryRun (s_cfg s) = false ->
  1 <= MaxAttempts (Retry (s_cfg s)) -> env_ctx (1 + w_tick w) = None ->
  cfg_LocalRoot (s_cfg s) <> "" -> rel_path p = true ->
  fst (os_Stat (local_path s p) (w_fs w)) = Ok info -> IsDir info = false ->
  CopyFile (local_path s p) (remoteDir p) (w_fs w) (w_remote w) = (Ok obj, r') ->
  fst (Put entry (w_store w)) = Ok tt ->
  let w' := snd (handleEvent s ev w) in
  w_fs w' = w_fs w /\
  tree (w_remote w') = <[p := obj]> (tree (w_remote w)) /\
  store_view (w_store w') = <[p := json_norm entry]> (store_view (w_store w)) /\
  store_token (w_store w') = store_token (w_store w).
Proof.
  intros p entry Hop Hd Hn Hc Hroot Hrel Hstat Hdir Hcopy Hput w'.
  destruct (handleEvent_upload s ev info obj r' w Hop Hd Hn Hc Hstat Hdir Hcopy Hput)
    as (E1 & E2 & E3 & E4).
  split; [exact E1|]. split; [|done]. unfold w'. rewrite E2. apply law_copy in Hcopy.
  rewrite Hcopy. unfold local_path. by rewrite upload_path.
Qed.

(** An output that reports no failure and waits for nothing. *)
Definition push_ok_output (s : Syncer) (o : output) : Prop :=
  match o with
  | OAudit e => ae_Error e = ""
  | OPublish t _ => exists topic, s_publisher s = Some topic /\ t = topic ["events"; "push.success"]
  | _ => False
  end.

(** Removing a remote object that is already gone, or that is a folder, is a
    success at the first attempt: nothing is retried and no failure is reported. *)
Theorem push_remove_idempotent s ev e r' (w : W) :
  ev_Op ev = OpRemove -> cfg_DryRun (s_cfg s) = false ->
  1 <= MaxAttempts (Retry (s_cfg s)) -> env_ctx (1 + w_tick w) = None ->
  DeleteFile (ev_Path ev) (w_remote w) = (Err e, r') ->
  errors_Is e ErrNotFound = true \/ errors_Is e ErrIsDir = true ->
  let w' := snd (handleEvent s ev w) in
  w_fs w' = w_fs w /\ w_remote w' = r' /\
  exists outs, w_out w' = w_out w ++ outs /\ Forall (push_ok_output s) outs.
Proof.
  intros Hop Hd Hn Hc Hdel He w'.
  set (w1 := mkWorld (w_fs w) (w_remote w) (w_store w) (1 + w_tick w) (w_out w)).
  set (w2 := mkWorld (w_fs w) r' (w_store w) (2 + w_tick w) (w_out w)).
  assert (retryFunc (Retry (s_cfg s)) (Op_String (ev_Op ev)) contextSleep (execEvent s ev) w1
          = (Ok None, w2)) as Hretry.
  { apply retry_first; [done|done|]. unfold execEvent. rewrite Hop.
    unfold st_try, execRemove, st_bind, on_remote. cbn. rewrite Hdel.
    destruct (errors_Is e ErrNotFound); [done|]. by destruct He as [| ->]. }
  set (entry := mkJournalEntry (ev_Path ev) 0 0 "" "" (env_now (3 + w_tick w)) "local").
  destruct (Put entry (w_store w)) as [r s'] eqn:Eput.
  assert (exists outs, w' = mkWorld (w_fs w) r' s' (6 + w_tick w) (w_out w ++ outs) /\
            Forall (push_ok_output s) outs) as (outs & -> & Ho); [|by eauto].
  unfold w', handleEvent, skipDirEvent. unfold st_bind at 1.
  change (now w) with (env_now (w_tick w), w1). cbv beta iota. rewrite Hop, Hd.
  unfold st_bind, st_ret. cbv beta iota. rewrite Hop in Hretry. rewrite Hretry.
  unfold recordResult, pushEntry, st_bind, on_store, st_ret. cbn [now tick w_store w_tick w2].
  cbn -[Put publishEvent appendAudit] in *. fold entry. rewrite Eput.
  unfold publishEvent, publish, appendAudit, log_audit, emit, push_ok_output.
  destruct (s_audit s), (s_publisher s) as [topic|] eqn:Hp; cbn;
    (eexists; rewrite <- ?app_assoc; split;
     [first [reflexivity|by rewrite app_nil_r]|]; repeat constructor; cbn; rewrite ?Hp; eauto).
Qed.

End handlers.

(** ** Witnesses *)

Definition demo_syncer : Syncer :=
  NewSyncer (mkConfig 0 DefaultRetryConfig false "/home") true (Some (fun ps => Join ps "/")).

Definition demo_syncer_dry : Syncer :=
  NewSyncer (mkConfig 0 DefaultRetryConfig true "/home") true None.

Lemma push_dry_run_witness :
  let w := demo_world demo_db in
  let ev := mkEvent "docs/a.txt" OpRemove 0 in
  let dr := mkDirRename "docs" "x" 0 in
  same_data w (snd (@handleEvent _ _ _ _ demo_env demo_syncer_dry ev w)) /\
  same_data w (snd (@handleDirRename _ _ _ _ demo_env demo_syncer_dry dr w)).
Proof. intros w ev dr. apply (@push_dry_run _ _ _ _ demo_env). reflexivity. Defined.

Lemma push_rename_never_executed_witness :
  let w := demo_world demo_db in
  let ev := mkEvent "docs/a.txt" OpRename 0 in
  same_data w (snd (@handleEvent _ _ _ _ demo_env demo_syncer ev w)) /\
  exists sleeps outs,
    w_out (snd (@handleEvent _ _ _ _ demo_env demo_syncer ev w)) = w_out w ++ map OSleep sleeps ++ outs /\
    Z.of_nat (length sleeps) = MaxAttempts (Retry (s_cfg demo_syncer)) - 1.
Proof.
  intros w ev. apply (@push_rename_never_executed _ _ _ _ demo_env); try reflexivity.
  cbn. lia.
Defined.

Lemma push_upload_journals_baseline_witness :
  let w := demo_world demo_db in
  let ev := mkEvent "docs/a.txt" OpWrite 0 in
  exists obj entry,
    let w' := snd (@handleEvent _ _ _ _ demo_env demo_syncer ev w) in
    w_fs w' = w_fs w /\
    m_files (w_remote w') = <["docs/a.txt" := obj]> (m_files (w_remote w)) /\
    store_view (w_store w') = <["docs/a.txt" := json_norm entry]> (store_view (w_store w)) /\
    store_token (w_store w') = store_token (w_store w).
Proof.
  intros w ev.
  destruct (MemFS_CopyFile "/home/docs/a.txt" "docs" demo_fs demo_mem) as [[obj|] r'] eqn:E;
    [|discriminate E].
  exists obj. eexists.
  apply (push_upload_journals_baseline (H1 := demo_env) m_files demo_syncer ev
    (mkInfo false (500 * Second) 5) obj r' w);
    [right; reflexivity|reflexivity|cbn; lia|reflexivity|discriminate|vm_compute; reflexivity
    |vm_compute; reflexivity|reflexivity|exact E|].
  unfold MemFS_CopyFile in E. cbn in E. injection E as <- <-. vm_compute. reflexivity.
Defined.

Lemma push_remove_idempotent_witness :
  let w := demo_world demo_db in
  let w' := snd (@handleEvent _ _ _ _ demo_env demo_syncer (mkEvent "gone" OpRemove 0) w) in
  w_fs w' = w_fs w /\ w_remote w' = demo_mem /\
  exists outs, w_out w' = w_out w ++ outs /\ Forall (push_ok_output demo_syncer) outs.
Proof.
  intros w w'. apply (@push_remove_idempotent _ _ _ _ demo_env demo_syncer _
    (EWrap "delete gone" (ESent ErrNotFound))); try reflexivity; [cbn; lia|left; reflexivity].
Defined.

(** Renaming the folder [docs] also rewrites the journal entries of its
    sibling [docs2]: [handleDirRename] hands [RewritePrefix] the bare folder
    names, without the slash that ends a folder's prefix. *)
Theorem dir_rename_rewrites_sibling :
  let w := mkWorld demo_fs (mkDryRunFS demo_mem) (mkJournalStore demo_db None) 0 [] in
  let w' := snd (@handleDirRename _ _ _ _ demo_env demo_syncer (mkDirRename "docs" "archive" 0) w) in
  store_view (w_store w) !! "docs2/a" = Some (demo_entry "docs2/a") /\
  store_view (w_store w') !! "docs2/a" = None /\
  store_view (w_store w') !! "archive2/a" = Some (demo_entry "archive2/a") /\
  store_view (w_store w') !! "archive/a" = Some (demo_entry "archive/a").
Proof. vm_compute. done. Qed.
