(* ===== verification/PullConflict.v ===== *)
(** [internal/syncer/conflict.go]: what the pull path does when a file changed
    on both sides -- choosing the winner, renaming the loser to
    [".old.<N>"], and transferring the winner. *)
From S2P Require Import Prelude.
From S2P Require Import GoStrings.
From S2P Require Import GoRuntime.
From S2P Require Import OldSuffix.
From S2P Require Import GoPath.
From S2P Require Import LocalFS.
From S2P Require Import Remote.
From S2P Require Import MemFS.
From S2P Require Import Bolt.
From S2P Require Import Journal.
From S2P Require Import World.
From S2P Require Import AuditLog.
From S2P Require Import Prune.
From S2P Require Import Push.

(** ** Definitions *)

(** [ConflictPolicy] is a string type; unknown policies behave as [newer_wins]. *)
Definition PolicyNewerWins : string := "newer_wins".

Definition PolicyLocalWins : string := "local_wins".

Definition PolicyRemoteWins : string := "remote_wins".

Record ConflictResult := mkConflictResult {
  cr_Winner : string;
  cr_OldPath : string;
  cr_Resolution : string;
}.

Definition determineWinner (localMtime remoteMtime : Time) (policy : string) : string :=
  if String.eqb policy PolicyLocalWins then "local"
  else if String.eqb policy PolicyRemoteWins then "remote"
  else if After localMtime remoteMtime then "local"
  else if After remoteMtime localMtime then "remote"
  else "local".

Record conflictDeps := mkConflictDeps {
  cd_pub : option (list string -> string);
  cd_localRoot : string;
  cd_matcher : Matcher;
  cd_policy : string;
  cd_dryRun : bool;
  cd_retention : RetentionPolicy;
  cd_auditor : bool;
}.

Section conflict.
Context {R S : Type} `{RemoteFS R} `{Store S} `{Env}.
Abbreviation W := (World R S).

(** [fmt.Sprintf("%s/%s", localRoot, rel)]. *)
Definition conflict_file (deps : conflictDeps) (rel : string) : string :=
  cd_localRoot deps +:+ "/" +:+ rel.

(** An already missing file is a success. *)
Definition gone_is_ok (r : result unit) : result unit :=
  match r with Err e => if os_IsNotExist e then Ok tt else Err e | Ok _ => Ok tt end.

Definition not_found_is_ok (r : result unit) : result unit :=
  match r with Err e => if errors_Is e ErrNotFound then Ok tt else Err e | Ok _ => Ok tt end.

Definition conflict_pruneDeps (deps : conflictDeps) : PruneDeps R S :=
  mkPruneDeps (cd_matcher deps)
    (fun prefix => on_store (ListOldSiblings prefix))
    (fun A fn a => on_store (ForEach A fn a))
    (fun p => on_store (Delete p))
    (fun rel => let* r := on_fs (os_Remove (conflict_file deps rel)) in st_ret (gone_is_ok r))
    (fun p => let* r := on_remote (DeleteFile p) in st_ret (not_found_is_ok r))
    (cd_auditor deps) (cd_pub deps) (cd_dryRun deps).

(** A failed prune is only logged. *)
Definition conflict_pruneAfterConflict (deps : conflictDeps) (base : string) : ST W unit :=
  PruneOldSiblings (conflict_pruneDeps deps) (cd_retention deps) base ;; st_ret tt.

Definition conflict_publish (deps : conflictDeps) (topic : string)
    (payload : list (string * pval)) : ST W unit :=
  match cd_pub deps with
  | None => st_ret tt
  | Some _ =>
      let* ts := now in
      publish (cd_pub deps) ["events"; topic] ([("ts", PTime ts); ("type", PStr topic)] ++ payload)
  end.

(** Remote wins: the local file becomes the [.old] file, the remote one is
    downloaded. *)
Definition conflict_remote_wins (deps : conflictDeps) (path base oldPath : string)
    (localMtime : Time) : ST W (result unit) :=
  let localFile := conflict_file deps path in
  let localOld := conflict_file deps oldPath in
  let? _ := on_fs (os_Rename localFile localOld) ?: "renaming local loser " +:+ path in
  let* ts := now in
  let? _ := on_store (Put (mkJournalEntry oldPath localMtime 0 "" "" ts "local"))
              ?: "recording old entry " +:+ oldPath in
  conflict_pruneAfterConflict deps base ;;
  let? _ := on_download (DownloadFile path localFile) ?: "downloading remote winner " +:+ path in
  st_ret (Ok tt).

(** Local wins: the remote file becomes the [.old] file, the local one is
    uploaded. *)
Definition conflict_local_wins (deps : conflictDeps) (path base oldPath : string)
    (obj : RemoteObject) : ST W (result unit) :=
  let? _ := on_remote (MoveFile path oldPath) ?: "renaming remote loser " +:+ path in
  let* ts := now in
  let? _ := on_store (Put (mkJournalEntry oldPath 0 (ro_ModTime obj) (ro_MD5 obj) (ro_RemoteID obj)
                             ts "remote"))
              ?: "recording old entry " +:+ oldPath in
  conflict_pruneAfterConflict deps base ;;
  let? _ := on_upload (CopyFile (conflict_file deps path) (remoteDir path))
              ?: "uploading local winner " +:+ path in
  st_ret (Ok tt).

Definition resolveConflict (deps : conflictDeps) (path : string) (obj : RemoteObject)
    (localMtime : Time) : ST W (result ConflictResult) :=
  let remoteMtime := ro_ModTime obj in
  conflict_publish deps "conflict.detected"
    [("path", PStr path); ("local_mtime", PTime localMtime); ("remote_mtime", PTime remoteMtime)] ;;
  let winner := determineWinner localMtime remoteMtime (cd_policy deps) in
  let? next := on_store (StoreNextOldN path) ?: "computing next .old.N for " +:+ path in
  let oldPath := Format (cd_matcher deps) (fst next) (snd next) in
  let res := mkConflictResult winner oldPath (cd_policy deps +:+ ":" +:+ winner) in
  if cd_dryRun deps then st_ret (Ok res)
  else
    let? _ := (if String.eqb winner "remote"
               then conflict_remote_wins deps path (fst next) oldPath localMtime
               else conflict_local_wins deps path (fst next) oldPath obj) in
    conflict_publish deps "conflict.resolved"
      [("path", PStr path); ("resolution", PStr (cr_Resolution res)); ("kept_old_as", PStr oldPath)] ;;
    st_ret (Ok res).

End conflict.

(** ** Lemmas *)

Section lemmas.
Context {R S : Type} `{RemoteFS R} `{Store S} `{Env}.
Abbreviation W := (World R S).

Lemma quiet_conflict_publish deps t p : quiet (R := R) (S := S) (conflict_publish deps t p).
Proof. unfold conflict_publish. solve_quiet. Qed.

Context `{!StoreLaws S}.

Lemma quiet_list p : quiet (R := R) (on_store (S := S) (ListOldSiblings p)).
Proof.
  apply quiet_store. intros s. destruct (ListOldSiblings p s) eqn:E. by apply store_list in E as [-> _].
Qed.

Lemma quiet_next p : quiet (R := R) (on_store (S := S) (StoreNextOldN p)).
Proof. apply quiet_store. intros s. by rewrite store_next. Qed.

Lemma quiet_resolveConflict_dry deps path obj lm :
  cd_dryRun deps = true -> quiet (R := R) (S := S) (resolveConflict deps path obj lm).
Proof.
  intros Hd. unfold resolveConflict. rewrite Hd.
  apply quiet_bind; [apply quiet_conflict_publish|intros _].
  apply quiet_try; [apply quiet_next|intros]. apply quiet_ret.
Qed.

Lemma quiet_prune_unlimited deps base :
  unlimited (cd_retention deps) ->
  quiet (R := R) (S := S) (conflict_pruneAfterConflict deps base).
Proof.
  intros Hu. apply quiet_bind; [|intros; apply quiet_ret].
  apply PruneOldSiblings_unlimited; [done|apply quiet_list].
Qed.

End lemmas.

#[export] Hint Resolve quiet_conflict_publish : homedrive.

Lemma determineWinner_cases l r p : determineWinner l r p = "local" \/ determineWinner l r p = "remote".
Proof. unfold determineWinner. repeat destruct_match; auto. Qed.

(** *** Names of losers *)

Lemma digits_no_slash s : str_forallb is_digit s = true -> has_slash s = false.
Proof.
  unfold has_slash. induction s as [|a s IH]; [done|]. cbn. intros [Ha Hs]%andb_true_iff.
  destruct (Ascii.eqb_spec a slash) as [->|]; [done|]. by apply IH.
Qed.

Lemma Format_rel m base n :
  rel_path base = true -> has_slash (pre m) = false -> has_slash (post m) = false -> 1 <= n ->
  rel_path (Format m base n) = true.
Proof.
  intros Hb Hpre Hpost Hn. unfold Format. apply rel_path_app; [done|].
  rewrite !has_slash_app, Hpre, Hpost, digits_no_slash; [done|]. apply Itoa_spec. lia.
Qed.

(** Different relative paths have different files below a root. *)
Lemma conflict_file_inj deps x y :
  rel_path x = true -> rel_path y = true ->
  path_key (conflict_file deps x) = path_key (conflict_file deps y) -> x = y.
Proof.
  intros Hx Hy. unfold conflict_file. rewrite !path_key_sprintf by done. intros E%app_inv_head.
  by rewrite <- (Join_SplitByte x), <- (Join_SplitByte y), E.
Qed.

(** [path.Base] of [root/rel], as in [upload_path]. *)
Lemma sprintf_lands root rel :
  rel_path rel = true -> PathJoin (remoteDir rel) (PathBase (root +:+ "/" +:+ rel)) = rel.
Proof.
  intros Hrel. destruct (proj1 (rel_path_spec rel) Hrel) as (cs & Hne & Hcs & E).
  destruct (last_snoc_inv cs) as [->|(ds & c & ->)]; [done|].
  assert (valid_elem c = true) as Hc.
  { apply Forall_app in Hcs as [_ Hc]. by rewrite Forall_singleton in Hc. }
  assert (PathBase (root +:+ "/" +:+ rel) = c) as ->.
  { rewrite E. destruct (decide (ds = [])) as [->|Hds]; [by apply PathBase_app|].
    rewrite Join_snoc by done. rewrite <- !sapp_assoc, (sapp_assoc _ "/" c). by apply PathBase_app. }
  rewrite E. by apply remoteDir_join.
Qed.

(** ** Properties *)
(** Under [newer_wins] the remote version wins exactly when it is strictly
    newer; a tie goes to the local version. The other policies ignore the
    times. *)
Theorem determineWinner_spec l r policy :
  determineWinner l r policy = "remote" <->
  policy = PolicyRemoteWins \/
  (policy <> PolicyLocalWins /\ policy <> PolicyRemoteWins /\ l < r).
Proof.
  unfold determineWinner, After, PolicyLocalWins, PolicyRemoteWins.
  destruct (String.eqb_spec policy "local_wins") as [->|];
    [split; [done|intros [?|(? & _)]; done]|].
  destruct (String.eqb_spec policy "remote_wins") as [->|]; [split; auto|].
  destruct (Z.ltb_spec r l); [split; [done|intros [?|(_ & _ & ?)]; [done|lia]]|].
  destruct (Z.ltb_spec l r); [split; auto|split; [done|intros [?|(_ & _ & ?)]; [done|lia]]].
Qed.

Section keeps.
Context {R S : Type} `{RemoteFS R} `{StoreLaws S} `{Env}.
Context (tree : R -> gmap string RemoteObject) `{!RemoteLaws R tree} `{!RemoteWriteLaws R tree}
  `{!RemoteContent R tree}.
Abbreviation W := (World R S).

(** The winner [path] as the remote [r] delivers it. *)
Definition delivered (r : R) (path : string) (n : option node) : Prop :=
  exists o t, tree r !! path = Some o /\ (IsZero (ro_ModTime o) = false -> t = ro_ModTime o) /\
    n = Some (File t (remote_content r path)).

Lemma remote_wins_keeps deps path base old lm (w w' : W) :
  unlimited (cd_retention deps) ->
  conflict_remote_wins deps path base old lm w = (Ok tt, w') ->
  path_key (conflict_file deps path) <> path_key (conflict_file deps old) ->
  is_Some (store_view (w_store w') !! old) /\ tree (w_remote w') = tree (w_remote w) /\
  (forall t c, fs_nodes (w_fs w) !! path_key (conflict_file deps path) = Some (File t c) ->
     fs_nodes (w_fs w') !! path_key (conflict_file deps old) = Some (File t c)) /\
  delivered (w_remote w) path (fs_nodes (w_fs w') !! path_key (conflict_file deps path)).
Proof.
  intros Hu Hrun Hne. unfold conflict_remote_wins in Hrun.
  apply st_try_Ok in Hrun as ([] & w1 & Hren & Hrun).
  apply st_bind_inv in Hrun as (ts & w2 & Hnow & Hrun).
  apply (quiet_run _ _ _ _ quiet_now) in Hnow as (F2 & R2 & S2).
  apply st_try_Ok in Hrun as ([] & w3 & Hput & Hrun).
  apply st_bind_inv in Hrun as ([] & w4 & Hpr & Hrun).
  apply (quiet_run _ _ _ _ (quiet_prune_unlimited deps base Hu)) in Hpr as (F4 & R4 & S4).
  apply st_try_Ok in Hrun as ([] & w5 & Hdl & [= <-]).
  unfold on_store in Hput. destruct (Put _ (w_store w2)) as [r s'] eqn:Eput.
  injection Hput as -> <-. apply store_put in Eput as [Hv _]. cbn in F4, S4, R4.
  unfold on_download in Hdl.
  destruct (DownloadFile path (conflict_file deps path) (w_remote w4, w_fs w4)) as [r [rm fs]] eqn:Edl.
  injection Hdl as -> <-. unfold on_fs in Hren.
  destruct (os_Rename _ _ (w_fs w)) as [r fs1] eqn:Eren. injection Hren as -> <-. cbn in F2, R2.
  assert (w_remote w4 = w_remote w) as Er by congruence. rewrite Er in Edl. cbn. split_and!.
  - rewrite S4, Hv. cbn. rewrite lookup_insert_eq. eauto.
  - pose proof (law_download path (conflict_file deps path) (w_remote w) (w_fs w4)) as Hl.
    by rewrite Edl in Hl.
  - intros t c Hk.
    eapply os_Rename_file in Eren; [|done|done].
    pose proof (law_download_local path (conflict_file deps path) (w_remote w) (w_fs w4)
      (path_key (conflict_file deps old)) (File t c)) as Hlaw.
    rewrite Edl in Hlaw. cbn in Hlaw. apply Hlaw; [|done].
    rewrite F4, F2, Eren. by rewrite lookup_insert_eq.
  - exact (law_delivers _ _ _ _ _ _ Edl).
Qed.

Lemma local_wins_keeps deps path base old obj (w w' : W) :
  unlimited (cd_retention deps) -> rel_path path = true -> old <> path ->
  conflict_local_wins deps path base old obj w = (Ok tt, w') ->
  is_Some (store_view (w_store w') !! old) /\ w_fs w' = w_fs w /\
  exists o up r1, tree (w_remote w) !! path = Some o /\
    CopyFile (conflict_file deps path) (remoteDir path) (w_fs w) r1 = (Ok up, w_remote w') /\
    tree (w_remote w') = <[path := up]> (<[old := retitle old o]> (delete path (tree (w_remote w)))).
Proof.
  intros Hu Hrel Hne Hrun. unfold conflict_local_wins in Hrun.
  apply st_try_Ok in Hrun as ([] & w1 & Hmv & Hrun).
  apply st_bind_inv in Hrun as (ts & w2 & Hnow & Hrun).
  apply (quiet_run _ _ _ _ quiet_now) in Hnow as (F2 & R2 & S2).
  apply st_try_Ok in Hrun as ([] & w3 & Hput & Hrun).
  apply st_bind_inv in Hrun as ([] & w4 & Hpr & Hrun).
  apply (quiet_run _ _ _ _ (quiet_prune_unlimited deps base Hu)) in Hpr as (F4 & R4 & S4).
  apply st_try_Ok in Hrun as (obj' & w5 & Hcp & [= <-]).
  unfold on_store in Hput. destruct (Put _ (w_store w2)) as [r s'] eqn:Eput.
  injection Hput as -> <-. apply store_put in Eput as [Hv _]. cbn in F4, S4, R4.
  unfold on_upload, on_remote in Hcp.
  destruct (CopyFile _ _ (w_fs w4) (w_remote w4)) as [r rm] eqn:Ecp. injection Hcp as -> <-.
  unfold on_remote in Hmv. destruct (MoveFile path old (w_remote w)) as [r rm1] eqn:Emv.
  injection Hmv as -> <-. cbn in F2, R2, S2 |- *.
  apply law_move in Emv as (o & Ho & Et). pose proof (law_copy _ _ _ _ _ _ Ecp) as Ec.
  unfold conflict_file in Ec. rewrite sprintf_lands in Ec by done. split_and!.
  - rewrite S4, Hv. cbn. rewrite lookup_insert_eq. eauto.
  - congruence.
  - exists o, obj', (w_remote w4). split; [done|]. split.
    + assert (w_fs w4 = w_fs w) as <- by congruence. exact Ecp.
    + by rewrite Ec, R4, R2, Et.
Qed.

(** C2: resolving a conflict loses neither version (when retention is
    unlimited and fewer than 65536 names are journaled). The loser's name is the
    least numbered one that has no journal entry, of a base that is journaled or
    the path itself; it is another name than the path, with another file. If the
    remote wins, the local file is there with its content and mtime, the path
    holds what the remote delivers for it and the remote is as it was. If the
    local file wins, no file changes, the remote object is at the [.old] path
    with its data and the path holds the upload of the local file; every other
    remote object is as it was. The [.old] path is journaled, so the next
    conflict takes another number. *)
Theorem conflict_keeps_loser deps path obj lm res (taken : gset string) (w w' : W) :
  let m := cd_matcher deps in
  let has := store_has (w_store w) in
  let file x := path_key (conflict_file deps x) in
  unlimited (cd_retention deps) -> cd_dryRun deps = false -> rel_path path = true ->
  m = store_matcher (w_store w) -> has_slash (pre m) = false -> has_slash (post m) = false ->
  (forall x, has x = true -> x ∈ taken /\ rel_path x = true) -> (size taken < Z.to_nat maxProbe)%nat ->
  has path = true \/ IsOld m path = false ->
  resolveConflict deps path obj lm w = (Ok res, w') ->
  let old := cr_OldPath res in
  cr_Winner res = determineWinner lm (ro_ModTime obj) (cd_policy deps) /\
  (exists base n, old = Format m base n /\ (base = path \/ has base = true) /\ 1 <= n /\
     forall j, 1 <= j < n -> has (Format m base j) = true) /\
  has old = false /\ old <> path /\ file old <> file path /\
  is_Some (store_view (w_store w') !! old) /\
  if String.eqb (cr_Winner res) "remote" then
    tree (w_remote w') = tree (w_remote w) /\
    (forall t c, fs_nodes (w_fs w) !! file path = Some (File t c) ->
       fs_nodes (w_fs w') !! file old = Some (File t c)) /\
    exists o t, tree (w_remote w) !! path = Some o /\ (IsZero (ro_ModTime o) = false -> t = ro_ModTime o) /\
      fs_nodes (w_fs w') !! file path = Some (File t (remote_content (w_remote w) path))
  else
    w_fs w' = w_fs w /\
    exists o up r1, tree (w_remote w) !! path = Some o /\
      CopyFile (conflict_file deps path) (remoteDir path) (w_fs w) r1 = (Ok up, w_remote w') /\
      tree (w_remote w') = <[path := up]> (<[old := retitle old o]> (delete path (tree (w_remote w)))).
Proof.
  intros m has file Hu Hd Hrel Hm Hpre Hpost Htaken Hsize Hpath Hrun old. unfold resolveConflict in Hrun.
  apply st_bind_inv in Hrun as ([] & w1 & Hpub & Hrun).
  apply (quiet_run _ _ _ _ (quiet_conflict_publish _ _ _)) in Hpub as (F1 & R1 & S1).
  apply st_try_Ok in Hrun as ([base n] & w2 & Hnext & Hrun). cbn [fst snd] in Hrun.
  pose proof (quiet_run _ _ _ _ (quiet_next _) Hnext) as (F2 & R2 & S2).
  unfold on_store in Hnext. rewrite store_next, S1 in Hnext. injection Hnext as En _.
  pose proof (NextOldN_fresh m path has taken (fun x Hx => proj1 (Htaken x Hx)) Hsize Hpath) as Hfresh.
  unfold has in Hfresh at 1. rewrite Hm, En, <- Hm in Hfresh. destruct Hfresh as (Hbase & Hn & Hfree & Hleast & Hne).
  assert (rel_path base = true) as Hb by (destruct Hbase as [->|Hb]; [done|by apply Htaken]).
  assert (file (Format m base n) <> file path) as Hkey.
  { intros E%conflict_file_inj; [done| |done]. apply Format_rel; [done..|lia]. }
  rewrite Hd in Hrun. apply st_try_Ok in Hrun as ([] & w3 & Hwin & Hrun).
  apply st_bind_inv in Hrun as ([] & w4 & Hpub & [= <- <-]).
  apply (quiet_run _ _ _ _ (quiet_conflict_publish _ _ _)) in Hpub as (F4 & R4 & S4).
  subst old. cbn [cr_OldPath cr_Winner] in *. rewrite S4, F4, R4.
  assert (w_remote w2 = w_remote w /\ w_fs w2 = w_fs w) as [Er Ef] by (split; congruence).
  split; [done|]. split; [by exists base, n; split_and!; try lia|]. split; [done|]. split; [done|]. split; [done|].
  destruct (String.eqb _ "remote").
  - apply remote_wins_keeps in Hwin; [|done|by apply not_eq_sym]. rewrite Er, Ef in Hwin. exact Hwin.
  - apply local_wins_keeps in Hwin; [|done..]. rewrite Er, Ef in Hwin. exact Hwin.
Qed.

(** A dry-run conflict changes neither files, remote nor journal; it only
    reports the winner and the [.old] path it would use. *)
Theorem conflict_dry_run deps path obj lm (w : W) :
  cd_dryRun deps = true ->
  same_data w (snd (resolveConflict deps path obj lm w)).
Proof.
  intros Hd. by apply quiet_resolveConflict_dry.
Qed.

End keeps.

(** ** Witnesses *)

Definition demo_conflict (dry : bool) : conflictDeps :=
  mkConflictDeps None "/home" default_matcher PolicyNewerWins dry (mkPolicy 0 0) true.

Definition conflict_world (remote_mtime : Time) : World MemFS (JournalStore MemBolt) :=
  mkWorld demo_fs (Seed "docs/a.txt" remote_mtime "r1" demo_mem) (mkJournalStore demo_db None) 0 [].

Definition conflict_obj (t : Time) : RemoteObject :=
  mkRemoteObject "docs/a.txt" 1024 t "r1" "id-1" false false.

(** The file is journaled, and so is the loser of an earlier conflict. *)
Definition conflict_db : MemBolt :=
  mkMemBolt true
    (<["docs/a.txt" := Encoded (demo_entry "docs/a.txt")]>
    (<["docs/a.txt.old.1" := Encoded (demo_entry "docs/a.txt.old.1")]> ∅)) ∅.

Lemma conflict_db_names x :
  Journal_Exists conflict_db x = true -> x = "docs/a.txt" \/ x = "docs/a.txt.old.1".
Proof.
  unfold Journal_Exists. cbn. case_match eqn:E; [intros _|done].
  apply lookup_insert_Some in E as [[<- _]|[_ E]]; [by left|].
  apply lookup_insert_Some in E as [[<- _]|[_ E]]; [by right|]. by rewrite lookup_empty in E.
Qed.

Definition again_world : World MemFS (JournalStore MemBolt) :=
  mkWorld demo_fs (Seed "docs/a.txt" (650 * Second) "r1" demo_mem) (mkJournalStore conflict_db None) 0 [].

Lemma conflict_keeps_loser_witness :
  let w := again_world in
  let r := @resolveConflict _ _ _ _ demo_env (demo_conflict false) "docs/a.txt"
             (conflict_obj (650 * Second)) (500 * Second) w in
  let old := "docs/a.txt.old.2" in
  exists res, fst r = Ok res /\ cr_OldPath res = old /\ cr_Winner res = "remote" /\
    is_Some (store_view (w_store (snd r)) !! old) /\
    (fs_nodes (w_fs w) !! ["home"; "docs"; "a.txt"] = Some (File (500 * Second) "hello") ->
     fs_nodes (w_fs (snd r)) !! ["home"; "docs"; "a.txt.old.2"] = Some (File (500 * Second) "hello")) /\
    exists o t, m_files (w_remote w) !! "docs/a.txt" = Some o /\
      (IsZero (ro_ModTime o) = false -> t = ro_ModTime o) /\
      fs_nodes (w_fs (snd r)) !! ["home"; "docs"; "a.txt"] = Some (File t "content-of-docs/a.txt").
Proof.
  intros w r old.
  set (res := mkConflictResult "remote" old "newer_wins:remote").
  assert (fst r = Ok res) as Hr by (vm_compute; reflexivity).
  exists res. split; [exact Hr|]. split; [reflexivity|]. split; [reflexivity|].
  destruct (conflict_keeps_loser (H2 := demo_env) m_files (demo_conflict false) "docs/a.txt"
    (conflict_obj (650 * Second)) (500 * Second) res {["docs/a.txt"; "docs/a.txt.old.1"]} w (snd r))
    as (_ & _ & _ & _ & _ & Hj & Hb).
  - split; vm_compute; discriminate.
  - reflexivity.
  - vm_compute. reflexivity.
  - reflexivity.
  - reflexivity.
  - reflexivity.
  - intros x [->| ->]%conflict_db_names; (split; [set_solver|reflexivity]).
  - apply Nat.ltb_lt. vm_compute. reflexivity.
  - left. reflexivity.
  - rewrite <- Hr. apply surjective_pairing.
  - split; [exact Hj|]. destruct Hb as (_ & Hl & Hw). split; [exact (Hl (500 * Second) "hello")|exact Hw].
Defined.

Lemma conflict_dry_run_witness :
  let w := conflict_world (650 * Second) in
  same_data w (snd (@resolveConflict _ _ _ _ demo_env (demo_conflict true) "docs/a.txt"
    (conflict_obj (650 * Second)) (500 * Second) w)).
Proof. intros w. apply (conflict_dry_run (H2 := demo_env)). reflexivity. Defined.

(** The [.old] number is chosen from the journal alone and the loser is
    renamed over whatever the name holds: a local [a.txt.old.1] without a
    journal entry (such as one whose [Put] failed) is overwritten by the next
    conflict on [a.txt]. *)
Theorem conflict_overwrites_unjournaled :
  let old := ["home"; "docs"; "a.txt.old.1"] in
  let fs := set_nodes (<[old := File 5 "earlier loser"]> (fs_nodes demo_fs)) demo_fs in
  let w := mkWorld fs (w_remote (conflict_world (650 * Second))) (mkJournalStore demo_db None) 0 [] in
  let w' := snd (@resolveConflict _ _ _ _ demo_env (demo_conflict false) "docs/a.txt"
                   (conflict_obj (650 * Second)) (500 * Second) w) in
  fs_nodes (w_fs w) !! old = Some (File 5 "earlier loser") /\
  fs_nodes (w_fs w') !! old = Some (File (500 * Second) "hello").
Proof. vm_compute. done. Qed.
