(* ===== verification/Pull.v ===== *)
(** The puller: [internal/syncer/puller.go], [pull_process.go], [pull_dir.go],
    [pull_dangling.go] and the pull half of [push_journal.go]. *)
From S2P Require Import Prelude.
From S2P Require Import GoStrings.
From S2P Require Import GoRuntime.
From S2P Require Import OldSuffix.
From S2P Require Import GoPath.
From S2P Require Import LocalFS.
From S2P Require Import Remote.
From S2P Require Import MemFS.
From S2P Require Import FsWrappers.
From S2P Require Import Bolt.
From S2P Require Import Journal.
From S2P Require Import World.
From S2P Require Import AuditLog.
From S2P Require Import Prune.
From S2P Require Import Retry.
From S2P Require Import Push.
From S2P Require Import PullConflict.

(** ** Definitions *)

Definition oauthBackoffMax : Duration := 30 * Minute.

Record PullerConfig := mkPullerConfig {
  pc_Interval : Duration;
  pc_LocalRoot : string;
  pc_ConflictPolicy : string;
  pc_Matcher : Matcher;
  pc_Retention : RetentionPolicy;
  pc_Auditor : bool;
  pc_DryRun : bool;
}.

(** The path, remote id and mtime of a dangling shortcut. *)
Definition danglingKey : Type := string * string * Z.

(** The puller's own state. *)
Record PullState := mkPullState {
  ps_streak : Z;
  ps_dangling : gset danglingKey;
}.

Record Puller := mkPuller {
  p_cfg : PullerConfig;
  p_audit : bool;
  p_pub : option (list string -> string);
}.

(** [NewPuller]: defaults for the interval, the policy and the matcher. *)
Definition NewPuller (cfg : PullerConfig) (matcher : option Matcher) (audit : bool)
    (pub : option (list string -> string)) : Puller * PullState :=
  (mkPuller
    (mkPullerConfig
      (if pc_Interval cfg <=? 0 then 30 * Second else pc_Interval cfg)
      (pc_LocalRoot cfg)
      (if String.eqb (pc_ConflictPolicy cfg) "" then PolicyNewerWins else pc_ConflictPolicy cfg)
      (match matcher with Some m => m | None => default_matcher end)
      (pc_Retention cfg) (pc_Auditor cfg) (pc_DryRun cfg))
    audit pub,
   mkPullState 0 ∅).

Fixpoint double_interval (n : nat) (interval : Duration) : Duration :=
  match n with
  | O => interval
  | S n => if interval <? oauthBackoffMax then double_interval n (wrap64 (interval * 2)) else interval
  end.

Definition NextPollInterval (p : Puller) (st : PullState) : Duration :=
  if ps_streak st =? 0 then pc_Interval (p_cfg p)
  else
    let interval := double_interval (Z.to_nat (ps_streak st - 1)) (pc_Interval (p_cfg p)) in
    if oauthBackoffMax <? interval then oauthBackoffMax else interval.

Definition newDanglingKey (ch : Change) : danglingKey :=
  match ch_Object ch with
  | Some o => (ch_Path ch, ro_RemoteID o, UnixNano (ro_ModTime o))
  | None => (ch_Path ch, "", 0)
  end.

(** [diff <= time.Second] for the absolute difference. *)
Definition within_second (t u : Time) : bool := abs_sub t u <=? Second.

Section pull.
Context {R S : Type} `{RemoteFS R} `{Store S} `{Env}.
Abbreviation W := (World R S).
Variable p : Puller.

Definition root_file (rel : string) : string := PathJoin (pc_LocalRoot (p_cfg p)) rel.

Definition emitPullSuccess (path : string) (bytes : Z) : ST W unit :=
  match p_pub p with
  | None => st_ret tt
  | Some _ =>
      let* ts := now in
      publish (p_pub p) ["events"; "pull.success"]
        [("ts", PTime ts); ("type", PStr "pull.success"); ("path", PStr path); ("bytes", PInt bytes)]
  end.

Definition emitPullFailure (path : string) (err : error) : ST W unit :=
  match p_pub p with
  | None => st_ret tt
  | Some _ =>
      let* ts := now in
      publish (p_pub p) ["events"; "pull.failure"]
        ([("ts", PTime ts); ("type", PStr "pull.failure"); ("error", PStr (Error err))]
         ++ (if String.eqb path "" then [] else [("path", PStr path)]))
  end.

Definition logAudit (e : AuditEntry) : ST W unit := log_audit (p_audit p) e.

(** [DurationMs: p.clock().Sub(start).Milliseconds()]. *)
Definition elapsed_ms (start : Time) : ST W Z :=
  let* t := now in st_ret (Milliseconds (Sub t start)).

(** ** pull_process.go and pull_dir.go *)

(** [removeLocal]: a missing file is fine, a folder that still has entries is
    kept. *)
Definition removeLocal (localPath : string) : ST W (result unit) :=
  let* r := on_fs (os_Remove localPath) in
  match r with
  | Ok _ => st_ret (Ok tt)
  | Err err =>
      if os_IsNotExist err then st_ret (Ok tt)
      else
        let* info := on_fs (os_Stat localPath) in
        match info with
        | Ok info => if IsDir info then st_ret (Ok tt) else st_ret (Err err)
        | Err _ => st_ret (Err err)
        end
  end.

Definition processDelete (ch : Change) (start : Time) : ST W (result unit) :=
  if pc_DryRun (p_cfg p) then
    logAudit (mkAudit start "pull_delete" (ch_Path ch) "remote" 0 0 "" "" true "" "" "" 0) ;;
    st_ret (Ok tt)
  else
    let? _ := removeLocal (root_file (ch_Path ch)) ?: "deleting local file " +:+ ch_Path ch in
    let? _ := on_store (Delete (ch_Path ch)) ?: "removing journal entry for " +:+ ch_Path ch in
    let* ms := elapsed_ms start in
    logAudit (mkAudit start "pull_delete" (ch_Path ch) "remote" 0 ms "" "" false "" "" "" 0) ;;
    st_ret (Ok tt).

(** [fileMD5]. *)
Definition fileMD5 (path : string) : ST W (result string) :=
  let? content := on_fs (os_ReadFile path) ?: "read " +:+ path in
  st_ret (Ok (env_md5 content)).

(** A journal entry without a baseline and a local file identical to the
    remote one: adopt the remote state. *)
Definition adoptIdenticalRemote (path : string) (obj : RemoteObject) (journal : JournalEntry) :
    ST W (result bool) :=
  if negb (String.eqb (je_RemoteMD5 journal) "") || negb (IsZero (je_LocalMtime journal))
     || String.eqb (ro_MD5 obj) ""
  then st_ret (Ok false)
  else
    let* r := on_fs (os_Stat (root_file path)) in
    match r with
    | Err _ => st_ret (Ok false)
    | Ok info =>
        if IsDir info then st_ret (Ok false)
        else
          let? sum := fileMD5 (root_file path) ?: "hashing local file " +:+ path in
          if negb (EqualFold sum (ro_MD5 obj)) then st_ret (Ok false)
          else if pc_DryRun (p_cfg p) then st_ret (Ok true)
          else
            let* ts := now in
            let? _ := on_store (Put (mkJournalEntry path (ModTime info) (ro_ModTime obj) (ro_MD5 obj)
                                       (ro_RemoteID obj) ts (je_LastOrigin journal)))
                        ?: "updating journal for " +:+ path in
            st_ret (Ok true)
    end.

Definition detectConflict (path : string) (obj : RemoteObject) (journal : JournalEntry) :
    ST W (result (bool * Time)) :=
  let* r := on_fs (os_Stat (root_file path)) in
  match r with
  | Err err =>
      if os_IsNotExist err then st_ret (Ok (false, 0))
      else st_ret (Err (EWrap ("stat local file " +:+ path) err))
  | Ok info =>
      let localMtime := ModTime info in
      if String.eqb (ro_MD5 obj) (je_RemoteMD5 journal) then st_ret (Ok (false, localMtime))
      else if within_second localMtime (je_LocalMtime journal) then st_ret (Ok (false, localMtime))
      else st_ret (Ok (true, localMtime))
  end.

Definition puller_deps : conflictDeps :=
  mkConflictDeps (p_pub p) (pc_LocalRoot (p_cfg p)) (pc_Matcher (p_cfg p))
    (pc_ConflictPolicy (p_cfg p)) (pc_DryRun (p_cfg p)) (pc_Retention (p_cfg p))
    (pc_Auditor (p_cfg p)).

Definition buildConflictEntry (path : string) (obj : RemoteObject) (res : ConflictResult)
    (localMtime : Time) : ST W JournalEntry :=
  let* ts := now in
  st_ret (mkJournalEntry path
    (if String.eqb (cr_Winner res) "remote" then ro_ModTime obj else localMtime)
    (ro_ModTime obj) (ro_MD5 obj) (ro_RemoteID obj) ts "remote").

Definition handleConflict (path : string) (obj : RemoteObject) (localMtime start : Time) :
    ST W (result unit) :=
  let* r := resolveConflict puller_deps path obj localMtime in
  match r with
  | Err err =>
      emitPullFailure path err ;;
      let* ms := elapsed_ms start in
      logAudit (mkAudit start "conflict" path "remote" 0 ms "" "" false (Error err) "" "" 0) ;;
      st_ret (Err (EWrap ("resolving conflict for " +:+ path) err))
  | Ok res =>
      let? _ := (if pc_DryRun (p_cfg p) then st_ret (Ok tt)
                 else
                   let* entry := buildConflictEntry path obj res localMtime in
                   on_store (Put entry))
                  ?: "updating journal after conflict for " +:+ path in
      let* ms := elapsed_ms start in
      logAudit (mkAudit start "conflict" path "remote" 0 ms (cr_Resolution res) (cr_OldPath res)
        (pc_DryRun (p_cfg p)) "" "" "" 0) ;;
      emitPullSuccess path (ro_Size obj) ;;
      st_ret (Ok tt)
  end.

Definition recordDryRunDownload (path : string) (obj : RemoteObject) (start : Time) :
    ST W (result unit) :=
  logAudit (mkAudit start "pull" path "remote" (ro_Size obj) 0 "" "" true "" "" "" 0) ;;
  st_ret (Ok tt).

Definition recordDownload (path : string) (obj : RemoteObject) (localPath : string) (start : Time) :
    ST W (result unit) :=
  let? info := on_fs (os_Stat localPath) ?: "stat after download " +:+ path in
  let* ts := now in
  let? _ := on_store (Put (mkJournalEntry path (ModTime info) (ro_ModTime obj) (ro_MD5 obj)
                             (ro_RemoteID obj) ts "remote"))
              ?: "updating journal for " +:+ path in
  let* ms := elapsed_ms start in
  logAudit (mkAudit start "pull" path "remote" (ro_Size obj) ms "" "" false "" "" "" 0) ;;
  emitPullSuccess path (ro_Size obj) ;;
  st_ret (Ok tt).

(** ** Operations that also read or change the puller's state *)

Definition P (A : Type) : Type := ST (W * PullState) A.

Definition set_streak (n : Z) : P unit :=
  in_state (fun st => (tt, mkPullState n (ps_dangling st))).

Definition knownDangling (ch : Change) : P bool :=
  in_state (fun st => (bool_decide (newDanglingKey ch ∈ ps_dangling st), st)).

Definition skipDanglingShortcut (ch : Change) (err : error) (start : Time) : P unit :=
  in_state (fun st => (tt, mkPullState (ps_streak st) ({[newDanglingKey ch]} ∪ ps_dangling st))) ;;
  in_world (
    emitPullFailure (ch_Path ch) err ;;
    let* ms := elapsed_ms start in
    logAudit (mkAudit start "pull" (ch_Path ch) "remote" 0 ms "" "" false (Error err) "" "" 0)).

Definition downloadFile (ch : Change) (obj : RemoteObject) (start : Time) : P (result unit) :=
  let path := ch_Path ch in
  let localPath := root_file path in
  if pc_DryRun (p_cfg p) then in_world (recordDryRunDownload path obj start)
  else
    let* known := knownDangling ch in
    if known : bool then st_ret (Ok tt)
    else
      let? _ := in_world (on_fs (os_MkdirAll (Dir localPath)))
                  ?: "creating directory " +:+ Dir localPath in
      let* r := in_world (on_download (DownloadFile path localPath)) in
      match r with
      | Err err =>
          if errors_Is err ErrDanglingShortcut then
            skipDanglingShortcut ch err start ;; st_ret (Ok tt)
          else
            in_world (emitPullFailure path err ;;
              let* ms := elapsed_ms start in
              logAudit (mkAudit start "pull" path "remote" 0 ms "" "" false (Error err) "" "" 0)) ;;
            st_ret (Err (EWrap ("downloading " +:+ path) err))
      | Ok _ => in_world (recordDownload path obj localPath start)
      end.

(** A change of a file the journal knows: adopt, conflict, skip or download. *)
Definition process_known (ch : Change) (obj : RemoteObject) (journal : JournalEntry)
    (start : Time) : P (result unit) :=
  let? same := in_world (adoptIdenticalRemote (ch_Path ch) obj journal) in
  if same : bool then st_ret (Ok tt)
  else
    let? c := in_world (detectConflict (ch_Path ch) obj journal) in
    if fst c : bool then in_world (handleConflict (ch_Path ch) obj (snd c) start)
    else if within_second (ro_ModTime obj) (je_RemoteMtime journal) then st_ret (Ok tt)
    else downloadFile ch obj start.

Definition processFileChange (ch : Change) (start : Time) : P (result unit) :=
  let? journal := in_world (on_store (Get (ch_Path ch))) ?: "reading journal for " +:+ ch_Path ch in
  match ch_Object ch with
  | None => st_ret (Err panic_nil)
  | Some obj =>
      match journal with
      | Some journal => process_known ch obj journal start
      | None => downloadFile ch obj start
      end
  end.

Definition is_dir_change (ch : Change) : bool :=
  match ch_Object ch with Some o => ro_IsDir o | None => false end.

Definition processChange (ch : Change) : P (result unit) :=
  let* start := in_world now in
  if ch_Deleted ch then in_world (processDelete ch start)
  else if is_dir_change ch then st_ret (Ok tt)
  else processFileChange ch start.

(** ** puller.go *)

Definition ensurePageToken : ST W (result string) :=
  let? token := on_store GetPageToken ?: "reading page token from store" in
  if negb (String.eqb token "") then st_ret (Ok token)
  else
    let? startToken := on_remote GetStartPageToken ?: "obtaining start page token" in
    let? _ := on_store (SetPageToken startToken) ?: "persisting start page token" in
    st_ret (Ok startToken).

Definition resetReason (err : error) : string :=
  if errors_Is err ErrTokenRejected
  then "page token rejected by Drive (not 410 GONE), resetting"
  else "page token expired (410 GONE), resetting".

Definition needs_reset (err : error) : bool := errors_Is err ErrGone || errors_Is err ErrTokenRejected.

Definition reset_token (err : error) : ST W (result Changes) :=
  match p_pub p with
  | None => st_ret tt
  | Some _ =>
      let* ts := now in
      publish (p_pub p) ["events"; "pull.failure"]
        [("ts", PTime ts); ("type", PStr "pull.failure"); ("error", PStr (resetReason err))]
  end ;;
  let? newToken := on_remote GetStartPageToken ?: "obtaining new start page token after 410" in
  let? _ := on_store (SetPageToken newToken) ?: "persisting reset page token" in
  on_remote (fun r => let '(c, r) := ListChanges newToken r in
    (wrap "listing changes after token reset" c, r)).

Definition fetchChanges (token : string) : P (result Changes) :=
  let* r := in_world (on_remote (ListChanges token)) in
  match r with
  | Ok changes => set_streak 0 ;; st_ret (Ok changes)
  | Err err =>
      if negb (needs_reset err) then
        in_world (emitPullFailure "" err) ;;
        (if errors_Is err ErrOAuthClientMissing
         then in_state (fun st => (tt, mkPullState (wrap64 (ps_streak st + 1)) (ps_dangling st)))
         else set_streak 0) ;;
        st_ret (Err (EWrap "listing changes" err))
      else
        set_streak 0 ;;
        in_world (reset_token err)
  end.

Definition persistToken (token : string) : ST W (result unit) :=
  if String.eqb token "" then st_ret (Ok tt)
  else let? _ := on_store (SetPageToken token) ?: "persisting page token" in st_ret (Ok tt).

(** The loop over the changes: cancelled half-way, or the last error. *)
Fixpoint process_all (chs : list Change) (lastErr : option error) :
    P (result (option error)) :=
  match chs with
  | [] => st_ret (Ok lastErr)
  | ch :: chs =>
      let* c := in_world ctx_Err in
      match c with
      | Some e => st_ret (Err e)
      | None =>
          let* r := processChange ch in
          process_all chs (match r with Ok _ => lastErr | Err e => Some e end)
      end
  end.

Definition poll : P (result unit) :=
  let? token := in_world ensurePageToken ?: "getting page token" in
  let? changes := fetchChanges token in
  match Items changes with
  | [] => in_world (persistToken (NextPageToken changes))
  | _ =>
      let? lastErr := process_all (Items changes) None in
      let? _ := in_world (persistToken (NextPageToken changes)) in
      st_ret (match lastErr with None => Ok tt | Some e => Err e end)
  end.

(** [Run], which the agent does not use: a cycle at the start, then one each
    time the timer fires ([fires] times before the context ends); the delays
    the timer is armed with are the result. *)
Fixpoint Run_loop (fires : nat) : P (list Duration) :=
  let* st := (fun s => (snd s, s)) in
  let armed := NextPollInterval p st in
  match fires with
  | O => st_ret [armed]
  | Datatypes.S fires =>
      let* _ := poll in
      let* rest := Run_loop fires in
      st_ret (armed :: rest)
  end.

Definition Puller_Run (fires : nat) (ctxErr : error) : P (list Duration * result unit) :=
  let* _ := poll in
  let* delays := Run_loop fires in
  st_ret (delays, Err ctxErr).

End pull.

(** ** Lemmas *)

Lemma within_second_refl t : within_second t t = true.
Proof.
  unfold within_second. rewrite abs_sub_exact.
  - by rewrite Z.sub_diag.
  - rewrite Z.sub_diag. by vm_compute.
Qed.

Section lemmas.
Context {R S : Type} `{RemoteFS R} `{StoreLaws S} `{Env}.
Abbreviation W := (World R S).

Lemma quiet_emitPullSuccess p path n : quiet (R := R) (S := S) (emitPullSuccess p path n).
Proof. unfold emitPullSuccess. solve_quiet. Qed.

Lemma quiet_emitPullFailure p path e : quiet (R := R) (S := S) (emitPullFailure p path e).
Proof. unfold emitPullFailure. solve_quiet. Qed.

Lemma quiet_logAudit p e : quiet (R := R) (S := S) (logAudit p e).
Proof. apply quiet_audit. Qed.

Lemma quiet_elapsed_ms t : quiet (R := R) (S := S) (elapsed_ms t).
Proof. unfold elapsed_ms. solve_quiet. Qed.

Lemma quiet_Stat q : quiet (R := R) (S := S) (on_fs (os_Stat q)).
Proof. apply quiet_fs, os_Stat_state. Qed.

Lemma quiet_Get q : quiet (R := R) (on_store (S := S) (Get q)).
Proof. apply quiet_store. intros s. destruct (Get q s) eqn:E. by apply store_get in E as [-> _]. Qed.

Lemma quiet_GetPageToken : quiet (R := R) (on_store (S := S) GetPageToken).
Proof.
  apply quiet_store. intros s. destruct (GetPageToken s) eqn:E. by apply store_get_token in E as [-> _].
Qed.

Lemma os_ReadFile_state q fs : snd (os_ReadFile q fs) = fs.
Proof.
  unfold os_ReadFile, with_fault. destruct (fs_fault _ _ _); [done|]. by destruct (resolve _ _) as [[]|].
Qed.

Lemma quiet_fileMD5 q : quiet (R := R) (S := S) (fileMD5 q).
Proof. unfold fileMD5. apply quiet_try; [apply quiet_fs, os_ReadFile_state|intros; apply quiet_ret]. Qed.

Lemma quiet_detectConflict p path obj j : quiet (R := R) (S := S) (detectConflict p path obj j).
Proof.
  unfold detectConflict. apply quiet_bind; [apply quiet_Stat|intros r].
  repeat quiet_step; apply quiet_ret.
Qed.

End lemmas.

#[export] Hint Resolve quiet_emitPullSuccess quiet_emitPullFailure quiet_logAudit quiet_elapsed_ms
  quiet_Stat quiet_Get quiet_GetPageToken quiet_fileMD5 quiet_detectConflict : homedrive.

(** ** Properties *)

Lemma double_interval_spec n i :
  0 < i -> i <= max_int64 -> double_interval n i = i \/ i <= double_interval n i < 2 * oauthBackoffMax.
Proof.
  revert i. induction n as [|n IH]; intros i Hi Hm; [by left|]. cbn [double_interval].
  destruct (Z.ltb_spec i oauthBackoffMax) as [Hlt|]; [|by left].
  unfold oauthBackoffMax, Minute, Second, max_int64 in *.
  rewrite wrap64_id by (unfold in_int64, min_int64, max_int64; lia).
  destruct (IH (i * 2)) as [->|]; [lia|lia| |]; right; lia.
Qed.

Lemma double_interval_min n i :
  0 < i <= max_int64 ->
  Z.min (double_interval n i) oauthBackoffMax = Z.min (i * 2 ^ Z.of_nat n) oauthBackoffMax.
Proof.
  revert i. induction n as [|n IH]; intros i Hi; cbn [double_interval].
  - f_equal. change (2 ^ Z.of_nat 0) with 1. lia.
  - rewrite Nat2Z.inj_succ, Z.pow_succ_r by lia.
    pose proof (Z.pow_pos_nonneg 2 (Z.of_nat n) ltac:(lia) ltac:(lia)) as Hp.
    destruct (Z.ltb_spec i oauthBackoffMax) as [Hlt|Hge].
    + unfold oauthBackoffMax, Minute, Second, max_int64 in *.
      rewrite wrap64_id by (unfold in_int64, min_int64, max_int64; lia).
      rewrite IH by lia. f_equal. ring.
    + rewrite !Z.min_r by nia. done.
Qed.

(** C39: the poll interval is the configured one unless the last polls failed
    for missing OAuth credentials; then it doubles with each such failure,
    capped at 30 minutes, and never overflows. *)
Theorem NextPollInterval_spec p st :
  0 < pc_Interval (p_cfg p) <= max_int64 -> 0 <= ps_streak st ->
  NextPollInterval p st =
  if ps_streak st =? 0 then pc_Interval (p_cfg p)
  else Z.min (pc_Interval (p_cfg p) * 2 ^ (ps_streak st - 1)) oauthBackoffMax.
Proof.
  intros Hi Hs. unfold NextPollInterval. destruct (Z.eqb_spec (ps_streak st) 0); [done|].
  assert (2 ^ (ps_streak st - 1) = 2 ^ Z.of_nat (Z.to_nat (ps_streak st - 1))) as ->
    by (by rewrite Z2Nat.id by lia).
  rewrite <- double_interval_min by done.
  destruct (Z.ltb_spec oauthBackoffMax (double_interval (Z.to_nat (ps_streak st - 1)) (pc_Interval (p_cfg p)))); lia.
Qed.

(** The loop never spins and never waits longer than the configured interval or
    the backoff cap: every delay its timer is armed with is positive and within
    them, one for each cycle. *)
Theorem Puller_Run_delays {R S : Type} `{RemoteFS R} `{Store S} `{Env} p fires e (s : World R S * PullState) :
  0 < pc_Interval (p_cfg p) <= max_int64 ->
  let delays := fst (fst (Puller_Run p fires e s)) in
  length delays = Datatypes.S fires /\
  Forall (fun d => 0 < d <= Z.max (pc_Interval (p_cfg p)) oauthBackoffMax) delays.
Proof.
  intros Hi. assert (forall st, 0 < NextPollInterval p st <= Z.max (pc_Interval (p_cfg p)) oauthBackoffMax) as Hn.
  { intros st. unfold NextPollInterval. destruct (ps_streak st =? 0); [lia|].
    destruct (double_interval_spec (Z.to_nat (ps_streak st - 1)) (pc_Interval (p_cfg p))) as [E|E]; [lia..| |].
    all: destruct (Z.ltb_spec oauthBackoffMax (double_interval (Z.to_nat (ps_streak st - 1)) (pc_Interval (p_cfg p)))).
    all: unfold oauthBackoffMax, Minute, Second in *; lia. }
  assert (forall s1, length (fst (Run_loop p fires s1)) = Datatypes.S fires /\
    Forall (fun d => 0 < d <= Z.max (pc_Interval (p_cfg p)) oauthBackoffMax) (fst (Run_loop p fires s1))) as Hl.
  { induction fires as [|fires IH]; intros s1; cbn [Run_loop]; unfold st_bind at 1.
    - cbn. split; [done|]. by repeat constructor; apply Hn.
    - unfold st_bind. destruct (poll p s1) as [r s2]. destruct (IH s2) as [H1' H2'].
      destruct (Run_loop p fires s2) as [rest s3]. cbn in *. split; [by rewrite H1'|].
      constructor; [apply Hn|done]. }
  unfold Puller_Run, st_bind. destruct (poll p s) as [r s1]. specialize (Hl s1).
  by destruct (Run_loop p fires s1) as [delays s2].
Qed.

Definition demo_puller (dry : bool) : Puller :=
  fst (NewPuller (mkPullerConfig 0 "/home" "" default_matcher (mkPolicy 5 0) true dry) None true
    (Some (fun ps => Join ps "/"))).

Lemma NextPollInterval_spec_witness :
  NextPollInterval (demo_puller false) (mkPullState 3 ∅) = 120 * Second /\
  NextPollInterval (demo_puller false) (mkPullState 3 ∅) =
  Z.min (pc_Interval (p_cfg (demo_puller false)) * 2 ^ (3 - 1)) oauthBackoffMax.
Proof.
  split; [reflexivity|].
  refine (NextPollInterval_spec (demo_puller false) (mkPullState 3 ∅) _ _); cbn; [|lia].
  unfold max_int64, Second. lia.
Defined.

Section theorems.
Context {R S : Type} `{RemoteFS R} `{StoreLaws S} `{Env}.
Abbreviation W := (World R S).

Lemma removeLocal_nodes q (w : W) :
  let k := path_key q in
  fs_nodes (w_fs (snd (removeLocal q w))) = fs_nodes (w_fs w) \/
  (fs_nodes (w_fs (snd (removeLocal q w))) = delete k (fs_nodes (w_fs w)) /\
   forall t, fs_nodes (w_fs w) !! k = Some (Folder t) -> has_children (fs_nodes (w_fs w)) k = false).
Proof.
  cbn zeta. unfold removeLocal, st_bind, on_fs.
  pose proof (os_Remove_spec q (w_fs w)) as Hs. cbn in Hs.
  destruct (os_Remove q (w_fs w)) as [[[]|e] fs].
  - right. destruct Hs as (Hd & _ & Hf). done.
  - left. subst fs. destruct (os_IsNotExist e); [done|]. cbn [w_fs]. pose proof (os_Stat_state q (w_fs w)) as Hst.
    destruct (os_Stat q (w_fs w)) as [[info|] fs]; cbn in Hst; subst fs; [|done].
    by destruct (IsDir info).
Qed.

(** A remote deletion removes at most the node at that path: no other local
    file or folder changes, and a folder that still has entries stays. *)
Theorem pull_delete_is_local p ch start (w : W) :
  let k := path_key (root_file p (ch_Path ch)) in
  let nodes := fs_nodes (w_fs w) in
  let nodes' := fs_nodes (w_fs (snd (processDelete p ch start w))) in
  (forall l, l <> k -> nodes' !! l = nodes !! l) /\
  (forall t, nodes !! k = Some (Folder t) -> has_children nodes k = true -> nodes' !! k = nodes !! k).
Proof.
  intros k nodes nodes'.
  assert (nodes' = fs_nodes (w_fs (snd (removeLocal (root_file p (ch_Path ch)) w))) \/ nodes' = nodes) as Hn.
  { unfold nodes', processDelete. destruct (pc_DryRun (p_cfg p)).
    - right. unfold nodes, logAudit, log_audit, emit, st_bind. by destruct (p_audit p).
    - left. unfold st_try at 1. destruct (removeLocal _ w) as [[[]|e] w1]; [|done]. cbn [snd].
      unfold st_try, on_store. destruct (Delete _ (w_store w1)) as [[[]|e] s]; [|done].
      unfold elapsed_ms, st_bind, logAudit, log_audit, emit, now, tick. cbn.
      by destruct (p_audit p). }
  clearbody nodes'.
  destruct (removeLocal_nodes (root_file p (ch_Path ch)) w) as [E|[E Hf]].
  - assert (nodes' = nodes) as -> by (destruct Hn as [Hn|Hn]; [by rewrite Hn, E|done]). done.
  - destruct Hn as [-> | ->]; [|done]. rewrite E. split.
    + intros l Hl. by rewrite lookup_delete_ne.
    + intros t Ht Hc. specialize (Hf t Ht). fold nodes k in Hf. congruence.
Qed.

(** A change that reports the mtime the journal recorded, while the local file
    still has its journaled mtime, is skipped whatever hash it carries. *)
Lemma processFileChange_skip p ch obj e start (w : W) st :
  ch_Object ch = Some obj ->
  store_view (w_store w) !! ch_Path ch = Some e -> is_ok (fst (Get (ch_Path ch) (w_store w))) = true ->
  within_second (ro_ModTime obj) (je_RemoteMtime e) = true -> je_LocalMtime e <> 0 ->
  match fst (os_Stat (root_file p (ch_Path ch)) (w_fs w)) with
  | Ok info => within_second (ModTime info) (je_LocalMtime e) = true
  | Err err => os_IsNotExist err = true
  end ->
  processFileChange p ch start (w, st) = (Ok tt, (w, st)).
Proof.
  intros Hobj Hj Hget Hmt Hbase Hstat. unfold processFileChange.
  unfold st_try at 1, in_world at 1, on_store at 1.
  destruct (Get (ch_Path ch) (w_store w)) as [[o|] s'] eqn:Eg; [|done].
  apply store_get in Eg as [-> Ho]. rewrite (Ho o eq_refl), Hj, Hobj.
  assert (mkWorld (w_fs w) (w_remote w) (w_store w) (w_tick w) (w_out w) = w) as -> by (by destruct w).
  unfold process_known. unfold st_try at 1, in_world at 1.
  assert (adoptIdenticalRemote p (ch_Path ch) obj e w = (Ok false, w)) as ->.
  { unfold adoptIdenticalRemote, IsZero.
    rewrite (proj2 (Z.eqb_neq _ _) Hbase). cbn. by rewrite orb_true_r. }
  unfold st_try at 1, in_world at 1.
  assert (exists t, detectConflict p (ch_Path ch) obj e w = (Ok (false, t), w)) as [t ->].
  { unfold detectConflict, st_bind, on_fs.
    pose proof (os_Stat_state (root_file p (ch_Path ch)) (w_fs w)) as Hs.
    destruct (os_Stat _ (w_fs w)) as [[info|err] fs]; cbn in Hs, Hstat; subst fs.
    - rewrite Hstat. destruct (String.eqb _ _); eexists; by destruct w.
    - rewrite Hstat. eexists. by destruct w. }
  cbn [fst]. by rewrite Hmt.
Qed.

(** C1: pulling our own upload is a no-op (issue #106): after a successful push
    of a file, the change the remote then reports for it causes no conflict
    and no download, and changes nothing. The reported object only has to
    carry the upload's modification time up to a second: its hash may differ
    from what the upload returned, as it does in production, where the upload
    reports none and the change feed one. *)
Theorem push_then_pull_is_noop s p ev info obj seen r' (w : W) st start :
  let path := ev_Path ev in
  let entry := mkJournalEntry path (ModTime info) (ro_ModTime obj) (ro_MD5 obj) (ro_RemoteID obj)
                 (env_now (3 + w_tick w)) "local" in
  (ev_Op ev = OpCreate \/ ev_Op ev = OpWrite) -> cfg_DryRun (s_cfg s) = false ->
  1 <= MaxAttempts (Retry (s_cfg s)) -> env_ctx (1 + w_tick w) = None ->
  pc_LocalRoot (p_cfg p) = cfg_LocalRoot (s_cfg s) ->
  fst (os_Stat (local_path s path) (w_fs w)) = Ok info -> IsDir info = false -> ModTime info <> 0 ->
  CopyFile (local_path s path) (remoteDir path) (w_fs w) (w_remote w) = (Ok obj, r') ->
  fst (Put entry (w_store w)) = Ok tt ->
  within_second (ro_ModTime seen) (ro_ModTime obj) = true ->
  let w' := snd (handleEvent s ev w) in
  is_ok (fst (Get path (w_store w'))) = true ->
  processFileChange p (mkChange path false (Some seen)) start (w', st) = (Ok tt, (w', st)).
Proof.
  intros path entry Hop Hd Hn Hc Hroot Hstat Hdir Hmt Hcopy Hput Hseen w' Hget.
  destruct (handleEvent_upload s ev info obj r' w Hop Hd Hn Hc Hstat Hdir Hcopy Hput)
    as (Hfs & _ & Hview & _).
  apply (processFileChange_skip p _ seen (json_norm entry)); cbn [ch_Object ch_Path].
  - done.
  - unfold w', path. rewrite Hview. by rewrite lookup_insert_eq.
  - done.
  - done.
  - done.
  - unfold w'. rewrite Hfs. unfold root_file. rewrite Hroot.
    unfold local_path in Hstat. fold path. rewrite Hstat. apply within_second_refl.
Qed.

End theorems.

(** *** Preservation through the puller's operations *)

Section preserve.
Context {R S : Type} `{RemoteFS R} `{StoreLaws S} `{Env}.
Context (tree : R -> gmap string RemoteObject) `{!RemoteLaws R tree}.
Abbreviation W := (World R S).

(** Local files, remote tree and journal entries are the same. *)
Definition same_trees (w w' : W) : Prop :=
  w_fs w' = w_fs w /\ tree (w_remote w') = tree (w_remote w) /\
  store_view (w_store w') = store_view (w_store w).

#[export] Instance same_trees_equiv : Equivalence same_trees.
Proof. unfold same_trees. split; [intros w|intros w w'|intros w w1 w2]; intuition congruence. Qed.

Definition dry {A} (m : ST W A) : Prop := preserves same_trees m.

Definition dryP {A} (m : P (R := R) (S := S) A) : Prop := preserves (on_fst same_trees) m.

Lemma dry_quiet {A} (m : ST W A) : quiet m -> dry m.
Proof. intros Hm w. destruct (Hm w) as (H1' & H2' & H3'). unfold same_trees. split_and!; congruence. Qed.

Lemma dry_bind {A B} (m : ST W A) (k : A -> ST W B) :
  dry m -> (forall a, dry (k a)) -> dry (st_bind m k).
Proof. apply preserves_bind. typeclasses eauto. Qed.

Lemma dry_try {A B} f (m : ST W (result A)) (k : A -> ST W (result B)) :
  dry m -> (forall a, dry (k a)) -> dry (st_try f m k).
Proof. apply preserves_try. typeclasses eauto. Qed.

Lemma dry_remote {A} (m : ST R A) : (forall r, tree (snd (m r)) = tree r) -> dry (on_remote m).
Proof.
  intros Hm w. unfold on_remote. specialize (Hm (w_remote w)). by destruct (m (w_remote w)).
Qed.

Lemma dry_SetPageToken t : dry (on_store (SetPageToken t)).
Proof.
  intros w. unfold on_store. destruct (SetPageToken t (w_store w)) as [[[]|e] s] eqn:E.
  - apply store_set_token in E as [_ E]. by unfold same_trees; cbn.
  - apply store_set_token_err in E as ->. by unfold same_trees; cbn.
Qed.

Lemma dryP_world {A} (m : ST W A) : dry m -> dryP (in_world m).
Proof. apply preserves_world. Qed.

Lemma dryP_state {A} (m : ST PullState A) : dryP (in_state m).
Proof. apply preserves_state. typeclasses eauto. Qed.

Lemma dryP_ret {A} (a : A) : dryP (st_ret a).
Proof. apply preserves_ret. typeclasses eauto. Qed.

Lemma dryP_bind {A B} (m : P A) (k : A -> P B) :
  dryP m -> (forall a, dryP (k a)) -> dryP (st_bind m k).
Proof. apply preserves_bind. typeclasses eauto. Qed.

Lemma dryP_try {A B} f (m : P (result A)) (k : A -> P (result B)) :
  dryP m -> (forall a, dryP (k a)) -> dryP (st_try f m k).
Proof. apply preserves_try. typeclasses eauto. Qed.

Variable p : Puller.
Hypothesis Hdry : pc_DryRun (p_cfg p) = true.

Lemma dry_quiet_world {A} (m : ST W A) : quiet m -> dryP (in_world m).
Proof. intros Hm. by apply dryP_world, dry_quiet. Qed.

Lemma quiet_adopt path obj j : quiet (R := R) (S := S) (adoptIdenticalRemote p path obj j).
Proof.
  unfold adoptIdenticalRemote. rewrite Hdry. destruct (_ || _); [apply quiet_ret|].
  apply quiet_bind; [apply quiet_Stat|intros [info|]]; [|apply quiet_ret].
  destruct (IsDir info); [apply quiet_ret|].
  apply quiet_try; [apply quiet_fileMD5|intros sum]. destruct (negb _); apply quiet_ret.
Qed.

Lemma quiet_handleConflict path obj lm start :
  quiet (R := R) (S := S) (handleConflict p path obj lm start).
Proof.
  unfold handleConflict. rewrite Hdry. apply quiet_bind.
  - by apply quiet_resolveConflict_dry.
  - intros [res|err]; solve_quiet.
Qed.

Lemma dryP_processChange ch : dryP (processChange p ch).
Proof.
  unfold processChange. apply dryP_bind; [apply dry_quiet_world, quiet_now|intros start].
  destruct (ch_Deleted ch).
  { apply dry_quiet_world. unfold processDelete. rewrite Hdry. solve_quiet. }
  destruct (is_dir_change ch); [apply dryP_ret|].
  unfold processFileChange. apply dryP_try; [apply dry_quiet_world, quiet_Get|intros journal].
  destruct (ch_Object ch) as [obj|]; [|apply dryP_ret].
  assert (dryP (downloadFile p ch obj start)) as Hdl.
  { unfold downloadFile. rewrite Hdry. apply dry_quiet_world.
    unfold recordDryRunDownload. solve_quiet. }
  destruct journal as [j|]; [|exact Hdl].
  unfold process_known. apply dryP_try; [apply dry_quiet_world, quiet_adopt|intros [|]]; [apply dryP_ret|].
  apply dryP_try; [apply dry_quiet_world, quiet_detectConflict|intros [[|] lm]]; cbn [fst snd].
  - apply dry_quiet_world, quiet_handleConflict.
  - destruct (within_second _ _); [apply dryP_ret|exact Hdl].
Qed.

Lemma dryP_process_all chs e : dryP (process_all p chs e).
Proof.
  revert e. induction chs as [|ch chs IH]; intros e; [apply dryP_ret|]. cbn [process_all].
  apply dryP_bind; [apply dry_quiet_world, quiet_ctx|intros [c|]]; [apply dryP_ret|].
  apply dryP_bind; [apply dryP_processChange|intros r; apply IH].
Qed.

Lemma dry_ListChanges t : dry (on_remote (ListChanges t)).
Proof. apply dry_remote, law_changes. Qed.

Lemma dry_start : dry (on_remote GetStartPageToken).
Proof. apply dry_remote, law_start. Qed.

Lemma dry_ret {A} (a : A) : dry (st_ret a).
Proof. by intros w. Qed.

Lemma dry_persist t : dry (persistToken t).
Proof.
  unfold persistToken. destruct (String.eqb t ""); [apply dry_ret|].
  apply dry_try; [apply dry_SetPageToken|intros; apply dry_ret].
Qed.

Lemma dryP_fetchChanges token : dryP (fetchChanges p token).
Proof.
  unfold fetchChanges. apply dryP_bind; [apply dryP_world, dry_ListChanges|intros [c|e]].
  - apply dryP_bind; [apply dryP_state|intros; apply dryP_ret].
  - destruct (negb (needs_reset e)).
    + apply dryP_bind; [apply dry_quiet_world, quiet_emitPullFailure|intros _].
      apply dryP_bind; [|intros; apply dryP_ret]. destruct (errors_Is _ _); apply dryP_state.
    + apply dryP_bind; [apply dryP_state|intros _]. apply dryP_world. unfold reset_token.
      apply dry_bind; [apply dry_quiet; solve_quiet|intros _].
      apply dry_try; [apply dry_start|intros t].
      apply dry_try; [apply dry_SetPageToken|intros _].
      apply dry_remote. intros r. pose proof (law_changes t r) as Hl. by destruct (ListChanges t r).
Qed.

Lemma dryP_token : dryP (in_world ensurePageToken).
Proof.
  apply dryP_world. unfold ensurePageToken.
  apply dry_try; [apply dry_quiet, quiet_GetPageToken|intros t].
  destruct (negb _); [apply dry_ret|]. apply dry_try; [apply dry_start|intros t'].
  apply dry_try; [apply dry_SetPageToken|intros; apply dry_ret].
Qed.

Lemma dryP_poll : dryP (poll p).
Proof.
  unfold poll. apply dryP_try; [apply dryP_token|intros token]. apply dryP_try; [apply dryP_fetchChanges|intros c].
  destruct (Items c); [apply dryP_world, dry_persist|].
  apply dryP_try; [apply dryP_process_all|intros e].
  apply dryP_try; [apply dryP_world, dry_persist|intros; apply dryP_ret].
Qed.

End preserve.

(** C7: a whole poll cycle in dry-run mode changes no local file, nothing on the
    remote and no journal entry; only the page token advances. *)
Theorem poll_dry_run {R S} `{RemoteFS R} `{StoreLaws S} `{Env} tree `{!RemoteLaws R tree} p
    (w : World R S) st :
  pc_DryRun (p_cfg p) = true -> same_trees tree w (fst (snd (poll p (w, st)))).
Proof. intros Hd. exact (dryP_poll tree p Hd (w, st)). Qed.

Section polling.
Context {R S : Type} `{RemoteFS R} `{StoreLaws S} `{Env}.
Abbreviation W := (World R S).

(** C36: when Drive expires or rejects the page token, one fresh start token is
    fetched, persisted and polled with; the OAuth backoff is reset and no file
    or journal entry is touched. *)
Theorem fetchChanges_resets_token p token e r1 newToken r2 s2 c r3 (w : W) st :
  ListChanges token (w_remote w) = (Err e, r1) -> needs_reset e = true ->
  GetStartPageToken r1 = (Ok newToken, r2) -> SetPageToken newToken (w_store w) = (Ok tt, s2) ->
  ListChanges newToken r2 = (c, r3) ->
  exists w', fetchChanges p token (w, st) =
      (wrap "listing changes after token reset" c, (w', mkPullState 0 (ps_dangling st))) /\
    store_token (w_store w') = newToken /\ store_view (w_store w') = store_view (w_store w) /\
    w_remote w' = r3 /\ w_fs w' = w_fs w.
Proof.
  intros Hl He Hg Hset Hl2. unfold fetchChanges. unfold st_bind at 1, in_world at 1, on_remote at 1.
  rewrite Hl. rewrite He. cbn [negb]. unfold st_bind at 1, set_streak, in_state.
  set (w1 := mkWorld (w_fs w) r1 (w_store w) (w_tick w) (w_out w)).
  unfold in_world, reset_token. unfold st_bind at 1.
  set (m := match p_pub p with None => st_ret tt | Some _ => _ end).
  assert (quiet m) as Hq by (unfold m; solve_quiet).
  destruct (Hq w1) as (F & Rr & Ss). destruct (m w1) as [[] w2]. cbn in F, Rr, Ss.
  unfold st_try at 1, on_remote at 1. rewrite Rr, Hg.
  unfold st_try at 1, on_store at 1. cbn [w_store]. rewrite Ss, Hset.
  unfold on_remote. cbn [w_remote]. rewrite Hl2. apply store_set_token in Hset as [Ht Hv].
  eexists. split; [done|]. done.
Qed.

(** Any other polling failure leaves the page token and the journal as they
    are; it lengthens the backoff streak exactly when the OAuth client is
    missing, and resets it otherwise. *)
Theorem fetchChanges_keeps_token p token e r1 (w : W) st :
  ListChanges token (w_remote w) = (Err e, r1) -> needs_reset e = false ->
  exists w', fetchChanges p token (w, st) =
      (Err (EWrap "listing changes" e),
       (w', mkPullState (if errors_Is e ErrOAuthClientMissing then wrap64 (ps_streak st + 1) else 0)
              (ps_dangling st))) /\
    w_store w' = w_store w /\ w_remote w' = r1 /\ w_fs w' = w_fs w.
Proof.
  intros Hl He. unfold fetchChanges. unfold st_bind at 1, in_world at 1, on_remote at 1.
  rewrite Hl, He. cbn [negb]. unfold st_bind at 1, in_world.
  set (w1 := mkWorld (w_fs w) r1 (w_store w) (w_tick w) (w_out w)).
  pose proof (quiet_emitPullFailure p "" e w1) as (F & Rr & Ss).
  destruct (emitPullFailure p "" e w1) as [[] w2]. cbn in F, Rr, Ss.
  exists w2. split; [|done]. unfold st_bind, set_streak, in_state.
  by destruct (errors_Is e ErrOAuthClientMissing).
Qed.

(** A dangling shortcut is skipped, not failed: nothing is journaled, and
    the same object is never downloaded again by this process. *)
Theorem dangling_shortcut_skipped p ch obj start e rm fs1 fs (w : W) st :
  pc_DryRun (p_cfg p) = false -> newDanglingKey ch ∉ ps_dangling st ->
  os_MkdirAll (Dir (root_file p (ch_Path ch))) (w_fs w) = (Ok tt, fs1) ->
  DownloadFile (ch_Path ch) (root_file p (ch_Path ch)) (w_remote w, fs1) = (Err e, (rm, fs)) ->
  errors_Is e ErrDanglingShortcut = true ->
  exists w' st', downloadFile p ch obj start (w, st) = (Ok tt, (w', st')) /\
    w_store w' = w_store w /\
    forall w2 start2, downloadFile p ch obj start2 (w2, st') = (Ok tt, (w2, st')).
Proof.
  intros Hd Hk Hm Hdl He. unfold downloadFile. rewrite Hd.
  unfold st_bind at 1, knownDangling at 1, in_state at 1. rewrite bool_decide_eq_false_2 by done.
  unfold st_try at 1, in_world at 1, on_fs at 1. rewrite Hm.
  unfold st_bind at 1, in_world at 1, on_download. cbn [w_remote w_fs]. rewrite Hdl, He.
  unfold st_bind at 1, skipDanglingShortcut, st_bind at 1, in_state at 1, in_world.
  set (m := st_bind (emitPullFailure p (ch_Path ch) e) _).
  assert (quiet (R := R) (S := S) m) as Hq by (unfold m; solve_quiet).
  match goal with |- context [m ?x] => set (w1 := x) end.
  destruct (Hq w1) as (_ & _ & Ss). destruct (m w1) as [[] w2]. cbn in Ss.
  eexists _, _. split; [done|]. split; [done|]. intros w3 start2.
  unfold st_bind, knownDangling, in_state. cbn [ps_dangling].
  rewrite bool_decide_eq_true_2; [done|]. set_solver.
Qed.

End polling.

(** ** Findings *)

(** A journal whose entry was recorded in 2026. *)
Definition y2026 : Time := 63902908800 * Second.

Definition db_2026 : MemBolt :=
  mkMemBolt true
    (<["docs/a.txt" := Encoded (mkJournalEntry "docs/a.txt" (500 * Second) y2026 "old" "i" y2026 "remote")]> ∅)
    ∅.

(** A remote change without a parseable mtime is dropped: the difference to
    a journaled mtime saturates, its negation overflows to the least [int64],
    and "at most a second apart" holds -- so new content (another MD5, the
    local file unmodified) is neither downloaded nor journaled. *)
Theorem zero_mtime_change_dropped :
  let obj := mkRemoteObject "docs/a.txt" 9 0 "new" "i" false false in
  let w := mkWorld demo_fs demo_mem (mkJournalStore db_2026 None) 0 [] in
  let st := mkPullState 0 ∅ in
  let r := @processFileChange _ _ _ _ demo_env (demo_puller false)
             (mkChange "docs/a.txt" false (Some obj)) 0 (w, st) in
  abs_sub (ro_ModTime obj) y2026 = min_int64 /\
  fst r = Ok tt /\
  (je_RemoteMD5 <$> store_view (w_store (fst (snd r))) !! "docs/a.txt") = Some "old" /\
  fs_nodes (w_fs (fst (snd r))) !! ["home"; "docs"; "a.txt"] = Some (File (500 * Second) "hello").
Proof. vm_compute. done. Qed.

(** When the local version wins a conflict, the journal does not record the
    winning state: the entry of the path keeps the mtime and MD5 of the remote
    object that lost and was renamed away, not those of the upload. *)
Theorem local_win_journals_loser :
  let obj := conflict_obj (400 * Second) in
  let w := mkWorld demo_fs (Seed "docs/a.txt" (400 * Second) "r1" demo_mem) (mkJournalStore demo_db None) 0 [] in
  let w' := snd (@handleConflict _ _ _ _ demo_env (demo_puller false) "docs/a.txt" obj (500 * Second) 0 w) in
  (je_RemoteMD5 <$> store_view (w_store w') !! "docs/a.txt") = Some "r1" /\
  (ro_MD5 <$> m_files (w_remote w') !! "docs/a.txt") = Some "md5-2" /\
  (ro_MD5 <$> m_files (w_remote w') !! "docs/a.txt.old.1") = Some "r1".
Proof. vm_compute. done. Qed.

(** ** Witnesses *)

Lemma push_then_pull_is_noop_witness :
  let w := demo_world demo_db in
  let w' := snd (@handleEvent _ _ _ _ demo_env demo_syncer (mkEvent "docs/a.txt" OpWrite 0) w) in
  exists obj,
    fst (CopyFile "/home/docs/a.txt" "docs" demo_fs demo_mem) = Ok obj /\
    @processFileChange _ _ _ _ demo_env (demo_puller false)
      (mkChange "docs/a.txt" false (Some obj)) 0 (w', mkPullState 0 ∅) = (Ok tt, (w', mkPullState 0 ∅)).
Proof.
  intros w w'.
  destruct (MemFS_CopyFile "/home/docs/a.txt" "docs" demo_fs demo_mem) as [[obj|] r'] eqn:E;
    [|discriminate E].
  exists obj. split; [cbn -[MemFS_CopyFile]; rewrite E; reflexivity|].
  apply (push_then_pull_is_noop (H2 := demo_env) demo_syncer (demo_puller false)
    (mkEvent "docs/a.txt" OpWrite 0) (mkInfo false (500 * Second) 5) obj obj r' w);
    [right; reflexivity|reflexivity|cbn; lia|reflexivity|reflexivity|vm_compute; reflexivity
    |reflexivity|discriminate|exact E|..].
  all: unfold MemFS_CopyFile in E; cbn in E; injection E as <- <-; vm_compute; reflexivity.
Defined.

Definition polled_mem : MemFS :=
  AddChange (mkChange "docs/a.txt" true None) (Seed "docs/a.txt" (400 * Second) "r1" demo_mem).

Lemma poll_dry_run_witness :
  let w := mkWorld demo_fs polled_mem (mkJournalStore demo_db None) 0 [] in
  same_trees m_files w (fst (snd (@poll _ _ _ _ demo_env (demo_puller true) (w, mkPullState 0 ∅)))).
Proof. intros w. apply (poll_dry_run (H2 := demo_env) m_files). reflexivity. Defined.

(** A remote that fails some calls. *)
Definition failing_remote (method : string) (match_token : string) (e : error) : FsWrappers.FlakyFS MemFS :=
  FsWrappers.mkFlakyFS (SetStartPageToken "7" demo_mem)
    [FsWrappers.mkFlakyRule method (Some (fun _ a => String.eqb a match_token))
       (FsWrappers.mkFlakyAction (Some e) 0 false)]
    (FsWrappers.mkFlakyCtx 1 (ESent ErrCanceled) false).

Definition failing_world (method match_token : string) (e : error) :
    World (FsWrappers.FlakyFS MemFS) (JournalStore MemBolt) :=
  mkWorld demo_fs (failing_remote method match_token e) (mkJournalStore demo_db None) 0 [].

Lemma fetchChanges_resets_token_witness :
  let e := NewTokenRejectedErr (EText "400") in
  let w := failing_world "ListChanges" "stale" e in
  exists w', @fetchChanges _ _ _ _ demo_env (demo_puller false) "stale" (w, mkPullState 2 ∅) =
      (Ok (mkChanges [] "0"), (w', mkPullState 0 ∅)) /\
    store_token (w_store w') = "7".
Proof.
  intros e w.
  destruct (SetPageToken "7" (w_store w)) as [[[]|] s2] eqn:Es; [|discriminate Es].
  destruct (fetchChanges_resets_token (H2 := demo_env) (demo_puller false) "stale" e (w_remote w) "7"
    (w_remote w) s2 (Ok (mkChanges [] "0")) (w_remote w) w (mkPullState 2 ∅))
    as (w' & Hf & Ht & _); try reflexivity; [exact Es|].
  exists w'. split; [exact Hf|exact Ht].
Defined.

Lemma fetchChanges_keeps_token_witness :
  let e := EWrap "refresh" (ESent ErrOAuthClientMissing) in
  let w := failing_world "ListChanges" "t" e in
  exists w', @fetchChanges _ _ _ _ demo_env (demo_puller false) "t" (w, mkPullState 2 ∅) =
      (Err (EWrap "listing changes" e), (w', mkPullState 3 ∅)) /\ w_store w' = w_store w.
Proof.
  intros e w.
  destruct (fetchChanges_keeps_token (H2 := demo_env) (demo_puller false) "t" e (w_remote w) w
    (mkPullState 2 ∅)) as (w' & Hf & Hs & _); try reflexivity.
  exists w'. split; [exact Hf|exact Hs].
Defined.

Lemma dangling_shortcut_skipped_witness :
  let e := ESent ErrDanglingShortcut in
  let w := failing_world "DownloadFile" "docs/link" e in
  let obj := mkRemoteObject "docs/link" 0 5 "" "i" false false in
  let ch := mkChange "docs/link" false (Some obj) in
  exists w' st', @downloadFile _ _ _ _ demo_env (demo_puller false) ch obj 0 (w, mkPullState 0 ∅) = (Ok tt, (w', st')) /\
    w_store w' = w_store w /\
    forall (w2 : World (FsWrappers.FlakyFS MemFS) (JournalStore MemBolt)) start2,
      @downloadFile _ _ _ _ demo_env (demo_puller false) ch obj start2 (w2, st') = (Ok tt, (w2, st')).
Proof.
  intros e w obj ch.
  apply (dangling_shortcut_skipped (H2 := demo_env) (demo_puller false) ch obj 0 e (w_remote w)
    (w_fs w) (w_fs w)).
  - reflexivity.
  - apply not_elem_of_empty.
  - reflexivity.
  - reflexivity.
  - reflexivity.
Defined.
