(* ===== verification/Repair.v ===== *)
(** [internal/syncer/repair.go]: the one-time pass that renumbers nested
    [".old.<N>"] chains onto the flat namespace of their base. *)
From S2P Require Import Prelude.
From S2P Require Import GoStrings.
From S2P Require Import GoRuntime.
From S2P Require Import OldSuffix.
From S2P Require Import LocalFS.
From S2P Require Import Remote.
From S2P Require Import MemFS.
From S2P Require Import Bolt.
From S2P Require Import Journal.
From S2P Require Import World.
From S2P Require Import AuditLog.

(** ** Definitions *)

Inductive side := SLocal | SRemote.

#[export] Instance side_eq_dec : EqDecision side.
Proof. solve_decision. Defined.

Record candidate := mkCandidate { c_path : string; c_base : string; c_depth : nat; c_side : side }.

#[export] Instance candidate_eq_dec : EqDecision candidate.
Proof. solve_decision. Defined.

Record RepairedLink := mkLink { OldPath : string; NewPath : string; Side : side }.

Record Report := mkReport { Scanned : Z; Links : list RepairedLink }.

(** [localSet] and [remoteSet]. *)
Definition path_sets : Type := side -> gset string.

Definition update_set (sd : side) (s : gset string) (sets : path_sets) : path_sets :=
  fun x => if decide (x = sd) then s else sets x.

(** [existsFn]. *)
Definition existsFn (sd : side) (sets : path_sets) (p : string) : bool := bool_decide (p ∈ sets sd).

(** The candidate of a path: two suffixes or more over a base that is there. *)
Definition candidate_of (m : Matcher) (sd : side) (sets : path_sets) (p : string) :
    option candidate :=
  let '(base, depth) := Base m p in
  if (depth <? 2)%nat then None
  else if negb (existsFn sd sets base) then None
  else Some (mkCandidate p base depth sd).

(** Deepest first, then by path; a path on both sides is the only tie. *)
Definition deeper (x y : candidate) : Prop :=
  (c_depth y < c_depth x)%nat \/ (c_depth x = c_depth y /\ str_le (c_path x) (c_path y)).

#[export] Instance deeper_dec x y : Decision (deeper x y).
Proof. unfold deeper. apply _. Defined.

Definition findCandidates (m : Matcher) (sets : path_sets) (locals remotes : list string) :
    list candidate :=
  merge_sort deeper
    (omap (candidate_of m SLocal sets) locals ++ omap (candidate_of m SRemote sets) remotes).

Section repair.
Context {R S : Type} `{Env}.
Abbreviation W := (World R S).

Record RepairDeps := mkRepairDeps {
  rd_Matcher : Matcher;
  rd_RenameLocal : string -> string -> ST W (result unit);
  rd_RenameRemote : string -> string -> ST W (result unit);
  rd_JournalGet : string -> ST W (result (option JournalEntry));
  rd_JournalDelete : string -> ST W (result unit);
  rd_JournalPut : JournalEntry -> ST W (result unit);
  rd_Auditor : bool;
  rd_DryRun : bool;
}.

Definition rename_side (deps : RepairDeps) (c : candidate) (target : string) : ST W (result unit) :=
  match c_side c with
  | SLocal => let? _ := rd_RenameLocal deps (c_path c) target ?: "rename local" in st_ret (Ok tt)
  | SRemote => let? _ := rd_RenameRemote deps (c_path c) target ?: "rename remote" in st_ret (Ok tt)
  end.

(** The journal entry follows the file; a failed read counts as no entry and a
    failed delete is ignored. *)
Definition carry_entry (deps : RepairDeps) (c : candidate) (target : string) : ST W (result unit) :=
  let* entry := rd_JournalGet deps (c_path c) in
  rd_JournalDelete deps (c_path c) ;;
  match entry with
  | Ok (Some e) =>
      let? _ := rd_JournalPut deps (with_path target e) ?: "journal put " +:+ target in st_ret (Ok tt)
  | _ => st_ret (Ok tt)
  end.

Definition move_name (c : candidate) (target : string) (sets : path_sets) : path_sets :=
  update_set (c_side c) ({[target]} ∪ (sets (c_side c) ∖ {[c_path c]})) sets.

(** [repairOne]: the sets change as soon as the rename succeeded. *)
Definition repairOne (deps : RepairDeps) (c : candidate) (target : string) (sets : path_sets) :
    ST W (result unit * path_sets) :=
  let* r := rename_side deps c target in
  match r with
  | Err e => st_ret (Err e, sets)
  | Ok _ =>
      let sets := move_name c target sets in
      let* r := carry_entry deps c target in
      match r with
      | Err e => st_ret (Err e, sets)
      | Ok _ =>
          Auditor_Log (rd_Auditor deps)
            (mkStoreAudit 0 "conflict_repair" (c_path c) "" "" target 0 "" false "") ;;
          st_ret (Ok tt, sets)
      end
  end.

Definition target_of (m : Matcher) (c : candidate) (sets : path_sets) : string :=
  Format m (c_base c) (snd (NextOldN m (c_base c) (existsFn (c_side c) sets))).

Fixpoint repair_loop (deps : RepairDeps) (cs : list candidate) (sets : path_sets) :
    ST W (list RepairedLink * path_sets) :=
  match cs with
  | [] => st_ret ([], sets)
  | c :: cs =>
      let target := target_of (rd_Matcher deps) c sets in
      if rd_DryRun deps then
        let* rest := repair_loop deps cs sets in
        st_ret (mkLink (c_path c) target (c_side c) :: fst rest, snd rest)
      else
        let* one := repairOne deps c target sets in
        let* rest := repair_loop deps cs (snd one) in
        st_ret (match fst one with
                | Ok _ => mkLink (c_path c) target (c_side c) :: fst rest
                | Err _ => fst rest
                end, snd rest)
  end.

Definition sets_of (locals remotes : list string) : path_sets :=
  fun sd => match sd with SLocal => list_to_set locals | SRemote => list_to_set remotes end.

(** [RepairChains] on the paths of the two listings. *)
Definition RepairChains (deps : RepairDeps) (locals remotes : list string) : ST W (result Report) :=
  let sets := sets_of locals remotes in
  let* ls := ranged (elements (sets SLocal)) in
  let* rs := ranged (elements (sets SRemote)) in
  let cs := findCandidates (rd_Matcher deps) sets ls rs in
  let* links := repair_loop deps cs sets in
  st_ret (Ok (mkReport (Z.of_nat (length cs)) (fst links))).

End repair.
Arguments RepairDeps : clear implicits.

(** ** Lemmas *)

Lemma candidate_of_spec m sd sets p c :
  candidate_of m sd sets p = Some c ->
  c_path c = p /\ c_side c = sd /\ (c_base c, c_depth c) = Base m p /\ (2 <= c_depth c)%nat /\
  c_base c ∈ sets sd.
Proof.
  unfold candidate_of, existsFn. destruct (Base m p) as [b d] eqn:E.
  destruct (Nat.ltb_spec d 2); [done|]. destruct (bool_decide (b ∈ sets sd)) eqn:Hb; [|done].
  intros [= <-]. cbn. apply bool_decide_eq_true in Hb. done.
Qed.

Lemma candidate_of_complete m sd sets p :
  (2 <= snd (Base m p))%nat -> fst (Base m p) ∈ sets sd ->
  exists c, candidate_of m sd sets p = Some c.
Proof.
  unfold candidate_of, existsFn. destruct (Base m p) as [b d]. cbn [fst snd]. intros Hd Hb.
  destruct (Nat.ltb_spec d 2); [lia|]. rewrite bool_decide_eq_true_2 by done. cbn [negb]. eauto.
Qed.

Lemma elem_of_findCandidates m sets ls rs c :
  c ∈ findCandidates m sets ls rs <->
  (c_path c ∈ ls /\ candidate_of m SLocal sets (c_path c) = Some c) \/
  (c_path c ∈ rs /\ candidate_of m SRemote sets (c_path c) = Some c).
Proof.
  unfold findCandidates. rewrite merge_sort_Permutation, elem_of_app, !list_elem_of_omap.
  split.
  - intros [(p & Hp & E)|(p & Hp & E)]; [left|right];
      destruct (candidate_of_spec _ _ _ _ _ E) as (-> & _); done.
  - intros [[Hp E]|[Hp E]]; [left|right]; eauto.
Qed.

(** *** Which names a pass leaves *)

Definition good_matcher (m : Matcher) : Prop := ends_in_nondigit (pre m) = true.

Lemma Base_target m b n :
  good_matcher m -> b <> "" -> IsOld m b = false -> 1 <= n <= max_int64 ->
  Base m (Format m b n) = (b, 1%nat).
Proof.
  intros Hm Hb Ho Hn. apply Base_chain; [|done|unfold maxDepth; lia].
  econstructor; [|constructor]. exists n. by apply TrimOne_Format.
Qed.

(** The name chosen for a candidate is free and one suffix above the base. *)
Lemma target_fresh m c sets :
  good_matcher m -> c_base c <> "" -> IsOld m (c_base c) = false ->
  Z.of_nat (size (sets (c_side c))) < maxProbe ->
  (target_of m c sets ∉ sets (c_side c)) /\ Base m (target_of m c sets) = (c_base c, 1%nat).
Proof.
  intros Hm Hb Ho Hs. unfold target_of. rewrite NextOldN_eq, Base_not_old by done. cbn [fst snd].
  rewrite Nat.ltb_irrefl. cbn [andb].
  set (ex := existsFn (c_side c) sets).
  destruct (some_candidate_free m ex (c_base c) (sets (c_side c))) as (j & Hj & Hf).
  { intros p Hp. unfold ex, existsFn in Hp. by apply bool_decide_eq_true in Hp. }
  { unfold maxProbe in *. lia. }
  destruct (probe_spec m ex (c_base c) (Z.to_nat maxProbe) 1) as [(k & Hk & -> & Hfree & _)|[_ Hall]].
  - split.
    + unfold ex, existsFn in Hfree. by apply bool_decide_eq_false in Hfree.
    + apply Base_target; try done. unfold maxProbe, max_int64 in *. lia.
  - rewrite Hall in Hf; [done|]. unfold maxProbe in *. lia.
Qed.

Lemma quiet_repair_dry {R S} `{Env} (deps : RepairDeps R S) cs sets :
  rd_DryRun deps = true -> quiet (repair_loop deps cs sets).
Proof.
  intros Hd. revert sets. induction cs as [|c cs IH]; intros sets; [apply quiet_ret|].
  cbn [repair_loop]. rewrite Hd. apply quiet_bind; [apply IH|intros; apply quiet_ret].
Qed.

(** *** Where a pass leaves the things the names stood for *)

Definition done_on (sd : side) (cs : list candidate) : list string :=
  map c_path (filter (fun c => c_side c = sd) cs).

Lemma elem_of_done sd cs p :
  p ∈ done_on sd cs <-> exists c, c ∈ cs /\ c_side c = sd /\ c_path c = p.
Proof.
  unfold done_on. split.
  - intros (c & -> & [Hs Hc]%list_elem_of_filter)%list_elem_of_fmap. by exists c.
  - intros (c & Hc & Hs & <-). apply list_elem_of_fmap. exists c. split; [done|].
    by apply list_elem_of_filter.
Qed.

(** What the candidates of a pass have in common. *)
Record good_candidates (m : Matcher) (sets0 : path_sets) (cs : list candidate) : Prop := {
  gc_nodup : NoDup (map (fun c => (c_path c, c_side c)) cs);
  gc_cand : Forall (fun c => c_path c ∈ sets0 (c_side c) /\ c_base c ∈ sets0 (c_side c) /\
    (c_base c, c_depth c) = Base m (c_path c) /\ (2 <= c_depth c)%nat /\
    c_base c <> "" /\ IsOld m (c_base c) = false) cs;
  gc_size : forall sd, Z.of_nat (size (sets0 sd)) < maxProbe;
}.

Section files.
Context {R S X : Type} `{Env}.
Abbreviation W := (World R S).
Variable deps : RepairDeps R S.

(** What a name stands for on a side; [ok] are the names that can be told
    apart. *)
Variable look : W -> side -> string -> option X.
Variable ok : string -> Prop.

Abbreviation m := (rd_Matcher deps).
Abbreviation depth p := (snd (Base m p)).

(** The callbacks: a rename that succeeds moves the thing and nothing else, one
    that fails changes nothing, and the journal is apart. *)
Record RepairView : Prop := {
  rv_moves : forall c target w w', ok (c_path c) -> ok target -> c_path c <> target ->
    is_Some (look w (c_side c) (c_path c)) -> rename_side deps c target w = (Ok tt, w') ->
    look w' (c_side c) target = look w (c_side c) (c_path c) /\
    look w' (c_side c) (c_path c) = None /\
    (forall q, ok q -> q <> target -> q <> c_path c -> look w' (c_side c) q = look w (c_side c) q) /\
    (forall sd q, sd <> c_side c -> look w' sd q = look w sd q);
  rv_fails : forall c target w e w', rename_side deps c target w = (Err e, w') ->
    forall sd q, look w' sd q = look w sd q;
  rv_entry : forall c target w sd q, look (snd (carry_entry deps c target w)) sd q = look w sd q;
  rv_quiet : forall w w', same_data w w' -> forall sd q, look w' sd q = look w sd q;
}.

(** Where the things of the start are: [r] gives the present name of each
    listed one. *)
Record renamed (sets0 : path_sets) (w0 : W) (fin : list candidate) (sets : path_sets) (w : W)
    (r : side -> string -> string) : Prop := {
  rn_inj : forall sd p q, p ∈ sets0 sd -> q ∈ sets0 sd -> r sd p = r sd q -> p = q;
  rn_sets : forall sd q, q ∈ sets sd <-> exists p, p ∈ sets0 sd /\ q = r sd p;
  rn_size : forall sd, size (sets sd) = size (sets0 sd);
  rn_same : forall sd p, p ∈ sets0 sd -> r sd p = p \/
    ((2 <= depth p)%nat /\ fst (Base m p) ∈ sets0 sd /\ Base m (r sd p) = (fst (Base m p), 1%nat) /\ ok (r sd p));
  rn_todo : forall sd p, p ∈ sets0 sd -> p ∉ done_on sd fin -> r sd p = p;
  rn_look : forall sd p, p ∈ sets0 sd -> look w sd (r sd p) = look w0 sd p;
  rn_left : forall sd q, q ∈ sets0 sd -> q ∉ sets sd -> look w sd q = None;
  rn_rest : forall sd q, ok q -> q ∉ sets0 sd -> q ∉ sets sd -> look w sd q = look w0 sd q;
}.

Lemma renamed_start sets0 w0 : renamed sets0 w0 [] sets0 w0 (fun _ p => p).
Proof.
  constructor; auto; [|done]. intros sd q. split; [by exists q|by intros (p & ? & ->)].
Qed.

Lemma renamed_look sets0 w0 fin sets w w' r :
  (forall sd q, look w' sd q = look w sd q) -> renamed sets0 w0 fin sets w r ->
  renamed sets0 w0 fin sets w' r.
Proof.
  intros E [H1 H2 H3 H4 H5 H6 H7 H8]. constructor; try done; intros; rewrite E; auto.
Qed.

Lemma renamed_skip sets0 w0 fin sets w r c :
  renamed sets0 w0 fin sets w r -> renamed sets0 w0 (c :: fin) sets w r.
Proof.
  intros [H1 H2 H3 H4 H5 H6 H7 H8]. constructor; try done.
  intros sd p Hp Hd. apply H5; [done|]. intros (c' & ? & ? & ?)%elem_of_done. apply Hd, elem_of_done.
  exists c'. split; [by right|done].
Qed.

(** The new name of one thing. *)
Definition rename_to (c : candidate) (target : string) (r : side -> string -> string) :
    side -> string -> string :=
  fun sd p => if decide (sd = c_side c /\ p = c_path c) then target else r sd p.

Lemma rename_to_hit c target r : rename_to c target r (c_side c) (c_path c) = target.
Proof. unfold rename_to. by rewrite decide_True. Qed.

Lemma rename_to_miss c target r sd p :
  (sd = c_side c -> p <> c_path c) -> rename_to c target r sd p = r sd p.
Proof. intros Hne. unfold rename_to. rewrite decide_False; [done|]. intros [-> ->]. by apply Hne. Qed.

(** The sides the candidate is not of. *)
Lemma move_name_other c target (sets : path_sets) sd :
  sd <> c_side c -> move_name c target sets sd = sets sd.
Proof. intros Hne. unfold move_name, update_set. by rewrite decide_False. Qed.

Lemma move_name_side c target (sets : path_sets) :
  move_name c target sets (c_side c) = {[target]} ∪ (sets (c_side c) ∖ {[c_path c]}).
Proof. unfold move_name, update_set. by rewrite decide_True. Qed.

(** The names after one more thing has its new name. *)
Lemma renamed_names sets0 w0 fin sets w r c target :
  renamed sets0 w0 fin sets w r -> c_path c ∈ sets0 (c_side c) -> r (c_side c) (c_path c) = c_path c ->
  target ∉ sets (c_side c) ->
  (forall sd p q, p ∈ sets0 sd -> q ∈ sets0 sd ->
     rename_to c target r sd p = rename_to c target r sd q -> p = q) /\
  (forall sd q, q ∈ move_name c target sets sd <-> exists p, p ∈ sets0 sd /\ q = rename_to c target r sd p) /\
  (forall sd, size (move_name c target sets sd) = size (sets0 sd)).
Proof.
  intros [H1 H2 H3 H4 H5 H6 H7 H8] Hp Hr Ht.
  assert (forall p, p ∈ sets0 (c_side c) -> r (c_side c) p <> target) as Hnt.
  { intros p Hp' E. apply Ht, H2. by exists p. }
  assert (c_path c ∈ sets (c_side c)) as Hps by (apply H2; by exists (c_path c)).
  split; [|split].
  - intros sd p q Hpp Hqq. unfold rename_to.
    destruct (decide (sd = c_side c /\ p = c_path c)) as [[-> ->]|N1],
      (decide (_ /\ q = c_path c)) as [[E ->]|N2]; try done.
    + intros E. by destruct (Hnt q Hqq).
    + subst sd. intros E. by destruct (Hnt p Hpp).
    + by apply H1.
  - intros sd q. destruct (decide (sd = c_side c)) as [->|Hne].
    + rewrite move_name_side, elem_of_union, elem_of_singleton, elem_of_difference, elem_of_singleton, H2. split.
      * intros [->|[(p & Hpp & ->) Hq]].
        -- exists (c_path c). by rewrite rename_to_hit.
        -- exists p. split; [done|]. rewrite rename_to_miss; [done|]. intros _ ->. by rewrite Hr in Hq.
      * intros (p & Hpp & ->). destruct (decide (p = c_path c)) as [->|Hne].
        -- left. apply rename_to_hit.
        -- right. rewrite rename_to_miss by done. split; [by exists p|]. intros E. apply Hne.
           apply (H1 (c_side c)); [done..|]. by rewrite E, Hr.
    + rewrite move_name_other, H2 by done.
      split; intros (p & Hpp & ->); exists p; (split; [done|]); by rewrite rename_to_miss.
  - intros sd. rewrite <- (H3 sd). destruct (decide (sd = c_side c)) as [->|Hne];
      [rewrite move_name_side|by rewrite move_name_other].
    rewrite size_union by set_solver. rewrite size_singleton, size_difference by set_solver.
    rewrite size_singleton. pose proof (size_non_empty_iff (sets (c_side c))) as Hn.
    assert (size (sets (c_side c)) <> 0%nat) by (apply Hn; set_solver). lia.
Qed.

(** One rename that succeeded. *)
Lemma renamed_step sets0 w0 fin sets w w1 r c target :
  RepairView -> (forall sd p, p ∈ sets0 sd -> ok p /\ is_Some (look w0 sd p)) ->
  renamed sets0 w0 fin sets w r -> c_path c ∈ sets0 (c_side c) -> c_path c ∉ done_on (c_side c) fin ->
  (2 <= depth (c_path c))%nat -> fst (Base m (c_path c)) ∈ sets0 (c_side c) ->
  target ∉ sets (c_side c) -> Base m target = (fst (Base m (c_path c)), 1%nat) -> ok target ->
  rename_side deps c target w = (Ok tt, w1) ->
  renamed sets0 w0 (c :: fin) (move_name c target sets) w1 (rename_to c target r).
Proof.
  intros V Hlisted Hrn Hp Hfin Hdep Hbase Ht Hbt Hok Hren.
  pose proof (rn_todo _ _ _ _ _ _ Hrn (c_side c) (c_path c) Hp Hfin) as Hr.
  destruct (renamed_names _ _ _ _ _ _ c target Hrn Hp Hr Ht) as (N1 & N2 & N3).
  destruct Hrn as [H1 H2 H3 H4 H5 H6 H7 H8].
  assert (c_path c ∈ sets (c_side c)) as Hps by (apply H2; by exists (c_path c)).
  assert (c_path c <> target) as Hne by (by intros E; rewrite E in Hps).
  destruct (Hlisted _ _ Hp) as [Hokp Hsome].
  pose proof (H6 _ _ Hp) as Hlp. rewrite Hr in Hlp.
  destruct (rv_moves V c target w w1 Hokp Hok Hne) as (L1 & L2 & L3 & L4); [by rewrite Hlp|done|].
  assert (forall sd p, p ∈ sets0 sd -> ok (r sd p)) as Hokr.
  { intros sd p Hp'. destruct (H4 sd p Hp') as [->|(_ & _ & _ & ?)]; [by apply (Hlisted sd)|done]. }
  constructor; [exact N1|exact N2|exact N3| | | | |].
  - intros sd p Hp'. destruct (decide (sd = c_side c /\ p = c_path c)) as [[-> ->]|Hmiss].
    + right. by rewrite rename_to_hit.
    + rewrite rename_to_miss; [by apply H4|]. intros -> ->. by apply Hmiss.
  - intros sd p Hp' Hd. rewrite rename_to_miss.
    + apply H5; [done|]. intros (c' & ? & ? & ?)%elem_of_done. apply Hd, elem_of_done.
      exists c'. split; [by right|done].
    + intros -> ->. apply Hd, elem_of_done. exists c. split; [by left|done].
  - intros sd p Hp'. destruct (decide (sd = c_side c)) as [->|Hs]; [|by rewrite L4, rename_to_miss by done; apply H6].
    destruct (decide (p = c_path c)) as [->|Hq]; [by rewrite rename_to_hit, L1|].
    rewrite rename_to_miss by done. rewrite L3; [by apply H6|by apply Hokr| |].
    + intros E. apply Ht, H2. by exists p.
    + intros E. apply Hq. apply (H1 (c_side c)); [done..|]. by rewrite E, Hr.
  - intros sd q Hq Hnq. destruct (decide (sd = c_side c)) as [->|Hs].
    + rewrite move_name_side in Hnq. destruct (decide (q = c_path c)) as [->|Hqc]; [done|].
      rewrite L3; [apply H7; [done|set_solver]|by apply (Hlisted (c_side c))|set_solver|done].
    + rewrite L4 by done. rewrite move_name_other in Hnq by done. by apply H7.
  - intros sd q Hq Hq0 Hnq. destruct (decide (sd = c_side c)) as [->|Hs].
    + rewrite move_name_side in Hnq. assert (q <> c_path c) by (by intros ->).
      rewrite L3; [apply H8; [done|done|set_solver]|done|set_solver|done].
    + rewrite L4 by done. rewrite move_name_other in Hnq by done. by apply H8.
Qed.

Context (sets0 : path_sets) (w0 : W).
Context (view : RepairView) (good : good_matcher m).
Context (ok_Format : forall b n, ok b -> 1 <= n -> ok (Format m b n)).
Context (listed : forall sd p, p ∈ sets0 sd -> ok p /\ is_Some (look w0 sd p)).

Lemma repairOne_renamed fin sets w r c :
  renamed sets0 w0 fin sets w r -> good_candidates m sets0 (c :: fin) ->
  let target := target_of m c sets in
  let '(res, sets1, w1) := repairOne deps c target sets w in
  exists r', renamed sets0 w0 (c :: fin) sets1 w1 r' /\
    (forall sd p, p ∈ done_on sd fin -> r' sd p = r sd p) /\
    (res = Ok tt -> r' (c_side c) (c_path c) = target /\ Base m target = (c_base c, 1%nat)).
Proof.
  intros Hrn [G1 G2 G3] target.
  apply Forall_cons in G2 as [(Gp & Gb & Ge & Gd & Gne & Go) G2].
  assert (c_path c ∉ done_on (c_side c) fin) as Hfin.
  { intros (c' & Hc' & Es & Ep)%elem_of_done. apply NoDup_cons in G1 as [Gn _]. apply Gn.
    apply list_elem_of_fmap. exists c'. by rewrite Es, Ep. }
  destruct (target_fresh m c sets good Gne Go) as [Ht Hbt];
    [rewrite (rn_size _ _ _ _ _ _ Hrn); apply G3|]. fold target in Ht, Hbt.
  assert (ok target) as Hok by (apply ok_Format; [by apply (listed (c_side c))|apply NextOldN_pos]).
  unfold repairOne, st_bind. destruct (rename_side deps c target w) as [[[]|e] w1] eqn:Eren.
  - assert (renamed sets0 w0 (c :: fin) (move_name c target sets) w1 (rename_to c target r)) as Hrn1.
    { rewrite (surjective_pairing (Base m (c_path c))) in Ge. injection Ge as Eb Ed.
      eapply renamed_step; try done; rewrite <- ?Eb, <- ?Ed; done. }
    pose proof (rv_entry view c target w1) as Hentry.
    assert (forall sd p, p ∈ done_on sd fin -> rename_to c target r sd p = r sd p) as Hag.
    { intros sd p Hd. apply rename_to_miss. by intros -> ->. }
    destruct (carry_entry deps c target w1) as [[[]|e] w2]; cbn [snd] in Hentry.
    + set (a := Auditor_Log _ _). pose proof (quiet_Auditor_Log (rd_Auditor deps)
        (mkStoreAudit 0 "conflict_repair" (c_path c) "" "" target 0 "" false "") w2) as Hq. fold a in Hq.
      destruct (a w2) as [x w3]. cbn [snd] in Hq. exists (rename_to c target r). split; [|split; [done|]].
      * eapply renamed_look; [|exact Hrn1]. intros sd q. by rewrite (rv_quiet view _ _ Hq), Hentry.
      * intros _. by rewrite rename_to_hit.
    + exists (rename_to c target r). split; [|split; [done|done]]. by eapply renamed_look.
  - exists r. split; [|split; [done|done]]. apply renamed_skip. eapply renamed_look; [|exact Hrn].
    exact (rv_fails view _ _ _ _ _ Eren).
Qed.

(** A link of the report names the thing it moved. *)
Definition good_link (r : side -> string -> string) (l : RepairedLink) : Prop :=
  OldPath l ∈ sets0 (Side l) /\ r (Side l) (OldPath l) = NewPath l /\ depth (NewPath l) = 1%nat.

Lemma repair_loop_renamed fin cs sets w r :
  rd_DryRun deps = false -> renamed sets0 w0 fin sets w r -> good_candidates m sets0 (fin ++ cs) ->
  let '(links, sets', w') := repair_loop deps cs sets w in
  exists r', renamed sets0 w0 (rev cs ++ fin) sets' w' r' /\
    (forall sd p, p ∈ done_on sd fin -> r' sd p = r sd p) /\
    Forall (good_link r') links /\ (length links <= length cs)%nat /\
    (length links = length cs -> Forall (fun c => depth (r' (c_side c) (c_path c)) = 1%nat) cs).
Proof.
  intros Hdry. revert fin sets w r. induction cs as [|c cs IH]; intros fin sets w r Hrn Hgc.
  { cbn [repair_loop st_ret rev app]. exists r. by split_and!. }
  cbn [repair_loop rev]. rewrite Hdry. unfold st_bind.
  assert (good_candidates m sets0 ((c :: fin) ++ cs)) as Hgc1.
  { destruct Hgc as [G1 G2 G3]. constructor; [|by rewrite <- Permutation_middle in G2|done].
    by rewrite <- Permutation_middle in G1. }
  assert (good_candidates m sets0 (c :: fin)) as Hgc2.
  { destruct Hgc1 as [G1 G2 G3]. rewrite map_app in G1. apply NoDup_app in G1 as [G1 _].
    apply Forall_app in G2 as [G2 _]. by constructor. }
  pose proof (repairOne_renamed fin sets w r c Hrn Hgc2) as Hone. cbv zeta in Hone.
  destruct (repairOne deps c (target_of m c sets) sets w) as [[res sets1] w1].
  destruct Hone as (r1 & Hrn1 & Hag1 & Hres). cbn [fst snd].
  specialize (IH (c :: fin) sets1 w1 r1 Hrn1 Hgc1).
  destruct (repair_loop deps cs sets1 w1) as [[links sets2] w2].
  destruct IH as (r2 & Hrn2 & Hag2 & Hl & Hlen & Hall). cbn [fst snd st_ret].
  exists r2. rewrite <- app_assoc. cbn [app]. split; [exact Hrn2|].
  assert (forall sd p, p ∈ done_on sd fin -> p ∈ done_on sd (c :: fin)) as Hmono.
  { intros sd p (c' & ? & ? & ?)%elem_of_done. apply elem_of_done. exists c'. split; [by right|done]. }
  split; [intros sd p Hd; rewrite Hag2 by auto; auto|].
  assert (r2 (c_side c) (c_path c) = r1 (c_side c) (c_path c)) as Hc.
  { apply Hag2, elem_of_done. exists c. split; [by left|done]. }
  destruct res as [[]|e].
  - destruct (Hres eq_refl) as [Et Hb]. rewrite Et in Hc. split; [|split].
    + constructor; [|done]. destruct Hgc2 as [_ G2 _]. apply Forall_cons in G2 as [(Gp & _) _].
      unfold good_link. cbn [OldPath NewPath Side]. by rewrite Hb.
    + cbn [length]. lia.
    + intros E. constructor; [by rewrite Hc, Hb|]. apply Hall. cbn [length] in E. lia.
  - split; [done|]. split; [cbn [length]; lia|]. intros E. cbn [length] in E. lia.
Qed.

End files.

(** *** From the candidates to the invariant *)

Lemma strips_nonempty m p b : strips m p b -> b <> "".
Proof.
  intros [n Hn]. unfold TrimOne in Hn. repeat (destruct_match_in Hn; try done).
  injection Hn as <- _. by apply String.eqb_neq.
Qed.

Lemma nsteps_strips_nonempty m k p b : nsteps (strips m) k p b -> (0 < k)%nat -> b <> "".
Proof.
  intros Hs. induction Hs as [|k p q b Hq Hs IH]; [lia|]. intros _.
  destruct k as [|k]; [|apply IH; lia]. inversion Hs; subst. by eapply strips_nonempty.
Qed.

Lemma findCandidates_good m sets ls rs :
  ls ≡ₚ elements (sets SLocal) -> rs ≡ₚ elements (sets SRemote) ->
  (forall sd, Z.of_nat (size (sets sd)) < maxProbe) ->
  (forall sd p, p ∈ sets sd -> (snd (Base m p) < maxDepth)%nat) ->
  good_candidates m sets (findCandidates m sets ls rs).
Proof.
  intros Hls Hrs Hsize Hdepth.
  assert (forall c, c ∈ findCandidates m sets ls rs ->
    c_path c ∈ sets (c_side c) /\ candidate_of m (c_side c) sets (c_path c) = Some c) as Hc.
  { intros c [[Hin E]|[Hin E]]%elem_of_findCandidates;
      destruct (candidate_of_spec _ _ _ _ _ E) as (_ & -> & _);
      rewrite ?Hls, ?Hrs in Hin; apply elem_of_elements in Hin; done. }
  constructor; [| |done].
  - unfold findCandidates. rewrite merge_sort_Permutation.
    assert (forall sd l, NoDup l -> NoDup (map (fun c => (c_path c, c_side c)) (omap (candidate_of m sd sets) l))) as Hnd.
    { intros sd l. induction 1 as [|p l Hp Hl IH]; [constructor|].
      change (omap (candidate_of m sd sets) (p :: l)) with
        (match candidate_of m sd sets p with
         | Some c => c :: omap (candidate_of m sd sets) l | None => omap (candidate_of m sd sets) l end).
      destruct (candidate_of m sd sets p) as [c|] eqn:E; [|done]. constructor; [|done].
      intros (c' & [= Ep _] & (p' & Hp' & E')%list_elem_of_omap)%list_elem_of_fmap.
      apply candidate_of_spec in E as (Ec & _). apply candidate_of_spec in E' as (Ec' & _). congruence. }
    rewrite map_app. apply NoDup_app. split; [|split].
    + apply Hnd. rewrite Hls. apply NoDup_elements.
    + intros x (c & -> & (p & _ & E)%list_elem_of_omap)%list_elem_of_fmap
        (c' & [= _ Es] & (p' & _ & E')%list_elem_of_omap)%list_elem_of_fmap.
      apply candidate_of_spec in E as (_ & E & _). apply candidate_of_spec in E' as (_ & E' & _). congruence.
    + apply Hnd. rewrite Hrs. apply NoDup_elements.
  - apply Forall_forall. intros c Hin. destruct (Hc c Hin) as [Hp E].
    destruct (candidate_of_spec _ _ _ _ _ E) as (_ & _ & Eb & Hd & Hbase).
    destruct (Base_spec m (c_path c)) as (Hs & _ & Ho). rewrite <- Eb in Hs, Ho. cbn [fst snd] in Hs, Ho.
    split_and!; try done.
    + eapply nsteps_strips_nonempty; [exact Hs|lia].
    + apply Ho. specialize (Hdepth _ _ Hp). by rewrite <- Eb in Hdepth.
Qed.



(** *** A whole pass *)

(** What a pass over the names [sets] did: [r] gives each thing its present
    name. *)
Record repaired {W X : Type} (m : Matcher) (look : W -> side -> string -> option X) (ok : string -> Prop)
    (sets : path_sets) (w w' : W) (links : list RepairedLink) (r : side -> string -> string) : Prop := {
  rp_inj : forall sd p q, p ∈ sets sd -> q ∈ sets sd -> r sd p = r sd q -> p = q;
  rp_kept : forall sd p, p ∈ sets sd -> look w' sd (r sd p) = look w sd p;
  rp_name : forall sd p, p ∈ sets sd -> r sd p = p \/
    ((2 <= snd (Base m p))%nat /\ fst (Base m p) ∈ sets sd /\ Base m (r sd p) = (fst (Base m p), 1%nat));
  rp_left : forall sd q, q ∈ sets sd -> (forall p, p ∈ sets sd -> r sd p <> q) -> look w' sd q = None;
  rp_rest : forall sd q, ok q -> q ∉ sets sd -> (forall p, p ∈ sets sd -> r sd p <> q) ->
    look w' sd q = look w sd q;
  rp_links : forall l, l ∈ links -> OldPath l ∈ sets (Side l) /\ r (Side l) (OldPath l) = NewPath l /\
    snd (Base m (NewPath l)) = 1%nat;
}.

(** No nested name is left above a base that is there. *)
Definition flat (m : Matcher) (sets : path_sets) (r : side -> string -> string) : Prop :=
  forall sd p q, p ∈ sets sd -> q ∈ sets sd -> (2 <= snd (Base m (r sd p)))%nat ->
    fst (Base m (r sd p)) <> r sd q.

Section pass.
Context {R S X : Type} `{Env}.
Abbreviation W := (World R S).
Variable deps : RepairDeps R S.
Variable look : W -> side -> string -> option X.
Variable ok : string -> Prop.
Abbreviation m := (rd_Matcher deps).

Lemma RepairChains_repaired locals remotes (w w' : W) report :
  let sets := sets_of locals remotes in
  RepairView deps look ok -> good_matcher m -> (forall b n, ok b -> 1 <= n -> ok (Format m b n)) ->
  (forall sd p, p ∈ sets sd -> ok p /\ is_Some (look w sd p)) ->
  (forall sd, Z.of_nat (size (sets sd)) < maxProbe) ->
  (forall sd p, p ∈ sets sd -> (snd (Base m p) < maxDepth)%nat) ->
  rd_DryRun deps = false -> RepairChains deps locals remotes w = (Ok report, w') ->
  exists r, repaired m look ok sets w w' (Links report) r /\
    Z.of_nat (length (Links report)) <= Scanned report /\
    (Z.of_nat (length (Links report)) = Scanned report -> flat m sets r).
Proof.
  intros sets view good okF listed Hsize Hdepth Hdry Hrun. unfold RepairChains in Hrun. fold sets in Hrun.
  apply st_bind_inv in Hrun as (ls & w1 & Hls & Hrun). apply st_bind_inv in Hrun as (rs & w2 & Hrs & Hrun).
  assert (ls ≡ₚ elements (sets SLocal) /\ same_data w w1) as [Pl D1]
    by (injection Hls as <- <-; split; [apply env_order_perm|done]).
  assert (rs ≡ₚ elements (sets SRemote) /\ same_data w1 w2) as [Pr D2]
    by (injection Hrs as <- <-; split; [apply env_order_perm|done]).
  pose proof (findCandidates_good m sets ls rs Pl Pr Hsize Hdepth) as Hgc.
  set (cs := findCandidates m sets ls rs) in *.
  assert (forall sd q, look w2 sd q = look w sd q) as E2
    by (intros; apply (rv_quiet _ _ _ view); by etrans).
  pose proof (repair_loop_renamed deps look ok sets w view good okF listed [] cs sets w2 _ Hdry
    (renamed_look deps look ok sets w [] sets w w2 _ E2 (renamed_start deps look ok sets w)) Hgc) as Hloop.
  unfold st_bind in Hrun. destruct (repair_loop deps cs sets w2) as [[links sets'] w3].
  injection Hrun as <- <-. cbn [Links Scanned fst].
  destruct Hloop as (r & [N1 N2 N3 N4 N5 N6 N7 N8] & _ & Hlinks & Hlen & Hall). exists r. split; [|split; [lia|]].
  - constructor; [done|done| | | |].
    + intros sd p Hp. destruct (N4 sd p Hp) as [?|(? & ? & ? & _)]; [by left|by right].
    + intros sd q Hq Hno. apply N7; [done|]. by intros (p & Hp & ->)%N2; apply (Hno p Hp).
    + intros sd q Hok Hq Hno. apply N8; [done|done|]. by intros (p & Hp & ->)%N2; apply (Hno p Hp).
    + by apply Forall_forall.
  - intros Elen. apply Nat2Z.inj in Elen. specialize (Hall Elen).
    intros sd p q Hp Hq Hp2 E.
    destruct (N4 sd p Hp) as [Ep|(_ & _ & Eb & _)]; [|rewrite Eb in Hp2; cbn in Hp2; lia].
    rewrite Ep in Hp2, E.
    assert (Base m (fst (Base m p)) = (fst (Base m p), 0%nat)) as Eb.
    { apply Base_not_old. apply Base_spec. by apply (Hdepth sd). }
    assert (fst (Base m p) ∈ sets sd) as Hb.
    { destruct (N4 sd q Hq) as [Eq|(_ & _ & Eq & _)]; [by rewrite E, Eq|]. rewrite <- E, Eb in Eq. done. }
    destruct (candidate_of_complete m sd sets p Hp2 Hb) as [c Hc].
    destruct (candidate_of_spec _ _ _ _ _ Hc) as (Ec & Es & _).
    assert (c ∈ cs) as Hin.
    { apply elem_of_findCandidates. rewrite Ec.
      destruct sd; [left|right]; (split; [|done]); rewrite ?Pl, ?Pr; by apply elem_of_elements. }
    apply (proj1 (Forall_forall _ _) Hall) in Hin. rewrite Ec, Es, Ep in Hin. lia.
Qed.

End pass.

(** ** Properties *)

Definition demo_repair (dry : bool) : RepairDeps MemFS (JournalStore MemBolt) :=
  mkRepairDeps default_matcher (fun _ _ => st_ret (Ok tt)) (fun p q => st_ret (Ok tt))
    (fun p => on_store (Get p)) (fun p => on_store (Delete p)) (fun e => on_store (Put e)) true dry.

Definition demo_chain : list string := ["f"; "f.old.1"; "f.old.1.old.1"; "f.old.2.old.1.old.3"].

(** A dry-run repair reports the same links and changes nothing. *)
Theorem RepairChains_dry_run {R S} `{Env} (deps : RepairDeps R S) locals remotes (w : World R S) :
  rd_DryRun deps = true -> same_data w (snd (RepairChains deps locals remotes w)).
Proof.
  intros Hd. enough (quiet (RepairChains deps locals remotes)) as Hq by apply Hq.
  unfold RepairChains. apply quiet_bind; [apply quiet_ranged|intros ls].
  apply quiet_bind; [apply quiet_ranged|intros rs].
  apply quiet_bind; [by apply quiet_repair_dry|intros; apply quiet_ret].
Qed.

Lemma RepairChains_dry_run_witness :
  same_data (demo_world demo_db)
    (snd (@RepairChains _ _ demo_env (demo_repair true) demo_chain [] (demo_world demo_db))).
Proof. apply (RepairChains_dry_run (H := demo_env)). reflexivity. Defined.
