(* ===== verification/BisyncJournal.v ===== *)
(** The journal as the bisync pass sees it: the [syncer.Journal] interface
    (syncer/types.go) and [bisyncJournalAdapter] (cmd/homedrive/adapters.go),
    which puts the same BoltDB journal behind it that the push and pull paths
    use through [JournalStore]. *)
From S2P Require Import Prelude.
From S2P Require Import GoStrings.
From S2P Require Import GoRuntime.
From S2P Require Import OldSuffix.
From S2P Require Import Bolt.
From S2P Require Import Journal.

(** ** The interface *)

(** [Get] returns a pointer and an error: [Ok None] is [nil, nil]. [Exists]
    only reads. *)
Class BJournal (S : Type) := {
  BGet : string -> ST S (result (option JournalEntry));
  BPut : JournalEntry -> ST S (result unit);
  BExists : S -> string -> bool;
  BDelete : string -> ST S (result unit);
  BListByPrefix : string -> ST S (result (list JournalEntry));
  BForEach : forall A, (JournalEntry -> A -> result A) -> A -> ST S (result A);
  BGetMeta : string -> ST S (result string);
  BSetMeta : string -> string -> ST S (result unit);
}.

(** ** What the bisync pass relies on

    Reads change nothing; a read that finds nothing is an error or [nil]; the
    entries and the meta bucket are separate. *)
Class BJournalLaws (S : Type) `{BJournal S} := {
  bj_view : S -> gmap string JournalEntry;
  bj_meta : S -> gmap string string;
  bj_read : S -> string -> result (option JournalEntry);
  bj_get : forall s p, BGet p s = (bj_read s p, s);
  bj_read_view : forall s p e, bj_read s p = Ok (Some e) -> bj_view s !! p = Some e;
  bj_exists : forall s p e, bj_read s p = Ok (Some e) -> BExists s p = true;
  bj_put : forall s e s', BPut e s = (Ok tt, s') ->
    bj_view s' = <[je_Path e := json_norm e]> (bj_view s) /\ bj_meta s' = bj_meta s;
  bj_put_err : forall s e err s', BPut e s = (Err err, s') -> s' = s;
  bj_delete : forall s p s', BDelete p s = (Ok tt, s') ->
    bj_view s' = delete p (bj_view s) /\ bj_meta s' = bj_meta s;
  bj_delete_err : forall s p err s', BDelete p s = (Err err, s') -> s' = s;
  bj_list : forall s p, snd (BListByPrefix p s) = s;
  bj_each : forall A fn (a : A) s, snd (BForEach A fn a s) = s;
  bj_get_meta : forall s k, snd (BGetMeta k s) = s;
  bj_meta_value : forall s k v, fst (BGetMeta k s) = Ok v -> v = option_get "" (bj_meta s !! k);
  bj_set_meta : forall s k v s', BSetMeta k v s = (Ok tt, s') ->
    bj_meta s' = <[k := v]> (bj_meta s) /\ bj_view s' = bj_view s;
  bj_set_meta_err : forall s k v err s', BSetMeta k v s = (Err err, s') -> s' = s;
}.

(** ** The adapter *)

Section adapter.
Context {DB : Type} `{Bolt DB}.

(** Any error, "not found" included, goes with a nil entry. *)
Definition bisyncJournalAdapter_Get (path : string) :
    ST (JournalStore DB) (result (option JournalEntry)) :=
  of_J (fun db => match Journal_Get path db with Err e => Err e | Ok e => Ok (Some e) end).

#[export] Instance bisyncJournalAdapter : BJournal (JournalStore DB) := {
  BGet := bisyncJournalAdapter_Get;
  BPut := fun e => on_J (Journal_Put e);
  BExists := fun s p => Journal_Exists (js_J s) p;
  BDelete := fun p => on_J (Journal_Delete p);
  BListByPrefix := fun p => of_J (Journal_ListByPrefix p);
  BForEach := fun A fn a => of_J (Journal_ForEach fn a);
  BGetMeta := fun k => of_J (Journal_GetMeta k);
  BSetMeta := fun k v => on_J (Journal_SetMeta k v);
}.

#[export] Instance bisyncJournalAdapter_laws `{!BoltLaws DB} : BJournalLaws (JournalStore DB).
Proof.
  refine {|
    bj_view := fun s => dbj (js_J s);
    bj_meta := fun s => db_view BMeta (js_J s);
    bj_read := fun s p => fst (bisyncJournalAdapter_Get p s) |}; cbn.
  - done.
  - intros s p e. unfold bisyncJournalAdapter_Get, of_J. cbn.
    pose proof (Journal_Get_spec p (js_J s) _ eq_refl) as Hg.
    by destruct (Journal_Get p (js_J s)); intros [= <-].
  - intros s p e. unfold bisyncJournalAdapter_Get, of_J, Journal_Get, Journal_Exists, bolt_View. cbn.
    destruct (bolt_begin _) as [tx|]; [|done]. cbn [result_bind]. by destruct (tx_get Bolt.BJournal tx p).
  - intros s e s' (db & Hp & ->)%on_J_Ok. cbn. by apply Journal_Put_Ok in Hp.
  - intros s e err s'. apply on_J_Err. intros db'. apply Journal_Put_Err.
  - intros s p s' (db & Hp & ->)%on_J_Ok. cbn. by apply Journal_Delete_Ok in Hp.
  - intros s p err s'. apply on_J_Err. intros db'. apply bolt_Update_Err.
  - done.
  - done.
  - done.
  - intros s k v. apply Journal_GetMeta_Ok.
  - intros s k v s' (db & Hp & ->)%on_J_Ok. cbn. by apply Journal_SetMeta_Ok in Hp.
  - intros s k v err s'. apply on_J_Err. intros db'. apply bolt_Update_Err.
Defined.

End adapter.
