(* ===== verification/Bisync.v ===== *)
(** [internal/syncer/bisync.go] and [bisync_ops.go]: the periodic safety net --
    a diff of the local tree against the remote listing, the repair of what
    differs, the retention of conflict losers and the one-time chain repair. *)
From S2P Require Import Prelude.
From S2P Require Import GoStrings.
From S2P Require Import GoRuntime.
From S2P Require Import OldSuffix.
From S2P Require Import GoPath.
From S2P Require Import LocalFS.
From S2P Require Import Remote.
From S2P Require Import MemFS.
From S2P Require Import Bolt.
From S2P Require Import Journal.
From S2P Require Import World.
From S2P Require Import AuditLog.
From S2P Require Import Prune.
From S2P Require Import Push.
From S2P Require Import PullConflict.
From S2P Require Import Repair.
From S2P Require Import BisyncJournal.

(** ** Definitions *)

Record BisyncConfig := mkBisyncConfig {
  bc_Interval : Duration;
  bc_LocalRoot : string;
  bc_DryRun : bool;
  bc_Matcher : Matcher;
  bc_Retention : RetentionPolicy;
  bc_SweepInterval : Duration;
  bc_RepairChains : bool;
}.

(** The fixed part of [Bisync]; [b_mqtt] is [None] where the publisher is nil,
    the two flags are false where the writers are nil. *)
Record Bisync := mkBisync {
  b_cfg : BisyncConfig;
  b_mqtt : option (list string -> string);
  b_audit : bool;
  b_auditor : bool;
}.

(** The part a pass changes. [bs_force] is whether the one-slot [forceCh]
    holds a signal. *)
Record BisyncState := mkBisyncState {
  bs_running : bool;
  bs_lastSweep : Time;
  bs_pendingPrune : gset string;
  bs_force : bool;
}.

Definition NewBisync (cfg : BisyncConfig) (matcher : option Matcher)
    (mqtt : option (list string -> string)) (audit auditor : bool) : Bisync * BisyncState :=
  (mkBisync
     (mkBisyncConfig (bc_Interval cfg) (bc_LocalRoot cfg) (bc_DryRun cfg)
        (match matcher with Some m => m | None => default_matcher end)
        (bc_Retention cfg) (bc_SweepInterval cfg) (bc_RepairChains cfg))
     mqtt audit auditor,
   mkBisyncState false 0 ∅ false).

Inductive DiffKind := DiffLocalOnly | DiffRemoteOnly | DiffConflict.

#[export] Instance DiffKind_eq_dec : EqDecision DiffKind.
Proof. solve_decision. Defined.

Record LocalFileInfo := mkLocalFileInfo { lf_Path : string; lf_Size : Z; lf_ModTime : Time }.

#[export] Instance LocalFileInfo_eq_dec : EqDecision LocalFileInfo.
Proof. solve_decision. Defined.

(** The two pointers are options. *)
Record FileDiff := mkFileDiff {
  fd_Path : string;
  fd_Kind : DiffKind;
  fd_LocalInfo : option LocalFileInfo;
  fd_RemoteInfo : option RemoteObject;
}.

#[export] Instance FileDiff_eq_dec : EqDecision FileDiff.
Proof. solve_decision. Defined.

Record BisyncEvent := mkBisyncEvent {
  be_Timestamp : Time;
  be_Type : string;
  be_DurationMs : Z;
  be_FilesChanged : Z;
  be_Conflicts : Z;
  be_DryRun : bool;
  be_Error : string;
}.

(** The JSON object of an event: the last five fields are [omitempty]. *)
Definition event_json (e : BisyncEvent) : list (string * pval) :=
  [("ts", PTime (be_Timestamp e)); ("type", PStr (be_Type e))]
  ++ (if be_DurationMs e =? 0 then [] else [("duration_ms", PInt (be_DurationMs e))])
  ++ (if be_FilesChanged e =? 0 then [] else [("files_changed", PInt (be_FilesChanged e))])
  ++ (if be_Conflicts e =? 0 then [] else [("conflicts", PInt (be_Conflicts e))])
  ++ (if be_DryRun e then [("dry_run", PBool true)] else [])
  ++ (if String.eqb (be_Error e) "" then [] else [("error", PStr (be_Error e))]).

Definition keyChainRepair : string := "old_chain_repair_v1".

(** [remoteMap] and [localMap]: later entries of a listing win. *)
Definition remote_map (l : list RemoteObject) : gmap string RemoteObject :=
  foldl (fun m r => <[ro_Path r := r]> m) ∅ l.

Definition local_map (l : list LocalFileInfo) : gmap string LocalFileInfo :=
  foldl (fun m x => <[lf_Path x := x]> m) ∅ l.

(** A nil pointer panics. *)
Definition deref {A} (o : option A) : result A :=
  match o with Some a => Ok a | None => Err panic_nil end.

(** [hasDivergence] on what the journal answered. *)
Definition divergent (read : result (option JournalEntry)) (local : LocalFileInfo)
    (remote : RemoteObject) : bool :=
  match read with
  | Ok (Some entry) =>
      let localChanged := negb (Equal (lf_ModTime local) (je_LocalMtime entry)) in
      let remoteChanged := negb (String.eqb (ro_MD5 remote) (je_RemoteMD5 entry))
                           || negb (Equal (ro_ModTime remote) (je_RemoteMtime entry)) in
      localChanged || remoteChanged
  | _ => negb (Equal (lf_ModTime local) (ro_ModTime remote))
  end.

Section bisync.
Context {R S : Type} `{RemoteFS R} `{BJournal S} `{Env}.
Abbreviation W := (World R S).

(** A pass threads its own state beside the world. *)
Definition B (A : Type) : Type := ST (W * BisyncState) A.

Variable b : Bisync.

Definition bisync_file (rel : string) : string := PathJoin (bc_LocalRoot (b_cfg b)) rel.

(** *** The diff *)

Fixpoint walk_loop (root : list string) (nodes : list (list string * node)) :
    ST W (result (list LocalFileInfo)) :=
  match nodes with
  | [] => st_ret (Ok [])
  | (k, n) :: nodes =>
      let* c := ctx_Err in
      match c with
      | Some e => st_ret (Err e)
      | None =>
          if is_file n then
            let? info := on_fs (os_Info k) ?: "stat" in
            let? files := walk_loop root nodes in
            st_ret (Ok (mkLocalFileInfo (rel_of root k) (Size info) (ModTime info) :: files))
          else walk_loop root nodes
      end
  end.

Definition walkLocal : ST W (result (list LocalFileInfo)) :=
  let root := bc_LocalRoot (b_cfg b) in
  let? files := (let? nodes := on_fs (os_WalkDir root) in walk_loop (path_key root) nodes)
                  ?: "walk local root " +:+ root in
  st_ret (Ok files).

Definition listRemote : ST W (result (list RemoteObject)) :=
  let? objects := on_remote (RemoteList "") ?: "remote list" in
  st_ret (Ok objects).

Definition hasDivergence (path : string) (local : LocalFileInfo) (remote : RemoteObject) : ST W bool :=
  let* read := on_store (BGet path) in
  st_ret (divergent read local remote).

Fixpoint diff_local_loop (locals : list (string * LocalFileInfo))
    (remoteMap : gmap string RemoteObject) : ST W (list FileDiff) :=
  match locals with
  | [] => st_ret []
  | (path, local) :: locals =>
      match remoteMap !! path with
      | None =>
          let* ds := diff_local_loop locals remoteMap in
          st_ret (mkFileDiff path DiffLocalOnly (Some local) None :: ds)
      | Some remote =>
          let* div := hasDivergence path local remote in
          let* ds := diff_local_loop locals remoteMap in
          st_ret (if div : bool then mkFileDiff path DiffConflict (Some local) (Some remote) :: ds else ds)
      end
  end.

Definition diffLocalAgainstRemote (localMap : gmap string LocalFileInfo)
    (remoteMap : gmap string RemoteObject) (diffs : list FileDiff) : ST W (list FileDiff) :=
  let* locals := ranged (map_to_list localMap) in
  let* ds := diff_local_loop locals remoteMap in
  st_ret (diffs ++ ds).

Definition remote_only (localMap : gmap string LocalFileInfo) (kv : string * RemoteObject) :
    option FileDiff :=
  match localMap !! fst kv with
  | None => Some (mkFileDiff (fst kv) DiffRemoteOnly None (Some (snd kv)))
  | Some _ => None
  end.

Definition diffRemoteAgainstLocal (localMap : gmap string LocalFileInfo)
    (remoteMap : gmap string RemoteObject) (diffs : list FileDiff) : ST W (list FileDiff) :=
  let* remotes := ranged (map_to_list remoteMap) in
  st_ret (diffs ++ omap (remote_only localMap) remotes).

Definition diff : ST W (result (list FileDiff)) :=
  let? localFiles := walkLocal ?: "walk local" in
  let? remoteFiles := listRemote ?: "list remote" in
  let remoteMap := remote_map remoteFiles in
  let localMap := local_map localFiles in
  let* diffs := diffLocalAgainstRemote localMap remoteMap [] in
  let* diffs := diffRemoteAgainstLocal localMap remoteMap diffs in
  st_ret (Ok diffs).

(** *** Sync operations *)

Definition syncLocalToRemote (d : FileDiff) : ST W (result unit) :=
  if bc_DryRun (b_cfg b) then st_ret (Ok tt)
  else
    let? obj := on_upload (CopyFile (bisync_file (fd_Path d)) (remoteDir (fd_Path d)))
                  ?: "copy " +:+ fd_Path d +:+ " to remote" in
    let? local := st_ret (deref (fd_LocalInfo d)) in
    let* t := now in
    on_store (BPut (mkJournalEntry (fd_Path d) (lf_ModTime local) (ro_ModTime obj) (ro_MD5 obj) ""
                      t "local")).

Definition syncRemoteToLocal (d : FileDiff) : ST W (result unit) :=
  if bc_DryRun (b_cfg b) then st_ret (Ok tt)
  else
    let localPath := bisync_file (fd_Path d) in
    let? _ := on_fs (os_MkdirAll (Dir localPath)) ?: "mkdir for " +:+ fd_Path d in
    let? _ := on_download (DownloadFile (fd_Path d) localPath) ?: "download " +:+ fd_Path d in
    let? remote := st_ret (deref (fd_RemoteInfo d)) in
    let* t := now in
    on_store (BPut (mkJournalEntry (fd_Path d) (ro_ModTime remote) (ro_ModTime remote)
                      (ro_MD5 remote) "" t "remote")).

(** *** Conflicts *)

Definition markForPrune (base : string) : B unit :=
  in_state (fun st => (tt,
    mkBisyncState (bs_running st) (bs_lastSweep st) ({[base]} ∪ bs_pendingPrune st) (bs_force st))).

(** [base, oldN := NextOldN(...)]; [oldPath := Format(base, oldN)]. *)
Definition old_path (path : string) (s : S) : string * string :=
  let '(base, oldN) := NextOldN (bc_Matcher (b_cfg b)) path (BExists s) in
  (base, Format (bc_Matcher (b_cfg b)) base oldN).

Definition local_wins (d : FileDiff) (oldPath : string) : ST W (result unit) :=
  let? _ := on_remote (MoveFile (fd_Path d) oldPath)
              ?: "rename remote " +:+ fd_Path d +:+ " to " +:+ oldPath in
  let? obj := on_upload (CopyFile (bisync_file (fd_Path d)) (remoteDir (fd_Path d)))
                ?: "upload " +:+ fd_Path d +:+ " after conflict" in
  let? local := st_ret (deref (fd_LocalInfo d)) in
  let* t := now in
  let? _ := on_store (BPut (mkJournalEntry (fd_Path d) (lf_ModTime local) (ro_ModTime obj)
                              (ro_MD5 obj) "" t "local")) ?: "journal put " +:+ fd_Path d in
  let? remote := st_ret (deref (fd_RemoteInfo d)) in
  let* t := now in
  let? _ := on_store (BPut (mkJournalEntry oldPath 0 (ro_ModTime remote) (ro_MD5 remote) ""
                              t "remote")) ?: "journal put " +:+ oldPath in
  st_ret (Ok tt).

Definition remote_wins (d : FileDiff) (oldPath : string) : ST W (result unit) :=
  let localPath := bisync_file (fd_Path d) in
  let? _ := on_fs (os_Rename localPath (bisync_file oldPath))
              ?: "rename local " +:+ fd_Path d +:+ " to " +:+ oldPath in
  let? _ := on_fs (os_MkdirAll (Dir localPath)) ?: "mkdir for " +:+ fd_Path d in
  let? _ := on_download (DownloadFile (fd_Path d) localPath) ?: "download " +:+ fd_Path d in
  let? remote := st_ret (deref (fd_RemoteInfo d)) in
  let* t := now in
  let? _ := on_store (BPut (mkJournalEntry (fd_Path d) (ro_ModTime remote) (ro_ModTime remote)
                              (ro_MD5 remote) "" t "remote")) ?: "journal put " +:+ fd_Path d in
  let? local := st_ret (deref (fd_LocalInfo d)) in
  let* t := now in
  let? _ := on_store (BPut (mkJournalEntry oldPath (lf_ModTime local) 0 "" "" t "local"))
              ?: "journal put " +:+ oldPath in
  st_ret (Ok tt).

(** Both resolutions name the loser first and mark its base last. *)
Definition resolve_with (body : FileDiff -> string -> ST W (result unit)) (d : FileDiff) :
    B (result unit) :=
  let* next := in_world (on_store (fun s => (old_path (fd_Path d) s, s))) in
  let? _ := in_world (body d (snd next)) in
  markForPrune (fst next) ;;
  st_ret (Ok tt).

Definition resolveLocalWins : FileDiff -> B (result unit) := resolve_with local_wins.

Definition resolveRemoteWins : FileDiff -> B (result unit) := resolve_with remote_wins.

Definition bisync_resolveConflict (d : FileDiff) : B (result unit) :=
  let? local := st_ret (deref (fd_LocalInfo d)) in
  let? remote := st_ret (deref (fd_RemoteInfo d)) in
  let localMtime := lf_ModTime local in
  let remoteMtime := ro_ModTime remote in
  if bc_DryRun (b_cfg b) then st_ret (Ok tt)
  else if After localMtime remoteMtime then resolveLocalWins d
  else if After remoteMtime localMtime then resolveRemoteWins d
  else resolveLocalWins d.

Record counts := mkCounts { pushed : Z; pulled : Z; conflicts : Z }.

(** One iteration; a failure is logged and the file counted only as the code
    counts it. *)
Definition sync_one (d : FileDiff) (n : counts) : B counts :=
  match fd_Kind d with
  | DiffLocalOnly =>
      let* r := in_world (syncLocalToRemote d) in
      st_ret (if is_ok r then mkCounts (pushed n + 1) (pulled n) (conflicts n) else n)
  | DiffRemoteOnly =>
      let* r := in_world (syncRemoteToLocal d) in
      st_ret (if is_ok r then mkCounts (pushed n) (pulled n + 1) (conflicts n) else n)
  | DiffConflict =>
      let* _ := bisync_resolveConflict d in
      st_ret (mkCounts (pushed n) (pulled n) (conflicts n + 1))
  end.

Fixpoint sync_loop (diffs : list FileDiff) (n : counts) : B counts :=
  match diffs with
  | [] => st_ret n
  | d :: diffs =>
      let* c := in_world ctx_Err in
      match c with
      | Some _ => st_ret n
      | None => let* n := sync_one d n in sync_loop diffs n
      end
  end.

Definition syncDiffs (diffs : list FileDiff) : B counts := sync_loop diffs (mkCounts 0 0 0).

(** *** Audit and events *)

(** [elapsed.Milliseconds()] of a duration since [start]. *)
Definition since_ms (start : Time) : ST W Z :=
  let* t := now in st_ret (Milliseconds (Sub t start)).

Definition writeAudit (start : Time) (n : counts) (syncErr : option error) : ST W unit :=
  if b_audit b then
    let* ms := since_ms start in
    emit (OBisyncAudit (mkBisyncAudit start "bisync" (Itoa ms) (pushed n + pulled n) (pushed n)
      (pulled n) (conflicts n) (bc_DryRun (b_cfg b))
      (match syncErr with Some e => Error e | None => "" end)))
  else st_ret tt.

Definition publishEvent (event : BisyncEvent) : ST W unit :=
  publish (b_mqtt b) ("events" :: SplitByte (be_Type event) "."%char) (event_json event).

(** *** Retention *)

Definition shouldSweep (lastSweep : Time) : ST W bool :=
  if bc_SweepInterval (b_cfg b) <=? 0 then st_ret false
  else let* t := now in st_ret (bc_SweepInterval (b_cfg b) <=? Sub t lastSweep).

Definition bisync_pruneDeps : PruneDeps R S :=
  mkPruneDeps (bc_Matcher (b_cfg b))
    (fun prefix => on_store (BListByPrefix prefix))
    (fun A fn a => on_store (BForEach A fn a))
    (fun p => on_store (BDelete p))
    (fun rel => let* r := on_fs (os_Remove (bisync_file rel)) in st_ret (gone_is_ok r))
    (fun p => let* r := on_remote (DeleteFile p) in st_ret (not_found_is_ok r))
    (b_auditor b) (b_mqtt b) (bc_DryRun (b_cfg b)).

(** A failed prune or sweep is only logged. *)
Definition bisync_pruneAfterConflict (base : string) : ST W unit :=
  PruneOldSiblings bisync_pruneDeps (bc_Retention (b_cfg b)) base ;; st_ret tt.

Definition sweepOldFiles : ST W (list string) :=
  let* r := SweepOldFiles bisync_pruneDeps (bc_Retention (b_cfg b)) in
  st_ret (match r with Ok removed => removed | Err _ => [] end).

Fixpoint prune_bases (bases : list string) : ST W unit :=
  match bases with
  | [] => st_ret tt
  | base :: bases => bisync_pruneAfterConflict base ;; prune_bases bases
  end.

(** *** Chain repair *)

Definition shouldRepairChains : ST W bool :=
  if bc_RepairChains (b_cfg b) then
    let* r := on_store (BGetMeta keyChainRepair) in
    st_ret (match r with Err _ => false | Ok val => negb (String.eqb val "done") end)
  else st_ret false.

Definition bisync_repairDeps (dryRun : bool) : RepairDeps R S :=
  mkRepairDeps (bc_Matcher (b_cfg b))
    (fun oldPath newPath => on_fs (os_Rename (bisync_file oldPath) (bisync_file newPath)))
    (fun oldPath newPath => on_remote (MoveFile oldPath newPath))
    (fun p => on_store (BGet p))
    (fun p => on_store (BDelete p))
    (fun e => on_store (BPut e))
    (b_auditor b) dryRun.

Definition runChainRepair (dryRun markDone : bool) : ST W (result Report) :=
  let? locals := walkLocal ?: "chain repair: walk local" in
  let? remotes := listRemote ?: "chain repair: list remote" in
  let? report := RepairChains (bisync_repairDeps dryRun) (map lf_Path locals) (map ro_Path remotes)
                   ?: "chain repair" in
  if dryRun || negb markDone then st_ret (Ok report)
  else
    on_store (BSetMeta keyChainRepair "done") ;;
    st_ret (Ok report).

(** [RunChainRepair], which holds the bisync lock around this. *)
Definition RunChainRepair (dryRun : bool) : ST W (result Report) :=
  runChainRepair dryRun (negb dryRun).

(** *** A pass *)

Definition set_running (v : bool) : B unit :=
  in_state (fun st => (tt,
    mkBisyncState v (bs_lastSweep st) (bs_pendingPrune st) (bs_force st))).

Definition set_lastSweep (t : Time) : B unit :=
  in_state (fun st => (tt,
    mkBisyncState (bs_running st) t (bs_pendingPrune st) (bs_force st))).

(** [range b.pendingPrune], then [b.pendingPrune = nil]. *)
Definition drain_pending : B unit :=
  let* pending := in_state (fun st => (bs_pendingPrune st, st)) in
  in_world (let* bases := ranged (elements pending) in prune_bases bases) ;;
  in_state (fun st => (tt,
    mkBisyncState (bs_running st) (bs_lastSweep st) ∅ (bs_force st))).

Definition sweep_if_due : B unit :=
  let* last := in_state (fun st => (bs_lastSweep st, st)) in
  let* due := in_world (shouldSweep last) in
  if due : bool then
    in_world sweepOldFiles ;;
    let* t := in_world now in
    set_lastSweep t
  else st_ret tt.

Definition completed (t : Time) (ms : Z) (n : counts) (err : string) : BisyncEvent :=
  mkBisyncEvent t "bisync.completed" ms (pushed n + pulled n) (conflicts n)
    (bc_DryRun (b_cfg b)) err.

(** What follows a failed diff. *)
Definition report_failure (start : Time) (err : error) : ST W unit :=
  writeAudit start (mkCounts 0 0 0) (Some err) ;;
  let* t := now in
  publishEvent (completed t 0 (mkCounts 0 0 0) (Error err)).

Definition report_success (start : Time) (n : counts) : ST W unit :=
  let* ms := since_ms start in
  writeAudit start n None ;;
  let* t := now in
  publishEvent (completed t ms n "").

(** What runs under the global write lock. *)
Definition locked_pass (start : Time) : B unit :=
  let* due := in_world shouldRepairChains in
  (if due : bool then in_world (runChainRepair (bc_DryRun (b_cfg b)) true ;; st_ret tt)
   else st_ret tt) ;;
  let* diffs := in_world diff in
  match diffs with
  | Err err => in_world (report_failure start err)
  | Ok diffs =>
      let* n := syncDiffs diffs in
      drain_pending ;;
      sweep_if_due ;;
      in_world (report_success start n)
  end.

Definition execute : B unit :=
  let* running := in_state (fun st => (bs_running st, st)) in
  if running : bool then st_ret tt
  else
    set_running true ;;
    let* start := in_world now in
    in_world (publishEvent (mkBisyncEvent start "bisync.started" 0 0 0 (bc_DryRun (b_cfg b)) "")) ;;
    locked_pass start ;;
    set_running false.

(** *** The loop and the trigger *)

(** What the [select] of [Run] woke up for. *)
Inductive wake := WakeDone | WakeTick | WakeForce.

(** [Run] over the wake-ups of a life; [None] while it is still waiting. *)
Fixpoint bisync_Run (wakes : list wake) : B (option error) :=
  match wakes with
  | [] => st_ret None
  | WakeDone :: _ => st_ret (Some (ESent ErrBisyncCanceled))
  | WakeTick :: wakes => execute ;; bisync_Run wakes
  | WakeForce :: wakes =>
      in_state (fun st => (tt,
        mkBisyncState (bs_running st) (bs_lastSweep st) (bs_pendingPrune st) false)) ;;
      execute ;;
      bisync_Run wakes
  end.

Definition ForceRun : ST BisyncState (result unit) := fun st =>
  if bs_running st then (Err (ESent ErrBisyncRunning), st)
  else if bs_force st then (Err (ESent ErrBisyncRunning), st)
  else (Ok tt, mkBisyncState (bs_running st) (bs_lastSweep st) (bs_pendingPrune st) true).

End bisync.

(** [interval := b.cfg.Interval; if interval <= 0 { interval = time.Hour }]. *)
Definition bisync_interval (cfg : BisyncConfig) : Duration :=
  if bc_Interval cfg <=? 0 then Hour else bc_Interval cfg.

(** ** Lemmas *)

(** *** The diff as a function of its inputs *)

Definition local_diff (read : string -> result (option JournalEntry))
    (remoteMap : gmap string RemoteObject) (kv : string * LocalFileInfo) : option FileDiff :=
  match remoteMap !! fst kv with
  | None => Some (mkFileDiff (fst kv) DiffLocalOnly (Some (snd kv)) None)
  | Some remote =>
      if divergent (read (fst kv)) (snd kv) remote
      then Some (mkFileDiff (fst kv) DiffConflict (Some (snd kv)) (Some remote)) else None
  end.

(** What the diff must report of a path, if anything. *)
Definition drift (read : string -> result (option JournalEntry))
    (localMap : gmap string LocalFileInfo) (remoteMap : gmap string RemoteObject) (p : string) :
    option FileDiff :=
  match localMap !! p, remoteMap !! p with
  | Some l, None => Some (mkFileDiff p DiffLocalOnly (Some l) None)
  | None, Some r => Some (mkFileDiff p DiffRemoteOnly None (Some r))
  | Some l, Some r =>
      if divergent (read p) l r then Some (mkFileDiff p DiffConflict (Some l) (Some r)) else None
  | None, None => None
  end.

Lemma NoDup_omap_key {V B K} (key : B -> K) (g : K * V -> option B) l :
  (forall kv d, g kv = Some d -> key d = fst kv) -> NoDup (map fst l) -> NoDup (map key (omap g l)).
Proof.
  intros Hg. induction l as [|kv l IH]; cbn; [constructor|].
  intros [Hn Hnd]%NoDup_cons. specialize (IH Hnd).
  destruct (g kv) as [d|] eqn:E; [|done]. cbn. constructor; [|done].
  rewrite (Hg _ _ E). intros (d' & Ed & (kv' & Hin & E')%list_elem_of_omap)%list_elem_of_fmap.
  apply Hn. rewrite Ed, (Hg _ _ E'). by apply list_elem_of_fmap_2.
Qed.

Section diff.
Context {R S : Type} `{RemoteFS R} `{BJournalLaws S} `{Env}.
Abbreviation W := (World R S).

Lemma diff_local_loop_eq ls rm (w : W) :
  diff_local_loop ls rm w = (omap (local_diff (bj_read (w_store w)) rm) ls, w).
Proof.
  induction ls as [|[p l] ls IH]; [done|]. cbn [diff_local_loop].
  change (omap ?f ((p, l) :: ls)) with
    (match f (p, l) with Some d => d :: omap f ls | None => omap f ls end).
  unfold local_diff at 1. cbn [fst snd]. destruct (rm !! p) as [r|].
  - unfold st_bind, hasDivergence, on_store. unfold st_bind. rewrite bj_get. cbn [fst snd].
    destruct w as [fs rem s t o]. cbn in *. unfold st_ret. rewrite IH. by destruct (divergent _ _ _).
  - unfold st_bind. by rewrite IH.
Qed.

Lemma elem_of_drift read lm rm ls rs d :
  ls ≡ₚ map_to_list lm -> rs ≡ₚ map_to_list rm ->
  d ∈ omap (local_diff read rm) ls ++ omap (remote_only lm) rs <->
  drift read lm rm (fd_Path d) = Some d.
Proof.
  intros Hls Hrs. rewrite elem_of_app, !list_elem_of_omap. unfold drift. split.
  - intros [([p l] & Hin & E)|([p r] & Hin & E)].
    + rewrite Hls in Hin. apply elem_of_map_to_list in Hin. unfold local_diff in E. cbn [fst snd] in E.
      destruct (rm !! p) as [r|] eqn:Er; [destruct (divergent _ _ _) eqn:Ed; [|done]|];
        injection E as <-; cbn [fd_Path]; rewrite Hin, Er; by rewrite ?Ed.
    + rewrite Hrs in Hin. apply elem_of_map_to_list in Hin. unfold remote_only in E. cbn [fst snd] in E.
      destruct (lm !! p) as [l|] eqn:El; [done|]. injection E as <-. cbn [fd_Path]. by rewrite El, Hin.
  - destruct (lm !! fd_Path d) as [l|] eqn:El.
    + intros E. left. exists (fd_Path d, l). split; [by rewrite Hls; apply elem_of_map_to_list|].
      unfold local_diff. cbn [fst snd]. by destruct (rm !! fd_Path d).
    + destruct (rm !! fd_Path d) as [r|] eqn:Er; [|done].
      intros E. right. exists (fd_Path d, r). split; [by rewrite Hrs; apply elem_of_map_to_list|].
      unfold remote_only. cbn [fst snd]. by rewrite El.
Qed.

Lemma NoDup_drift read lm rm ls rs :
  ls ≡ₚ map_to_list lm -> rs ≡ₚ map_to_list rm ->
  NoDup (map fd_Path (omap (local_diff read rm) ls ++ omap (remote_only lm) rs)).
Proof.
  intros Hls Hrs. rewrite map_app. apply NoDup_app. split; [|split].
  - apply NoDup_omap_key.
    + intros [p l] d. unfold local_diff. cbn [fst snd].
      destruct (rm !! p); [destruct (divergent _ _ _)|]; by intros [= <-].
    + rewrite Hls. apply NoDup_fst_map_to_list.
  - intros x (d & -> & ([p l] & Hin & E)%list_elem_of_omap)%list_elem_of_fmap
      (d' & Ep & ([p' r] & _ & E')%list_elem_of_omap)%list_elem_of_fmap.
    rewrite Hls in Hin. apply elem_of_map_to_list in Hin.
    assert (fd_Path d = p) as Ed.
    { unfold local_diff in E. cbn [fst snd] in E.
      destruct (rm !! p); [destruct (divergent _ _ _)|]; by simplify_eq. }
    unfold remote_only in E'. cbn [fst snd] in E'. destruct (lm !! p') eqn:El; [done|].
    injection E' as <-. cbn in Ep. congruence.
  - apply NoDup_omap_key.
    + intros [p r] d. unfold remote_only. cbn [fst snd]. destruct (lm !! p); by intros [= <-].
    + rewrite Hrs. apply NoDup_fst_map_to_list.
Qed.

End diff.

(** *** Actions that only look *)

Section quiet_bisync.
Context {R S : Type} `{RemoteFS R} `{BJournalLaws S} `{Env}.
Abbreviation W := (World R S).

Lemma quiet_BGet p : quiet (R := R) (on_store (S := S) (BGet p)).
Proof. apply quiet_store. intros s. by rewrite bj_get. Qed.

Lemma quiet_walk_loop root ns : quiet (R := R) (S := S) (walk_loop root ns).
Proof.
  induction ns as [|[k n] ns IH]; [apply quiet_ret|]. cbn [walk_loop].
  apply quiet_bind; [apply quiet_ctx|intros [e|]]; [apply quiet_ret|].
  destruct (is_file n); [|exact IH].
  apply quiet_try; [apply quiet_fs, os_Info_state|intros info].
  apply quiet_try; [exact IH|intros; apply quiet_ret].
Qed.

Lemma quiet_walkLocal b : quiet (R := R) (S := S) (walkLocal b).
Proof.
  unfold walkLocal. apply quiet_try; [|intros; apply quiet_ret].
  apply quiet_try; [apply quiet_fs, os_WalkDir_state|intros; apply quiet_walk_loop].
Qed.

Lemma quiet_since_ms t : quiet (R := R) (S := S) (since_ms t).
Proof. unfold since_ms. solve_quiet. Qed.

Lemma quiet_writeAudit b start n e : quiet (R := R) (S := S) (writeAudit b start n e).
Proof.
  unfold writeAudit. destruct (b_audit b); [|apply quiet_ret].
  apply quiet_bind; [apply quiet_since_ms|intros; apply quiet_emit].
Qed.

Lemma quiet_bisync_publishEvent b e : quiet (R := R) (S := S) (publishEvent b e).
Proof. apply quiet_publish. Qed.

Lemma quiet_report_failure b start e : quiet (R := R) (S := S) (report_failure b start e).
Proof.
  apply quiet_bind; [apply quiet_writeAudit|intros _].
  apply quiet_bind; [apply quiet_now|intros; apply quiet_bisync_publishEvent].
Qed.

Lemma quiet_report_success b start n : quiet (R := R) (S := S) (report_success b start n).
Proof.
  apply quiet_bind; [apply quiet_since_ms|intros ms].
  apply quiet_bind; [apply quiet_writeAudit|intros _].
  apply quiet_bind; [apply quiet_now|intros; apply quiet_bisync_publishEvent].
Qed.

Lemma quiet_shouldSweep b t : quiet (R := R) (S := S) (shouldSweep b t).
Proof. unfold shouldSweep. solve_quiet. Qed.

Lemma quiet_shouldRepairChains b : quiet (R := R) (S := S) (shouldRepairChains b).
Proof.
  unfold shouldRepairChains. destruct (bc_RepairChains _); [|apply quiet_ret].
  apply quiet_bind; [apply quiet_store; intros; apply bj_get_meta|intros; apply quiet_ret].
Qed.

(** The tail of [diff] after both listings. *)
Lemma diff_after_listing lm rm (w : W) :
  exists ls rs w',
    (let* diffs := diffLocalAgainstRemote lm rm [] in
     let* diffs := diffRemoteAgainstLocal lm rm diffs in st_ret (Ok diffs)) w
    = (Ok (omap (local_diff (bj_read (w_store w)) rm) ls ++ omap (remote_only lm) rs), w') /\
    ls ≡ₚ map_to_list lm /\ rs ≡ₚ map_to_list rm /\ same_data w w'.
Proof.
  unfold diffLocalAgainstRemote, diffRemoteAgainstLocal, ranged, tick, st_bind.
  rewrite diff_local_loop_eq. cbn [w_store app].
  eexists _, _, _. split; [reflexivity|]. split; [apply env_order_perm|].
  split; [apply env_order_perm|]. by unfold same_data.
Qed.

End quiet_bisync.

#[export] Hint Resolve quiet_bisync_publishEvent quiet_writeAudit : homedrive.

(** *** Everything a dry-run pass leaves alone *)

Section dry.
Context {R S : Type} `{RemoteFS R} `{BJournalLaws S} `{Env}.
Context (tree : R -> gmap string RemoteObject) `{!RemoteLaws R tree}.
Abbreviation W := (World R S).

(** Local files, remote tree and the whole store are the same. *)
Definition same_state (w w' : W) : Prop :=
  w_fs w' = w_fs w /\ tree (w_remote w') = tree (w_remote w) /\ w_store w' = w_store w.

#[export] Instance same_state_preorder : PreOrder same_state.
Proof. unfold same_state. split; [intros w|intros w w1 w2]; intuition congruence. Qed.

Lemma quiet_same_state {A} (m : ST W A) : quiet m -> preserves same_state m.
Proof. intros Hm w. destruct (Hm w) as (E1 & E2 & E3). unfold same_state. split_and!; congruence. Qed.

Lemma listRemote_same_state : preserves same_state listRemote.
Proof.
  unfold listRemote. apply preserves_try; [typeclasses eauto| |intros; apply preserves_ret; typeclasses eauto].
  intros w. unfold on_remote. pose proof (law_list "" (w_remote w)) as Hl.
  by destruct (RemoteList "" (w_remote w)).
Qed.

Lemma diff_same_state b : preserves same_state (diff b).
Proof.
  unfold diff. apply preserves_try; [typeclasses eauto|apply quiet_same_state, quiet_walkLocal|intros ls].
  apply preserves_try; [typeclasses eauto|apply listRemote_same_state|intros rs].
  apply quiet_same_state. intros w.
  destruct (diff_after_listing (local_map ls) (remote_map rs) w) as (l & r & w' & E & _ & _ & Hw).
  by rewrite E.
Qed.

Variable b : Bisync.
Hypothesis Hdry : bc_DryRun (b_cfg b) = true.

Lemma runChainRepair_dry mark : preserves same_state (runChainRepair b true mark).
Proof.
  unfold runChainRepair. cbn [orb].
  apply preserves_try; [typeclasses eauto|apply quiet_same_state, quiet_walkLocal|intros ls].
  apply preserves_try; [typeclasses eauto|apply listRemote_same_state|intros rs].
  apply quiet_same_state. apply quiet_try; [|intros; apply quiet_ret].
  unfold RepairChains. apply quiet_bind; [apply quiet_ranged|intros l1].
  apply quiet_bind; [apply quiet_ranged|intros l2].
  apply quiet_bind; [by apply quiet_repair_dry|intros; apply quiet_ret].
Qed.

(** A step of the pass that neither writes nor marks anything. *)
Definition idle {A} (m : B A) : Prop := preserves (on_fst same_state) m.

Lemma idle_world {A} (m : ST W A) : preserves same_state m -> idle (in_world m).
Proof. apply preserves_world. Qed.

Lemma idle_quiet {A} (m : ST W A) : quiet m -> idle (in_world m).
Proof. intros Hm. by apply idle_world, quiet_same_state. Qed.

Lemma idle_state {A} (m : ST BisyncState A) : idle (in_state m).
Proof. apply preserves_state. typeclasses eauto. Qed.

Lemma idle_ret {A} (a : A) : idle (st_ret a).
Proof. apply preserves_ret. typeclasses eauto. Qed.

Lemma idle_bind {A A'} (m : B A) (k : A -> B A') : idle m -> (forall a, idle (k a)) -> idle (st_bind m k).
Proof. apply preserves_bind. typeclasses eauto. Qed.

Lemma sync_one_dry d n : idle (sync_one b d n).
Proof.
  unfold sync_one, bisync_resolveConflict, syncLocalToRemote, syncRemoteToLocal. rewrite Hdry.
  destruct (fd_Kind d).
  - apply idle_bind; [apply idle_quiet, quiet_ret|intros; apply idle_ret].
  - apply idle_bind; [apply idle_quiet, quiet_ret|intros; apply idle_ret].
  - apply idle_bind; [|intros; apply idle_ret]. unfold idle.
    apply preserves_try; [typeclasses eauto|apply idle_ret|intros].
    apply preserves_try; [typeclasses eauto|apply idle_ret|intros]. apply idle_ret.
Qed.

Lemma sync_loop_dry ds n : idle (sync_loop b ds n).
Proof.
  revert n. induction ds as [|d ds IH]; intros n; [apply idle_ret|]. cbn [sync_loop].
  apply idle_bind; [apply idle_quiet, quiet_ctx|intros [c|]]; [apply idle_ret|].
  apply idle_bind; [apply sync_one_dry|intros; apply IH].
Qed.

Lemma quiet_prune_dry base : quiet (bisync_pruneAfterConflict (R := R) (S := S) b base).
Proof.
  unfold bisync_pruneAfterConflict. apply quiet_bind; [|intros; apply quiet_ret].
  apply PruneOldSiblings_dry; [exact Hdry|]. intros p. apply quiet_store. intros. apply bj_list.
Qed.

Lemma drain_pending_dry : idle (drain_pending b).
Proof.
  unfold drain_pending. apply idle_bind; [apply idle_state|intros p].
  apply idle_bind; [|intros; apply idle_state]. apply idle_quiet.
  apply quiet_bind; [apply quiet_ranged|intros bases].
  induction bases as [|x bases IH]; [apply quiet_ret|]. cbn [prune_bases].
  apply quiet_bind; [apply quiet_prune_dry|intros; exact IH].
Qed.

Lemma sweep_if_due_dry : idle (sweep_if_due b).
Proof.
  unfold sweep_if_due. apply idle_bind; [apply idle_state|intros last].
  apply idle_bind; [apply idle_quiet, quiet_shouldSweep|intros []]; [|apply idle_ret].
  apply idle_bind; [apply idle_quiet|intros; apply idle_bind; [apply idle_quiet, quiet_now|intros; apply idle_state]].
  unfold sweepOldFiles. apply quiet_bind; [|intros; apply quiet_ret].
  apply SweepOldFiles_dry; [exact Hdry|]. intros A fn a. apply quiet_store. intros. apply bj_each.
Qed.

Lemma execute_dry : idle (execute b).
Proof.
  unfold execute. apply idle_bind; [apply idle_state|intros []]; [apply idle_ret|].
  apply idle_bind; [apply idle_state|intros _].
  apply idle_bind; [apply idle_quiet, quiet_now|intros start].
  apply idle_bind; [apply idle_quiet, quiet_bisync_publishEvent|intros _].
  apply idle_bind; [|intros; apply idle_state]. unfold locked_pass. rewrite Hdry.
  apply idle_bind; [apply idle_quiet, quiet_shouldRepairChains|intros due].
  apply idle_bind; [|intros _].
  { destruct due; [|apply idle_ret]. apply idle_world.
    apply preserves_bind; [typeclasses eauto|apply runChainRepair_dry|intros; apply quiet_same_state, quiet_ret]. }
  apply idle_bind; [apply idle_world, diff_same_state|intros [ds|e]].
  - apply idle_bind; [apply sync_loop_dry|intros n].
    apply idle_bind; [apply drain_pending_dry|intros _].
    apply idle_bind; [apply sweep_if_due_dry|intros _]. apply idle_quiet, quiet_report_success.
  - apply idle_quiet, quiet_report_failure.
Qed.

End dry.

(** *** The walk *)

Section walk.
Context {R S : Type} `{Env}.
Abbreviation W := (World R S).

Definition walk_entry (root : list string) (kn : list string * node) : option LocalFileInfo :=
  match snd kn with
  | File t c => Some (mkLocalFileInfo (rel_of root (fst kn)) (Z.of_nat (strlen c)) t)
  | Folder _ => None
  end.

Lemma walk_loop_Ok root ns (w : W) files w' :
  walk_loop root ns w = (Ok files, w') ->
  (forall k n, (k, n) ∈ ns -> fs_nodes (w_fs w) !! k = Some n) -> files = omap (walk_entry root) ns.
Proof.
  revert w files w'. induction ns as [|[k n] ns IH]; intros w files w' Hw Hns; [by injection Hw as <-|].
  cbn [walk_loop] in Hw. apply st_bind_inv in Hw as (c & w1 & Hc & Hw).
  apply (quiet_run _ _ _ _ quiet_ctx) in Hc as (F1 & _ & _). destruct c as [e|]; [done|].
  assert (fs_nodes (w_fs w1) !! k = Some n) as Hk by (rewrite F1; apply Hns; by left).
  assert (forall k' n', (k', n') ∈ ns -> fs_nodes (w_fs w1) !! k' = Some n') as Hns'
    by (intros k' n' Hin; rewrite F1; apply Hns; by right).
  change (omap ?f ((k, n) :: ns)) with
    (match f (k, n) with Some d => d :: omap f ns | None => omap f ns end).
  unfold walk_entry at 1. cbn [fst snd]. destruct n as [t c|t]; cbn [is_file] in Hw.
  - apply st_try_Ok in Hw as (info & w2 & Hi & Hw). apply st_try_Ok in Hw as (fs & w3 & Hl & [= <- _]).
    unfold on_fs, os_Info, with_fault, resolve in Hi. rewrite Hk in Hi.
    destruct (fs_fault _ _ _); [done|]. injection Hi as <- <-. cbn.
    f_equal. by apply IH in Hl.
  - by apply IH in Hw.
Qed.

Lemma walkLocal_Ok b (w : W) files w' :
  walkLocal b w = (Ok files, w') ->
  let root := path_key (bc_LocalRoot (b_cfg b)) in
  files = omap (walk_entry root) (walk_nodes root (fs_nodes (w_fs w))).
Proof.
  unfold walkLocal. intros Hw.
  apply st_try_Ok in Hw as (fs & w1 & Hw & [= <- _]). apply st_try_Ok in Hw as (ns & w2 & Hd & Hw).
  unfold on_fs, os_WalkDir, with_fault in Hd. destruct (fs_fault _ _ _); [done|].
  destruct (resolve _ _); [|done]. injection Hd as <- <-. apply walk_loop_Ok in Hw as ->; [done|].
  cbn. intros k n [_ Hin]%list_elem_of_filter. by apply elem_of_map_to_list in Hin.
Qed.

End walk.

Lemma rel_of_app root k : rel_of root (root ++ k) = if bool_decide (k = []) then "." else Join k "/".
Proof.
  unfold rel_of. rewrite drop_app_length. destruct (decide (k = [])) as [->|Hk].
  - by rewrite !bool_decide_eq_true_2 by (done || by rewrite app_nil_r).
  - rewrite !bool_decide_eq_false_2; [done|done|]. intros E. apply Hk.
    by apply (app_inv_head root); rewrite app_nil_r.
Qed.

(** *** Journal entries of a running pass *)

Section monotone.
Context {R S : Type} `{RemoteFS R} `{BJournalLaws S} `{Env}.
Abbreviation W := (World R S).

(** No journal entry disappears and no base is unmarked. *)
Definition keeps_entries (x y : W * BisyncState) : Prop :=
  (forall p, is_Some (bj_view (w_store (fst x)) !! p) -> is_Some (bj_view (w_store (fst y)) !! p)) /\
  bs_pendingPrune (snd x) ⊆ bs_pendingPrune (snd y).

#[export] Instance keeps_entries_preorder : PreOrder keeps_entries.
Proof.
  unfold keeps_entries. split.
  - intros x. by split.
  - intros x y z [K1 K2] [K3 K4]. split; [auto|by etrans].
Qed.

Definition keeps_journal (w w' : W) : Prop :=
  forall p, is_Some (bj_view (w_store w) !! p) -> is_Some (bj_view (w_store w') !! p).

#[export] Instance keeps_journal_preorder : PreOrder keeps_journal.
Proof. unfold keeps_journal. split; [by intros x p|]. intros x y z K1 K2. auto. Qed.

Lemma keeps_in_world {A} (m : ST W A) : preserves keeps_journal m -> preserves keeps_entries (in_world m).
Proof. intros Hm [w st]. unfold in_world. specialize (Hm w). by destruct (m w). Qed.

Lemma keeps_quiet {A} (m : ST W A) : quiet m -> preserves keeps_journal m.
Proof. intros Hm w p. destruct (Hm w) as (_ & _ & E). by rewrite E. Qed.

Lemma keeps_fs {A} (m : ST LocalFS A) : preserves keeps_journal (on_fs m).
Proof. intros w p. unfold on_fs. by destruct (m (w_fs w)). Qed.

Lemma keeps_remote {A} (m : ST R A) : preserves keeps_journal (on_remote m).
Proof. intros w p. unfold on_remote. by destruct (m (w_remote w)). Qed.

Lemma keeps_upload {A} (m : LocalFS -> ST R A) : preserves keeps_journal (on_upload m).
Proof. intros w. apply keeps_remote. Qed.

Lemma keeps_download {A} (m : ST (R * LocalFS) A) : preserves keeps_journal (on_download m).
Proof. intros w p. unfold on_download. by destruct (m (w_remote w, w_fs w)) as [a [r fs]]. Qed.

Lemma keeps_BPut e : preserves keeps_journal (on_store (BPut e)).
Proof.
  intros w p. unfold on_store. destruct (BPut e (w_store w)) as [[[]|err] s] eqn:E.
  - apply bj_put in E as [Hv _]. cbn. rewrite Hv. rewrite lookup_insert_is_Some'. auto.
  - by apply bj_put_err in E as ->.
Qed.

Lemma keeps_ret {A} (a : A) : preserves keeps_journal (st_ret a).
Proof. apply keeps_quiet, quiet_ret. Qed.

Lemma keeps_now : preserves keeps_journal now.
Proof. apply keeps_quiet, quiet_now. Qed.

#[local] Hint Resolve keeps_fs keeps_remote keeps_upload keeps_download keeps_BPut keeps_ret keeps_now : homedrive.

Lemma keeps_mark base : preserves keeps_entries (markForPrune (R := R) (S := S) base).
Proof. intros [w st]. unfold markForPrune, in_state, keeps_entries. cbn. split; [done|set_solver]. Qed.

Lemma keeps_entries_ret {A} (a : A) : preserves keeps_entries (st_ret a).
Proof. by intros w. Qed.

Lemma keeps_resolve_with b body d :
  (forall old, preserves keeps_journal (body d old)) ->
  preserves keeps_entries (resolve_with b body d).
Proof.
  intros Hb. unfold resolve_with.
  apply preserves_bind; [typeclasses eauto| |intros next].
  { apply keeps_in_world, keeps_quiet, quiet_store. done. }
  apply preserves_try; [typeclasses eauto|apply keeps_in_world, Hb|intros _].
  apply preserves_bind; [typeclasses eauto|apply keeps_mark|intros; apply keeps_entries_ret].
Qed.

Lemma keeps_local_wins b d old : preserves keeps_journal (local_wins b d old).
Proof. unfold local_wins. solve_preserves. Qed.

Lemma keeps_remote_wins b d old : preserves keeps_journal (remote_wins b d old).
Proof. unfold remote_wins. solve_preserves. Qed.

Lemma keeps_sync_one b d n : preserves keeps_entries (sync_one b d n).
Proof.
  unfold sync_one. destruct (fd_Kind d).
  - apply preserves_bind; [typeclasses eauto| |intros; apply keeps_entries_ret].
    apply keeps_in_world. unfold syncLocalToRemote. solve_preserves.
  - apply preserves_bind; [typeclasses eauto| |intros; apply keeps_entries_ret].
    apply keeps_in_world. unfold syncRemoteToLocal. solve_preserves.
  - apply preserves_bind; [typeclasses eauto| |intros; apply keeps_entries_ret].
    unfold bisync_resolveConflict.
    apply preserves_try; [typeclasses eauto|apply keeps_entries_ret|intros l].
    apply preserves_try; [typeclasses eauto|apply keeps_entries_ret|intros r].
    destruct (bc_DryRun _); [apply keeps_entries_ret|].
    assert (preserves keeps_entries (resolveLocalWins b d)) as Hl
      by (apply keeps_resolve_with; intros; apply keeps_local_wins).
    destruct (After _ _); [exact Hl|]. destruct (After _ _); [|exact Hl].
    apply keeps_resolve_with. intros. apply keeps_remote_wins.
Qed.

Lemma keeps_sync_loop b ds n : preserves keeps_entries (sync_loop b ds n).
Proof.
  revert n. induction ds as [|d ds IH]; intros n; [apply keeps_entries_ret|]. cbn [sync_loop].
  apply preserves_bind; [typeclasses eauto|apply keeps_in_world, keeps_quiet, quiet_ctx|intros [c|]];
    [apply keeps_entries_ret|].
  apply preserves_bind; [typeclasses eauto|apply keeps_sync_one|intros; apply IH].
Qed.

End monotone.

(** ** Properties *)

(** The local walk of the bisync pass is exact: it lists every regular
    file below the sync root, under its root-relative path with its size and
    mtime, and nothing else. *)
Theorem walkLocal_exact {R S} `{Env} b (w w' : World R S) files x :
  walkLocal b w = (Ok files, w') ->
  x ∈ files <-> exists k t c,
    fs_nodes (w_fs w) !! (path_key (bc_LocalRoot (b_cfg b)) ++ k) = Some (File t c) /\
    x = mkLocalFileInfo (if bool_decide (k = []) then "." else Join k "/") (Z.of_nat (strlen c)) t.
Proof.
  intros ->%walkLocal_Ok. rewrite list_elem_of_omap. split.
  - intros ([k n] & [[r E] Hk]%list_elem_of_filter & Hx). cbn [fst] in E. subst k.
    apply elem_of_map_to_list in Hk. unfold walk_entry in Hx. cbn [fst snd] in Hx.
    destruct n as [t c|]; [|done]. injection Hx as <-. rewrite rel_of_app. eauto.
  - intros (k & t & c & Hk & ->). exists (path_key (bc_LocalRoot (b_cfg b)) ++ k, File t c). split.
    + apply list_elem_of_filter. split; [by exists k|]. by apply elem_of_map_to_list.
    + unfold walk_entry. cbn [fst snd]. by rewrite rel_of_app.
Qed.

Section properties.
Context {R S : Type} `{RemoteFS R} `{BJournalLaws S} `{Env}.
Abbreviation W := (World R S).

(** C5: the bisync diff is sound and complete against its two listings and the
    journal: once both listings succeeded the diff succeeds, every path occurs
    at most once in it, and a path is reported, with the right kind and
    metadata, exactly when it is on one side only or its versions diverge from
    the journal entry (from each other, without one). *)
Theorem diff_exact b (w w1 w2 : W) locals remotes :
  walkLocal b w = (Ok locals, w1) -> listRemote w1 = (Ok remotes, w2) ->
  exists ds w', diff b w = (Ok ds, w') /\ same_data w2 w' /\ NoDup (map fd_Path ds) /\
    forall d, d ∈ ds <->
      drift (bj_read (w_store w2)) (local_map locals) (remote_map remotes) (fd_Path d) = Some d.
Proof.
  intros Hl Hr. unfold diff, st_try. rewrite Hl, Hr.
  destruct (diff_after_listing (local_map locals) (remote_map remotes) w2)
    as (ls & rs & w' & E & Hls & Hrs & Hw).
  eexists _, w'. split; [exact E|]. split; [done|].
  split; [by apply NoDup_drift|intros d; by apply elem_of_drift].
Qed.

(** C6: a bisync pass in dry-run mode -- diff, conflicts, retention, sweep and
    chain repair included -- changes no local file, nothing on the remote and
    nothing in the store. *)
Theorem execute_dry_run tree `{!RemoteLaws R tree} b (w : W) st :
  bc_DryRun (b_cfg b) = true -> same_state tree w (fst (snd (execute b (w, st)))).
Proof. intros Hd. exact (execute_dry tree b Hd (w, st)). Qed.

(** While the diffs of a pass are being worked off no journal entry
    disappears and no base loses its mark: retention runs on the recorded
    losers only after the snapshot of diffs is drained. *)
Theorem syncDiffs_never_prunes b ds (w : W) st n w' st' :
  syncDiffs b ds (w, st) = (n, (w', st')) ->
  (forall p, is_Some (bj_view (w_store w) !! p) -> is_Some (bj_view (w_store w') !! p)) /\
  bs_pendingPrune st ⊆ bs_pendingPrune st'.
Proof.
  intros E. pose proof (keeps_sync_loop b ds (mkCounts 0 0 0) (w, st)) as Hk.
  unfold syncDiffs in E. rewrite E in Hk. exact Hk.
Qed.





End properties.

(** *** The pass as a transaction on its own state *)

Section passes.
Context {R S : Type} `{RemoteFS R} `{BJournal S} `{Env}.
Abbreviation W := (World R S).

(** Only the marks and the time of the last sweep differ. *)
Definition same_flags (x y : W * BisyncState) : Prop :=
  bs_running (snd y) = bs_running (snd x) /\ bs_force (snd y) = bs_force (snd x).

#[export] Instance same_flags_preorder : PreOrder same_flags.
Proof. unfold same_flags. split; [by intros x|]. intros x y z [] []. split; congruence. Qed.

Lemma flags_world {A} (m : ST W A) : preserves same_flags (in_world m).
Proof. intros [w st]. unfold in_world, same_flags. by destruct (m w). Qed.

Lemma flags_ret {A} (a : A) : preserves same_flags (st_ret a).
Proof. by intros w. Qed.

Lemma flags_sync_one b d n : preserves same_flags (sync_one b d n).
Proof.
  unfold sync_one. destruct (fd_Kind d);
    (apply preserves_bind; [typeclasses eauto| |intros; apply flags_ret]); [apply flags_world..|].
  unfold bisync_resolveConflict.
  apply preserves_try; [typeclasses eauto|apply flags_ret|intros l].
  apply preserves_try; [typeclasses eauto|apply flags_ret|intros r].
  destruct (bc_DryRun _); [apply flags_ret|].
  assert (forall body, preserves same_flags (resolve_with b body d)) as Hr.
  { intros body. unfold resolve_with.
    apply preserves_bind; [typeclasses eauto|apply flags_world|intros next].
    apply preserves_try; [typeclasses eauto|apply flags_world|intros _].
    apply preserves_bind; [typeclasses eauto|by intros [w st]|intros; apply flags_ret]. }
  destruct (After _ _); [apply Hr|]. destruct (After _ _); apply Hr.
Qed.

Lemma flags_sync_loop b ds n : preserves same_flags (sync_loop b ds n).
Proof.
  revert n. induction ds as [|d ds IH]; intros n; [apply flags_ret|]. cbn [sync_loop].
  apply preserves_bind; [typeclasses eauto|apply flags_world|intros [c|]]; [apply flags_ret|].
  apply preserves_bind; [typeclasses eauto|apply flags_sync_one|intros; apply IH].
Qed.

(** A step after which nothing is marked if nothing was. *)
Definition drained (x y : W * BisyncState) : Prop :=
  same_flags x y /\ (bs_pendingPrune (snd x) = ∅ -> bs_pendingPrune (snd y) = ∅).

Lemma in_world_state {A} (m : ST W A) w st :
  exists a w', in_world (St := BisyncState) m (w, st) = (a, (w', st)).
Proof. unfold in_world. destruct (m w). eauto. Qed.

Lemma sweep_if_due_drained b w st :
  exists w' st', sweep_if_due b (w, st) = (tt, (w', st')) /\ drained (w, st) (w', st').
Proof.
  unfold sweep_if_due. unfold st_bind at 1, in_state at 1. unfold st_bind at 1.
  destruct (in_world_state (shouldSweep b (bs_lastSweep st)) w st) as (due & w1 & ->).
  destruct due; [|by exists w1, st].
  unfold st_bind at 1. destruct (in_world_state (sweepOldFiles b) w1 st) as (l & w2 & ->).
  unfold st_bind at 1. destruct (in_world_state now w2 st) as (t & w3 & ->).
  exists w3, (mkBisyncState (bs_running st) t (bs_pendingPrune st) (bs_force st)). done.
Qed.

Lemma locked_pass_drained b start w st :
  exists w' st', locked_pass b start (w, st) = (tt, (w', st')) /\ drained (w, st) (w', st').
Proof.
  unfold locked_pass. unfold st_bind at 1.
  destruct (in_world_state (shouldRepairChains b) w st) as (due & w1 & ->).
  unfold st_bind at 1.
  assert (exists w2, (if due : bool then in_world (runChainRepair b (bc_DryRun (b_cfg b)) true ;; st_ret tt)
    else st_ret tt) (w1, st) = (tt, (w2, st))) as (w2 & ->).
  { destruct due; [|by exists w1].
    destruct (in_world_state (runChainRepair b (bc_DryRun (b_cfg b)) true ;; st_ret tt) w1 st)
      as ([] & w2 & E). by exists w2. }
  unfold st_bind at 1. destruct (in_world_state (diff b) w2 st) as (ds & w3 & ->).
  destruct ds as [ds|e].
  - unfold st_bind at 1. pose proof (flags_sync_loop b ds (mkCounts 0 0 0) (w3, st)) as Hf.
    unfold syncDiffs. destruct (sync_loop b ds _ (w3, st)) as [n [w4 st4]]. cbn in Hf.
    unfold st_bind at 1, drain_pending. unfold st_bind at 1, in_state at 1. unfold st_bind at 1.
    destruct (in_world_state (let* bases := ranged (elements (bs_pendingPrune st4)) in
      prune_bases b bases) w4 st4) as (x & w5 & ->).
    unfold in_state at 1. unfold st_bind at 1.
    destruct (sweep_if_due_drained b w5
      (mkBisyncState (bs_running st4) (bs_lastSweep st4) ∅ (bs_force st4))) as (w6 & st6 & -> & [Hf6 Hd6]).
    destruct (in_world_state (report_success b start n) w6 st6) as ([] & w7 & ->).
    exists w7, st6. split; [done|]. split; [|intros _; by apply Hd6].
    destruct Hf, Hf6. cbn in *. split; cbn; congruence.
  - destruct (in_world_state (report_failure b start e) w3 st) as ([] & w4 & ->).
    by exists w4, st.
Qed.

(** A bisync pass is a bracket on its own state: while one is running
    another does nothing; otherwise it always ends, with the running flag
    cleared, the force slot as it was and no base left marked -- whether the
    diff failed, a file failed or the context was cancelled half-way. *)
Theorem execute_brackets b (w : W) st :
  bs_pendingPrune st = ∅ ->
  exists w' st', execute b (w, st) = (tt, (w', st')) /\
    (bs_running st = true -> w' = w /\ st' = st) /\
    (bs_running st = false -> bs_running st' = false) /\
    bs_force st' = bs_force st /\ bs_pendingPrune st' = ∅.
Proof.
  intros Hp. unfold execute. unfold st_bind at 1, in_state at 1.
  destruct (bs_running st) eqn:Hr; [by exists w, st|].
  unfold st_bind at 1, set_running at 1, in_state at 1. unfold st_bind at 1.
  set (st1 := mkBisyncState true (bs_lastSweep st) (bs_pendingPrune st) (bs_force st)).
  destruct (in_world_state now w st1) as (start & w1 & ->). unfold st_bind at 1.
  destruct (in_world_state (publishEvent b (mkBisyncEvent start "bisync.started" 0 0 0
    (bc_DryRun (b_cfg b)) "")) w1 st1) as (x & w2 & ->). unfold st_bind at 1.
  destruct (locked_pass_drained b start w2 st1) as (w3 & st3 & -> & [[_ Hf] Hd]).
  eexists _, _. split; [reflexivity|]. split; [done|]. split; [done|]. split; [exact Hf|by apply Hd].
Qed.

(** A forced run is accepted exactly when no pass runs and none is already
    requested; accepted or not, at most one extra pass is ever queued, and the
    loop consumes the request it wakes up for. *)
Theorem ForceRun_coalesces b st (w : W) wakes :
  let '(r, st') := ForceRun st in
  (r = Ok tt <-> bs_running st = false /\ bs_force st = false) /\
  (is_ok r = false -> r = Err (ESent ErrBisyncRunning) /\ st' = st) /\
  (r = Ok tt -> fst (ForceRun st') = Err (ESent ErrBisyncRunning)) /\
  bisync_Run b (WakeForce :: wakes) (w, st') =
    (execute b ;; bisync_Run b wakes)
      (w, mkBisyncState (bs_running st) (bs_lastSweep st) (bs_pendingPrune st) false).
Proof.
  unfold ForceRun. destruct st as [[] l p []]; cbn; split_and!; try done; try (split; done);
    try (split; [done|intros []; done]); split; intros []; done.
Qed.

End passes.

(** ** Witnesses *)

Definition demo_bisync (dry : bool) : Bisync :=
  fst (NewBisync (mkBisyncConfig Hour "/home" dry default_matcher (mkPolicy 0 0) (24 * Hour) true)
         None None true true).

Definition idle_state0 : BisyncState := mkBisyncState false 0 ∅ false.

(** [/home/a.txt] and [/home/docs/a.txt] against a remote [a.txt]. *)
Definition top_fs : LocalFS :=
  set_nodes (<[["home"; "a.txt"] := File (500 * Second) "top"]> (fs_nodes demo_fs)) demo_fs.

Definition top_world (remote_mtime : Time) : World MemFS (JournalStore MemBolt) :=
  mkWorld top_fs (Seed "a.txt" remote_mtime "r1" demo_mem) (mkJournalStore demo_db None) 0 [].

Definition top_local : LocalFileInfo := mkLocalFileInfo "a.txt" 3 (500 * Second).

Definition top_remote (t : Time) : RemoteObject := mkRemoteObject "a.txt" 1024 t "r1" "id-1" false false.

Definition top_diff (t : Time) : FileDiff :=
  mkFileDiff "a.txt" DiffConflict (Some top_local) (Some (top_remote t)).

Lemma walkLocal_exact_witness :
  exists files, fst (@walkLocal _ _ demo_env (demo_bisync false) (top_world 0)) = Ok files /\
    top_local ∈ files.
Proof.
  set (r := @walkLocal _ _ demo_env (demo_bisync false) (top_world 0)).
  assert (exists files, fst r = Ok files) as [files Hf].
  { destruct (fst r) as [files|e] eqn:E; [eauto|]. exfalso. revert E. vm_compute. discriminate. }
  exists files. split; [exact Hf|].
  apply (walkLocal_exact (H := demo_env) (demo_bisync false) (top_world 0) (snd r)).
  - rewrite <- Hf. apply surjective_pairing.
  - exists ["a.txt"], (500 * Second), "top". split; [reflexivity|]. vm_compute. reflexivity.
Defined.

Lemma diff_exact_witness :
  exists ds, fst (@diff _ _ _ _ demo_env (demo_bisync false) (top_world (650 * Second))) = Ok ds /\
    top_diff (650 * Second) ∈ ds.
Proof.
  set (w := top_world (650 * Second)).
  set (r1 := @walkLocal _ _ demo_env (demo_bisync false) w).
  set (r2 := @listRemote _ (JournalStore MemBolt) _ (snd r1)).
  set (nested := mkLocalFileInfo "docs/a.txt" 5 (500 * Second)).
  destruct (diff_exact (H2 := demo_env) (demo_bisync false) w (snd r1) (snd r2) [nested; top_local]
    [top_remote (650 * Second)]) as (ds & w' & E & _ & _ & Hd).
  - by rewrite (surjective_pairing (walkLocal _ _)).
  - by rewrite (surjective_pairing (listRemote _)).
  - exists ds. split; [by rewrite E|]. apply Hd. vm_compute. reflexivity.
Defined.

Lemma execute_dry_run_witness :
  let w := top_world (650 * Second) in
  same_state m_files w
    (fst (snd (@execute _ _ _ _ demo_env (demo_bisync true) (w, idle_state0)))).
Proof. intros w. apply (execute_dry_run (H2 := demo_env) m_files). reflexivity. Defined.

Lemma syncDiffs_never_prunes_witness :
  let w := top_world (650 * Second) in
  let r := @syncDiffs _ _ _ _ demo_env (demo_bisync false) [top_diff (650 * Second)] (w, idle_state0) in
  (forall p, is_Some (bj_view (w_store w) !! p) -> is_Some (bj_view (w_store (fst (snd r))) !! p)) /\
  (∅ : gset string) ⊆ bs_pendingPrune (snd (snd r)).
Proof.
  intros w r.
  apply (syncDiffs_never_prunes (H2 := demo_env) (demo_bisync false) [top_diff (650 * Second)] w
    idle_state0 (fst r) (fst (snd r)) (snd (snd r))).
  change (r = (fst r, (fst (snd r), snd (snd r)))). by destruct r as [n [w' st']].
Defined.





Lemma execute_brackets_witness :
  let w := top_world (650 * Second) in
  exists w' st', @execute _ _ _ _ demo_env (demo_bisync false) (w, idle_state0) = (tt, (w', st')) /\
    bs_running st' = false /\ bs_pendingPrune st' = ∅.
Proof.
  intros w. destruct (execute_brackets (H1 := demo_env) (demo_bisync false) w idle_state0)
    as (w' & st' & E & _ & Hr & _ & Hp).
  - reflexivity.
  - exists w', st'. split; [exact E|]. split; [by apply Hr|exact Hp].
Defined.

(** The remote listing of the diff holds the root directory only, so a file
    in a subdirectory always looks local-only and is uploaded over its remote
    version: here the remote [docs/a.txt] is newer than the local file, and
    after the pass the local content has replaced it, with no [.old] copy. *)
Theorem execute_clobbers_nested_remote :
  let w := conflict_world (650 * Second) in
  let w' := fst (snd (@execute _ _ _ _ demo_env (demo_bisync false) (w, idle_state0))) in
  option_map ro_RemoteID (m_files (w_remote w) !! "docs/a.txt") = Some "id-1" /\
  option_map ro_RemoteID (m_files (w_remote w') !! "docs/a.txt") = Some "id-2" /\
  map fst (map_to_list (m_files (w_remote w'))) = ["docs/a.txt"] /\
  fs_nodes (w_fs w') !! ["home"; "docs"; "a.txt"] = Some (File (500 * Second) "hello").
Proof. vm_compute. done. Qed.
