(* ===== verification/PathFilter.v ===== *)
(** [internal/pathfilter], [internal/watcher/filter.go] and the path conversion
    of [cmd/homedrive/adapters.go]: how an absolute local path becomes the
    root-relative key of the journal and the remote, and which keys the
    configured patterns exclude on either side. *)
From S2P Require Import Prelude.
From S2P Require Import GoStrings.
From S2P Require Import GoRuntime.
From S2P Require Import GoPath.
From S2P Require Import LocalFS.

(** ** Definitions *)

(** *** [filepath.Rel] *)

(** The elements of a cleaned path; none for the root and for ["."]. *)
Definition path_elems (p : string) : list string :=
  rev (clean_stack (is_rooted p) [] (SplitByte p slash)).

Fixpoint strip_common (b t : list string) : list string * list string :=
  match b, t with
  | x :: b', y :: t' => if String.eqb x y then strip_common b' t' else (b, t)
  | _, _ => (b, t)
  end.

Definition errRel (base targ : string) : error :=
  EText ("Rel: can't make " +:+ targ +:+ " relative to " +:+ base).

(** Neither path may stay in front of the other: both rooted or both not, and
    the base must not climb out of what they share. *)
Definition Rel (base targ : string) : result string :=
  if negb (Bool.eqb (is_rooted base) (is_rooted targ)) then Err (errRel base targ)
  else
    match strip_common (path_elems base) (path_elems targ) with
    | ([], []) => Ok "."
    | (b, t) =>
        if match b with x :: _ => String.eqb x ".." | [] => false end then Err (errRel base targ)
        else Ok (Join (map (fun _ => "..") b ++ t) "/")
    end.

(** [relToRoot]: paths outside the root are returned as they are. *)
Definition relToRoot (root p : string) : string :=
  if String.eqb root "" || negb (is_rooted p) then p
  else
    match Rel root p with
    | Err _ => p
    | Ok rel => if String.eqb rel ".." || HasPrefix rel "../" then p else rel
    end.

(** *** Exclusion *)

Section pathfilter.

(** [doublestar.Match], a third-party matcher, with its error ignored. *)
Variable doublestar_Match : string -> string -> bool.

Definition excluded_by (relPath pattern : string) : bool :=
  if doublestar_Match pattern relPath then true
  else if doublestar_Match pattern (relPath +:+ "/") then true
  else if HasSuffix pattern "/**" then doublestar_Match (TrimSuffix pattern "/**") relPath
  else false.

Definition Excluded (patterns : list string) (relPath : string) : bool :=
  match patterns with
  | [] => false
  | _ =>
      let relPath := TrimPrefix relPath "/" in
      existsb (excluded_by relPath) patterns
  end.

Record filter := mkFilter { f_root : string; f_patterns : list string }.

Definition newFilter (root : string) (patterns : list string) : filter :=
  mkFilter (Clean root) patterns.

Definition filter_excluded (f : filter) (absPath : string) : bool :=
  match f_patterns f with
  | [] => false
  | _ =>
      match Rel (f_root f) absPath with
      | Err _ => false
      | Ok rel => Excluded (f_patterns f) rel
      end
  end.

(** The pull side: [RcloneFS.excluded] on a remote path. *)
Definition remote_excluded (patterns : list string) (relPath : string) : bool :=
  Excluded patterns relPath.

End pathfilter.

(** ** Lemmas *)

Lemma path_elems_rooted p : is_rooted p = true -> path_elems p = path_key p.
Proof. intros Hp. unfold path_elems, path_key. by rewrite Hp. Qed.

Lemma strip_common_app b t : strip_common b (b ++ t) = ([], t).
Proof. induction b as [|x b IH]; cbn; [by destruct t|]. by rewrite String.eqb_refl. Qed.

Lemma is_rooted_Clean p : is_rooted p = true -> is_rooted (Clean p) = true.
Proof. intros Hp. rewrite Clean_rooted by done. by destruct (Join (path_key p) "/"). Qed.

(** A path below an absolute root is the root's elements and then its own. *)
Lemma Rel_below root rel :
  is_rooted root = true -> rel_path rel = true -> Rel root (PathJoin root rel) = Ok rel.
Proof.
  intros Hr Hrel. unfold Rel.
  assert (is_rooted (PathJoin root rel) = true) as Hj.
  { rewrite PathJoin_rooted by done. apply is_rooted_Clean, is_rooted_app, Hr. }
  rewrite Hr, Hj. cbn [Bool.eqb negb]. rewrite !path_elems_rooted by done.
  rewrite path_key_join by done. rewrite strip_common_app.
  destruct (SplitByte rel slash) as [|x l] eqn:E; [by apply SplitByte_nonempty in E|].
  rewrite <- E. cbn [map app]. by rewrite Join_SplitByte.
Qed.

Lemma Rel_Clean root p : is_rooted root = true -> Rel (Clean root) p = match Rel root p with
  | Ok r => Ok r | Err _ => Err (errRel (Clean root) p) end.
Proof.
  intros Hr. unfold Rel. rewrite is_rooted_Clean, Hr by done.
  rewrite !(path_elems_rooted root), (path_elems_rooted (Clean root)), path_key_Clean
    by (try apply is_rooted_Clean; done).
  destruct (negb _); [done|]. destruct (strip_common _ _) as [[|x b] [|y t]]; [done| | |];
    cbn [map app]; try done; by destruct (String.eqb x "..").
Qed.

Lemma rel_path_head rel :
  rel_path rel = true -> rel <> ".." /\ HasPrefix rel "../" = false /\ HasPrefix rel "/" = false.
Proof.
  intros Hrel. pose proof Hrel as (cs & Hne & Hcs & E)%rel_path_spec. split_and!.
  - intros ->. apply andb_true_iff in Hrel as [_ Hrel]. done.
  - destruct (HasPrefix rel "../") eqn:Hp; [|done]. exfalso.
    apply HasPrefix_spec in Hp as [r Hp].
    apply andb_true_iff in Hrel as [_ Hrel]. rewrite Hp in Hrel.
    change ("../" +:+ r) with (".." +:+ "/" +:+ r) in Hrel.
    by rewrite SplitByte_app in Hrel by done.
  - rewrite E. by apply valid_not_rooted.
Qed.

Lemma TrimPrefix_none s p : HasPrefix s p = false -> TrimPrefix s p = s.
Proof. intros H. unfold TrimPrefix. by rewrite H. Qed.

(** ** Properties *)

(** [relToRoot] undoes [filepath.Join(root, rel)]: the key the watcher's
    absolute path is turned into is the key the push, pull and bisync paths
    build that local path from; a path elsewhere is left alone. *)
Theorem relToRoot_join root rel p :
  is_rooted root = true -> rel_path rel = true ->
  relToRoot root (PathJoin root rel) = rel /\
  (is_rooted p = false -> relToRoot root p = p) /\
  (forall x b t, strip_common (path_elems root) (path_elems p) = (x :: b, t) -> x <> ".." ->
     relToRoot root p = p).
Proof.
  intros Hr Hrel. unfold relToRoot. assert (root <> "") as Hne by (by intros ->).
  destruct (String.eqb_spec root ""); [done|]. cbn [orb]. split_and!.
  - rewrite Rel_below by done. rewrite PathJoin_rooted by done.
    rewrite is_rooted_Clean by by apply is_rooted_app. cbn [negb].
    destruct (rel_path_head rel Hrel) as (H1 & H2 & _).
    destruct (String.eqb_spec rel ".."); [done|]. by rewrite H2.
  - intros ->. done.
  - intros x b t Hs Hx. destruct (is_rooted p) eqn:Hp; [|done]. cbn [negb]. unfold Rel.
    rewrite Hr, Hp. cbn [Bool.eqb negb]. rewrite Hs.
    destruct (String.eqb_spec x ".."); [done|]. cbn [map app].
    destruct (map (fun _ => "..") b ++ t) as [|y l] eqn:E; [done|].
    rewrite Join_cons by done.
    assert (HasPrefix (".." +:+ "/" +:+ Join (y :: l) "/") "../" = true) as ->
      by (apply HasPrefix_spec; by exists (Join (y :: l) "/")).
    by rewrite orb_true_r.
Qed.

Lemma relToRoot_join_witness :
  relToRoot "/home/me/" (PathJoin "/home/me/" "docs/a.txt") = "docs/a.txt" /\
  relToRoot "/home/me/" "/home/you/x" = "/home/you/x".
Proof.
  destruct (relToRoot_join "/home/me/" "docs/a.txt" "/home/you/x") as (H1 & _ & H3);
    [reflexivity|reflexivity|].
  split; [exact H1|]. apply (H3 "me" [] ["you"; "x"]); [reflexivity|discriminate].
Defined.

(** Both sync directions exclude the same files: the watcher's verdict on
    the local path of a key is the pull side's verdict on the key, and it is
    positive exactly when some pattern matches the key in one of the three
    tiers. *)
Theorem exclusion_agrees dmatch root patterns rel :
  is_rooted root = true -> rel_path rel = true ->
  filter_excluded dmatch (newFilter root patterns) (PathJoin root rel)
    = remote_excluded dmatch patterns rel /\
  (remote_excluded dmatch patterns rel = true <->
   exists pat, pat ∈ patterns /\
     (dmatch pat rel = true \/ dmatch pat (rel +:+ "/") = true \/
      exists d, pat = d +:+ "/**" /\ dmatch d rel = true)).
Proof.
  intros Hr Hrel. split.
  - unfold filter_excluded, newFilter. cbn [f_patterns f_root].
    rewrite Rel_Clean, Rel_below by done. by destruct patterns.
  - unfold remote_excluded, Excluded. destruct (rel_path_head rel Hrel) as (_ & _ & Hs).
    rewrite TrimPrefix_none by done.
    assert (forall pat, excluded_by dmatch rel pat = true <->
      dmatch pat rel = true \/ dmatch pat (rel +:+ "/") = true \/
      exists d, pat = d +:+ "/**" /\ dmatch d rel = true) as Hpat.
    { intros pat. unfold excluded_by. destruct (dmatch pat rel); [split; auto|].
      destruct (dmatch pat (rel +:+ "/")); [split; auto|].
      destruct (HasSuffix pat "/**") eqn:Hsuf.
      - apply HasSuffix_spec in Hsuf as [d ->]. rewrite TrimSuffix_app. split.
        + intros Hd. right. right. eauto.
        + intros [|[|(d' & E & Hd)]]; [done|done|]. by apply sapp_inj_r in E as ->.
      - split; [done|]. intros [|[|(d' & -> & _)]]; [done|done|]. by rewrite HasSuffix_app in Hsuf. }
    destruct patterns as [|p0 ps]; [split; [done|intros (pat & []%elem_of_nil & _)]|].
    rewrite existsb_exists. split.
    + intros (pat & Hin & Hp). exists pat. by rewrite list_elem_of_In, <- Hpat.
    + intros (pat & Hin & Hp). exists pat. by rewrite <- list_elem_of_In, Hpat.
Qed.

(** A matcher for examples: equality, or a trailing [/**] as "anything below". *)
Definition demo_match (pat p : string) : bool :=
  String.eqb pat p || (HasSuffix pat "/**" && HasPrefix p (TrimSuffix pat "**")).

Lemma exclusion_agrees_witness :
  filter_excluded demo_match (newFilter "/home/me" ["tmp/**"]) (PathJoin "/home/me" "tmp") = true.
Proof.
  destruct (exclusion_agrees demo_match "/home/me" ["tmp/**"] "tmp") as [-> Hx]; [reflexivity..|].
  apply Hx. exists "tmp/**". split; [by left|]. right. right. exists "tmp". done.
Defined.
