(* ===== verification/Debouncer.v ===== *)
(** [internal/watcher/types.go] and [debouncer.go]: the events of the watcher
    and the per-path debouncing of them, with Go's timers as a separate heap: a
    timer that expired runs its callback in a goroutine of its own, which may
    still have to wait for the debouncer's mutex and can then no longer be
    stopped. *)
From S2P Require Import Prelude.
From S2P Require Import GoStrings.
From S2P Require Import GoRuntime.

(** ** types.go *)

Inductive WOp := WCreate | WWrite | WRemove | WRename | WDirRename.

#[export] Instance WOp_eq_dec : EqDecision WOp.
Proof. solve_decision. Defined.

Definition WOp_String (o : WOp) : string :=
  match o with
  | WCreate => "create"
  | WWrite => "write"
  | WRemove => "remove"
  | WRename => "rename"
  | WDirRename => "dir_rename"
  end.

Record WEvent := mkWEvent { we_Path : string; we_Op : WOp; we_At : Time }.

#[export] Instance WEvent_eq_dec : EqDecision WEvent.
Proof. solve_decision. Defined.

Record WDirRenamed := mkWDirRenamed { wd_From : string; wd_To : string; wd_At : Time }.

(** Exactly one of the two pointers is set. *)
Inductive WatchEvent :=
| WatchFile (ev : WEvent)
| WatchDirRename (dr : WDirRenamed).

Record SyncRecord := mkSyncRecord { sr_LocalMtime : Time; sr_Size : Z }.

(** ** debouncer.go *)

(** [d_timers] holds the identity of each path's timer; [d_armed] is the
    runtime's heap (due time and path by identity) and [d_flight] the callbacks
    whose goroutine has started. *)
Record debouncer := mkDebouncer {
  d_window : Duration;
  d_timers : gmap string nat;
  d_pending : gmap string WEvent;
  d_armed : gmap nat (Time * string);
  d_flight : gmap nat string;
  d_next : nat;
  d_now : Time;
}.

Definition newDebouncer (window : Duration) (t : Time) : debouncer :=
  mkDebouncer window ∅ ∅ ∅ ∅ 0 t.

(** A Create is not downgraded by the Write that follows it. *)
Definition coalesce (existing : option WEvent) (ev : WEvent) : WEvent :=
  match existing with
  | Some old => if bool_decide (we_Op old = WCreate) && bool_decide (we_Op ev = WWrite) then old else ev
  | None => ev
  end.

(** [t.Stop()] on the path's timer, if it has one. *)
Definition stop_timer (path : string) (d : debouncer) : gmap nat (Time * string) :=
  match d_timers d !! path with Some id => delete id (d_armed d) | None => d_armed d end.

Definition debouncer_add (ev : WEvent) (d : debouncer) : debouncer :=
  let path := we_Path ev in
  mkDebouncer (d_window d) (<[path := d_next d]> (d_timers d))
    (<[path := coalesce (d_pending d !! path) ev]> (d_pending d))
    (<[d_next d := (d_now d + d_window d, path)]> (stop_timer path d))
    (d_flight d) (S (d_next d)) (d_now d).

(** The runtime starts the callback of a due timer. *)
Definition timer_fires (id : nat) (d : debouncer) : option debouncer :=
  match d_armed d !! id with
  | Some (due, path) =>
      if due <=? d_now d
      then Some (mkDebouncer (d_window d) (d_timers d) (d_pending d) (delete id (d_armed d))
                   (<[id := path]> (d_flight d)) (d_next d) (d_now d))
      else None
  | None => None
  end.

(** The callback's body, once it has the mutex; what it hands to [emit]. *)
Definition timer_callback (id : nat) (d : debouncer) : option (option WEvent * debouncer) :=
  match d_flight d !! id with
  | None => None
  | Some path =>
      let flight := delete id (d_flight d) in
      match d_pending d !! path with
      | Some ev =>
          Some (Some ev, mkDebouncer (d_window d) (delete path (d_timers d))
                           (delete path (d_pending d)) (d_armed d) flight (d_next d) (d_now d))
      | None =>
          Some (None, mkDebouncer (d_window d) (d_timers d) (d_pending d) (d_armed d) flight
                        (d_next d) (d_now d))
      end
  end.

Definition debouncer_suppress (path : string) (d : debouncer) : debouncer :=
  match d_timers d !! path with
  | Some id =>
      mkDebouncer (d_window d) (delete path (d_timers d)) (delete path (d_pending d))
        (delete id (d_armed d)) (d_flight d) (d_next d) (d_now d)
  | None => d
  end.

(** Ranging over [d.timers]: the body on each of its paths. *)
Definition timer_paths (d : debouncer) : list string := map fst (map_to_list (d_timers d)).

Definition debouncer_suppressPrefix (prefix : string) (d : debouncer) : debouncer :=
  foldl (fun d p => debouncer_suppress p d) d
    (base.filter (fun p => HasPrefix p prefix = true) (timer_paths d)).

Definition debouncer_stop (d : debouncer) : debouncer :=
  foldl (fun d p => debouncer_suppress p d) d (timer_paths d).

(** Time passes. *)
Definition wait (dt : Duration) (d : debouncer) : debouncer :=
  mkDebouncer (d_window d) (d_timers d) (d_pending d) (d_armed d) (d_flight d) (d_next d)
    (d_now d + Z.max 0 dt).

(** ** Runs

    What the other goroutines, the runtime and the clock do to a debouncer, in
    any order, with a log of what was added, emitted and dropped. *)

Inductive dact :=
| AAdd (ev : WEvent)
| AFires (id : nat)
| ACallback (id : nat)
| ASuppress (path : string)
| ASuppressPrefix (prefix : string)
| AStop
| AWait (dt : Duration).

Inductive dlog := Added (t : Time) (ev : WEvent) | Emitted (t : Time) (ev : WEvent) | Dropped (path : string).

Definition drops (paths : list string) : list dlog := map Dropped paths.

Definition debouncer_do (a : dact) (d : debouncer) : option (list dlog * debouncer) :=
  match a with
  | AAdd ev => Some ([Added (d_now d) ev], debouncer_add ev d)
  | AFires id => option_map (fun d => ([], d)) (timer_fires id d)
  | ACallback id =>
      option_map (fun '(o, d') => (match o with Some ev => [Emitted (d_now d) ev] | None => [] end, d'))
        (timer_callback id d)
  | ASuppress path => Some ([Dropped path], debouncer_suppress path d)
  | ASuppressPrefix prefix =>
      Some (drops (base.filter (fun p => HasPrefix p prefix = true) (timer_paths d)),
            debouncer_suppressPrefix prefix d)
  | AStop => Some (drops (timer_paths d), debouncer_stop d)
  | AWait dt => Some ([], wait dt d)
  end.

Fixpoint debouncer_run (acts : list dact) (d : debouncer) : option (list dlog * debouncer) :=
  match acts with
  | [] => Some ([], d)
  | a :: acts =>
      match debouncer_do a d with
      | None => None
      | Some (l1, d1) =>
          match debouncer_run acts d1 with
          | None => None
          | Some (l2, d2) => Some (l1 ++ l2, d2)
          end
      end
  end.

(** What a log says is still to be emitted for a path. *)
Definition owe1 (path : string) (o : option WEvent) (e : dlog) : option WEvent :=
  match e with
  | Added _ ev => if String.eqb (we_Path ev) path then Some (coalesce o ev) else o
  | Emitted _ ev => if String.eqb (we_Path ev) path then None else o
  | Dropped p => if String.eqb p path then None else o
  end.

Definition owed (path : string) (log : list dlog) : option WEvent := fold_left (owe1 path) log None.

(** ** Lemmas *)

Lemma owed_app p l1 l2 : owed p (l1 ++ l2) = fold_left (owe1 p) l2 (owed p l1).
Proof. apply fold_left_app. Qed.

Lemma owed_snoc p l e : owed p (l ++ [e]) = owe1 p (owed p l) e.
Proof. by rewrite owed_app. Qed.

(** The state agrees with the log, and every path that is owed an event has a
    callback under way. *)
Record deb_ok (log : list dlog) (d : debouncer) : Prop := {
  ok_owed : forall p, d_pending d !! p = owed p log;
  ok_dom : forall p, is_Some (d_timers d !! p) <-> is_Some (d_pending d !! p);
  ok_path : forall p ev, d_pending d !! p = Some ev -> we_Path ev = p;
  ok_timer : forall p id, d_timers d !! p = Some id ->
    (exists due, d_armed d !! id = Some (due, p)) \/ d_flight d !! id = Some p;
  ok_inj : forall p q id, d_timers d !! p = Some id -> d_timers d !! q = Some id -> p = q;
  ok_disj : forall id x, d_armed d !! id = Some x -> d_flight d !! id = None;
  ok_fresh : forall id, (d_next d <= id)%nat ->
    d_armed d !! id = None /\ d_flight d !! id = None /\ forall p, d_timers d !! p <> Some id;
}.

Lemma newDebouncer_ok w t : deb_ok [] (newDebouncer w t).
Proof.
  constructor; cbn.
  - done.
  - intros p. by rewrite !lookup_empty.
  - intros p ev. by rewrite lookup_empty.
  - intros p id. by rewrite lookup_empty.
  - intros p q id. by rewrite lookup_empty.
  - intros id x. by rewrite lookup_empty.
  - intros id _. rewrite !lookup_empty. split_and!; try done; intros p; by rewrite lookup_empty.
Qed.

Lemma stop_timer_other p q id d log :
  deb_ok log d -> q <> p -> d_timers d !! q = Some id -> stop_timer p d !! id = d_armed d !! id.
Proof.
  intros Hok Hne Hq. unfold stop_timer. destruct (d_timers d !! p) as [id'|] eqn:Hp; [|done].
  rewrite lookup_delete_ne; [done|]. intros ->. apply Hne. by eapply ok_inj.
Qed.

Lemma stop_timer_None p d id : d_armed d !! id = None -> stop_timer p d !! id = None.
Proof.
  intros H. unfold stop_timer. destruct (d_timers d !! p) as [id'|]; [|done].
  destruct (decide (id' = id)) as [->|]; [apply lookup_delete_eq|by rewrite lookup_delete_ne].
Qed.

Lemma add_ok log d ev : deb_ok log d -> deb_ok (log ++ [Added (d_now d) ev]) (debouncer_add ev d).
Proof.
  intros Hok. pose proof Hok as [K1 K2 K3 K4 K5 K7 K6]. set (q := we_Path ev).
  constructor; cbn; fold q.
  - intros p. rewrite owed_snoc. cbn. fold q. destruct (String.eqb_spec q p) as [<-|Hne].
    + by rewrite lookup_insert_eq, K1.
    + by rewrite lookup_insert_ne.
  - intros p. destruct (decide (q = p)) as [<-|Hne].
    + rewrite !lookup_insert_eq. split; eauto.
    + by rewrite !lookup_insert_ne.
  - intros p e. destruct (decide (q = p)) as [<-|Hne].
    + rewrite lookup_insert_eq. intros [= <-]. unfold coalesce.
      destruct (d_pending d !! q) as [old|] eqn:E; [|done]. destruct (_ && _); [by apply K3|done].
    + rewrite lookup_insert_ne by done. apply K3.
  - intros p id. destruct (decide (q = p)) as [<-|Hne].
    + rewrite lookup_insert_eq. intros [= <-]. left. rewrite lookup_insert_eq. eauto.
    + rewrite lookup_insert_ne by done. intros Hp.
      assert (id <> d_next d) as Hid by (intros ->; by apply (K6 (d_next d)) in Hp).
      destruct (K4 _ _ Hp) as [[due Hd]|Hf]; [left; exists due|by right].
      rewrite lookup_insert_ne by done. by erewrite stop_timer_other by eauto.
  - intros p p' id.
    assert (forall r, d_timers d !! r <> Some (d_next d)) as Hr by (intros r; by apply (K6 (d_next d))).
    destruct (decide (q = p)) as [<-|H1], (decide (q = p')) as [<-|H2]; rewrite ?lookup_insert_eq,
      ?lookup_insert_ne by done; [done| | |by apply K5].
    + intros [= <-] Hp. by apply Hr in Hp.
    + intros Hp [= <-]. by apply Hr in Hp.
  - intros id x. destruct (decide (d_next d = id)) as [<-|Hne]; [by intros; apply K6|].
    rewrite lookup_insert_ne by done. intros Hs. apply (K7 id x).
    destruct (d_armed d !! id) eqn:E; [|by rewrite stop_timer_None in Hs].
    unfold stop_timer in Hs. destruct (d_timers d !! q) as [i|]; [|by rewrite E in Hs].
    destruct (decide (i = id)) as [->|]; [by rewrite lookup_delete_eq in Hs|].
    by rewrite lookup_delete_ne, E in Hs.
  - intros id Hid. destruct (K6 id) as (F1 & F2 & F3); [lia|]. split_and!; [|done|].
    + rewrite lookup_insert_ne by lia. by apply stop_timer_None.
    + intros p. destruct (decide (q = p)) as [<-|Hne]; [rewrite lookup_insert_eq; intros [= E]; lia|].
      rewrite lookup_insert_ne by done. apply F3.
Qed.

Lemma suppress_ok log d p : deb_ok log d -> deb_ok (log ++ [Dropped p]) (debouncer_suppress p d).
Proof.
  intros Hok. pose proof Hok as [K1 K2 K3 K4 K5 K7 K6].
  assert (forall r, owed r (log ++ [Dropped p]) = if String.eqb p r then None else owed r log) as Ho
    by (intros r; by rewrite owed_snoc).
  unfold debouncer_suppress. destruct (d_timers d !! p) as [id|] eqn:Hp; constructor; cbn; try done.
  - intros r. rewrite Ho. destruct (String.eqb_spec p r) as [<-|Hne];
      [by rewrite lookup_delete_eq|by rewrite lookup_delete_ne].
  - intros r. destruct (decide (p = r)) as [<-|Hne].
    + rewrite !lookup_delete_eq. split; intros [? [=]].
    + by rewrite !lookup_delete_ne.
  - intros r ev. destruct (decide (p = r)) as [<-|Hne]; [by rewrite lookup_delete_eq|].
    rewrite lookup_delete_ne by done. apply K3.
  - intros r i. destruct (decide (p = r)) as [<-|Hne]; [by rewrite lookup_delete_eq|].
    rewrite lookup_delete_ne by done. intros Hr.
    assert (id <> i) as Hi by (intros <-; apply Hne; by eapply K5).
    rewrite lookup_delete_ne by done. by apply K4.
  - intros r s i. destruct (decide (p = r)) as [<-|H1]; [by rewrite lookup_delete_eq|].
    destruct (decide (p = s)) as [<-|H2]; [by rewrite lookup_delete_eq|].
    rewrite !lookup_delete_ne by done. apply K5.
  - intros i x. destruct (decide (id = i)) as [<-|]; [by rewrite lookup_delete_eq|].
    rewrite lookup_delete_ne by done. apply K7.
  - intros i Hi. destruct (K6 i Hi) as (F1 & F2 & F3). split_and!; [|done|].
    + destruct (decide (id = i)) as [<-|]; [apply lookup_delete_eq|by rewrite lookup_delete_ne].
    + intros r. destruct (decide (p = r)) as [<-|]; [by rewrite lookup_delete_eq|].
      rewrite lookup_delete_ne by done. apply F3.
  - intros r. rewrite Ho. destruct (String.eqb_spec p r) as [<-|Hne]; [|by rewrite K1].
    destruct (d_pending d !! p) eqn:E; [|done]. destruct (proj2 (K2 p)) as [x Hx]; [eauto|]. congruence.
Qed.

Lemma suppress_all_ok log d ps :
  deb_ok log d -> deb_ok (log ++ drops ps) (foldl (fun d p => debouncer_suppress p d) d ps).
Proof.
  revert log d. induction ps as [|p ps IH]; intros log d Hok; [by rewrite app_nil_r|].
  cbn [foldl]. change (drops (p :: ps)) with ([Dropped p] ++ drops ps). rewrite app_assoc.
  by apply IH, suppress_ok.
Qed.

Lemma fires_ok log d id d' : deb_ok log d -> timer_fires id d = Some d' -> deb_ok log d'.
Proof.
  intros Hok Hf. pose proof Hok as [K1 K2 K3 K4 K5 K7 K6]. unfold timer_fires in Hf.
  destruct (d_armed d !! id) as [[due p]|] eqn:Ha; [|done]. destruct (due <=? d_now d); [|done].
  injection Hf as <-. change (Z * string)%type with (Time * string)%type in *. constructor; cbn; try done.
  - intros q i Hq. destruct (K4 _ _ Hq) as [[due' Hd]|Hf].
    + destruct (decide (id = i)) as [<-|Hne].
      * right. rewrite lookup_insert_eq. rewrite Hd in Ha. by injection Ha as -> ->.
      * left. exists due'. by rewrite lookup_delete_ne.
    + right. rewrite lookup_insert_ne; [done|]. intros ->. apply K7 in Ha. congruence.
  - intros i x. destruct (decide (id = i)) as [<-|Hne]; [by rewrite lookup_delete_eq|].
    rewrite lookup_delete_ne, lookup_insert_ne by done. apply K7.
  - intros i Hi. destruct (K6 i Hi) as (F1 & F2 & F3).
    assert (id <> i) as Hne by (intros <-; congruence).
    split_and!; [by rewrite lookup_delete_ne|by rewrite lookup_insert_ne|done].
Qed.

Lemma callback_ok log d id o d' :
  deb_ok log d -> timer_callback id d = Some (o, d') ->
  deb_ok (log ++ match o with Some ev => [Emitted (d_now d) ev] | None => [] end) d' /\
  (forall ev, o = Some ev -> owed (we_Path ev) log = Some ev).
Proof.
  intros Hok Hc. pose proof Hok as [K1 K2 K3 K4 K5 K7 K6]. unfold timer_callback in Hc.
  destruct (d_flight d !! id) as [p|] eqn:Hf; [|done].
  assert (forall i x, d_armed d !! i = Some x -> delete id (d_flight d) !! i = None) as D7.
  { intros i x Hi. destruct (decide (id = i)) as [<-|]; [apply lookup_delete_eq|].
    rewrite lookup_delete_ne by done. by eapply K7. }
  assert (forall i, (d_next d <= i)%nat -> delete id (d_flight d) !! i = None) as D6.
  { intros i Hi. destruct (decide (id = i)) as [<-|]; [apply lookup_delete_eq|].
    rewrite lookup_delete_ne by done. by apply K6. }
  destruct (d_pending d !! p) as [ev|] eqn:Hp; injection Hc as <- <-.
  - assert (we_Path ev = p) as Hev by by apply K3.
    split; [|intros ev' [= <-]; by rewrite Hev, <- K1]. constructor; cbn; try done.
    + intros r. rewrite owed_snoc. cbn. rewrite Hev. destruct (String.eqb_spec p r) as [<-|];
        [by rewrite lookup_delete_eq|by rewrite lookup_delete_ne].
    + intros r. destruct (decide (p = r)) as [<-|Hne].
      * rewrite !lookup_delete_eq. split; intros [? [=]].
      * by rewrite !lookup_delete_ne.
    + intros r e. destruct (decide (p = r)) as [<-|]; [by rewrite lookup_delete_eq|].
      rewrite lookup_delete_ne by done. apply K3.
    + intros r i. destruct (decide (p = r)) as [<-|Hne]; [by rewrite lookup_delete_eq|].
      rewrite lookup_delete_ne by done. intros Hr. destruct (K4 _ _ Hr) as [?|Hfl]; [by left|right].
      rewrite lookup_delete_ne; [done|]. intros ->. congruence.
    + intros r q i. destruct (decide (p = r)) as [<-|]; [by rewrite lookup_delete_eq|].
      destruct (decide (p = q)) as [<-|]; [by rewrite lookup_delete_eq|].
      rewrite !lookup_delete_ne by done. apply K5.
    + intros i Hi. destruct (K6 i Hi) as (F1 & _ & F3). split_and!; [done|by apply D6|].
      intros r. destruct (decide (p = r)) as [<-|]; [by rewrite lookup_delete_eq|].
      rewrite lookup_delete_ne by done. apply F3.
  - split; [|done]. rewrite app_nil_r. constructor; cbn; try done.
    + intros r i Hr. destruct (K4 _ _ Hr) as [?|Hfl]; [by left|right].
      rewrite lookup_delete_ne; [done|]. intros ->. rewrite Hf in Hfl. injection Hfl as ->.
      destruct (proj1 (K2 r)) as [x Hx]; [eauto|]. congruence.
    + intros i Hi. destruct (K6 i Hi) as (F1 & _ & F3). split_and!; [done|by apply D6|done].
Qed.

Lemma do_ok log d a l d' : deb_ok log d -> debouncer_do a d = Some (l, d') -> deb_ok (log ++ l) d'.
Proof.
  intros Hok. destruct a; cbn; intros Hd.
  - injection Hd as <- <-. by apply add_ok.
  - destruct (timer_fires id d) eqn:E; [|done]. injection Hd as <- <-.
    rewrite app_nil_r. by eapply fires_ok.
  - destruct (timer_callback id d) as [[o d1]|] eqn:E; [|done]. injection Hd as <- <-.
    by eapply callback_ok in E as [E _].
  - injection Hd as <- <-. by apply suppress_ok.
  - injection Hd as <- <-. by apply suppress_all_ok.
  - injection Hd as <- <-. by apply suppress_all_ok.
  - injection Hd as <- <-. rewrite app_nil_r. by destruct Hok; constructor.
Qed.

Lemma run_ok log acts d l d' :
  deb_ok log d -> debouncer_run acts d = Some (l, d') -> deb_ok (log ++ l) d'.
Proof.
  revert log d l. induction acts as [|a acts IH]; intros log d l Hok Hr.
  - injection Hr as <- <-. by rewrite app_nil_r.
  - cbn in Hr. destruct (debouncer_do a d) as [[l1 d1]|] eqn:E1; [|done].
    destruct (debouncer_run acts d1) as [[l2 d2]|] eqn:E2; [|done]. injection Hr as <- <-.
    rewrite app_assoc. eapply IH; [|done]. by eapply do_ok.
Qed.

(** *** Statements about every emission of a log *)

Definition each_emit (P : list dlog -> Time -> WEvent -> Prop) (log : list dlog) : Prop :=
  forall l1 t ev l2, log = l1 ++ Emitted t ev :: l2 -> P l1 t ev.

Lemma each_emit_nil P : each_emit P [].
Proof. intros l1 t ev l2 E. by destruct l1. Qed.

Lemma each_emit_snoc P log e :
  each_emit P log -> (forall t ev, e = Emitted t ev -> P log t ev) -> each_emit P (log ++ [e]).
Proof.
  intros Hl He l1 t ev l2 E. destruct (last_snoc_inv l2) as [->|(l & x & ->)].
  - apply app_inj_tail in E as [<- ->]. by apply He.
  - rewrite app_comm_cons, app_assoc in E. apply app_inj_tail in E as [-> _]. by eapply Hl.
Qed.

Lemma each_emit_drops P log ps : each_emit P log -> each_emit P (log ++ drops ps).
Proof.
  revert log. induction ps as [|p ps IH]; intros log Hl; [by rewrite app_nil_r|].
  change (drops (p :: ps)) with ([Dropped p] ++ drops ps). rewrite app_assoc.
  by apply IH, each_emit_snoc.
Qed.

(** A step that only emits what a condition allows. *)
Lemma each_emit_do P log a d l d' :
  debouncer_do a d = Some (l, d') -> each_emit P log ->
  (forall id ev d', a = ACallback id -> timer_callback id d = Some (Some ev, d') -> P log (d_now d) ev) ->
  each_emit P (log ++ l).
Proof.
  intros Hd Hl Hp. destruct a; cbn in Hd.
  - injection Hd as <- _. by apply each_emit_snoc.
  - destruct (timer_fires id d); [|done]. injection Hd as <- _. by rewrite app_nil_r.
  - destruct (timer_callback id d) as [[[ev|] d1]|] eqn:E; [| |done]; injection Hd as <- _.
    + apply each_emit_snoc; [done|]. intros t ev' [= <- <-]. by eapply Hp.
    + by rewrite app_nil_r.
  - injection Hd as <- _. by apply each_emit_snoc.
  - injection Hd as <- _. by apply each_emit_drops.
  - injection Hd as <- _. by apply each_emit_drops.
  - injection Hd as <- _. by rewrite app_nil_r.
Qed.

Lemma run_emits_owed log acts d l d' :
  deb_ok log d -> each_emit (fun l1 _ ev => owed (we_Path ev) l1 = Some ev) log ->
  debouncer_run acts d = Some (l, d') ->
  each_emit (fun l1 _ ev => owed (we_Path ev) l1 = Some ev) (log ++ l).
Proof.
  revert log d l. induction acts as [|a acts IH]; intros log d l Hok He Hr.
  - injection Hr as <- <-. by rewrite app_nil_r.
  - cbn in Hr. destruct (debouncer_do a d) as [[l1 d1]|] eqn:E1; [|done].
    destruct (debouncer_run acts d1) as [[l2 d2]|] eqn:E2; [|done]. injection Hr as <- <-.
    rewrite app_assoc. eapply IH; [by eapply do_ok| |done].
    eapply each_emit_do; [done|done|]. intros id ev d3 _ Hc.
    by eapply callback_ok in Hc as [_ Hc]; [apply Hc|].
Qed.

(** *** Prompt runs

    The callback of a timer gets the mutex before anything else happens to the
    debouncer. *)
Inductive prompt : list dact -> Prop :=
| prompt_nil : prompt []
| prompt_expire id acts : prompt acts -> prompt (AFires id :: ACallback id :: acts)
| prompt_other a acts :
    match a with AFires _ | ACallback _ => False | _ => True end ->
    prompt acts -> prompt (a :: acts).

Record deb_prompt (w : Duration) (log : list dlog) (d : debouncer) : Prop := {
  pr_window : d_window d = w;
  pr_flight : d_flight d = ∅;
  pr_armed : forall id due p, d_armed d !! id = Some (due, p) ->
    d_timers d !! p = Some id /\
    forall t ev, Added t ev ∈ log -> we_Path ev = p -> t + w <= due;
  pr_now : forall t ev, Added t ev ∈ log -> t <= d_now d;
}.

Lemma Added_snoc t ev log e :
  Added t ev ∈ log ++ [e] -> Added t ev ∈ log \/ e = Added t ev.
Proof.
  intros [H|H%list_elem_of_singleton]%elem_of_app; [by left|by right].
Qed.

Lemma prompt_add w log d ev :
  deb_prompt w log d -> deb_prompt w (log ++ [Added (d_now d) ev]) (debouncer_add ev d).
Proof.
  intros [P1 P2 P3 P4]. constructor; cbn; try done.
  - intros id due p. destruct (decide (d_next d = id)) as [<-|Hne].
    + rewrite lookup_insert_eq. intros [= <- <-]. rewrite lookup_insert_eq. split; [done|].
      intros t e [Hin|[= <- <-]]%Added_snoc _; [apply P4 in Hin|]; lia.
    + rewrite lookup_insert_ne by done. unfold stop_timer. intros Ha.
      assert (d_armed d !! id = Some (due, p)) as Ha'.
      { destruct (d_timers d !! we_Path ev) as [i|] eqn:Ht; [|done].
        destruct (decide (i = id)) as [->|]; [by rewrite lookup_delete_eq in Ha|].
        by rewrite lookup_delete_ne in Ha. }
      destruct (P3 _ _ _ Ha') as [Ht Hd].
      assert (we_Path ev <> p) as Hp.
      { intros E. rewrite E, Ht in Ha. by rewrite lookup_delete_eq in Ha. }
      rewrite lookup_insert_ne by done. split; [done|].
      intros t e [Hin|[= <- <-]]%Added_snoc He; [by eapply Hd|done].
  - intros t e [Hin|[= <- <-]]%Added_snoc; [by eapply P4|lia].
Qed.

Lemma prompt_suppress w log d p : deb_prompt w log d -> deb_prompt w (log ++ [Dropped p]) (debouncer_suppress p d).
Proof.
  intros [P1 P2 P3 P4]. unfold debouncer_suppress. destruct (d_timers d !! p) as [i|] eqn:Hp.
  - constructor; cbn; try done; [|by intros t e [Hin|[=]]%Added_snoc; eapply P4].
    intros id due q. destruct (decide (i = id)) as [<-|Hne]; [by rewrite lookup_delete_eq|].
    rewrite lookup_delete_ne by done. intros [Ht Hd]%P3.
    assert (p <> q) by (intros ->; congruence). rewrite lookup_delete_ne by done. split; [done|].
    intros t e [Hin|[=]]%Added_snoc. by apply Hd.
  - constructor; cbn; try done; [|by intros t e [Hin|[=]]%Added_snoc; eapply P4].
    intros id due q [Ht Hd]%P3. split; [done|]. intros t e [Hin|[=]]%Added_snoc. by apply Hd.
Qed.

Lemma prompt_suppress_all w log d ps :
  deb_prompt w log d -> deb_prompt w (log ++ drops ps) (foldl (fun d p => debouncer_suppress p d) d ps).
Proof.
  revert log d. induction ps as [|p ps IH]; intros log d Hp; [by rewrite app_nil_r|].
  cbn [foldl]. change (drops (p :: ps)) with ([Dropped p] ++ drops ps). rewrite app_assoc.
  by apply IH, prompt_suppress.
Qed.

Definition waited (w : Duration) (l1 : list dlog) (t : Time) (ev : WEvent) : Prop :=
  forall t' ev', Added t' ev' ∈ l1 -> we_Path ev' = we_Path ev -> t' + w <= t.

(** Firing and running the callback at once. *)
Lemma prompt_expire_step w log d id d1 o d2 :
  deb_ok log d -> deb_prompt w log d -> timer_fires id d = Some d1 ->
  timer_callback id d1 = Some (o, d2) ->
  exists ev, o = Some ev /\ waited w log (d_now d) ev /\ d_now d1 = d_now d /\
    deb_prompt w (log ++ [Emitted (d_now d) ev]) d2.
Proof.
  intros Hok [P1 P2 P3 P4] Hf Hc. unfold timer_fires in Hf.
  destruct (d_armed d !! id) as [[due p]|] eqn:Ha; [|done].
  destruct (Z.leb_spec due (d_now d)) as [Hdue|]; [|done]. injection Hf as <-.
  destruct (P3 _ _ _ Ha) as [Ht Hd]. unfold timer_callback in Hc. cbn in Hc.
  rewrite lookup_insert_eq in Hc.
  destruct (proj1 (ok_dom _ _ Hok p)) as [ev Hev]; [eauto|]. rewrite Hev in Hc. injection Hc as <- <-.
  assert (we_Path ev = p) as Hpath by by eapply ok_path.
  exists ev. split; [done|]. split; [|split; [done|]].
  { intros t' e' Hin He. rewrite Hpath in He. specialize (Hd _ _ Hin He). lia. }
  constructor; cbn; try done.
  - rewrite delete_insert_eq, P2. by apply delete_empty.
  - intros i due' q. destruct (decide (id = i)) as [<-|Hne]; [by rewrite lookup_delete_eq|].
    rewrite lookup_delete_ne by done. intros [Hq Hdq]%P3.
    assert (p <> q) by (intros ->; congruence). rewrite lookup_delete_ne by done. split; [done|].
    intros t e [Hin|[=]]%Added_snoc. by apply Hdq.
  - intros t e [Hin|[=]]%Added_snoc. by eapply P4.
Qed.

Lemma prompt_run w log acts d l d' :
  prompt acts -> deb_ok log d -> deb_prompt w log d -> each_emit (waited w) log ->
  debouncer_run acts d = Some (l, d') -> each_emit (waited w) (log ++ l).
Proof.
  intros Hp. revert log d l. induction Hp as [|id acts Hp IH|a acts Ha Hp IH]; intros log d l Hok Hpr He Hr.
  - injection Hr as <- <-. by rewrite app_nil_r.
  - cbn in Hr. destruct (timer_fires id d) as [d1|] eqn:Ef; [|done]. cbn in Hr.
    destruct (timer_callback id d1) as [[o d2]|] eqn:Ec; [|done]. cbn in Hr.
    destruct (debouncer_run acts d2) as [[l2 d3]|] eqn:Er; [|done]. injection Hr as <- <-.
    destruct (prompt_expire_step w log d id d1 o d2) as (ev & -> & Hw & Hnow & Hpr2); [done..|].
    cbn [app]. change (Emitted (d_now d1) ev :: l2) with ([Emitted (d_now d1) ev] ++ l2).
    rewrite Hnow, app_assoc. eapply (IH _ d2); [|done| |done].
    + eapply fires_ok in Ef; [|done]. eapply callback_ok in Ec as [Ec _]; [|done]. by rewrite Hnow in Ec.
    + apply each_emit_snoc; [done|]. by intros t e [= <- <-].
  - cbn in Hr. destruct (debouncer_do a d) as [[l1 d1]|] eqn:E1; [|done].
    destruct (debouncer_run acts d1) as [[l2 d2]|] eqn:E2; [|done]. injection Hr as <- <-.
    rewrite app_assoc. eapply IH; [by eapply do_ok| | |done].
    + destruct a; try done; injection E1 as <- <-.
      * by apply prompt_add.
      * by apply prompt_suppress.
      * by apply prompt_suppress_all.
      * by apply prompt_suppress_all.
      * rewrite app_nil_r. destruct Hpr as [P1 P2 P3 P4]. constructor; cbn; try done.
        intros t e Hin. apply P4 in Hin. lia.
    + eapply each_emit_do; [done|done|]. intros id ev d3 ->. done.
Qed.

Lemma newDebouncer_prompt w t : deb_prompt w [] (newDebouncer w t).
Proof.
  constructor; cbn; try done.
  by intros t' ev ?%elem_of_nil.
Qed.

Lemma timer_fires_due id d due p ev :
  d_armed d !! id = Some (due, p) -> d_pending d !! p = Some ev -> due <= d_now d ->
  exists d2, timer_fires id d = Some d2 /\ d_flight d2 !! id = Some p /\ d_pending d2 !! p = Some ev.
Proof.
  intros Ha Hp Hd. unfold timer_fires. destruct (d_armed d !! id) as [[due' p']|]; [|done].
  injection Ha as -> ->. destruct (Z.leb_spec due (d_now d)); [|lia].
  eexists. split; [reflexivity|]. cbn. split; [apply lookup_insert_eq|done].
Qed.

(** A path that is owed an event gets it once its callback runs. *)
Lemma owed_emitted log d p ev :
  deb_ok log d -> d_pending d !! p = Some ev ->
  exists acts l d' t, debouncer_run acts d = Some (l, d') /\ Emitted t ev ∈ l /\
    Forall (fun a => match a with AWait _ | AFires _ | ACallback _ => True | _ => False end) acts.
Proof.
  intros Hok Hp. destruct (proj2 (ok_dom _ _ Hok p)) as [id Ht]; [eauto|].
  destruct (ok_timer _ _ Hok _ _ Ht) as [[due Ha]|Hf].
  - set (d1 := wait (due - d_now d) d).
    assert (exists d2, timer_fires id d1 = Some d2 /\ d_flight d2 !! id = Some p /\
      d_pending d2 !! p = Some ev) as (d2 & Ef & Hfl & Hpe).
    { apply (timer_fires_due _ _ due); [exact Ha|exact Hp|]. unfold d1. cbn. lia. }
    exists [AWait (due - d_now d); AFires id; ACallback id].
    cbn [debouncer_run debouncer_do]. fold d1. rewrite Ef. cbn [option_map].
    unfold timer_callback. rewrite Hfl, Hpe. cbn [option_map app].
    eexists _, _, _. split; [reflexivity|]. split; [by left|]. by repeat constructor.
  - exists [ACallback id]. cbn [debouncer_run debouncer_do]. unfold timer_callback.
    rewrite Hf, Hp. cbn [option_map app].
    eexists _, _, _. split; [reflexivity|]. split; [by left|]. by repeat constructor.
Qed.

(** ** Properties *)

(** C38: debouncing neither loses nor invents events, however timers, callbacks
    and calls interleave: an emitted event is the coalescing of what was added
    for its path since the last emission or drop (a Create survives the Write
    after it), and whatever is owed to a path is pending and is emitted once
    the callback that is under way for it runs. *)
Theorem debouncer_emits_owed window t0 acts log d :
  debouncer_run acts (newDebouncer window t0) = Some (log, d) ->
  (forall l1 t ev l2, log = l1 ++ Emitted t ev :: l2 -> owed (we_Path ev) l1 = Some ev) /\
  (forall p ev, owed p log = Some ev ->
     d_pending d !! p = Some ev /\
     exists acts' l d' t, debouncer_run acts' d = Some (l, d') /\ Emitted t ev ∈ l /\
       Forall (fun a => match a with AWait _ | AFires _ | ACallback _ => True | _ => False end) acts').
Proof.
  intros Hr. split.
  - eapply (run_emits_owed [] acts _ _ _ (newDebouncer_ok window t0)); [apply each_emit_nil|done].
  - pose proof (run_ok [] _ _ _ _ (newDebouncer_ok window t0) Hr) as Hok.
    intros p ev Ho. assert (d_pending d !! p = Some ev) as Hp by (rewrite (ok_owed _ _ Hok); exact Ho).
    split; [done|]. by eapply owed_emitted.
Qed.

(** The debounce window: when each expiring timer's callback gets the mutex
    before the next call, an event is emitted only after the whole window has
    passed since every event added for its path. *)
Theorem debouncer_window window t0 acts log d :
  prompt acts -> debouncer_run acts (newDebouncer window t0) = Some (log, d) ->
  forall l1 t ev l2, log = l1 ++ Emitted t ev :: l2 ->
    forall t' ev', Added t' ev' ∈ l1 -> we_Path ev' = we_Path ev -> t' + window <= t.
Proof.
  intros Hp Hr.
  exact (prompt_run window [] acts _ _ _ Hp (newDebouncer_ok window t0) (newDebouncer_prompt window t0)
    (each_emit_nil _) Hr).
Qed.

(** ** Witnesses *)

Definition demo_create : WEvent := mkWEvent "/home/a" WCreate 1.

Definition demo_write : WEvent := mkWEvent "/home/a" WWrite 2.

(** A create, a write within the window, and the second timer's expiry. *)
Definition demo_acts : list dact :=
  [AAdd demo_create; AWait Second; AAdd demo_write; AWait (2 * Second); AFires 1; ACallback 1].

Definition demo_log : list dlog :=
  [Added 0 demo_create; Added Second demo_write; Emitted (3 * Second) demo_create].

Lemma debouncer_emits_owed_witness :
  fst <$> debouncer_run demo_acts (newDebouncer (2 * Second) 0) = Some demo_log /\
  owed "/home/a" [Added 0 demo_create; Added Second demo_write] = Some demo_create.
Proof.
  destruct (debouncer_run demo_acts (newDebouncer (2 * Second) 0)) as [[log d]|] eqn:E.
  - assert (log = demo_log) as -> by (vm_compute in E; by injection E as <- _).
    split; [done|]. destruct (debouncer_emits_owed (2 * Second) 0 demo_acts demo_log d E) as [H _].
    by apply (H [Added 0 demo_create; Added Second demo_write] (3 * Second) demo_create []).
  - exfalso. vm_compute in E. discriminate.
Defined.

Lemma debouncer_window_witness : Second + 2 * Second <= 3 * Second.
Proof.
  destruct (debouncer_run demo_acts (newDebouncer (2 * Second) 0)) as [[log d]|] eqn:E.
  - assert (log = demo_log) as -> by (vm_compute in E; by injection E as <- _).
    apply (debouncer_window (2 * Second) 0 demo_acts demo_log d) with
      (l1 := [Added 0 demo_create; Added Second demo_write]) (ev := demo_create) (l2 := [])
      (ev' := demo_write); [|exact E|reflexivity|right; by left|reflexivity].
    repeat first [apply prompt_nil|apply prompt_expire|apply prompt_other; [exact I|]].
  - exfalso. vm_compute in E. discriminate.
Defined.

(** Without promptness the window can be missed: a callback that is already
    waiting for the mutex when a new event is added cannot be stopped, and
    emits that event at once. *)
Example debouncer_race :
  fst <$> debouncer_run [AAdd demo_create; AWait (2 * Second); AFires 0; AAdd demo_write; ACallback 0]
    (newDebouncer (2 * Second) 0)
  = Some [Added 0 demo_create; Added (2 * Second) demo_write; Emitted (2 * Second) demo_create].
Proof. reflexivity. Qed.
