(* ===== verification/Watcher.v ===== *)
(** [internal/watcher]: the rename pairer (pairer.go) and the watcher
    (watcher.go) around the debouncer, with the echo guard's store adapter of
    [cmd/homedrive/adapters.go]. A handler runs without interleaving; timer
    callbacks run between handlers, in any order. *)
From S2P Require Import Prelude.
From S2P Require Import GoStrings.
From S2P Require Import GoRuntime.
From S2P Require Import GoPath.
From S2P Require Import LocalFS.
From S2P Require Import Remote.
From S2P Require Import MemFS.
From S2P Require Import Bolt.
From S2P Require Import Journal.
From S2P Require Import World.
From S2P Require Import PullConflict.
From S2P Require Import Pull.
From S2P Require Import BisyncJournal.
From S2P Require Import PathFilter.
From S2P Require Import Debouncer.

(** ** Definitions *)

(** [fsnotify.Watcher], a third-party package: its state and two calls. *)
Class Fsnotify (F : Type) := {
  fsw_Add : string -> ST F (result unit);
  fsw_Remove : string -> ST F (result unit);
}.

(** [fsnotify.Event]: the flags [Has] asks for. *)
Record FSEvent := mkFSEvent {
  fe_Name : string;
  fe_Create : bool;
  fe_Write : bool;
  fe_Remove : bool;
  fe_Rename : bool;
}.

(** A buffered rename and the identity of its timer. *)
Record renameEntry := mkRenameEntry { re_path : string; re_at : Time; re_timer : nat }.

(** [p_armed] is the runtime's heap of the pairer's timers: due time and the
    path the callback expires. *)
Record pairer := mkPairer {
  p_window : Duration;
  p_pending : gmap string renameEntry;
  p_recentCreates : gmap string Time;
  p_suppressedPrefixes : gmap string Time;
  p_watchedDirs : gset string;
  p_armed : gmap nat (Time * string);
  p_next : nat;
}.

Definition newPairer (window : Duration) : pairer := mkPairer window ∅ ∅ ∅ ∅ ∅ 0.

Definition set_recent (m : gmap string Time) (p : pairer) : pairer :=
  mkPairer (p_window p) (p_pending p) m (p_suppressedPrefixes p) (p_watchedDirs p) (p_armed p) (p_next p).

Definition set_suppressed (m : gmap string Time) (p : pairer) : pairer :=
  mkPairer (p_window p) (p_pending p) (p_recentCreates p) m (p_watchedDirs p) (p_armed p) (p_next p).

Definition set_dirs (s : gset string) (p : pairer) : pairer :=
  mkPairer (p_window p) (p_pending p) (p_recentCreates p) (p_suppressedPrefixes p) s (p_armed p) (p_next p).

Definition set_pending (m : gmap string renameEntry) (armed : gmap nat (Time * string)) (p : pairer) :
    pairer :=
  mkPairer (p_window p) m (p_recentCreates p) (p_suppressedPrefixes p) (p_watchedDirs p) armed (p_next p).

Definition trackDir (path : string) (p : pairer) : pairer := set_dirs ({[path]} ∪ p_watchedDirs p) p.

Definition untrackDir (path : string) (p : pairer) : pairer := set_dirs (p_watchedDirs p ∖ {[path]}) p.

Definition isTrackedDir (path : string) (p : pairer) : bool := bool_decide (path ∈ p_watchedDirs p).

Definition sep : string := "/".

(** Both directories of a pair, until the end of the window. *)
Definition suppress_pair (from to : string) (until : Time) (p : pairer) : pairer :=
  set_suppressed (<[to +:+ sep := until]> (<[from +:+ sep := until]> (p_suppressedPrefixes p))) p.

(** The loop of [handleRename] over [recentCreates]: expired entries go, the
    oldest of the others is the match. *)
Fixpoint scan_creates (cutoff : Time) (l : list (string * Time)) (m : gmap string Time)
    (matchDst : string) (matchAt : Time) : gmap string Time * string :=
  match l with
  | [] => (m, matchDst)
  | (dst, createAt) :: l =>
      if Before createAt cutoff then scan_creates cutoff l (delete dst m) matchDst matchAt
      else if String.eqb matchDst "" || Before createAt matchAt
      then scan_creates cutoff l m dst createAt
      else scan_creates cutoff l m matchDst matchAt
  end.

(** The loop of [handleCreate]: the oldest pending rename. *)
Fixpoint oldest_pending (l : list (string * renameEntry)) (best : option (string * renameEntry)) :
    option (string * renameEntry) :=
  match l with
  | [] => best
  | (key, entry) :: l =>
      match best with
      | None => oldest_pending l (Some (key, entry))
      | Some (_, b) =>
          if Before (re_at entry) (re_at b) then oldest_pending l (Some (key, entry))
          else oldest_pending l best
      end
  end.

(** The loop of [isSuppressed]: it stops at the first prefix that matches. *)
Fixpoint scan_suppressed (now : Time) (path : string) (l : list (string * Time)) (m : gmap string Time) :
    bool * gmap string Time :=
  match l with
  | [] => (false, m)
  | (prefix, until) :: l =>
      if After now until then scan_suppressed now path l (delete prefix m)
      else if String.eqb path (TrimSuffix prefix sep) || HasPrefix path prefix then (true, m)
      else scan_suppressed now path l m
  end.

(** Buffering a rename arms its timer; an older entry of the path is replaced
    without stopping its timer. *)
Definition buffer_rename (path : string) (at_ due : Time) (p : pairer) : pairer :=
  mkPairer (p_window p) (<[path := mkRenameEntry path at_ (p_next p)]> (p_pending p))
    (p_recentCreates p) (p_suppressedPrefixes p) (p_watchedDirs p)
    (<[p_next p := (due, path)]> (p_armed p)) (S (p_next p)).

(** [expireRename], run by a timer's callback. *)
Definition expireRename (path : string) (p : pairer) : option WEvent * pairer :=
  match p_pending p !! path with
  | None => (None, p)
  | Some entry =>
      (Some (mkWEvent path WRename (re_at entry)), set_pending (delete path (p_pending p)) (p_armed p) p)
  end.

Definition pairer_stop (p : pairer) : pairer :=
  mkPairer (p_window p) ∅ ∅ ∅ (p_watchedDirs p)
    (foldl (fun armed kv => delete (re_timer (snd kv)) armed) (p_armed p) (map_to_list (p_pending p)))
    (p_next p).

(** *** The watcher *)

Record WatcherConfig := mkWatcherConfig {
  wc_LocalRoot : string;
  wc_Debounce : Duration;
  wc_DirRenamePairWindow : Duration;
  wc_Exclude : list string;
}.

Definition DefaultWatcherConfig : WatcherConfig := mkWatcherConfig "" (2 * Second) (500 * Millisecond) [].

(** The mutable part: the channel is the list of the events in it. *)
Record WatcherState (F : Type) := mkWatcherState {
  ws_deb : debouncer;
  ws_pairer : pairer;
  ws_fsw : F;
  ws_events : list WatchEvent;
  ws_stopped : bool;
}.
Arguments mkWatcherState {F} _ _ _ _ _.
Arguments ws_deb {F} _.
Arguments ws_pairer {F} _.
Arguments ws_fsw {F} _.
Arguments ws_events {F} _.
Arguments ws_stopped {F} _.

(** [make(chan WatchEvent, 1024)]. *)
Definition chan_cap : nat := 1024.

Definition ErrInvalidConfig : error := EText "watcher: invalid configuration".

(** [fsw] is what [fsnotify.NewWatcher] returns. *)
Definition NewWatcher {F} (cfg : WatcherConfig) (fsw : result F) (t : Time) :
    result (WatcherConfig * WatcherState F) :=
  if String.eqb (wc_LocalRoot cfg) ""
  then Err (EWrap "watcher: local_root must be set" ErrInvalidConfig)
  else
    let debounce := if wc_Debounce cfg =? 0 then wc_Debounce DefaultWatcherConfig else wc_Debounce cfg in
    let window := if wc_DirRenamePairWindow cfg =? 0 then wc_DirRenamePairWindow DefaultWatcherConfig
                  else wc_DirRenamePairWindow cfg in
    match fsw with
    | Err e => Err (EWrap "watcher: creating fsnotify watcher" e)
    | Ok fsw =>
        Ok (mkWatcherConfig (wc_LocalRoot cfg) debounce window (wc_Exclude cfg),
            mkWatcherState (newDebouncer debounce t) (newPairer window) fsw [] false)
    end.

Section watcher.
Context {R S F : Type} `{Fsnotify F} `{Env}.
Abbreviation W := (World R S).

Variable cfg : WatcherConfig.
Variable doublestar_Match : string -> string -> bool.

(** The [SyncStore]; [None] where it is nil. *)
Variable store : option (string -> ST W (option SyncRecord)).

Definition WM (A : Type) : Type := ST (W * WatcherState F) A.

Definition watch_excluded (path : string) : bool :=
  filter_excluded doublestar_Match (newFilter (wc_LocalRoot cfg) (wc_Exclude cfg)) path.

Definition on_deb (f : debouncer -> debouncer) : WM unit :=
  in_state (fun st => (tt,
    mkWatcherState (f (ws_deb st)) (ws_pairer st) (ws_fsw st) (ws_events st) (ws_stopped st))).

Definition on_pairer {A} (m : ST pairer A) : WM A :=
  in_state (fun st => let '(a, p) := m (ws_pairer st) in
    (a, mkWatcherState (ws_deb st) p (ws_fsw st) (ws_events st) (ws_stopped st))).

Definition on_fsw {A} (m : ST F A) : WM A :=
  in_state (fun st => let '(a, f) := m (ws_fsw st) in
    (a, mkWatcherState (ws_deb st) (ws_pairer st) f (ws_events st) (ws_stopped st))).

(** The non-blocking send: a full channel drops the event. *)
Definition send (e : WatchEvent) : WM unit :=
  in_state (fun st => (tt,
    if (length (ws_events st) <? chan_cap)%nat
    then mkWatcherState (ws_deb st) (ws_pairer st) (ws_fsw st) (ws_events st ++ [e]) (ws_stopped st)
    else st)).

Definition emitEvent (ev : WEvent) : WM unit := send (WatchFile ev).

(** *** The echo guard *)

Definition isSelfInduced (get : string -> ST W (option SyncRecord)) (path : string) : ST W bool :=
  let* rec := get path in
  match rec with
  | None => st_ret false
  | Some rec =>
      let* info := on_fs (os_Stat path) in
      st_ret (match info with
              | Err _ => false
              | Ok info => (abs_sub (ModTime info) (sr_LocalMtime rec) <=? Second)
                           && (Size info =? sr_Size rec)
              end)
  end.

Definition suppressSelfInduced (path : string) (op : WOp) : ST W bool :=
  match store with
  | None => st_ret false
  | Some get =>
      if bool_decide (op = WWrite) || bool_decide (op = WCreate) then isSelfInduced get path
      else st_ret false
  end.

(** [time.AfterFunc] reads the clock. *)
Definition at_time (t : Time) (d : debouncer) : debouncer :=
  mkDebouncer (d_window d) (d_timers d) (d_pending d) (d_armed d) (d_flight d) (d_next d) t.

Definition debouncePath (path : string) (op : WOp) (at_ : Time) : WM unit :=
  let* self := in_world (suppressSelfInduced path op) in
  if self : bool then st_ret tt
  else
    let* t := in_world now in
    on_deb (fun d => debouncer_add (mkWEvent path op at_) (at_time t d)).

(** The debouncer's callback. *)
Definition fireEvent (ev : WEvent) : WM unit :=
  let* self := in_world (suppressSelfInduced (we_Path ev) (we_Op ev)) in
  if self : bool then st_ret tt else emitEvent ev.

(** *** Watches *)

Definition addWatch (path : string) : WM (result unit) :=
  let? _ := on_fsw (fsw_Add path) ?: "watcher: adding watch on " +:+ path in
  on_pairer (fun p => (tt, trackDir path p)) ;;
  st_ret (Ok tt).

Definition removeWatch (path : string) : WM unit :=
  on_fsw (fsw_Remove path) ;;
  on_pairer (fun p => (tt, untrackDir path p)).

(** The path of a visited node: the root as it was given, anything else
    cleaned. *)
Definition visited (root : string) (k : list string) : string :=
  if bool_decide (k = path_key root) then root else "/" +:+ Join k "/".

(** Below an excluded folder, itself included, nothing is visited;
    [skip_root] is whether the root itself is exempt. *)
Definition walk_skips (root : string) (skip_root : bool) (k : list string) (dir : bool) : bool :=
  existsb (fun n =>
    let a := take (length (path_key root) + n)%nat k in
    watch_excluded (visited root a) && negb (skip_root && bool_decide (a = path_key root))
    && (dir || negb (bool_decide (a = k))))
    (seq 0 (Datatypes.S (length k - length (path_key root))%nat)).

Fixpoint walk_new (root : string) (emit_ : bool) (nodes : list (list string * node)) : WM unit :=
  match nodes with
  | [] => st_ret tt
  | (k, n) :: nodes =>
      let path := visited root k in
      (if walk_skips root true k (negb (is_file n)) then st_ret tt
       else if is_file n then
         if emit_ && negb (watch_excluded path) then
           let* t := in_world now in debouncePath path WCreate t
         else st_ret tt
       else if bool_decide (k = path_key root) then st_ret tt
       else let* _ := addWatch path in st_ret tt) ;;
      walk_new root emit_ nodes
  end.

Definition walkNewDir (root : string) (emit_ : bool) : WM unit :=
  let* r := in_world (on_fs (os_WalkDir root)) in
  match r with
  | Err _ => st_ret tt
  | Ok nodes =>
      let* nodes := in_world (ranged nodes) in
      walk_new root emit_ nodes
  end.

Fixpoint walk_initial (root : string) (nodes : list (list string * node)) : WM (result unit) :=
  match nodes with
  | [] => st_ret (Ok tt)
  | (k, n) :: nodes =>
      if is_file n || walk_skips root false k true then walk_initial root nodes
      else
        let? _ := addWatch (visited root k) in
        walk_initial root nodes
  end.

(** A root that cannot be read is only logged. *)
Definition initialWalk : WM (result unit) :=
  let root := wc_LocalRoot cfg in
  let* r := in_world (on_fs (os_WalkDir root)) in
  match r with
  | Err _ => st_ret (Ok tt)
  | Ok nodes =>
      let* nodes := in_world (ranged nodes) in
      walk_initial root nodes
  end.

Fixpoint remove_watches (dirs : list string) : WM unit :=
  match dirs with
  | [] => st_ret tt
  | dir :: dirs => removeWatch dir ;; remove_watches dirs
  end.

Definition removeSubtreeWatches (root : string) : WM unit :=
  removeWatch root ;;
  let* dirs := on_pairer (fun p =>
    (base.filter (fun d => HasPrefix d (root +:+ sep) = true /\ d <> root +:+ sep)
       (elements (p_watchedDirs p)), p)) in
  let* dirs := in_world (ranged dirs) in
  remove_watches dirs.

(** *** Pairs *)

Definition onDirRenamePaired (dr : WDirRenamed) : WM unit :=
  removeSubtreeWatches (wd_From dr) ;;
  let* _ := addWatch (wd_To dr) in
  walkNewDir (wd_To dr) false ;;
  on_deb (debouncer_suppress (wd_To dr)) ;;
  on_deb (debouncer_suppressPrefix (wd_From dr +:+ sep)) ;;
  on_deb (debouncer_suppressPrefix (wd_To dr +:+ sep)) ;;
  send (WatchDirRename dr).

Definition onDirRenameUnpaired (ev : WEvent) : WM unit := emitEvent ev.

Definition get_pairer : WM pairer := on_pairer (fun p => (p, p)).

Definition handleRename (path : string) (at_ : Time) : WM bool :=
  let* p := get_pairer in
  if negb (isTrackedDir path p) then st_ret false
  else
    let* creates := in_world (ranged (map_to_list (p_recentCreates p))) in
    let '(recent, matchDst) :=
      scan_creates (at_ - p_window p) creates (p_recentCreates p) "" 0 in
    on_pairer (fun p => (tt, set_recent recent p)) ;;
    if negb (String.eqb matchDst "") then
      on_pairer (fun p => (tt, set_recent (delete matchDst recent) p)) ;;
      let* t := in_world now in
      on_pairer (fun p => (tt, suppress_pair path matchDst (t + p_window p) p)) ;;
      onDirRenamePaired (mkWDirRenamed path matchDst at_) ;;
      st_ret true
    else
      let* t := in_world now in
      on_pairer (fun p => (tt, buffer_rename path at_ (t + p_window p) p)) ;;
      st_ret true.

Definition handleCreate (path : string) (at_ : Time) : WM bool :=
  let* info := in_world (on_fs (os_Stat path)) in
  match info with
  | Ok info =>
      if negb (IsDir info) then st_ret false
      else
        let* p := get_pairer in
        let* pending := in_world (ranged (map_to_list (p_pending p))) in
        match oldest_pending pending None with
        | None => on_pairer (fun p => (tt, set_recent (<[path := at_]> (p_recentCreates p)) p)) ;; st_ret false
        | Some (key, entry) =>
            on_pairer (fun p => (tt,
              set_pending (delete key (p_pending p)) (delete (re_timer entry) (p_armed p)) p)) ;;
            let* t := in_world now in
            on_pairer (fun p => (tt, suppress_pair key path (t + p_window p) p)) ;;
            onDirRenamePaired (mkWDirRenamed key path at_) ;;
            st_ret true
        end
  | Err _ => st_ret false
  end.

Definition isSuppressed (path : string) : WM bool :=
  let* t := in_world now in
  let* p := get_pairer in
  let* prefixes := in_world (ranged (map_to_list (p_suppressedPrefixes p))) in
  let '(b, m) := scan_suppressed t path prefixes (p_suppressedPrefixes p) in
  on_pairer (fun p => (b, set_suppressed m p)).

(** *** Events of the kernel and of the timers *)

Definition handle_new (path : string) : WM unit :=
  let* info := in_world (on_fs (os_Stat path)) in
  match info with
  | Ok info =>
      if IsDir info then let* _ := addWatch path in walkNewDir path true else st_ret tt
  | Err _ => st_ret tt
  end.

Definition handleFSEvent (ev : FSEvent) : WM unit :=
  let path := fe_Name ev in
  if watch_excluded path then st_ret tt
  else
    let* suppressed := isSuppressed path in
    if suppressed : bool then st_ret tt
    else
      let* t := in_world now in
      if fe_Rename ev then
        let* consumed := handleRename path t in
        if consumed : bool then st_ret tt else debouncePath path WRename t
      else if fe_Create ev then
        let* consumed := handleCreate path t in
        if consumed : bool then st_ret tt
        else handle_new path ;; debouncePath path WCreate t
      else if fe_Write ev then debouncePath path WWrite t
      else if fe_Remove ev then
        on_pairer (fun p => (tt, untrackDir path p)) ;; debouncePath path WRemove t
      else st_ret tt.

(** The callback of a debounce timer whose goroutine got the mutex. *)
Definition deb_callback (id : nat) : WM unit :=
  let* o := in_state (fun st => match timer_callback id (ws_deb st) with
    | Some (o, d) => (o, mkWatcherState d (ws_pairer st) (ws_fsw st) (ws_events st) (ws_stopped st))
    | None => (None, st)
    end) in
  match o with Some ev => fireEvent ev | None => st_ret tt end.

(** The callback of a pair timer. *)
Definition pair_callback (id : nat) : WM unit :=
  let* o := on_pairer (fun p => match p_armed p !! id with
    | Some (_, path) => expireRename path (set_pending (p_pending p) (delete id (p_armed p)) p)
    | None => (None, p)
    end) in
  match o with Some ev => onDirRenameUnpaired ev | None => st_ret tt end.

Definition Stop : WM unit :=
  in_state (fun st => (tt,
    if ws_stopped st then st
    else mkWatcherState (debouncer_stop (ws_deb st)) (pairer_stop (ws_pairer st)) (ws_fsw st)
           (ws_events st) true)).

End watcher.

(** *** The window after a pair *)

(** What can happen to the watcher while a suppression window is open: an event
    of the kernel, of any path, read off a clock past reading [n] and not past
    [until]; a pair timer's callback; any step of the debouncer; any send or
    receive on the channel. The world may change in between. *)
Inductive window_step {R S F : Type} `{Fsnotify F} `{Env} (cfg : WatcherConfig)
    (dmatch : string -> string -> bool) (store : option (string -> ST (World R S) (option SyncRecord)))
    (n : nat) (until : Time) : WatcherState F -> WatcherState F -> Prop :=
| window_event ev w st :
    (n <= w_tick w)%nat -> env_now (w_tick w) <= until ->
    window_step cfg dmatch store n until st
      (snd (snd (handleFSEvent cfg dmatch store ev (w, st))))
| window_timer id (w : World R S) st :
    window_step cfg dmatch store n until st (snd (snd (pair_callback id (w, st))))
| window_debouncer d st :
    window_step cfg dmatch store n until st
      (mkWatcherState d (ws_pairer st) (ws_fsw st) (ws_events st) (ws_stopped st))
| window_channel q st :
    window_step cfg dmatch store n until st
      (mkWatcherState (ws_deb st) (ws_pairer st) (ws_fsw st) q (ws_stopped st)).

(** *** The store behind the guard *)

Section adapter.
Context {R S : Type} `{BJournal S}.

(** [watcherStoreAdapter.GetSyncRecord]: the size is the file's own. *)
Definition watcherStoreAdapter_GetSyncRecord (root path : string) : ST (World R S) (option SyncRecord) :=
  let* entry := on_store (BGet (relToRoot root path)) in
  match entry with
  | Ok (Some entry) =>
      let* info := on_fs (os_Stat path) in
      st_ret (match info with
              | Ok info => Some (mkSyncRecord (je_LocalMtime entry) (Size info))
              | Err _ => None
              end)
  | _ => st_ret None
  end.

End adapter.

(** ** Lemmas *)

(** *** What the directory bookkeeping leaves alone *)

Section quiet_watcher.
Context {R S F : Type} `{Fsnotify F} `{Env}.
Abbreviation W := (World R S).

(** The world's data, the channel, and the pairer but for its watched
    directories. *)
Definition bookkeeping (x y : W * WatcherState F) : Prop :=
  same_data (fst x) (fst y) /\ ws_events (snd y) = ws_events (snd x) /\
  set_dirs ∅ (ws_pairer (snd y)) = set_dirs ∅ (ws_pairer (snd x)).

#[export] Instance bookkeeping_preorder : PreOrder bookkeeping.
Proof.
  unfold bookkeeping. split; [intros x; by split_and!|].
  intros x y z (K1 & K2 & K3) (K4 & K5 & K6). split_and!; [by etrans|congruence..].
Qed.

Lemma book_ret {A} (a : A) : preserves bookkeeping (st_ret a).
Proof. apply preserves_ret. typeclasses eauto. Qed.

Lemma book_bind {A B} (m : WM A) (k : A -> WM B) :
  preserves bookkeeping m -> (forall a, preserves bookkeeping (k a)) -> preserves bookkeeping (st_bind m k).
Proof. apply preserves_bind. typeclasses eauto. Qed.

Lemma book_world {A} (m : ST W A) : quiet m -> preserves bookkeeping (in_world m).
Proof.
  intros Hm [w st]. unfold in_world, bookkeeping. specialize (Hm w). by destruct (m w).
Qed.

Lemma book_deb f : preserves bookkeeping (on_deb f).
Proof. by intros [w st]. Qed.

Lemma book_fsw {A} (m : ST F A) : preserves bookkeeping (on_fsw m).
Proof. intros [w st]. unfold on_fsw, in_state, bookkeeping. by destruct (m (ws_fsw st)). Qed.

Lemma book_dirs {A} (m : ST pairer A) :
  (forall p, set_dirs ∅ (snd (m p)) = set_dirs ∅ p) -> preserves bookkeeping (on_pairer m).
Proof.
  intros Hm [w st]. unfold on_pairer, in_state, bookkeeping. specialize (Hm (ws_pairer st)).
  by destruct (m (ws_pairer st)).
Qed.

Lemma book_addWatch path : preserves bookkeeping (addWatch path).
Proof.
  unfold addWatch. apply preserves_try; [typeclasses eauto|apply book_fsw|intros _].
  apply book_bind; [by apply book_dirs|intros; apply book_ret].
Qed.

Lemma book_removeWatch path : preserves bookkeeping (removeWatch path).
Proof. unfold removeWatch. apply book_bind; [apply book_fsw|intros; by apply book_dirs]. Qed.

Lemma book_remove_watches dirs : preserves bookkeeping (remove_watches dirs).
Proof.
  induction dirs as [|d dirs IH]; [apply book_ret|]. cbn [remove_watches].
  apply book_bind; [apply book_removeWatch|intros; exact IH].
Qed.

Lemma book_removeSubtree root : preserves bookkeeping (removeSubtreeWatches root).
Proof.
  unfold removeSubtreeWatches. apply book_bind; [apply book_removeWatch|intros _].
  apply book_bind; [by apply book_dirs|intros dirs].
  apply book_bind; [apply book_world, quiet_ranged|intros; apply book_remove_watches].
Qed.

Context (cfg : WatcherConfig) (dmatch : string -> string -> bool)
  (store : option (string -> ST W (option SyncRecord))).

Lemma book_walk_new root nodes : preserves bookkeeping (walk_new cfg dmatch store root false nodes).
Proof.
  induction nodes as [|[k n] nodes IH]; [apply book_ret|]. cbn [walk_new andb].
  apply book_bind; [|intros; exact IH].
  destruct (walk_skips _ _ _ _ _ _); [apply book_ret|]. destruct (is_file n); [apply book_ret|].
  destruct (bool_decide _); [apply book_ret|].
  apply book_bind; [apply book_addWatch|intros; apply book_ret].
Qed.

Lemma book_walkNewDir root : preserves bookkeeping (walkNewDir cfg dmatch store root false).
Proof.
  unfold walkNewDir. apply book_bind; [apply book_world, quiet_fs, os_WalkDir_state|intros [nodes|e]].
  - apply book_bind; [apply book_world, quiet_ranged|intros; apply book_walk_new].
  - apply book_ret.
Qed.

(** All of [onDirRenamePaired] but the send. *)
Lemma onDirRenamePaired_spec dr (w : W) st :
  (length (ws_events st) < chan_cap)%nat ->
  exists w' st', onDirRenamePaired cfg dmatch store dr (w, st) = (tt, (w', st')) /\ same_data w w' /\
    ws_events st' = ws_events st ++ [WatchDirRename dr] /\
    set_dirs ∅ (ws_pairer st') = set_dirs ∅ (ws_pairer st).
Proof.
  intros Hcap. unfold onDirRenamePaired.
  assert (forall k, (forall w1 st1, bookkeeping (w, st) (w1, st1) ->
    exists w' st', k (w1, st1) = (tt, (w', st')) /\ same_data w w' /\
      ws_events st' = ws_events st ++ [WatchDirRename dr] /\
      set_dirs ∅ (ws_pairer st') = set_dirs ∅ (ws_pairer st)) -> forall A (m : WM A), preserves bookkeeping m ->
    forall w1 st1, bookkeeping (w, st) (w1, st1) -> exists w' st', (m ;; k) (w1, st1) = (tt, (w', st')) /\
      same_data w w' /\ ws_events st' = ws_events st ++ [WatchDirRename dr] /\
      set_dirs ∅ (ws_pairer st') = set_dirs ∅ (ws_pairer st)) as Hstep.
  { intros k Hk A m Hm w1 st1 H1. unfold st_bind. specialize (Hm (w1, st1)).
    destruct (m (w1, st1)) as [a [w2 st2]]. apply Hk. etrans; [exact H1|exact Hm]. }
  eapply Hstep; [|apply book_removeSubtree|reflexivity].
  intros w1 st1 K1. eapply Hstep; [|apply book_addWatch|exact K1]. clear w1 st1 K1.
  intros w1 st1 K1. eapply Hstep; [|apply book_walkNewDir|exact K1]. clear w1 st1 K1.
  do 3 (intros w1 st1 K1; eapply Hstep; [|apply book_deb|exact K1]; clear w1 st1 K1).
  intros w1 st1 (K1 & K2 & K3). cbn in K1, K2, K3. unfold send, in_state. cbv beta iota.
  rewrite K2. destruct (Nat.ltb_spec (length (ws_events st)) chan_cap); [|lia].
  eexists _, _. split; [reflexivity|]. done.
Qed.

End quiet_watcher.

(** *** Suppression and the pairer's loops *)

Lemma scan_suppressed_hit now path l m prefix until :
  (prefix, until) ∈ l -> now <= until ->
  path = TrimSuffix prefix sep \/ HasPrefix path prefix = true ->
  fst (scan_suppressed now path l m) = true.
Proof.
  revert m. induction l as [|[q u] l IH]; intros m Hin Hu Hp; [by apply elem_of_nil in Hin|].
  cbn [scan_suppressed].
  assert ((prefix, until) ∈ l -> fst (scan_suppressed now path l m) = true /\
    fst (scan_suppressed now path l (delete q m)) = true) as Hl by (intros; split; by apply IH).
  apply elem_of_cons in Hin as [[= <- <-]|Hin].
  - unfold After. destruct (Z.ltb_spec until now); [lia|].
    destruct Hp as [->| ->]; [by rewrite String.eqb_refl|by rewrite orb_true_r].
  - destruct (Hl Hin) as [H1 H2]. destruct (After now u); [done|]. by destruct (_ || _).
Qed.

Section watcher_lemmas.
Context {R S F : Type} `{Fsnotify F} `{Env}.
Abbreviation W := (World R S).

Lemma order_singleton {A} n (x : A) : env_order A n [x] = [x].
Proof. apply Permutation_singleton_r. apply env_order_perm. Qed.

Lemma order_nil {A} n : env_order A n [] = [].
Proof. apply Permutation_nil_r. by rewrite env_order_perm. Qed.

(** An unsuppressed event only advances the clock. *)
Lemma isSuppressed_none path (w : W) (st : WatcherState F) :
  p_suppressedPrefixes (ws_pairer st) = ∅ ->
  exists w', isSuppressed path (w, st) = (false, (w', st)) /\ same_data w w' /\
    w_tick w' = (w_tick w + 2)%nat.
Proof.
  intros Hs. destruct st as [d p f e s]. cbn in Hs.
  unfold isSuppressed, get_pairer, on_pairer, in_world, in_state, now, ranged, tick, st_bind.
  cbv beta iota. cbn [ws_pairer]. rewrite Hs.
  rewrite map_to_list_empty, order_nil. cbn [scan_suppressed]. destruct p. cbn in *. subst. eexists. split; [reflexivity|].
  split; [done|cbn; lia].
Qed.

Lemma isSuppressed_hit path prefix until (w : W) (st : WatcherState F) :
  p_suppressedPrefixes (ws_pairer st) !! prefix = Some until -> env_now (w_tick w) <= until ->
  path = TrimSuffix prefix sep \/ HasPrefix path prefix = true ->
  exists w' st', isSuppressed path (w, st) = (true, (w', st')) /\ same_data w w' /\
    ws_deb st' = ws_deb st /\ ws_events st' = ws_events st.
Proof.
  intros Hs Ht Hp. destruct st as [d p f e s]. cbn in Hs.
  unfold isSuppressed, get_pairer, on_pairer, in_world, in_state, now, ranged, tick, st_bind.
  cbv beta iota. cbn [ws_pairer].
  match goal with |- context [scan_suppressed ?t ?q ?l ?m] =>
    assert (fst (scan_suppressed t q l m) = true) as Hhit;
      [|destruct (scan_suppressed t q l m) as [b m']; cbn in Hhit; subst b] end.
  - eapply scan_suppressed_hit; [|exact Ht|exact Hp]. rewrite env_order_perm.
    by apply elem_of_map_to_list.
  - eexists _, _. split; [reflexivity|]. done.
Qed.

Context (cfg : WatcherConfig) (dmatch : string -> string -> bool)
  (store : option (string -> ST W (option SyncRecord))).

(** Buffering: no create is waiting. *)
Lemma handleRename_buffers path at_ (w : W) (st : WatcherState F) :
  isTrackedDir path (ws_pairer st) = true -> p_recentCreates (ws_pairer st) = ∅ ->
  exists w' due, handleRename cfg dmatch store path at_ (w, st) =
    (true, (w', mkWatcherState (ws_deb st) (buffer_rename path at_ due (ws_pairer st)) (ws_fsw st)
              (ws_events st) (ws_stopped st))) /\ same_data w w' /\ w_tick w' = (w_tick w + 2)%nat.
Proof.
  intros Ht Hc. destruct st as [d p f e s]. cbn in Ht, Hc.
  unfold handleRename, get_pairer, on_pairer, in_world, in_state, now, ranged, tick, st_bind.
  cbv beta iota. cbn [ws_pairer]. rewrite Ht, Hc. cbn [negb].
  rewrite map_to_list_empty, order_nil. cbn [scan_creates String.eqb negb]. destruct p. cbn in *. subst.
  eexists _, _. split; [reflexivity|]. split; [done|cbn; lia].
Qed.

(** Pairing: exactly one rename is waiting. *)
Lemma handleCreate_pairs from to at_ entry t (w : W) (st : WatcherState F) :
  fst (os_Stat to (w_fs w)) = Ok (mkInfo true t 0) ->
  p_pending (ws_pairer st) = {[from := entry]} -> (length (ws_events st) < chan_cap)%nat ->
  exists w' st', handleCreate cfg dmatch store to at_ (w, st) = (true, (w', st')) /\
    same_data w w' /\ ws_events st' = ws_events st ++ [WatchDirRename (mkWDirRenamed from to at_)] /\
    set_dirs ∅ (ws_pairer st') = set_dirs ∅ (suppress_pair from to
      (env_now (w_tick w + 1)%nat + p_window (ws_pairer st))
      (set_pending ∅ (delete (re_timer entry) (p_armed (ws_pairer st))) (ws_pairer st))).
Proof.
  intros Hst Hp Hcap. unfold handleCreate. unfold st_bind at 1.
  assert (exists w1, in_world (St := WatcherState F) (on_fs (os_Stat to)) (w, st) =
    (Ok (mkInfo true t 0), (w1, st)) /\ same_data w w1 /\ w_tick w1 = w_tick w) as (w1 & -> & D1 & T1).
  { unfold in_world, on_fs. pose proof (os_Stat_state to (w_fs w)) as Hs.
    destruct (os_Stat to (w_fs w)) as [r fs]. cbn in Hst, Hs. subst. by eexists. }
  cbn [IsDir negb]. unfold st_bind at 1, get_pairer, on_pairer at 1, in_state at 1. cbv beta iota.
  unfold st_bind at 1, in_world at 1, ranged, tick. rewrite Hp, map_to_list_singleton.
  rewrite order_singleton. cbn [oldest_pending]. unfold st_bind at 1, on_pairer at 1, in_state at 1.
  cbv beta iota. unfold st_bind at 1, in_world at 1, now, tick. cbv beta iota.
  unfold st_bind at 1, on_pairer at 1, in_state at 1. cbv beta iota. cbn [ws_pairer].
  rewrite Hp, delete_singleton_eq. unfold st_bind at 1.
  match goal with |- context [onDirRenamePaired cfg dmatch store ?dr (?w2, ?st2)] =>
    destruct (onDirRenamePaired_spec cfg dmatch store dr w2 st2) as (w' & st' & -> & D & E & P); [exact Hcap|] end.
  eexists w', st'. split; [reflexivity|]. split; [|split; [exact E|]].
  - etrans; [exact D1|]. etrans; [|exact D]. done.
  - rewrite Nat.add_1_r, <- T1. exact P.
Qed.

(** *** The prefixes in force *)

(** The table of suppressed prefixes is only written by a pair and by the scan
    of [isSuppressed]. *)
Definition samesup (x y : W * WatcherState F) : Prop :=
  p_suppressedPrefixes (ws_pairer (snd y)) = p_suppressedPrefixes (ws_pairer (snd x)) /\
  p_window (ws_pairer (snd y)) = p_window (ws_pairer (snd x)).

#[export] Instance samesup_preorder : PreOrder samesup.
Proof. unfold samesup. split; [done|]. intros x y z [K1 K2] [K3 K4]. split; congruence. Qed.

Lemma sup_world {A} (m : ST W A) : preserves samesup (in_world m).
Proof. intros [w st]. unfold in_world. by destruct (m w). Qed.

Lemma sup_deb f : preserves samesup (on_deb f).
Proof. by intros [w st]. Qed.

Lemma sup_fsw {A} (m : ST F A) : preserves samesup (on_fsw m).
Proof. intros [w st]. unfold on_fsw, in_state. by destruct (m (ws_fsw st)). Qed.

Lemma sup_send e : preserves samesup (send e).
Proof. intros [w st]. unfold send, in_state, samesup. cbn [snd]. by case_match. Qed.

Lemma sup_pairer {A} (m : ST pairer A) :
  (forall p, p_suppressedPrefixes (snd (m p)) = p_suppressedPrefixes p /\
             p_window (snd (m p)) = p_window p) -> preserves samesup (on_pairer m).
Proof.
  intros Hm [w st]. unfold on_pairer, in_state, samesup. specialize (Hm (ws_pairer st)).
  by destruct (m (ws_pairer st)).
Qed.

#[local] Hint Resolve sup_world sup_deb sup_fsw sup_send : homedrive.
#[local] Hint Extern 2 (preserves samesup (on_pairer _)) => (by apply sup_pairer) : homedrive.
Ltac solve_sup := unfold emitEvent, onDirRenameUnpaired, get_pairer; solve_preserves.

Lemma sup_addWatch path : preserves samesup (addWatch path).
Proof. unfold addWatch. solve_sup. Qed.

Lemma sup_removeWatch path : preserves samesup (removeWatch path).
Proof. unfold removeWatch. solve_sup. Qed.
#[local] Hint Resolve sup_addWatch sup_removeWatch : homedrive.

Lemma sup_debouncePath path op t : preserves samesup (debouncePath store path op t).
Proof. unfold debouncePath. solve_sup. Qed.
#[local] Hint Resolve sup_debouncePath : homedrive.

Lemma sup_remove_watches dirs : preserves samesup (remove_watches dirs).
Proof. induction dirs; cbn [remove_watches]; solve_sup. Qed.
#[local] Hint Resolve sup_remove_watches : homedrive.

Lemma sup_walk_new root b nodes : preserves samesup (walk_new cfg dmatch store root b nodes).
Proof. induction nodes as [|[k n] nodes IH]; cbn [walk_new]; solve_sup. Qed.
#[local] Hint Resolve sup_walk_new : homedrive.

Lemma sup_walkNewDir root b : preserves samesup (walkNewDir cfg dmatch store root b).
Proof. unfold walkNewDir. solve_sup. Qed.
#[local] Hint Resolve sup_walkNewDir : homedrive.

Lemma sup_removeSubtree root : preserves samesup (removeSubtreeWatches root).
Proof. unfold removeSubtreeWatches. solve_sup. Qed.
#[local] Hint Resolve sup_removeSubtree : homedrive.

Lemma sup_onDirRenamePaired dr : preserves samesup (onDirRenamePaired cfg dmatch store dr).
Proof. unfold onDirRenamePaired. solve_sup. Qed.

Lemma sup_handle_new path : preserves samesup (handle_new cfg dmatch store path).
Proof. unfold handle_new. solve_sup. Qed.

Lemma sup_pair_callback id : preserves (W := W * WatcherState F) samesup (pair_callback id).
Proof.
  unfold pair_callback. apply preserves_bind; [typeclasses eauto| |intros; solve_sup].
  apply sup_pairer. intros p. destruct (p_armed p !! id) as [[due path]|]; [|done].
  unfold expireRename. cbn. by destruct (p_pending p !! path).
Qed.

(** *** An open window *)

Section window.
Context (clock_mono : forall i j, (i <= j)%nat -> env_now i <= env_now j).
Context (n : nat) (win : Duration) (from to : string).

(** Both directories of a pair made at reading [n] are still suppressed. *)
Definition covered (st : WatcherState F) : Prop :=
  p_window (ws_pairer st) = win /\
  forall d, d = from \/ d = to ->
    exists u, p_suppressedPrefixes (ws_pairer st) !! (d +:+ sep) = Some u /\ env_now n + win <= u.

Lemma covered_samesup (x y : W * WatcherState F) :
  samesup x y -> covered (snd x) -> covered (snd y).
Proof. intros [E1 E2] [C1 C2]. unfold covered. by rewrite E1, E2. Qed.

Lemma covered_run {A} (m : WM A) (w : W) st :
  preserves samesup m -> covered st -> covered (snd (snd (m (w, st)))).
Proof. intros Hm. exact (covered_samesup (w, st) _ (Hm (w, st))). Qed.

Lemma covered_pair a b k st :
  (n <= k)%nat -> covered st -> covered
    (mkWatcherState (ws_deb st) (suppress_pair a b (env_now k + p_window (ws_pairer st)) (ws_pairer st))
       (ws_fsw st) (ws_events st) (ws_stopped st)).
Proof.
  intros Hk [C1 C2]. split; [exact C1|]. intros d Hd. cbn. destruct (C2 d Hd) as (u & Hu & Hle).
  pose proof (clock_mono n k Hk). rewrite C1.
  destruct (decide (b +:+ sep = d +:+ sep)) as [->|N1];
    [eexists; split; [apply lookup_insert_eq|lia]|rewrite lookup_insert_ne by done].
  destruct (decide (a +:+ sep = d +:+ sep)) as [->|N2];
    [eexists; split; [apply lookup_insert_eq|lia]|rewrite lookup_insert_ne by done].
  by exists u.
Qed.

Lemma scan_suppressed_keeps t path l m k :
  (forall u, (k, u) ∈ l -> t <= u) -> snd (scan_suppressed t path l m) !! k = m !! k.
Proof.
  revert m. induction l as [|[q u] l IH]; intros m Hl; [done|]. cbn [scan_suppressed].
  assert (forall u, (k, u) ∈ l -> t <= u) as Hl' by (intros u' Hu'; apply Hl; by right).
  unfold After. destruct (Z.ltb_spec u t) as [Hlt|Hle].
  - rewrite IH by done. destruct (decide (q = k)) as [->|Hne]; [|by apply lookup_delete_ne].
    assert (t <= u) by (apply Hl; by left). lia.
  - case_match; [done|]. by apply IH.
Qed.

(** Within the window the scan forgets neither directory. *)
Lemma isSuppressed_covered path (w : W) st :
  env_now (w_tick w) <= env_now n + win -> covered st ->
  exists b w' st', isSuppressed path (w, st) = (b, (w', st')) /\
    w_tick w' = (w_tick w + 2)%nat /\ covered st'.
Proof.
  intros Ht [C1 C2]. unfold isSuppressed, get_pairer, on_pairer, in_world, in_state, now, ranged, tick, st_bind.
  cbv beta iota. cbn [ws_pairer].
  match goal with |- context [scan_suppressed ?t ?q ?l ?m] =>
    pose proof (fun k => scan_suppressed_keeps t q l m k) as Hk;
      destruct (scan_suppressed t q l m) as [b m'] end.
  cbn [snd] in Hk. eexists b, _, _. split; [reflexivity|]. split; [cbn; lia|].
  split; [exact C1|]. intros d Hd. destruct (C2 d Hd) as (u & Hu & Hle). exists u. split; [|done].
  cbn. rewrite <- Hu. apply Hk. intros u' Hin. rewrite env_order_perm in Hin.
  apply elem_of_map_to_list in Hin. pose proof (eq_trans (eq_sym Hu) Hin) as [= <-]. lia.
Qed.

Lemma handleRename_covered path at_ (w : W) st :
  (n <= w_tick w)%nat -> covered st ->
  covered (snd (snd (handleRename cfg dmatch store path at_ (w, st)))).
Proof.
  intros Hn C. unfold handleRename. unfold st_bind at 1, get_pairer, on_pairer at 1, in_state at 1.
  cbv beta iota. destruct (isTrackedDir path (ws_pairer st)); [|exact C]. cbn [negb].
  unfold st_bind at 1, in_world at 1, ranged, tick. cbv beta iota.
  destruct (scan_creates _ _ _ _ _) as [recent dst]. unfold st_bind at 1, on_pairer at 1, in_state at 1.
  cbv beta iota. destruct (String.eqb dst ""); cbn [negb].
  - apply (covered_run (st_bind (in_world now) _)); [solve_sup|exact C].
  - unfold st_bind at 1, on_pairer at 1, in_state at 1. cbv beta iota.
    unfold st_bind at 1, in_world at 1, now, tick. cbv beta iota.
    unfold st_bind at 1, on_pairer at 1, in_state at 1. cbv beta iota. cbn [ws_pairer].
    apply covered_run; [solve_sup; apply sup_onDirRenamePaired|].
    match goal with |- covered (mkWatcherState ?d (suppress_pair ?a ?b (env_now ?k + _) ?p) ?f ?e ?s) =>
      apply (covered_pair a b k (mkWatcherState d p f e s)) end; [cbn; lia|exact C].
Qed.

Lemma handleCreate_covered path at_ (w : W) st :
  (n <= w_tick w)%nat -> covered st ->
  covered (snd (snd (handleCreate cfg dmatch store path at_ (w, st)))).
Proof.
  intros Hn C. unfold handleCreate. unfold st_bind at 1, in_world at 1, on_fs.
  destruct (os_Stat path (w_fs w)) as [[info|e] fs]; [|exact C].
  destruct (IsDir info); [|exact C]. cbn [negb].
  unfold st_bind at 1, get_pairer, on_pairer at 1, in_state at 1. cbv beta iota.
  unfold st_bind at 1, in_world at 1, ranged, tick. cbv beta iota.
  destruct (oldest_pending _ _) as [[key entry]|].
  - unfold st_bind at 1, on_pairer at 1, in_state at 1. cbv beta iota.
    unfold st_bind at 1, in_world at 1, now, tick. cbv beta iota.
    unfold st_bind at 1, on_pairer at 1, in_state at 1. cbv beta iota. cbn [ws_pairer].
    apply covered_run; [solve_sup; apply sup_onDirRenamePaired|].
    match goal with |- covered (mkWatcherState ?d (suppress_pair ?a ?b (env_now ?k + _) ?p) ?f ?e ?s) =>
      apply (covered_pair a b k (mkWatcherState d p f e s)) end; [cbn; lia|exact C].
  - apply covered_run; [solve_sup|exact C].
Qed.

Lemma handleFSEvent_covered ev (w : W) st :
  (n <= w_tick w)%nat -> env_now (w_tick w) <= env_now n + win -> covered st ->
  covered (snd (snd (handleFSEvent cfg dmatch store ev (w, st)))).
Proof.
  intros Hn Ht C. unfold handleFSEvent. destruct (watch_excluded _ _ _); [exact C|].
  destruct (isSuppressed_covered (fe_Name ev) w st Ht C) as (b & w1 & st1 & E & T & C1).
  unfold st_bind at 1. rewrite E. destruct b; [exact C1|].
  unfold st_bind at 1, in_world at 1. rewrite (surjective_pairing (now w1)).
  destruct (fe_Rename ev); [|destruct (fe_Create ev)].
  - unfold st_bind at 1.
    pose proof (handleRename_covered (fe_Name ev) (fst (now w1)) (snd (now w1)) st1 ltac:(cbn; lia) C1) as C2.
    destruct (handleRename _ _ _ _ _ _) as [c [w2 st2]]. apply covered_run; [solve_sup|exact C2].
  - unfold st_bind at 1.
    pose proof (handleCreate_covered (fe_Name ev) (fst (now w1)) (snd (now w1)) st1 ltac:(cbn; lia) C1) as C2.
    destruct (handleCreate _ _ _ _ _ _) as [c [w2 st2]].
    apply covered_run; [solve_sup; apply sup_handle_new|exact C2].
  - apply covered_run; [solve_sup|exact C1].
Qed.

(** Nothing that can happen during the window closes it. *)
Lemma window_covered st st' :
  rtc (window_step cfg dmatch store n (env_now n + win)) st st' -> covered st -> covered st'.
Proof.
  induction 1 as [st|st st1 st2 Hs _ IH]; [done|]. intros C. apply IH. clear IH.
  destruct Hs as [ev w st Hn Ht|id w st|d st|q st].
  - by apply handleFSEvent_covered.
  - apply covered_run; [apply sup_pair_callback|exact C].
  - exact C.
  - exact C.
Qed.

(** An event at or below a covered directory is dropped. *)
Lemma covered_drops ev (w : W) st :
  env_now (w_tick w) <= env_now n + win -> covered st ->
  (exists d, (d = from \/ d = to) /\ (fe_Name ev = d \/ HasPrefix (fe_Name ev) (d +:+ sep) = true)) ->
  exists w' st', handleFSEvent cfg dmatch store ev (w, st) = (tt, (w', st')) /\
    same_data w w' /\ ws_deb st' = ws_deb st /\ ws_events st' = ws_events st.
Proof.
  intros Ht [C1 C2] (d & Hd & Hn). destruct (C2 d Hd) as (u & Hu & Hle). unfold handleFSEvent.
  destruct (watch_excluded _ _ _); [by exists w, st|].
  destruct (isSuppressed_hit (fe_Name ev) (d +:+ sep) u w st Hu) as (w1 & st1 & E & D & Hdb & He); [lia| |].
  { rewrite TrimSuffix_app. destruct Hn; auto. }
  exists w1, st1. unfold st_bind at 1. by rewrite E.
Qed.

End window.

End watcher_lemmas.

(** *** The echo guard *)

Section echo.
Context {DB R F : Type} `{BoltLaws DB} `{RemoteFS R} `{Env}.
Abbreviation W := (World R (JournalStore DB)).

(** A file whose mtime is within a second of its journal entry. *)
Lemma self_induced root path info e (w : W) :
  fst (os_Stat path (w_fs w)) = Ok info -> Journal_Get (relToRoot root path) (js_J (w_store w)) = Ok e ->
  abs_sub (ModTime info) (je_LocalMtime e) <= Second ->
  exists w', isSelfInduced (watcherStoreAdapter_GetSyncRecord root) path w = (true, w').
Proof.
  intros Hst Hg Ht.
  assert (forall w1 : W, w_fs w1 = w_fs w -> exists w2, on_fs (os_Stat path) w1 = (Ok info, w2) /\ w_fs w2 = w_fs w)
    as Hstat.
  { intros w1 E. unfold on_fs. rewrite E. pose proof (os_Stat_state path (w_fs w)) as Hs.
    destruct (os_Stat path (w_fs w)) as [r fs]. cbn in Hst, Hs. subst. by eexists. }
  unfold isSelfInduced, watcherStoreAdapter_GetSyncRecord. unfold st_bind at 1. unfold st_bind at 1.
  unfold on_store at 1. cbn [BGet bisyncJournalAdapter]. unfold bisyncJournalAdapter_Get, of_J.
  rewrite Hg. unfold st_bind at 1.
  match goal with |- context [on_fs (os_Stat path) ?w1] => destruct (Hstat w1 eq_refl) as (w2 & -> & E2) end.
  unfold st_ret at 1. unfold st_bind at 1. destruct (Hstat w2 E2) as (w3 & -> & _).
  exists w3. cbn [sr_LocalMtime sr_Size]. rewrite Z.eqb_refl, andb_true_r.
  destruct (Z.leb_spec (abs_sub (ModTime info) (je_LocalMtime e)) Second); [done|lia].
Qed.

(** What a download leaves behind. *)
Lemma recordDownload_Ok p path obj q start (w w' : W) :
  recordDownload p path obj q start w = (Ok tt, w') ->
  exists info e, fst (os_Stat q (w_fs w')) = Ok info /\
    dbj (js_J (w_store w')) !! path = Some e /\ je_LocalMtime e = ModTime info.
Proof.
  unfold recordDownload. intros Hr.
  apply st_try_Ok in Hr as (info & w1 & Hst & Hr). apply st_bind_inv in Hr as (ts & w2 & Hnow & Hr).
  apply (quiet_run _ _ _ _ quiet_now) in Hnow as (F2 & _ & S2).
  apply st_try_Ok in Hr as ([] & w3 & Hput & Hr).
  apply st_bind_inv in Hr as (ms & w4 & Hms & Hr).
  apply (quiet_run _ _ _ _ (quiet_elapsed_ms start)) in Hms as (F4 & _ & S4).
  apply st_bind_inv in Hr as ([] & w5 & Ha & Hr). apply (quiet_run _ _ _ _ (quiet_logAudit _ _)) in Ha as (F5 & _ & S5).
  apply st_bind_inv in Hr as ([] & w6 & He & [= <-]).
  apply (quiet_run _ _ _ _ (quiet_emitPullSuccess _ _ _)) in He as (F6 & _ & S6).
  unfold on_fs in Hst. pose proof (os_Stat_state q (w_fs w)) as Hs.
  destruct (os_Stat q (w_fs w)) as [r fs] eqn:Es. cbn in Hs. subst fs. injection Hst as -> <-. cbn in F2.
  unfold on_store in Hput. destruct (Put _ (w_store w2)) as [r s'] eqn:Eput. injection Hput as -> <-.
  apply store_put in Eput as [Hv _]. cbn in F4, S4. exists info. eexists. split; [|split].
  - rewrite F6, F5, F4, F2, Es. done.
  - rewrite S6, S5, S4. etrans; [exact (f_equal (lookup path) Hv)|apply lookup_insert_eq].
  - done.
Qed.

End echo.

(** ** Properties *)

(** C32: a directory rename becomes one event: when the kernel reports that a
    watched folder went away and then that a folder appeared, exactly one
    paired rename is put in the channel and nothing stays buffered. The window
    runs from the pairing's own reading of the clock, the tenth reading after
    the first event came in, over the pair window. Whatever happens until it has
    passed -- further events of any path, timers' callbacks, the debouncer's
    steps, the reader of the channel, in any order and number -- every event at
    or below either folder that the clock reads within the window is dropped
    without reaching the debouncer or the channel. *)
Theorem dir_rename_paired {R S F : Type} `{Fsnotify F} `{Env} cfg dmatch
    (store : option (string -> ST (World R S) (option SyncRecord))) from to evR evC t
    (w : World R S) (st : WatcherState F) :
  (forall i j, (i <= j)%nat -> env_now i <= env_now j) ->
  evR = mkFSEvent from false false false true -> evC = mkFSEvent to true false false false ->
  watch_excluded cfg dmatch from = false -> watch_excluded cfg dmatch to = false ->
  isTrackedDir from (ws_pairer st) = true -> fst (os_Stat to (w_fs w)) = Ok (mkInfo true t 0) ->
  p_pending (ws_pairer st) = ∅ -> p_recentCreates (ws_pairer st) = ∅ ->
  p_suppressedPrefixes (ws_pairer st) = ∅ -> (length (ws_events st) < chan_cap)%nat ->
  exists w' st',
    let n := (w_tick w + 9)%nat in
    let until := env_now n + p_window (ws_pairer st) in
    (handleFSEvent cfg dmatch store evR ;; handleFSEvent cfg dmatch store evC) (w, st) = (tt, (w', st')) /\
    same_data w w' /\
    ws_events st' = ws_events st ++ [WatchDirRename (mkWDirRenamed from to (env_now (w_tick w + 7)))] /\
    p_pending (ws_pairer st') = ∅ /\
    forall st1 ev w1, rtc (window_step cfg dmatch store n until) st' st1 -> env_now (w_tick w1) <= until ->
      (exists d, (d = from \/ d = to) /\ (fe_Name ev = d \/ HasPrefix (fe_Name ev) (d +:+ sep) = true)) ->
      exists w2 st2, handleFSEvent cfg dmatch store ev (w1, st1) = (tt, (w2, st2)) /\
        same_data w1 w2 /\ ws_deb st2 = ws_deb st1 /\ ws_events st2 = ws_events st1.
Proof.
  intros Hmono -> -> Hxf Hxt Htr Hst Hp Hc Hs Hcap.
  destruct (isSuppressed_none from w st Hs) as (w1 & E1 & D1 & T1).
  pose (w2 := snd (now w1)).
  destruct (handleRename_buffers cfg dmatch store from (fst (now w1)) w2 st Htr Hc) as (w3 & due & E3 & D3 & T3).
  set (st3 := mkWatcherState _ _ _ _ _) in E3.
  destruct (isSuppressed_none to w3 st3 Hs) as (w4 & E4 & D4 & T4).
  pose (w5 := snd (now w4)). assert (same_data w w5) as D5.
  { etrans; [exact D1|]. etrans; [|etrans; [exact D4|done]]. exact D3. }
  destruct (handleCreate_pairs cfg dmatch store from to (fst (now w4))
    (mkRenameEntry from (fst (now w1)) (p_next (ws_pairer st))) t w5 st3)
    as (w6 & st6 & E6 & D6 & Hev & Hpa).
  { by rewrite (proj1 D5). }
  { cbn. by rewrite Hp. }
  { exact Hcap. }
  assert (w_tick w4 = w_tick w + 7 /\ w_tick w5 + 1 = w_tick w + 9)%nat as [T7 T9].
  { unfold w5. cbn. rewrite T4, T3. unfold w2. cbn. rewrite T1. lia. }
  assert (fst (now w4) = env_now (w_tick w + 7)) as En by (unfold now, tick; cbn; by rewrite T7).
  rewrite T9 in Hpa. rewrite En in Hev.
  exists w6, st6. cbn zeta. split_and!; [|by etrans|exact Hev|exact (f_equal p_pending Hpa)|].
  - unfold st_bind at 1, handleFSEvent. cbn [fe_Name]. rewrite Hxf, Hxt.
    unfold st_bind at 1. rewrite E1. unfold st_bind at 1, in_world at 1.
    rewrite (surjective_pairing (now w1)). cbn [fe_Rename]. unfold st_bind at 1. fold w2. rewrite E3.
    unfold st_ret at 1. unfold st_bind at 1. rewrite E4. unfold st_bind at 1, in_world at 1.
    rewrite (surjective_pairing (now w4)). cbn [fe_Rename fe_Create]. unfold st_bind at 1. fold w5.
    rewrite E6. done.
  - intros st1 ev w7 Hrun Ht Hd. eapply (covered_drops cfg dmatch store); [exact Ht| |exact Hd].
    eapply (window_covered cfg dmatch store Hmono); [exact Hrun|].
    split; [exact (f_equal p_window Hpa)|]. intros d Hd'.
    pose proof (f_equal p_suppressedPrefixes Hpa) as Hs6. cbn in Hs6. rewrite Hs6.
    exists (env_now (w_tick w + 9) + p_window (ws_pairer st)). split; [|lia].
    destruct Hd' as [-> | ->]; [|apply lookup_insert_eq].
    destruct (decide (to +:+ sep = from +:+ sep)) as [->|Hne]; [apply lookup_insert_eq|].
    etrans; [by apply lookup_insert_ne|apply lookup_insert_eq].
Qed.

(** A rename nobody pairs stays buffered under a timer; its callback, if no pair
    came, reports the path as renamed. *)
Lemma unpaired_rename_expires {R S F : Type} `{Fsnotify F} `{Env} cfg dmatch
    (store : option (string -> ST (World R S) (option SyncRecord))) from at_ (w : World R S)
    (st : WatcherState F) :
  isTrackedDir from (ws_pairer st) = true -> p_recentCreates (ws_pairer st) = ∅ ->
  (length (ws_events st) < chan_cap)%nat ->
  exists w' st' id, handleRename cfg dmatch store from at_ (w, st) = (true, (w', st')) /\
    ws_events (snd (snd (pair_callback id (w', st')))) =
      ws_events st ++ [WatchFile (mkWEvent from WRename at_)].
Proof.
  intros Ht Hc Hcap.
  destruct (handleRename_buffers cfg dmatch store from at_ w st Ht Hc) as (w' & due & E & _ & _).
  eexists w', _, (p_next (ws_pairer st)). split; [exact E|].
  unfold pair_callback, st_bind, on_pairer, in_state. cbv beta iota. cbn [ws_pairer p_armed buffer_rename].
  rewrite lookup_insert_eq. unfold expireRename. cbn [p_pending set_pending buffer_rename]. rewrite lookup_insert_eq.
  unfold onDirRenameUnpaired, emitEvent, send, in_state. cbv beta iota. cbn [ws_events].
  destruct (Nat.ltb_spec (length (ws_events st)) chan_cap); [done|lia].
Qed.

(** C34: what was pulled is not pushed back: once a download has been journaled,
    the watcher's create and write events for that file are dropped, on
    arrival before they reach the debouncer and again when an event that
    slipped in earlier fires. *)
Theorem pulled_file_not_pushed {DB R F} `{BoltLaws DB} `{RemoteFS R} `{Env} (p : Puller) path obj start
    op t (w w' : World R (JournalStore DB)) (st : WatcherState F) :
  let root := pc_LocalRoot (p_cfg p) in
  let file := root_file p path in
  let guard := Some (watcherStoreAdapter_GetSyncRecord root) in
  is_rooted root = true -> rel_path path = true ->
  recordDownload p path obj file start w = (Ok tt, w') -> is_open (js_J (w_store w')) ->
  op = WCreate \/ op = WWrite ->
  snd (snd (debouncePath guard file op t (w', st))) = st /\
  snd (snd (fireEvent guard (mkWEvent file op t) (w', st))) = st.
Proof.
  intros root file guard Hroot Hrel Hrec Hopen Hop.
  destruct (recordDownload_Ok _ _ _ _ _ _ _ Hrec) as (info & e & Hst & He & Ht).
  assert (relToRoot root file = path) as Hkey.
  { unfold relToRoot. destruct (String.eqb_spec root "") as [E|_]; [by rewrite E in Hroot|].
    assert (is_rooted file = true) as Hf.
    { unfold file, root_file. fold root. rewrite PathJoin_rooted by done.
      by apply is_rooted_Clean, is_rooted_app. }
    rewrite Hf. cbn [orb negb]. unfold file, root_file. fold root. rewrite Rel_below by done.
    destruct (rel_path_head path Hrel) as (N1 & N2 & _).
    destruct (String.eqb_spec path ".."); [done|]. by rewrite N2. }
  destruct (self_induced root file info e w') as (w2 & Hself).
  { exact Hst. }
  { rewrite Hkey. by apply Journal_Get_view. }
  { rewrite Ht. rewrite abs_sub_exact; rewrite Z.sub_diag; unfold Second, max_int64; lia. }
  assert (suppressSelfInduced guard file op w' = (true, w2)) as Hs.
  { unfold suppressSelfInduced, guard. destruct Hop as [-> | ->]; exact Hself. }
  unfold debouncePath, fireEvent, st_bind, in_world. cbn [we_Path we_Op]. by rewrite Hs.
Qed.

(** ** Witnesses *)

(** A kernel that accepts every watch. *)
#[local] Instance demo_Fsnotify : Fsnotify (gset string) := {
  fsw_Add := fun p s => (Ok tt, {[p]} ∪ s);
  fsw_Remove := fun p s => (Ok tt, s ∖ {[p]});
}.

Definition demo_watch_cfg : WatcherConfig := mkWatcherConfig "/home" (2 * Second) (500 * Millisecond) [].

Definition demo_watch_state : WatcherState (gset string) :=
  mkWatcherState (newDebouncer (2 * Second) 0)
    (trackDir "/home/old" (newPairer (500 * Millisecond))) {["/home/old"]} [] false.

(** Later, and with two earlier events of the moved files handled. *)
Definition demo_later : World MemFS (JournalStore MemBolt) :=
  let w := demo_world demo_db in mkWorld (w_fs w) (w_remote w) (w_store w) 40 [].

Lemma dir_rename_paired_witness :
  exists w' st' at_,
    (@handleFSEvent MemFS (JournalStore MemBolt) _ _ demo_env demo_watch_cfg demo_match None
       (mkFSEvent "/home/old" false false false true) ;;
     @handleFSEvent MemFS (JournalStore MemBolt) _ _ demo_env demo_watch_cfg demo_match None
       (mkFSEvent "/home/docs" true false false false)) (demo_world demo_db, demo_watch_state)
    = (tt, (w', st')) /\
    ws_events st' = [WatchDirRename (mkWDirRenamed "/home/old" "/home/docs" at_)] /\
    let after name st := snd (snd (@handleFSEvent MemFS (JournalStore MemBolt) _ _ demo_env
      demo_watch_cfg demo_match None (mkFSEvent name false true false false) (demo_later, st))) in
    let st1 := after "/home/notes.txt" (after "/home/docs/b.txt" st') in
    ws_events (after "/home/docs/a.txt" st1) = ws_events st1 /\
    ws_deb (after "/home/docs/a.txt" st1) = ws_deb st1.
Proof.
  destruct (dir_rename_paired (H0 := demo_env) demo_watch_cfg demo_match None "/home/old" "/home/docs"
    (mkFSEvent "/home/old" false false false true) (mkFSEvent "/home/docs" true false false false) 0
    (demo_world demo_db) demo_watch_state) as (w' & st' & E & _ & Hev & _ & Hdrop);
    [|reflexivity..| |].
  - intros i j Hij. cbn. lia.
  - apply Nat.ltb_lt. reflexivity.
  - exists w', st', (@env_now demo_env (w_tick (demo_world demo_db) + 7)).
    split; [exact E|split; [exact Hev|]]. intros after st1.
    destruct (Hdrop st1 (mkFSEvent "/home/docs/a.txt" false true false false) demo_later)
      as (w2 & st2 & E2 & _ & Hd & He).
    + eapply rtc_l; [|eapply rtc_l; [|apply rtc_refl]];
        apply window_event; [apply Nat.leb_le| |apply Nat.leb_le|]; vm_compute; done.
    + vm_compute. done.
    + exists "/home/docs". split; [by right|right; reflexivity].
    + unfold after. rewrite E2. split; [exact He|exact Hd].
Defined.

Lemma pulled_file_not_pushed_witness :
  let w := demo_world demo_db in
  let r := @recordDownload _ _ _ demo_env (demo_puller false) "docs/a.txt"
             (conflict_obj (500 * Second)) "/home/docs/a.txt" 0 w in
  snd (snd (@fireEvent _ _ _ (Some (watcherStoreAdapter_GetSyncRecord "/home"))
    (mkWEvent "/home/docs/a.txt" WWrite 0) (snd r, demo_watch_state))) = demo_watch_state.
Proof.
  intros w r. assert (fst r = Ok tt) as Hr by (vm_compute; reflexivity).
  apply (pulled_file_not_pushed (H2 := demo_env) (demo_puller false) "docs/a.txt"
    (conflict_obj (500 * Second)) 0 WWrite 0 w (snd r) demo_watch_state).
  - reflexivity.
  - reflexivity.
  - rewrite <- Hr. apply surjective_pairing.
  - eexists. reflexivity.
  - by right.
Defined.
