(* ===== verification/WatcherLoop.v ===== *)
(** The running watcher ([Start] and [eventLoop] of
    internal/watcher/watcher.go): the select loop, the goroutines of expired
    timers and the reader of the channel ([pumpWatcherEvents] of
    cmd/homedrive/agent_run.go) as one transition system. *)
From S2P Require Import Prelude.
From S2P Require Import GoStrings.
From S2P Require Import GoRuntime.
From S2P Require Import LocalFS.
From S2P Require Import Remote.
From S2P Require Import MemFS.
From S2P Require Import Bolt.
From S2P Require Import Journal.
From S2P Require Import World.
From S2P Require Import PathFilter.
From S2P Require Import Debouncer.
From S2P Require Import Watcher.

(** ** Definitions *)

(** What a timer's goroutine has taken out of its table and not yet handed on:
    the callbacks of the debouncer and of the pairer release their mutex
    first. *)
Inductive held := HFire (ev : WEvent) | HUnpaired (ev : WEvent).

Definition held_event (h : held) : WEvent := match h with HFire ev | HUnpaired ev => ev end.

(** [lp_held] are the goroutines at that point, [lp_result] is what [Start] has
    returned, [lp_received] what the pump has taken out of the channel. *)
Record Loop (R S F : Type) := mkLoop {
  lp_world : World R S;
  lp_ws : WatcherState F;
  lp_held : list held;
  lp_result : option (result unit);
  lp_received : list WatchEvent;
}.
Arguments mkLoop {R S F} _ _ _ _ _.
Arguments lp_world {R S F} _.
Arguments lp_ws {R S F} _.
Arguments lp_held {R S F} _.
Arguments lp_result {R S F} _.
Arguments lp_received {R S F} _.

(** The cases of the select, the steps of the timers, the passing of time, a
    receive by the pump, and a change of the files from outside. *)
Inductive laction :=
| LEvent (ev : FSEvent)
| LError (e : error)
| LClosed
| LCtxDone (e : error)
| LDebFires (id : nat)
| LDebTake (id : nat)
| LPairTake (id : nat)
| LHandOn (k : nat)
| LWait (dt : Duration)
| LReceive
| LOutside (fs : LocalFS).

Section loop.
Context {R S F : Type} `{Fsnotify F} `{Env}.
Abbreviation W := (World R S).
Abbreviation L := (Loop R S F).
Variable cfg : WatcherConfig.
Variable doublestar_Match : string -> string -> bool.
Variable store : option (string -> ST W (option SyncRecord)).

(** A handler of the watcher. *)
Definition run_handler (m : ST (W * WatcherState F) unit) (l : L) : L :=
  let '(_, (w, ws)) := m (lp_world l, lp_ws l) in mkLoop w ws (lp_held l) (lp_result l) (lp_received l).

Definition set_result (r : result unit) (l : L) : L :=
  mkLoop (lp_world l) (lp_ws l) (lp_held l) (Some r) (lp_received l).

Definition set_held (hs : list held) (l : L) : L :=
  mkLoop (lp_world l) (lp_ws l) hs (lp_result l) (lp_received l).

(** [Start] up to the loop. *)
Definition loop_start (w : W) (ws : WatcherState F) : L :=
  let '(r, (w, ws)) := initialWalk cfg doublestar_Match (w, ws) in
  mkLoop w ws [] (match r with Err e => Some (Err (EWrap "watcher: initial walk" e)) | Ok _ => None end) [].

(** The select only runs while [Start] has not returned. *)
Definition eventLoop (a : laction) (l : L) : option L :=
  match lp_result l, a with
  | None, LEvent ev => Some (run_handler (handleFSEvent cfg doublestar_Match store ev) l)
  | None, LError _ => Some l
  | None, LClosed => Some (set_result (Ok tt) l)
  | None, LCtxDone e => Some (set_result (Err e) (run_handler Stop l))
  | _, _ => None
  end.

Definition debouncer_fires (id : nat) (l : L) : option L :=
  match timer_fires id (ws_deb (lp_ws l)) with
  | Some d => Some (run_handler (on_deb (fun _ => d)) l)
  | None => None
  end.

(** The callback of a debounce timer, under the debouncer's mutex. *)
Definition deb_take (id : nat) (l : L) : option L :=
  match timer_callback id (ws_deb (lp_ws l)) with
  | Some (o, d) =>
      Some (set_held (lp_held l ++ match o with Some ev => [HFire ev] | None => [] end)
              (run_handler (on_deb (fun _ => d)) l))
  | None => None
  end.

(** [expireRename], run by a due timer, under the pairer's mutex. *)
Definition pair_take (id : nat) (l : L) : option L :=
  let p := ws_pairer (lp_ws l) in
  match p_armed p !! id with
  | Some (due, path) =>
      if due <=? d_now (ws_deb (lp_ws l)) then
        let '(o, p) := expireRename path (set_pending (p_pending p) (delete id (p_armed p)) p) in
        Some (set_held (lp_held l ++ match o with Some ev => [HUnpaired ev] | None => [] end)
                (run_handler (on_pairer (fun _ => (tt, p))) l))
      else None
  | None => None
  end.

(** [d.emit(pending)] and [onUnpaired], after the mutex is released. *)
Definition hand_on (k : nat) (l : L) : option L :=
  match lp_held l !! k with
  | Some h =>
      Some (set_held (delete k (lp_held l))
              (run_handler (match h with HFire ev => fireEvent store ev | HUnpaired ev => onDirRenameUnpaired ev end) l))
  | None => None
  end.

Definition receive (l : L) : option L :=
  let ws := lp_ws l in
  match ws_events ws with
  | [] => None
  | e :: q =>
      Some (mkLoop (lp_world l) (mkWatcherState (ws_deb ws) (ws_pairer ws) (ws_fsw ws) q (ws_stopped ws))
              (lp_held l) (lp_result l) (lp_received l ++ [e]))
  end.

Definition loop_do (a : laction) (l : L) : option L :=
  match a with
  | LDebFires id => debouncer_fires id l
  | LDebTake id => deb_take id l
  | LPairTake id => pair_take id l
  | LHandOn k => hand_on k l
  | LWait dt => Some (run_handler (on_deb (wait dt)) l)
  | LReceive => receive l
  | LOutside fs =>
      let w := lp_world l in
      Some (mkLoop (mkWorld fs (w_remote w) (w_store w) (w_tick w) (w_out w)) (lp_ws l) (lp_held l) (lp_result l)
              (lp_received l))
  | _ => eventLoop a l
  end.

Fixpoint loop_run (acts : list laction) (l : L) : option L :=
  match acts with
  | [] => Some l
  | a :: acts => match loop_do a l with None => None | Some l => loop_run acts l end
  end.

(** Everything the watcher has emitted. *)
Definition emitted (l : L) : list WatchEvent := lp_received l ++ ws_events (lp_ws l).

End loop.

(** ** Lemmas *)

(** *** Actions that keep an assertion

    [Q] is what the result satisfies. *)

Definition keeps {St A} (I : St -> Prop) (m : ST St A) (Q : A -> Prop) : Prop :=
  forall s, I s -> I (snd (m s)) /\ Q (fst (m s)).

Definition anything {A} (_ : A) : Prop := True.

Lemma keep_ret {St A} (I : St -> Prop) (a : A) (Q : A -> Prop) : Q a -> keeps I (st_ret a) Q.
Proof. by intros Ha s Hs. Qed.

Lemma keep_bind {St A B} (I : St -> Prop) (m : ST St A) (k : A -> ST St B) (Q : A -> Prop) (Q' : B -> Prop) :
  keeps I m Q -> (forall a, Q a -> keeps I (k a) Q') -> keeps I (st_bind m k) Q'.
Proof.
  intros Hm Hk s Hs. unfold st_bind. destruct (Hm s Hs) as [Hi Hq]. destruct (m s) as [a s']. by apply Hk.
Qed.

(** Where nothing is said about the intermediate result. *)
Lemma keep_then {St A B} (I : St -> Prop) (m : ST St A) (k : A -> ST St B) (Q' : B -> Prop) :
  keeps I m anything -> (forall a, keeps I (k a) Q') -> keeps I (st_bind m k) Q'.
Proof. intros Hm Hk. eapply keep_bind; [exact Hm|auto]. Qed.

Lemma keep_try {St A B} (I : St -> Prop) f (m : ST St (result A)) (k : A -> ST St (result B)) :
  keeps I m anything -> (forall a, keeps I (k a) anything) -> keeps I (st_try f m k) anything.
Proof.
  intros Hm Hk s Hs. unfold st_try. destruct (Hm s Hs) as [Hi _]. destruct (m s) as [[a|e] s']; [by apply Hk|done].
Qed.

(** *** The debouncer's tables *)

Lemma suppress_pending p d : dom (d_pending d) = dom (d_timers d) ->
  dom (d_pending (debouncer_suppress p d)) = dom (d_timers (debouncer_suppress p d)) /\
  d_pending (debouncer_suppress p d) = delete p (d_pending d).
Proof.
  intros Hd. unfold debouncer_suppress. destruct (d_timers d !! p) as [id|] eqn:E; cbn.
  - split; [|done]. by rewrite !dom_delete_L, Hd.
  - split; [done|]. rewrite delete_id; [done|]. apply not_elem_of_dom. rewrite Hd. by apply not_elem_of_dom.
Qed.

Lemma suppress_all_pending ps d : dom (d_pending d) = dom (d_timers d) ->
  let d' := foldl (fun d p => debouncer_suppress p d) d ps in
  dom (d_pending d') = dom (d_timers d') /\ d_pending d' ⊆ d_pending d /\
  forall p, p ∈ ps -> d_pending d' !! p = None.
Proof.
  revert d. induction ps as [|p ps IH]; intros d Hd; cbn; [by split_and!; [| |intros p Hp%elem_of_nil]|].
  destruct (suppress_pending p d Hd) as [Hd1 E]. destruct (IH _ Hd1) as (Hd2 & Hs & Hn). split_and!; [done| |].
  - etrans; [exact Hs|]. rewrite E. apply delete_subseteq.
  - intros q [->|Hq]%elem_of_cons; [|by apply Hn]. destruct (decide (p ∈ ps)) as [Hp|_]; [by apply Hn|].
    apply eq_None_not_Some. intros [ev Hev]. apply (lookup_weaken _ _ _ _ Hev) in Hs as Hx.
    rewrite E in Hx. by rewrite lookup_delete_eq in Hx.
Qed.

Lemma stop_pending d : dom (d_pending d) = dom (d_timers d) -> d_pending (debouncer_stop d) = ∅.
Proof.
  intros Hd. destruct (suppress_all_pending (timer_paths d) d Hd) as (_ & Hs & Hn). fold (debouncer_stop d) in *.
  apply map_eq. intros p. rewrite lookup_empty. apply eq_None_not_Some. intros [ev Hev].
  assert (p ∈ timer_paths d) as Hp; [|by rewrite (Hn p Hp) in Hev].
  apply (lookup_weaken _ _ _ _ Hev), elem_of_dom_2 in Hs. rewrite Hd in Hs. apply elem_of_dom in Hs as [id Hid].
  unfold timer_paths. apply list_elem_of_fmap. exists (p, id). by rewrite elem_of_map_to_list.
Qed.

(** *** The pairer's loops *)

Lemma scan_creates_spec cutoff l m dst at_ :
  fst (scan_creates cutoff l m dst at_) ⊆ m /\
  (snd (scan_creates cutoff l m dst at_) = dst \/ snd (scan_creates cutoff l m dst at_) ∈ map fst l).
Proof.
  revert m dst at_. induction l as [|[d t] l IH]; intros m dst at_; cbn [scan_creates map fst]; [by split; [|left]|].
  destruct (Before t cutoff); [|destruct (_ || _)].
  - destruct (IH (delete d m) dst at_) as [H1 H2]. split; [by etrans; [exact H1|apply delete_subseteq]|].
    destruct H2 as [->|H2]; [by left|]. right. by right.
  - destruct (IH m d t) as [H1 H2]. split; [done|]. right. destruct H2 as [->|H2]; [by left|by right].
  - destruct (IH m dst at_) as [H1 H2]. split; [done|]. destruct H2 as [->|H2]; [by left|right; by right].
Qed.

Lemma oldest_pending_elem l best r : oldest_pending l best = Some r -> r ∈ l \/ best = Some r.
Proof.
  revert best. induction l as [|[k e] l IH]; intros best Hr; [by right|]. cbn in Hr.
  destruct best as [[k' e']|]; [destruct (Before _ _)|].
  all: apply IH in Hr as [Hr|Hr]; [left; by right|]; (injection Hr as <- || injection Hr as <- <- || idtac).
  - left. by left.
  - by right.
  - left. by left.
Qed.

(** *** The invariant of the watcher *)

Section invariant.
Context {R S F : Type} `{Fsnotify F} `{Env}.
Abbreviation W := (World R S).
Variable cfg : WatcherConfig.
Variable doublestar_Match : string -> string -> bool.
Variable store : option (string -> ST W (option SyncRecord)).

Definition admitted (path : string) : Prop := watch_excluded cfg doublestar_Match path = false.

Definition admitted_event (e : WatchEvent) : Prop :=
  match e with
  | WatchFile ev => admitted (we_Path ev)
  | WatchDirRename dr => admitted (wd_From dr) /\ admitted (wd_To dr)
  end.

(** What waits in the debouncer and in the pairer is not excluded. *)
Definition deb_wf (d : debouncer) : Prop :=
  dom (d_pending d) = dom (d_timers d) /\
  map_Forall (fun p ev => we_Path ev = p /\ admitted p) (d_pending d).

Definition pairer_wf (p : pairer) : Prop :=
  map_Forall (fun p (_ : renameEntry) => admitted p) (p_pending p) /\
  map_Forall (fun p (_ : Time) => admitted p) (p_recentCreates p).

(** [base] is what was in the channel at some earlier time. *)
Record watcher_wf (base : list WatchEvent) (stopped : bool) (s : W * WatcherState F) : Prop := {
  wf_deb : deb_wf (ws_deb (snd s));
  wf_pairer : pairer_wf (ws_pairer (snd s));
  wf_cap : (length (ws_events (snd s)) <= chan_cap)%nat;
  wf_events : Forall admitted_event (ws_events (snd s));
  wf_base : base `prefix_of` ws_events (snd s);
  wf_stopped : ws_stopped (snd s) = stopped;
}.

Variables (base : list WatchEvent) (b : bool).
Abbreviation I := (watcher_wf base b).

Lemma wf_world {A} (m : ST W A) (Q : A -> Prop) : (forall w, Q (fst (m w))) -> keeps I (in_world m) Q.
Proof.
  intros Hq [w st] []. unfold in_world. specialize (Hq w). destruct (m w) as [a w']. by split; [constructor|].
Qed.

Lemma wf_world_any {A} (m : ST W A) : keeps I (in_world m) anything.
Proof. by apply wf_world. Qed.

Lemma wf_fsw {A} (m : ST F A) : keeps I (on_fsw m) anything.
Proof. intros [w st] []. unfold on_fsw, in_state. destruct (m (ws_fsw st)). by split; [constructor|]. Qed.

Lemma wf_on_pairer {A} (m : ST pairer A) (Q : A -> Prop) :
  (forall p, pairer_wf p -> pairer_wf (snd (m p)) /\ Q (fst (m p))) -> keeps I (on_pairer m) Q.
Proof.
  intros Hm [w st] [K1 K2 K3 K4 K5 K6]. unfold on_pairer, in_state. cbn in K2. specialize (Hm _ K2).
  destruct (m (ws_pairer st)) as [a p]. destruct Hm as [Hp Hq]. by split; [constructor|].
Qed.

Lemma wf_on_deb f : (forall d, deb_wf d -> deb_wf (f d)) -> keeps I (on_deb f) anything.
Proof. intros Hf [w st] [K1 K2 K3 K4 K5 K6]. split; [|done]. constructor; cbn in *; auto. Qed.

Lemma wf_send e : admitted_event e -> keeps I (send e) anything.
Proof.
  intros He [w st] [K1 K2 K3 K4 K5 K6]. split; [|done]. cbn [snd] in *. unfold send, in_state. cbn [snd].
  destruct (Nat.ltb_spec (length (ws_events st)) chan_cap); constructor; cbn [snd ws_deb ws_pairer ws_events ws_stopped]; try done.
  - rewrite length_app. cbn. lia.
  - apply Forall_app. split; [done|by constructor].
  - by apply prefix_app_r.
Qed.

Lemma deb_wf_add ev d : admitted (we_Path ev) -> deb_wf d -> deb_wf (debouncer_add ev d).
Proof.
  intros Ha [Hd Hp]. split; cbn; [by rewrite !dom_insert_L, Hd|].
  apply map_Forall_insert_2; [|done]. split; [|done]. unfold coalesce.
  destruct (d_pending d !! we_Path ev) as [old|] eqn:E; [|done]. destruct (_ && _); [|done]. by apply (Hp _ _ E).
Qed.

Lemma deb_wf_suppress p d : deb_wf d -> deb_wf (debouncer_suppress p d).
Proof.
  intros [Hd Hp]. destruct (suppress_pending p d Hd) as [Hd' E]. split; [done|]. rewrite E.
  by apply map_Forall_delete.
Qed.

Lemma deb_wf_suppress_all ps d : deb_wf d -> deb_wf (foldl (fun d p => debouncer_suppress p d) d ps).
Proof. revert d. induction ps as [|p ps IH]; intros d Hd; cbn; [done|]. by apply IH, deb_wf_suppress. Qed.

(** *** The handlers *)

Lemma wf_debouncePath path op at_ : admitted path -> keeps I (debouncePath store path op at_) anything.
Proof.
  intros Ha. unfold debouncePath. apply keep_then; [apply wf_world_any|intros []]; [by apply keep_ret|].
  apply keep_then; [apply wf_world_any|intros t]. apply wf_on_deb. intros d Hd. by apply deb_wf_add.
Qed.

Lemma wf_fireEvent ev : admitted (we_Path ev) -> keeps I (fireEvent store ev) anything.
Proof.
  intros Ha. unfold fireEvent. apply keep_then; [apply wf_world_any|intros []]; [by apply keep_ret|].
  by apply wf_send.
Qed.

Lemma wf_addWatch path : keeps I (addWatch path) anything.
Proof.
  unfold addWatch. apply keep_try; [apply wf_fsw|intros _].
  apply keep_then; [by apply wf_on_pairer|intros _]. by apply keep_ret.
Qed.

Lemma wf_removeWatch path : keeps I (removeWatch path) anything.
Proof. unfold removeWatch. apply keep_then; [apply wf_fsw|intros _]. by apply wf_on_pairer. Qed.

Lemma wf_remove_watches dirs : keeps I (remove_watches dirs) anything.
Proof.
  induction dirs as [|d dirs IH]; [by apply keep_ret|]. cbn [remove_watches].
  apply keep_then; [apply wf_removeWatch|intros _; exact IH].
Qed.

Lemma wf_removeSubtree root : keeps I (removeSubtreeWatches root) anything.
Proof.
  unfold removeSubtreeWatches. apply keep_then; [apply wf_removeWatch|intros _].
  apply keep_then; [by apply wf_on_pairer|intros dirs].
  apply keep_then; [apply wf_world_any|intros; apply wf_remove_watches].
Qed.

Lemma wf_walk_new root emit_ nodes : keeps I (walk_new cfg doublestar_Match store root emit_ nodes) anything.
Proof.
  induction nodes as [|[k n] nodes IH]; [by apply keep_ret|]. cbn [walk_new].
  apply keep_then; [|intros; exact IH].
  destruct (walk_skips _ _ _ _ _ _); [by apply keep_ret|]. destruct (is_file n).
  - destruct emit_; [|by apply keep_ret]. cbn [andb].
    destruct (watch_excluded _ _ (visited root k)) eqn:Ea; [by apply keep_ret|]. cbn [negb].
    apply keep_then; [apply wf_world_any|intros t; by apply wf_debouncePath].
  - destruct (bool_decide _); [by apply keep_ret|].
    apply keep_then; [apply wf_addWatch|intros; by apply keep_ret].
Qed.

Lemma wf_walkNewDir root emit_ : keeps I (walkNewDir cfg doublestar_Match store root emit_) anything.
Proof.
  unfold walkNewDir. apply keep_then; [apply wf_world_any|intros [nodes|]]; [|by apply keep_ret].
  apply keep_then; [apply wf_world_any|intros; apply wf_walk_new].
Qed.

Lemma wf_walk_initial root nodes : keeps I (walk_initial cfg doublestar_Match root nodes) anything.
Proof.
  induction nodes as [|[k n] nodes IH]; [by apply keep_ret|]. cbn [walk_initial].
  destruct (_ || _); [exact IH|]. apply keep_try; [apply wf_addWatch|intros; exact IH].
Qed.

Lemma wf_initialWalk : keeps I (initialWalk cfg doublestar_Match) anything.
Proof.
  unfold initialWalk. apply keep_then; [apply wf_world_any|intros [nodes|]]; [|by apply keep_ret].
  apply keep_then; [apply wf_world_any|intros; apply wf_walk_initial].
Qed.

(** *** Pairs *)

Lemma wf_onDirRenamePaired dr : admitted (wd_From dr) -> admitted (wd_To dr) ->
  keeps I (onDirRenamePaired cfg doublestar_Match store dr) anything.
Proof.
  intros Hf Ht. unfold onDirRenamePaired. apply keep_then; [apply wf_removeSubtree|intros _].
  apply keep_then; [apply wf_addWatch|intros _]. apply keep_then; [apply wf_walkNewDir|intros _].
  apply keep_then; [apply wf_on_deb, deb_wf_suppress|intros _].
  do 2 (apply keep_then; [apply wf_on_deb; intros; by apply deb_wf_suppress_all|intros _]).
  by apply wf_send.
Qed.

Lemma wf_get_pairer : keeps I get_pairer pairer_wf.
Proof. unfold get_pairer. by apply wf_on_pairer. Qed.

(** A shuffled range over a map yields its entries. *)
Lemma wf_ranged {A} (m : gmap string A) :
  keeps I (in_world (ranged (map_to_list m))) (fun l => l ≡ₚ map_to_list m).
Proof. apply wf_world. intros w. unfold ranged, tick. cbn. apply env_order_perm. Qed.

Lemma wf_handleRename path at_ : admitted path -> keeps I (handleRename cfg doublestar_Match store path at_) anything.
Proof.
  intros Ha. unfold handleRename. eapply keep_bind; [apply wf_get_pairer|intros p [_ Hr]].
  destruct (negb _); [by apply keep_ret|]. eapply keep_bind; [apply wf_ranged|intros creates Hc].
  pose proof (scan_creates_spec (at_ - p_window p) creates (p_recentCreates p) "" 0) as [Hsub Hdst].
  destruct (scan_creates _ _ _ _ _) as [recent dst]. cbn in Hsub, Hdst.
  assert (map_Forall (fun p (_ : Time) => admitted p) recent) as Hrec.
  { intros q t Hq. apply (Hr q t). by eapply lookup_weaken. }
  apply keep_then; [apply wf_on_pairer; intros q [Q1 Q2]; by split; [split|]|intros _].
  destruct (String.eqb_spec dst "") as [->|Hne]; cbn [negb].
  - apply keep_then; [apply wf_world_any|intros t].
    apply keep_then; [|intros _; by apply keep_ret]. apply wf_on_pairer. intros q [Q1 Q2]. split; [|done].
    split; [|done]. cbn. by apply map_Forall_insert_2.
  - assert (admitted dst) as Hdst'.
    { destruct Hdst as [->|([d t] & -> & Hin)%list_elem_of_fmap]; [done|]. rewrite Hc in Hin.
      apply elem_of_map_to_list in Hin. by apply (Hr _ _ Hin). }
    apply keep_then.
    { apply wf_on_pairer. intros q [Q1 Q2]. split; [|done]. split; [done|]. cbn. by apply map_Forall_delete. }
    intros _. apply keep_then; [apply wf_world_any|intros t].
    apply keep_then; [apply wf_on_pairer; intros q [Q1 Q2]; by split; [split|]|intros _].
    apply keep_then; [by apply wf_onDirRenamePaired|intros _; by apply keep_ret].
Qed.

Lemma wf_handleCreate path at_ : admitted path -> keeps I (handleCreate cfg doublestar_Match store path at_) anything.
Proof.
  intros Ha. unfold handleCreate. apply keep_then; [apply wf_world_any|intros [info|]]; [|by apply keep_ret].
  destruct (negb _); [by apply keep_ret|]. eapply keep_bind; [apply wf_get_pairer|intros p [Hp _]].
  eapply keep_bind; [apply wf_ranged|intros pending Hl].
  destruct (oldest_pending pending None) as [[key entry]|] eqn:Eo.
  - assert (admitted key) as Hk.
    { apply oldest_pending_elem in Eo as [Hin|]; [|done]. rewrite Hl in Hin.
      apply elem_of_map_to_list in Hin. by apply (Hp _ _ Hin). }
    apply keep_then.
    { apply wf_on_pairer. intros q [Q1 Q2]. split; [|done]. split; [|done]. cbn. by apply map_Forall_delete. }
    intros _. apply keep_then; [apply wf_world_any|intros t].
    apply keep_then; [apply wf_on_pairer; intros q [Q1 Q2]; by split; [split|]|intros _].
    apply keep_then; [by apply wf_onDirRenamePaired|intros _; by apply keep_ret].
  - apply keep_then; [|intros _; by apply keep_ret]. apply wf_on_pairer. intros q [Q1 Q2]. split; [|done].
    split; [done|]. cbn. by apply map_Forall_insert_2.
Qed.

Lemma wf_isSuppressed path : keeps I (isSuppressed path) anything.
Proof.
  unfold isSuppressed. apply keep_then; [apply wf_world_any|intros t].
  eapply keep_bind; [apply wf_get_pairer|intros p _]. apply keep_then; [apply wf_world_any|intros l].
  destruct (scan_suppressed _ _ _ _) as [c m]. by apply wf_on_pairer.
Qed.

(** *** Events and callbacks *)

Lemma wf_handleFSEvent ev : keeps I (handleFSEvent cfg doublestar_Match store ev) anything.
Proof.
  unfold handleFSEvent. destruct (watch_excluded _ _ (fe_Name ev)) eqn:Ea; [by apply keep_ret|].
  apply keep_then; [apply wf_isSuppressed|intros []]; [by apply keep_ret|].
  apply keep_then; [apply wf_world_any|intros t]. destruct (fe_Rename ev).
  { apply keep_then; [by apply wf_handleRename|intros []]; [by apply keep_ret|by apply wf_debouncePath]. }
  destruct (fe_Create ev).
  { apply keep_then; [by apply wf_handleCreate|intros []]; [by apply keep_ret|].
    apply keep_then; [|intros _; by apply wf_debouncePath]. unfold handle_new.
    apply keep_then; [apply wf_world_any|intros [info|]]; [|by apply keep_ret].
    destruct (IsDir info); [|by apply keep_ret].
    apply keep_then; [apply wf_addWatch|intros; apply wf_walkNewDir]. }
  destruct (fe_Write ev); [by apply wf_debouncePath|]. destruct (fe_Remove ev); [|by apply keep_ret].
  apply keep_then; [by apply wf_on_pairer|intros _; by apply wf_debouncePath].
Qed.

End invariant.

(** *** The loop *)

Section loop_lemmas.
Context {R S F : Type} `{Fsnotify F} `{Env}.
Abbreviation W := (World R S).
Abbreviation L := (Loop R S F).
Variable cfg : WatcherConfig.
Variable doublestar_Match : string -> string -> bool.
Variable store : option (string -> ST W (option SyncRecord)).
Abbreviation admitted_event := (admitted_event cfg doublestar_Match).
Abbreviation admitted := (admitted cfg doublestar_Match).
Abbreviation wf := (watcher_wf (R := R) (S := S) (F := F) cfg doublestar_Match).
Abbreviation run := (loop_run cfg doublestar_Match store).

Record loop_ok (l : L) : Prop := {
  lo_wf : wf [] (ws_stopped (lp_ws l)) (lp_world l, lp_ws l);
  lo_held : Forall (fun h => admitted (we_Path (held_event h))) (lp_held l);
  lo_received : Forall admitted_event (lp_received l);
  lo_running : lp_result l = None -> ws_stopped (lp_ws l) = false;
  lo_stopped : ws_stopped (lp_ws l) = true ->
    d_pending (ws_deb (lp_ws l)) = ∅ /\ p_pending (ws_pairer (lp_ws l)) = ∅;
}.

(** The events the goroutines still hold. *)
Definition in_hand (l : L) : list WatchEvent := map (fun h => WatchFile (held_event h)) (lp_held l).

(** What every step guarantees: emission appends, and after the stop only what
    the goroutines held is emitted. *)
Definition sound_step (l l' : L) : Prop :=
  loop_ok l' /\ emitted l `prefix_of` emitted l' /\
  (ws_stopped (lp_ws l) = true ->
     ws_stopped (lp_ws l') = true /\ lp_result l' = lp_result l /\
     exists new, emitted l' = emitted l ++ new /\ new ++ in_hand l' ⊆+ in_hand l).

Lemma sound_running l l' : loop_ok l' -> emitted l `prefix_of` emitted l' -> ws_stopped (lp_ws l) = false -> sound_step l l'.
Proof. intros H1' H2' Hs. split; [done|]. split; [done|congruence]. Qed.

(** A step that emits nothing and leaves the shutdown alone. *)
Lemma sound_still l l' : loop_ok l' -> emitted l' = emitted l -> lp_held l' = lp_held l ->
  ws_stopped (lp_ws l') = ws_stopped (lp_ws l) -> lp_result l' = lp_result l -> sound_step l l'.
Proof.
  intros Hl He Hh Hs Hr. split; [done|]. split; [by rewrite He|]. intros Hst. split; [congruence|]. split; [done|].
  exists []. rewrite app_nil_r. unfold in_hand. by rewrite Hh.
Qed.

Lemma wf_later base b w ws : wf base b (w, ws) -> wf [] (ws_stopped ws) (w, ws).
Proof. intros []. constructor; try done. apply prefix_nil. Qed.

(** A handler that keeps the invariant only appends to what was emitted. *)
Lemma handler_sound (m : ST (W * WatcherState F) unit) l :
  (forall base b, keeps (wf base b) m anything) -> loop_ok l -> ws_stopped (lp_ws l) = false ->
  sound_step l (run_handler m l).
Proof.
  intros Hm [K1 K2 K3 K4 K5] Hs. unfold run_handler.
  destruct (Hm (ws_events (lp_ws l)) false (lp_world l, lp_ws l)) as [Hi _].
  { destruct K1 as [D1 D2 D3 D4 D5 D6]. by constructor. }
  destruct (m (lp_world l, lp_ws l)) as [[] [w ws]]. cbn [fst snd] in Hi.
  pose proof (wf_later _ _ _ _ Hi) as Hw. destruct Hi as [D1 D2 D3 D4 D5 D6]. cbn [snd] in *.
  apply sound_running; [|unfold emitted; cbn; by apply prefix_app|done].
  constructor; cbn; try done; congruence.
Qed.

Lemma stop_sound l e : loop_ok l -> ws_stopped (lp_ws l) = false ->
  let l' := set_result (Err e) (run_handler Stop l) in
  loop_ok l' /\ emitted l' = emitted l /\ ws_stopped (lp_ws l') = true /\ in_hand l' = in_hand l.
Proof.
  intros [[[D1 D1'] D2 D3 D4 D5 D6] K2 K3 K4 K5] Hs. cbn [snd] in *. unfold run_handler, Stop, in_state, emitted, set_result.
  rewrite Hs. cbn. split; [|done]. constructor; cbn; try done.
  - constructor; cbn; try done. destruct (suppress_all_pending (timer_paths (ws_deb (lp_ws l))) _ D1) as (E1 & _ & _).
    split; [done|]. unfold debouncer_stop. by apply deb_wf_suppress_all.
  - intros _. split; [by apply stop_pending|done].
Qed.

(** A change of the runtime's tables that leaves pending events alone. *)
Lemma tables_sound f l : loop_ok l ->
  (forall d, d_pending (f d) = d_pending d /\ d_timers (f d) = d_timers d) ->
  sound_step l (run_handler (on_deb f) l).
Proof.
  intros [K1 K2 K3 K4 K5] Hf. destruct (Hf (ws_deb (lp_ws l))) as [E1 E2]. destruct K1 as [[D1 D1'] D2 D3 D4 D5 D6].
  cbn [snd] in *. apply sound_still; try done.
  unfold run_handler, on_deb, in_state; cbn. constructor; cbn; try done; [|by rewrite E1]. constructor; cbn; try done.
  split; [by rewrite E1, E2|by rewrite E1].
Qed.

Lemma deb_take_sound id l l' : loop_ok l -> deb_take id l = Some l' -> sound_step l l'.
Proof.
  intros [K1 K2 K3 K4 K5] Hd. destruct K1 as [[D1 D1'] D2 D3 D4 D5 D6]. cbn [snd] in *.
  unfold deb_take, timer_callback in Hd. destruct (d_flight _ !! id) as [path|]; [|done].
  destruct (d_pending (ws_deb (lp_ws l)) !! path) as [ev|] eqn:E; injection Hd as <-.
  - destruct (D1' _ _ E) as [Ep Ha].
    assert (ws_stopped (lp_ws l) = false) as Hs.
    { destruct (ws_stopped (lp_ws l)); [|done]. destruct (K5 eq_refl) as [E1 _]. by rewrite E1, lookup_empty in E. }
    apply sound_running; [|done|done]. unfold run_handler, on_deb, in_state, set_held; cbn. constructor; cbn; try done.
    + constructor; cbn; try done. split; cbn; [by rewrite !dom_delete_L, D1|by apply map_Forall_delete].
    + apply Forall_app. split; [done|]. constructor; [by cbn; rewrite Ep|done].
    + congruence.
  - apply sound_still; try done; [|unfold set_held; cbn; by rewrite app_nil_r].
    unfold run_handler, on_deb, in_state, set_held; cbn. rewrite app_nil_r. by constructor.
Qed.

Lemma pair_take_sound id l l' : loop_ok l -> pair_take id l = Some l' -> sound_step l l'.
Proof.
  intros [K1 K2 K3 K4 K5] Hd. destruct K1 as [D1 [P1 P2] D3 D4 D5 D6]. cbn [snd] in *.
  unfold pair_take in Hd. destruct (p_armed _ !! id) as [[due path]|]; [|done]. destruct (due <=? _); [|done].
  unfold expireRename in Hd. cbn [p_pending set_pending] in Hd.
  destruct (p_pending (ws_pairer (lp_ws l)) !! path) as [entry|] eqn:E; injection Hd as <-.
  - assert (ws_stopped (lp_ws l) = false) as Hs.
    { destruct (ws_stopped (lp_ws l)); [|done]. destruct (K5 eq_refl) as [_ E2]. by rewrite E2, lookup_empty in E. }
    apply sound_running; [|done|done]. unfold run_handler, on_pairer, in_state, set_held; cbn.
    constructor; cbn; try done.
    + constructor; cbn; try done. split; cbn; [by apply map_Forall_delete|done].
    + apply Forall_app. split; [done|]. constructor; [by apply (P1 _ _ E)|done].
    + congruence.
  - apply sound_still; try done; [|unfold set_held; cbn; by rewrite app_nil_r].
    unfold run_handler, on_pairer, in_state, set_held; cbn. rewrite app_nil_r. by constructor.
Qed.

(** Handing on emits the event once, or not at all: when it is an echo or the
    channel is full. *)
Definition event_or_nothing (m : ST (W * WatcherState F) unit) (e : WatchEvent) : Prop := forall w ws,
  exists w' new, m (w, ws) = (tt, (w', mkWatcherState (ws_deb ws) (ws_pairer ws) (ws_fsw ws) (ws_events ws ++ new) (ws_stopped ws))) /\
    (new = [] \/ new = [e]) /\ ((length (ws_events ws) <= chan_cap)%nat -> (length (ws_events ws ++ new) <= chan_cap)%nat).

Lemma send_once e : event_or_nothing (send e) e.
Proof.
  intros w ws. unfold send, in_state. destruct (Nat.ltb_spec (length (ws_events ws)) chan_cap).
  - exists w, [e]. split; [done|]. split; [by right|]. rewrite length_app. cbn [length]. lia.
  - exists w, []. rewrite app_nil_r. split; [by destruct ws|]. split; [by left|done].
Qed.

Lemma fireEvent_once ev : event_or_nothing (fireEvent store ev) (WatchFile ev).
Proof.
  intros w ws. unfold fireEvent, st_bind, in_world. destruct (suppressSelfInduced _ _ _ w) as [[] w1].
  - exists w1, []. rewrite app_nil_r. split; [by destruct ws|]. split; [by left|done].
  - apply send_once.
Qed.

Lemma hand_on_sound k l l' : loop_ok l -> hand_on store k l = Some l' -> sound_step l l'.
Proof.
  intros [K1 K2 K3 K4 K5] Hd. destruct K1 as [D1 D2 D3 D4 D5 D6]. cbn [snd] in *.
  unfold hand_on in Hd. destruct (lp_held l !! k) as [h|] eqn:E; [|done].
  set (m := match h with HFire ev => _ | HUnpaired ev => _ end) in Hd. injection Hd as <-.
  assert (event_or_nothing m (WatchFile (held_event h))) as Hm
    by (subst m; destruct h; [apply fireEvent_once|apply send_once]).
  destruct (Hm (lp_world l) (lp_ws l)) as (w' & new & Er & Hn & Hcap). unfold run_handler. rewrite Er. clear m Hm Er.
  assert (admitted (we_Path (held_event h))) as Ha by (by apply (Forall_lookup_1 _ _ _ _ K2 E)).
  assert (lp_held l ≡ₚ h :: delete k (lp_held l)) as Hperm by (by apply delete_Permutation).
  split; [|split].
  - constructor; cbn; try done.
    + constructor; cbn; auto; [|apply prefix_nil]. apply Forall_app. split; [done|].
      destruct Hn as [->| ->]; repeat constructor. exact Ha.
    + by apply Forall_delete.
  - unfold emitted; cbn. rewrite app_assoc. by apply prefix_app_r.
  - intros Hs. cbn. split; [done|]. split; [done|]. exists new. split; [by unfold emitted; cbn; rewrite app_assoc|].
    unfold in_hand; cbn. rewrite Hperm at 2. cbn. destruct Hn as [->| ->]; cbn; [by apply submseteq_cons|done].
Qed.

Lemma receive_sound l l' : loop_ok l -> receive l = Some l' -> sound_step l l'.
Proof.
  intros [K1 K2 K3 K4 K5] Hd. destruct K1 as [D1 D2 D3 D4 D5 D6]. cbn [snd] in *. unfold receive in Hd.
  destruct (ws_events (lp_ws l)) as [|e q] eqn:E; [done|]. injection Hd as <-.
  apply Forall_cons in D4 as [He Hq]. apply sound_still; try done.
  - constructor; cbn; try done.
    + constructor; cbn; try done; [cbn in D3; lia|apply prefix_nil].
    + apply Forall_app. split; [done|by constructor].
  - unfold emitted; cbn. by rewrite E, <- app_assoc.
Qed.

Lemma step_sound a l l' : loop_ok l -> loop_do cfg doublestar_Match store a l = Some l' -> sound_step l l'.
Proof.
  intros Hl Hd. destruct a as [ev|e| |e|id|id|id|k|dt| |fs]; cbn [loop_do] in Hd.
  1-4: unfold eventLoop in Hd; destruct (lp_result l) eqn:Er; [discriminate Hd|];
    pose proof (lo_running l Hl Er) as Hs; injection Hd as <-.
  - apply handler_sound; [|done|done]. intros. apply wf_handleFSEvent.
  - by apply sound_still.
  - apply sound_running; [|done|done]. destruct Hl. by constructor.
  - destruct (stop_sound l e Hl Hs) as (A1 & A2 & A3 & A4). apply sound_running; [done|by rewrite A2|done].
  - unfold debouncer_fires, timer_fires in Hd. destruct (d_armed _ !! id) as [[due path]|]; [|done].
    destruct (due <=? _); [|done]. injection Hd as <-.
    exact (tables_sound (fun d => mkDebouncer (d_window d) (d_timers d) (d_pending d)
      (delete id (d_armed d)) (<[id := path]> (d_flight d)) (d_next d) (d_now d)) l Hl (fun d => conj eq_refl eq_refl)).
  - by apply deb_take_sound in Hd.
  - by apply pair_take_sound in Hd.
  - by apply hand_on_sound in Hd.
  - injection Hd as <-. by apply tables_sound.
  - by apply receive_sound.
  - injection Hd as <-. apply sound_still; try done. destruct Hl as [K1 K2 K3 K4 K5]. constructor; try done. by destruct K1.
Qed.

Lemma run_sound acts l l' : loop_ok l -> run acts l = Some l' -> sound_step l l'.
Proof.
  revert l. induction acts as [|a acts IH]; intros l Hl Hr; [injection Hr as <-; by apply sound_still|].
  cbn in Hr. destruct (loop_do _ _ _ a l) as [l1|] eqn:Ed; [|done].
  destruct (step_sound a l l1 Hl Ed) as (A1 & A2 & A3). destruct (IH l1 A1 Hr) as (B1 & B2 & B3).
  split; [done|]. split; [by etrans|]. intros Hs. destruct (A3 Hs) as (C1 & C2 & new & C3 & C4).
  destruct (B3 C1) as (D1 & D2 & new' & D3 & D4). split; [done|]. split; [congruence|].
  exists (new ++ new'). split; [by rewrite D3, C3, app_assoc|]. rewrite <- app_assoc. etrans; [|exact C4].
  by apply submseteq_skips_l.
Qed.

Lemma start_ok w deb window fsw t : loop_ok (loop_start cfg doublestar_Match w
  (mkWatcherState (newDebouncer deb t) (newPairer window) (fsw : F) [] false)).
Proof.
  unfold loop_start. set (ws := mkWatcherState _ _ _ _ _).
  assert (wf [] false (w, ws)) as Hw.
  { constructor; cbn; [|by split; apply map_Forall_empty|lia|by constructor|done|done].
    split; cbn; [by rewrite !dom_empty_L|apply map_Forall_empty]. }
  destruct (wf_initialWalk cfg doublestar_Match [] false _ Hw) as [Hi _].
  destruct (initialWalk cfg doublestar_Match (w, ws)) as [r [w1 ws1]]. cbn in Hi.
  pose proof (wf_stopped _ _ _ _ _ Hi) as Hs. cbn in Hs.
  constructor; cbn; rewrite ?Hs; try done; by constructor.
Qed.

Lemma loop_run_app acts acts' l :
  run (acts ++ acts') l = match run acts l with Some l => run acts' l | None => None end.
Proof.
  revert l. induction acts as [|a acts IH]; intros l; [done|]. cbn.
  destruct (loop_do cfg doublestar_Match store a l); [apply IH|done].
Qed.

(** ** Properties *)

(** C33: the watcher hands on only what is not excluded: from its start and for
    every interleaving of notifications, timers, their goroutines, the reader
    of the channel and outside changes, each event it has emitted -- both
    directories of a paired rename included -- has a path that the exclusion
    patterns admit, what was emitted is never taken back or reordered, and the
    channel never holds more than its 1024 places. *)
Theorem watcher_emits_admitted w deb window fsw t acts acts' l l' :
  run acts (loop_start cfg doublestar_Match w
    (mkWatcherState (newDebouncer deb t) (newPairer window) (fsw : F) [] false)) = Some l ->
  run acts' l = Some l' ->
  Forall admitted_event (emitted l) /\ (length (ws_events (lp_ws l)) <= chan_cap)%nat /\
  emitted l `prefix_of` emitted l'.
Proof.
  intros Hr Hr'. destruct (run_sound acts _ l (start_ok w deb window fsw t) Hr) as (Hl & _ & _).
  destruct (run_sound acts' l l' Hl Hr') as (_ & Hp & _). destruct Hl as [[_ _ K3 K4 _ _] _ K2 _ _]. split_and!; try done.
  by apply Forall_app.
Qed.

(** A cancelled context silences the watcher: in the step that sees it
    [Start] returns the context's error; after it the result stays, and
    whatever timers were armed or had expired, nothing more is emitted than
    events that a timer's goroutine had already taken out of its table, each
    at most once. *)
Theorem watcher_after_cancel w deb window fsw t acts acts' e l l1 l2 :
  run acts (loop_start cfg doublestar_Match w
    (mkWatcherState (newDebouncer deb t) (newPairer window) (fsw : F) [] false)) = Some l ->
  loop_do cfg doublestar_Match store (LCtxDone e) l = Some l1 -> run acts' l1 = Some l2 ->
  lp_result l2 = Some (Err e) /\
  exists new, emitted l2 = emitted l ++ new /\ new ⊆+ in_hand l.
Proof.
  intros Hr Hd Hr'. destruct (run_sound acts _ l (start_ok w deb window fsw t) Hr) as (Hl & _ & _).
  cbn in Hd. unfold eventLoop in Hd. destruct (lp_result l) eqn:Er; [discriminate Hd|]. injection Hd as <-.
  destruct (stop_sound l e Hl (lo_running l Hl Er)) as (A1 & A2 & A3 & A4).
  destruct (run_sound acts' _ l2 A1 Hr') as (_ & _ & Hq). destruct (Hq A3) as (_ & -> & new & -> & Hn).
  split; [done|]. exists new. rewrite A2. split; [done|]. rewrite <- A4. etrans; [|exact Hn].
  by apply submseteq_inserts_r.
Qed.

End loop_lemmas.

(** ** Witnesses *)

Abbreviation demo_loop := (Loop MemFS (JournalStore MemBolt) (gset string)).

Definition loop_cfg : WatcherConfig := mkWatcherConfig "/home" (2 * Second) (500 * Millisecond) ["*.tmp"].

Definition first_loop : demo_loop :=
  @loop_start _ _ _ demo_Fsnotify demo_env loop_cfg demo_match (demo_world demo_db)
    (mkWatcherState (newDebouncer (2 * Second) 0) (newPairer (500 * Millisecond)) (∅ : gset string) [] false).

Abbreviation demo_loop_run := (@loop_run _ _ _ demo_Fsnotify demo_env loop_cfg demo_match None).

(** A write and its debounce timer, whose goroutine has started. *)
Definition write_fires : list laction :=
  [LEvent (mkFSEvent "/home/docs/a.txt" false true false false); LWait (3 * Second); LDebFires 0].

Lemma watcher_emits_admitted_witness :
  exists l, demo_loop_run (write_fires ++ [LDebTake 0; LHandOn 0; LReceive]) first_loop = Some l /\
    length (lp_received l) = 1%nat /\ Forall (admitted_event loop_cfg demo_match) (emitted l).
Proof.
  assert (match demo_loop_run (write_fires ++ [LDebTake 0; LHandOn 0; LReceive]) first_loop with
          | Some l => length (lp_received l) = 1%nat | None => False end) as Hm by (vm_compute; reflexivity).
  destruct (demo_loop_run (write_fires ++ [LDebTake 0; LHandOn 0; LReceive]) first_loop) as [l|] eqn:E; [|destruct Hm].
  exists l. split; [reflexivity|]. split; [exact Hm|].
  destruct (watcher_emits_admitted (H := demo_Fsnotify) (H0 := demo_env) loop_cfg demo_match None (demo_world demo_db)
    (2 * Second) (500 * Millisecond) ∅ 0 _ [] l l E eq_refl) as [Ha _]. exact Ha.
Defined.

(** The callback of the started goroutine runs after the cancellation and finds
    nothing. *)
Lemma watcher_after_cancel_witness :
  exists l2, demo_loop_run (write_fires ++ [LCtxDone (ESent ErrCanceled); LDebTake 0]) first_loop = Some l2 /\
    emitted l2 = [] /\ lp_result l2 = Some (Err (ESent ErrCanceled)).
Proof.
  assert (match demo_loop_run write_fires first_loop with
          | Some l => emitted l = [] /\ lp_held l = [] /\ lp_result l = None | None => False end) as Hm
    by (vm_compute; split; [|split]; reflexivity).
  destruct (demo_loop_run write_fires first_loop) as [l|] eqn:E; [destruct Hm as (Hm & Hh & Hres)|destruct Hm].
  pose (l1 := set_result (Err (ESent ErrCanceled)) (run_handler Stop l)).
  assert (@loop_do _ _ _ demo_Fsnotify demo_env loop_cfg demo_match None (LCtxDone (ESent ErrCanceled)) l = Some l1) as Ed
    by (cbn; unfold eventLoop; rewrite Hres; reflexivity).
  assert (match demo_loop_run (write_fires ++ [LCtxDone (ESent ErrCanceled); LDebTake 0]) first_loop with
          | Some _ => True | None => False end) as Hsome by (vm_compute; exact I).
  rewrite loop_run_app, E in Hsome |- *. cbn [loop_run] in Hsome |- *. rewrite Ed in Hsome |- *.
  destruct (loop_do loop_cfg demo_match None (LDebTake 0) l1) as [l2|] eqn:E2; [|destruct Hsome].
  assert (demo_loop_run [LDebTake 0] l1 = Some l2) as Er by (cbn [loop_run]; rewrite E2; reflexivity).
  destruct (watcher_after_cancel (H := demo_Fsnotify) (H0 := demo_env) loop_cfg demo_match None (demo_world demo_db)
    (2 * Second) (500 * Millisecond) ∅ 0 write_fires [LDebTake 0] (ESent ErrCanceled) l l1 l2 E Ed Er)
    as (H1 & new & H2 & H3).
  unfold in_hand in H3. rewrite Hh in H3. apply submseteq_nil_r in H3. subst new.
  exists l2. split; [reflexivity|]. split; [rewrite H2, Hm; reflexivity|exact H1].
Defined.
