(* ===== verification/Quota.v ===== *)
(** [internal/quota/quota.go]: the quota monitor -- thresholds with hysteresis
    that pause and resume the push workers. Percentages are [float64]s. *)
From S2P Require Import Prelude.
From S2P Require Import GoStrings.
From S2P Require Import GoRuntime.
From S2P Require Import GoFloat.

(** ** Definitions *)

Record QuotaInfo := mkQuotaInfo { qi_Used : Z; qi_Total : Z }.

Definition UsedPercent (q : QuotaInfo) : float64 :=
  if qi_Total q <=? 0 then float64_of_Z 0
  else f64_mul (f64_div (float64_of_Z (qi_Used q)) (float64_of_Z (qi_Total q))) (float64_of_Z 100).

Inductive QState := StateNormal | StateWarned | StateBlocked.

#[export] Instance QState_eq_dec : EqDecision QState.
Proof. solve_decision. Defined.

Definition QState_text (s : QState) : string :=
  match s with StateNormal => "normal" | StateWarned => "warned" | StateBlocked => "quota_blocked" end.

Record QuotaConfig := mkQuotaConfig {
  qc_PollInterval : Duration;
  qc_WarnPct : float64;
  qc_StopPushPct : float64;
  qc_HysteresisPct : float64;
  qc_DryRun : bool;
}.

Definition DefaultQuotaConfig : QuotaConfig :=
  mkQuotaConfig (5 * Minute) (float64_of_Z 90) (float64_of_Z 99) (float64_of_Z 94) false.

Record Snapshot := mkSnapshot {
  sn_State : QState;
  sn_UsedBytes : Z;
  sn_TotalBytes : Z;
  sn_UsedPercent : float64;
  sn_LastPoll : Time;
  sn_LastError : string;
}.

(** The monitor: [qm_pub] is the publisher's [Topic], [qm_push] whether there is
    a push controller. *)
Record Monitor := mkMonitor {
  qm_cfg : QuotaConfig;
  qm_pub : option (list string -> string);
  qm_push : bool;
  qm_state : QState;
  qm_lastQuota : QuotaInfo;
  qm_lastPoll : Time;
  qm_lastErr : option error;
}.

(** What a poll does outside. *)
Inductive qout :=
| QPublish (topic type : string) (pct : float64)
| QPausePush
| QResumePush.

Definition NewMonitor (pub : option (list string -> string)) (push : bool) (cfg : QuotaConfig) : Monitor :=
  mkMonitor cfg pub push StateNormal (mkQuotaInfo 0 0) 0 None.

(** [Monitor.State]. *)
Definition Monitor_State (m : Monitor) : Snapshot :=
  mkSnapshot (qm_state m) (qi_Used (qm_lastQuota m)) (qi_Total (qm_lastQuota m))
    (UsedPercent (qm_lastQuota m)) (qm_lastPoll m)
    (match qm_lastErr m with Some e => Error e | None => "" end).

Definition evaluate (cfg : QuotaConfig) (pct : float64) (prev : QState) : QState :=
  if f64_geb pct (qc_StopPushPct cfg) then StateBlocked
  else if bool_decide (prev = StateBlocked) && f64_geb pct (qc_HysteresisPct cfg) then StateBlocked
  else if f64_geb pct (qc_WarnPct cfg) then StateWarned
  else StateNormal.

Definition pausePush (m : Monitor) : list qout :=
  if qc_DryRun (qm_cfg m) then [] else if qm_push m then [QPausePush] else [].

Definition resumePush (m : Monitor) : list qout :=
  if qc_DryRun (qm_cfg m) then [] else if qm_push m then [QResumePush] else [].

Definition emitEvent (m : Monitor) (eventType : string) (pct : float64) : list qout :=
  match qm_pub m with
  | None => []
  | Some topic => [QPublish (topic ["events"; eventType]) eventType pct]
  end.

Definition applyTransition (m : Monitor) (prev next : QState) (pct : float64) : list qout :=
  match next with
  | StateWarned =>
      emitEvent m "quota.warning" pct ++ (if bool_decide (prev = StateBlocked) then resumePush m else [])
  | StateBlocked => emitEvent m "quota.exhausted" pct ++ pausePush m
  | StateNormal => if bool_decide (prev = StateBlocked) then resumePush m else []
  end.

(** A poll that the remote answered with [r] at [t]. *)
Definition quota_poll (r : result QuotaInfo) (t : Time) (m : Monitor) : list qout * Monitor :=
  match r with
  | Err err =>
      ([], mkMonitor (qm_cfg m) (qm_pub m) (qm_push m) (qm_state m) (qm_lastQuota m) t
             (Some (EWrap "quota poll failed" err)))
  | Ok qi =>
      let pct := UsedPercent qi in
      let prev := qm_state m in
      let next := evaluate (qm_cfg m) pct prev in
      let m' := mkMonitor (qm_cfg m) (qm_pub m) (qm_push m) next qi t None in
      (if bool_decide (next = prev) then [] else applyTransition m' prev next pct, m')
  end.

(** The polls of [Run], one after the other. *)
Fixpoint quota_run (polls : list (result QuotaInfo * Time)) (m : Monitor) : list qout * Monitor :=
  match polls with
  | [] => ([], m)
  | (r, t) :: polls =>
      let '(o1, m1) := quota_poll r t m in
      let '(o2, m2) := quota_run polls m1 in
      (o1 ++ o2, m2)
  end.

(** The push workers under a log of commands. *)
Definition paused1 (b : bool) (o : qout) : bool :=
  match o with QPausePush => true | QResumePush => false | QPublish _ _ _ => b end.

Definition paused (log : list qout) : bool := fold_left paused1 log false.

(** ** Lemmas *)

Lemma poll_cfg r t m : qm_cfg (snd (quota_poll r t m)) = qm_cfg m /\
  qm_push (snd (quota_poll r t m)) = qm_push m.
Proof. by destruct r. Qed.

Lemma paused_event m ty pct b l : fold_left paused1 (emitEvent m ty pct ++ l) b = fold_left paused1 l b.
Proof. unfold emitEvent. by destruct (qm_pub m). Qed.

(** One poll leaves the workers paused exactly in the blocked state. *)
Lemma poll_paused r t m b :
  qc_DryRun (qm_cfg m) = false -> qm_push m = true -> b = bool_decide (qm_state m = StateBlocked) ->
  fold_left paused1 (fst (quota_poll r t m)) b =
    bool_decide (qm_state (snd (quota_poll r t m)) = StateBlocked).
Proof.
  intros Hd Hp ->. destruct r as [qi|e]; [|done]. cbn [quota_poll fst snd qm_state].
  set (next := evaluate _ _ _). destruct (decide (next = qm_state m)) as [->|Hne].
  - by rewrite bool_decide_eq_true_2.
  - rewrite bool_decide_eq_false_2 by done.
    unfold applyTransition, pausePush, resumePush. cbn [qm_cfg qm_push]. rewrite Hd, Hp.
    destruct next; rewrite ?paused_event; [| |done].
    + destruct (qm_state m); [done..|]. done.
    + destruct (qm_state m); done.
Qed.

Lemma run_paused polls m b :
  qc_DryRun (qm_cfg m) = false -> qm_push m = true -> b = bool_decide (qm_state m = StateBlocked) ->
  fold_left paused1 (fst (quota_run polls m)) b =
    bool_decide (qm_state (snd (quota_run polls m)) = StateBlocked).
Proof.
  revert m b. induction polls as [|[r t] polls IH]; intros m b Hd Hp Hb; [done|].
  cbn [quota_run]. pose proof (poll_paused r t m b Hd Hp Hb) as H1.
  destruct (poll_cfg r t m) as [Hc1 Hp1]. destruct (quota_poll r t m) as [o1 m1].
  cbn [fst snd] in *. specialize (IH m1 _ ltac:(congruence) ltac:(congruence) H1).
  destruct (quota_run polls m1) as [o2 m2]. cbn [fst snd] in *. by rewrite fold_left_app.
Qed.

(** While every answered poll stays at or above the hysteresis threshold. *)
Lemma run_stays_blocked polls m :
  qm_state m = StateBlocked ->
  Forall (fun p => match fst p with
                   | Ok qi => f64_geb (UsedPercent qi) (qc_HysteresisPct (qm_cfg m)) = true
                   | Err _ => True
                   end) polls ->
  fst (quota_run polls m) = [] /\ qm_state (snd (quota_run polls m)) = StateBlocked.
Proof.
  revert m. induction polls as [|[r t] polls IH]; intros m Hs Hl; [done|].
  apply Forall_cons in Hl as [H1 Hl]. cbn [fst] in H1. cbn [quota_run].
  assert (fst (quota_poll r t m) = [] /\ qm_state (snd (quota_poll r t m)) = StateBlocked) as [E1 E2].
  { destruct r as [qi|e]; [|done]. cbn [quota_poll fst snd qm_state].
    assert (evaluate (qm_cfg m) (UsedPercent qi) (qm_state m) = StateBlocked) as ->.
    { unfold evaluate. rewrite Hs, H1, bool_decide_eq_true_2 by done. cbn [andb]. destruct_match; reflexivity. }
    by rewrite Hs. }
  destruct (poll_cfg r t m) as [Hc _]. destruct (quota_poll r t m) as [o1 m1]. cbn [fst snd] in *. subst o1.
  destruct (IH m1 E2) as [E3 E4]; [by rewrite Hc|].
  destruct (quota_run polls m1) as [o2 m2]. by cbn [fst snd] in *.
Qed.

(** ** Properties *)

(** The push workers are paused exactly while the monitor is in the blocked
    state, after any sequence of polls, failed ones included. *)
Theorem quota_paused_iff_blocked pub cfg polls :
  qc_DryRun cfg = false ->
  let '(log, m) := quota_run polls (NewMonitor pub true cfg) in
  paused log = true <-> qm_state m = StateBlocked.
Proof.
  intros Hd. pose proof (run_paused polls (NewMonitor pub true cfg) false Hd eq_refl eq_refl) as Hp.
  destruct (quota_run polls (NewMonitor pub true cfg)) as [log m]. cbn [fst snd] in Hp. unfold paused.
  rewrite Hp. by rewrite bool_decide_eq_true.
Qed.

(** Hysteresis and failure: once blocked, the monitor stays blocked and
    silent through failed polls and through usage at or above the hysteresis
    threshold, even below the stop threshold; the next answered poll below both
    thresholds ends the block and resumes the workers exactly once. *)
Theorem quota_hysteresis m polls qi t :
  qm_state m = StateBlocked -> qc_DryRun (qm_cfg m) = false -> qm_push m = true ->
  Forall (fun p => match fst p with
                   | Ok q => f64_geb (UsedPercent q) (qc_HysteresisPct (qm_cfg m)) = true
                   | Err _ => True
                   end) polls ->
  f64_geb (UsedPercent qi) (qc_StopPushPct (qm_cfg m)) = false ->
  f64_geb (UsedPercent qi) (qc_HysteresisPct (qm_cfg m)) = false ->
  fst (quota_run polls m) = [] /\ qm_state (snd (quota_run polls m)) = StateBlocked /\
  qm_state (snd (quota_run (polls ++ [(Ok qi, t)]) m)) <> StateBlocked /\
  List.filter (fun o => match o with QPublish _ _ _ => false | _ => true end)
    (fst (quota_run (polls ++ [(Ok qi, t)]) m)) = [QResumePush].
Proof.
  intros Hs Hd Hp Hl H1 H2. destruct (run_stays_blocked polls m Hs Hl) as [E1 E2].
  split; [done|]. split; [done|].
  assert (forall l m0, quota_run (l ++ [(Ok qi, t)]) m0 =
    (fst (quota_run l m0) ++ fst (quota_poll (Ok qi) t (snd (quota_run l m0))),
     snd (quota_poll (Ok qi) t (snd (quota_run l m0))))) as Hrun.
  { induction l as [|[r t'] l IH]; intros m0; [cbn; by rewrite app_nil_r|]. cbn [app quota_run].
    destruct (quota_poll r t' m0) as [o1 m1]. rewrite IH. destruct (quota_run l m1) as [o2 m2].
    cbn [fst snd]. by rewrite app_assoc. }
  assert (forall l m0, qm_cfg (snd (quota_run l m0)) = qm_cfg m0 /\ qm_push (snd (quota_run l m0)) = qm_push m0) as Hcfg.
  { induction l as [|[r t'] l IH]; intros m0; [done|]. cbn [quota_run].
    destruct (poll_cfg r t' m0) as [Hc Hq]. destruct (quota_poll r t' m0) as [o1 m1].
    destruct (IH m1) as [Hc1 Hq1]. destruct (quota_run l m1). cbn [fst snd] in *. split; congruence. }
  destruct (Hcfg polls m) as [Hc Hq]. rewrite Hrun. cbn [fst snd]. rewrite E1.
  set (m1 := snd (quota_run polls m)) in *. cbn [quota_poll fst snd qm_state app].
  assert (evaluate (qm_cfg m1) (UsedPercent qi) (qm_state m1) =
    if f64_geb (UsedPercent qi) (qc_WarnPct (qm_cfg m)) then StateWarned else StateNormal) as ->.
  { unfold evaluate. by rewrite Hc, H1, H2, andb_false_r. }
  rewrite E2. unfold applyTransition, resumePush, emitEvent. cbn [qm_cfg qm_push qm_pub].
  rewrite Hc, Hq, Hd, Hp. destruct (f64_geb (UsedPercent qi) (qc_WarnPct (qm_cfg m))); cbn; [|done].
  split; [done|]. by destruct (qm_pub m1).
Qed.

(** ** Witnesses *)

Definition gib : Z := 2 ^ 30.

Definition blocked_monitor : Monitor :=
  snd (quota_poll (Ok (mkQuotaInfo (15 * gib) (15 * gib))) 0 (NewMonitor None true DefaultQuotaConfig)).

Lemma quota_paused_iff_blocked_witness :
  let '(log, m) := quota_run [(Ok (mkQuotaInfo (15 * gib) (15 * gib)), 0); (Err (EText "503"), 1)]
    (NewMonitor None true DefaultQuotaConfig) in
  paused log = true <-> qm_state m = StateBlocked.
Proof. apply (quota_paused_iff_blocked None DefaultQuotaConfig). reflexivity. Defined.

(** 95% of the quota keeps the block, 93% ends it. *)
Lemma quota_hysteresis_witness :
  qm_state (snd (quota_run [(Ok (mkQuotaInfo 95 100), 1)] blocked_monitor)) = StateBlocked /\
  qm_state (snd (quota_run [(Ok (mkQuotaInfo 95 100), 1); (Ok (mkQuotaInfo 93 100), 2)] blocked_monitor))
    <> StateBlocked.
Proof.
  destruct (quota_hysteresis blocked_monitor [(Ok (mkQuotaInfo 95 100), 1)] (mkQuotaInfo 93 100) 2)
    as (_ & H1 & H2 & _); [vm_compute; reflexivity..| | | |].
  - repeat constructor; vm_compute; reflexivity.
  - vm_compute. reflexivity.
  - vm_compute. reflexivity.
  - split; [exact H1|exact H2].
Defined.

(** The percentage is 0 without a quota and 100 at the limit. *)
Example UsedPercent_ends :
  UsedPercent (mkQuotaInfo 5 (-1)) = float64_of_Z 0 /\
  UsedPercent (mkQuotaInfo (15 * gib) (15 * gib)) = float64_of_Z 100.
Proof. vm_compute. done. Qed.
