(* ===== verification/Http.v ===== *)
(** The control endpoint ([internal/http]: server.go, handlers.go, metrics.go):
    authentication, routing, the handlers over the interfaces of interfaces.go,
    and the metrics. A request is served in one step; TCP, timeouts and JSON
    text are Go's. *)
From S2P Require Import Prelude.
From S2P Require Import GoStrings.
From S2P Require Import GoRuntime.
From S2P Require Import GoPath.
From S2P Require Import GoNet.

(** ** Data *)

(** [interfaces.go]. *)
Record StatusInfo := mkStatusInfo {
  si_State : string;
  si_Version : string;
  si_PendingUp : Z;
  si_PendingDown : Z;
  si_LastPush : string;
  si_LastPull : string;
  si_QuotaUsedPct : Z;
  si_Conflicts24h : Z;
  si_BytesUp24h : Z;
  si_BytesDown24h : Z;
  si_DryRun : bool;
  si_UptimeSeconds : Z;
}.

Record ComponentHealth := mkComponentHealth {
  ch_Name : string;
  ch_Healthy : bool;
  ch_Message : string;
  ch_Degraded : bool;
}.

Record HealthResult := mkHealthResult { hr_Healthy : bool; hr_Components : list ComponentHealth }.

Record HttpRepairedLink := mkHttpRepairedLink { hl_OldPath : string; hl_NewPath : string; hl_Side : string }.

Record RepairReport := mkRepairReport {
  rr_Scanned : Z;
  rr_Repaired : Z;
  rr_Links : list HttpRepairedLink;
  rr_DryRun : bool;
}.

(** What the server controls, on a state [A]. *)
Class Control (A : Type) := {
  ctl_Pause : ST A (result unit);
  ctl_Resume : ST A (result unit);
  ctl_ForceResync : ST A (result unit);
  ctl_Reload : ST A (result unit);
  ctl_Status : ST A (result StatusInfo);
  ctl_Healthz : ST A (result HealthResult);
  ctl_RunChainRepair : bool -> ST A (result RepairReport);
}.

(** [Metrics]: counters and gauges by name. *)
Record Metrics := mkMetrics { mt_counters : gmap string Z; mt_gauges : gmap string Z }.

Record ServerConfig := mkServerConfig { sc_ListenAddr : string; sc_EnableMetrics : bool; sc_AuthToken : string }.

(** A parsed request; the header is the [Authorization] one. *)
Record Request := mkRequest {
  rq_Method : string;
  rq_Path : string;
  rq_Query : list (string * string);
  rq_Authorization : string;
}.

Inductive Body :=
| BText (s : string)
| BFields (l : list (string * string))
| BStatus (i : StatusInfo)
| BHealth (h : HealthResult)
| BReport (r : RepairReport).

Record Response := mkResponse { rs_Status : Z; rs_Header : list (string * string); rs_Body : Body }.

Definition nl : string := String (ascii_of_nat 10) "".

Definition dquote : string := String (ascii_of_nat 34) "".

(** ** Metrics *)

Definition NewMetrics : Metrics := mkMetrics ∅ ∅.

(** Atomic addition on an [int64]. *)
Definition AddCounter (name : string) (delta : Z) (m : Metrics) : Metrics :=
  mkMetrics (<[name := wrap64 (default 0 (mt_counters m !! name) + delta)]> (mt_counters m)) (mt_gauges m).

Definition IncCounter (name : string) (m : Metrics) : Metrics := AddCounter name 1 m.

Definition SetGauge (name : string) (value : Z) (m : Metrics) : Metrics :=
  mkMetrics (mt_counters m) (<[name := value]> (mt_gauges m)).

Definition metricEntry : Type := string * string * Z.

Definition collect (typ : string) (l : list (string * Z)) : list metricEntry :=
  map (fun '(name, v) => (name, typ, v)) l.

Definition entry_name (e : metricEntry) : string := fst (fst e).

(** Byte order, which Go's [<] on strings is. *)
Definition name_le (e e' : metricEntry) : Prop := String.leb (entry_name e) (entry_name e') = true.

#[export] Instance name_le_dec e e' : Decision (name_le e e').
Proof. unfold name_le. apply _. Defined.

Definition metric_lines (e : metricEntry) : string :=
  let '(name, typ, v) := e in
  "# TYPE " +:+ name +:+ " " +:+ typ +:+ nl +:+ name +:+ " " +:+ Itoa v +:+ nl.

(** [WriteTo]; the ranges over the two maps come in the orders given. *)
Definition metric_entries (counters gauges : list (string * Z)) : list metricEntry :=
  merge_sort name_le (collect "counter" counters ++ collect "gauge" gauges).

Definition WriteTo (counters gauges : list (string * Z)) : string :=
  foldr (fun e rest => metric_lines e +:+ rest) "" (metric_entries counters gauges).

(** ** Authentication *)

Definition ErrAuthTokenRequired : error :=
  EText "http: auth_token is required when listen is bound to a non-loopback address".

Definition isLoopbackAddr (addr : string) : bool :=
  let host := match SplitHostPort addr with Some (h, _) => h | None => addr end in
  if String.eqb host "" then false
  else if EqualFold host "localhost" then true
  else match ParseIP host with None => false | Some ip => IsLoopback ip end.

Definition defaultListen : string := "127.0.0.1:6090".

(** [NewServer], as the configuration the server then runs with. *)
Definition NewServer (cfg : ServerConfig) : result ServerConfig :=
  let cfg := if String.eqb (sc_ListenAddr cfg) ""
             then mkServerConfig defaultListen (sc_EnableMetrics cfg) (sc_AuthToken cfg) else cfg in
  if String.eqb (sc_AuthToken cfg) "" && negb (isLoopbackAddr (sc_ListenAddr cfg))
  then Err (EText (Error ErrAuthTokenRequired +:+ " (listen=" +:+ sc_ListenAddr cfg +:+ ")"))
  else Ok cfg.

Definition bearer : string := "Bearer ".

Definition hasValidBearerToken (header want : string) : bool :=
  if negb (HasPrefix header bearer) then false else String.eqb (TrimPrefix header bearer) want.

(** ** Handlers *)

Definition MethodGet : string := "GET".

Definition MethodPost : string := "POST".

Definition json_header : list (string * string) := [("Content-Type", "application/json")].

Definition writeJSON (status : Z) (b : Body) : Response := mkResponse status json_header b.

Definition writeError (status : Z) (msg : string) : Response := writeJSON status (BFields [("error", msg)]).

(** [http.Error]. *)
Definition http_error (status : Z) (text : string) (extra : list (string * string)) : Response :=
  mkResponse status (extra ++ [("Content-Type", "text/plain; charset=utf-8"); ("X-Content-Type-Options", "nosniff")])
    (BText (text +:+ nl)).

Definition counter_of (route : string) : string := "homedrive_http_requests_total_" +:+ route.

Section server.
Context {A : Type} `{Control A}.

(** The agent and the metrics. *)
Definition Srv : Type := A * Metrics.

Definition count (route : string) : ST Srv unit := fun '(a, m) => (tt, (a, IncCounter (counter_of route) m)).

Definition on_agent {B} (f : ST A B) : ST Srv B := fun '(a, m) => let '(b, a) := f a in (b, (a, m)).

(** A handler that calls one dependency: [fail] on its error, else [done]. *)
Definition call {B} (route : string) (f : ST A (result B)) (fail : string) (done : B -> Response) :
    ST Srv Response :=
  count route ;;
  let* r := on_agent f in
  st_ret (match r with Err _ => writeError 500 fail | Ok b => done b end).

Definition status_json (s : string) : Body := BFields [("status", s)].

Definition handleStatus : ST Srv Response :=
  call "status" ctl_Status "failed to retrieve status" (fun info => writeJSON 200 (BStatus info)).

Definition handlePause : ST Srv Response :=
  call "pause" ctl_Pause "failed to pause" (fun _ => writeJSON 200 (status_json "paused")).

Definition handleResume : ST Srv Response :=
  call "resume" ctl_Resume "failed to resume" (fun _ => writeJSON 200 (status_json "resumed")).

Definition handleResync : ST Srv Response :=
  call "resync" ctl_ForceResync "failed to trigger resync" (fun _ => writeJSON 202 (status_json "resync_triggered")).

Definition handleReload : ST Srv Response :=
  call "reload" ctl_Reload "failed to reload config" (fun _ => writeJSON 200 (status_json "reloaded")).

(** [r.URL.Query().Get(key)]: the first value. *)
Definition query_get (key : string) (q : list (string * string)) : string :=
  match List.find (fun kv => String.eqb (fst kv) key) q with Some kv => snd kv | None => "" end.

Definition handleConflictRepair (rq : Request) : ST Srv Response :=
  call "conflict_repair" (ctl_RunChainRepair (String.eqb (query_get "dry_run" (rq_Query rq)) "1"))
    "chain repair failed" (fun rep => writeJSON 200 (BReport rep)).

Definition handleHealthz : ST Srv Response :=
  call "healthz" ctl_Healthz "health check error"
    (fun h => writeJSON (if hr_Healthy h then 200 else 503) (BHealth h)).

Definition handleMetrics : ST Srv Response := fun '(a, m) =>
  (mkResponse 200 [("Content-Type", "text/plain; version=0.0.4; charset=utf-8")]
     (BText (WriteTo (map_to_list (mt_counters m)) (map_to_list (mt_gauges m)))), (a, m)).

Definition methodOnly (method : string) (h : ST Srv Response) (rq : Request) : ST Srv Response :=
  if negb (String.eqb (rq_Method rq) method)
  then st_ret (http_error 405 "Method Not Allowed" [("Allow", method)])
  else h.

(** ** Routing *)

Variable cfg : ServerConfig.

(** The routes of [s.routes()]: the method and the handler of a path. *)
Definition route_of (path : string) (rq : Request) : option (string * ST Srv Response) :=
  if String.eqb path "/status" then Some (MethodGet, handleStatus)
  else if String.eqb path "/pause" then Some (MethodPost, handlePause)
  else if String.eqb path "/resume" then Some (MethodPost, handleResume)
  else if String.eqb path "/resync" then Some (MethodPost, handleResync)
  else if String.eqb path "/reload" then Some (MethodPost, handleReload)
  else if String.eqb path "/conflict/repair" then Some (MethodPost, handleConflictRepair rq)
  else if String.eqb path "/healthz" then Some (MethodGet, handleHealthz)
  else if sc_EnableMetrics cfg && String.eqb path "/metrics" then Some (MethodGet, handleMetrics)
  else None.

(** [http.ServeMux] on these exact patterns: a path that is not in clean form
    is redirected, an unknown one not found. *)
Definition mux_path (p : string) : string :=
  let p := if HasPrefix p "/" then p else "/" +:+ p in
  let c := Clean p in
  if HasSuffix p "/" && negb (String.eqb c "/") then c +:+ "/" else c.

Definition mux (rq : Request) : ST Srv Response :=
  if negb (String.eqb (mux_path (rq_Path rq)) (rq_Path rq))
  then st_ret (mkResponse 301 [("Location", mux_path (rq_Path rq))] (BText ""))
  else
    match route_of (rq_Path rq) rq with
    | Some (method, h) => methodOnly method h rq
    | None => st_ret (http_error 404 "404 page not found" [])
    end.

Definition withAuth (next : Request -> ST Srv Response) (rq : Request) : ST Srv Response :=
  if String.eqb (sc_AuthToken cfg) "" then next rq
  else if negb (hasValidBearerToken (rq_Authorization rq) (sc_AuthToken cfg))
  then st_ret (http_error 401 "Unauthorized" [("WWW-Authenticate", "Bearer realm=" +:+ dquote +:+ "homedrive" +:+ dquote)])
  else next rq.

Definition serve (rq : Request) : ST Srv Response := withAuth mux rq.

End server.

(** ** Lemmas *)

Lemma bearer_spec header want : hasValidBearerToken header want = true <-> header = bearer +:+ want.
Proof.
  unfold hasValidBearerToken, TrimPrefix. destruct (HasPrefix header bearer) eqn:E; cbn [negb].
  - apply HasPrefix_spec in E as E'. destruct E' as [r ->].
    assert (str_drop (strlen bearer) (bearer +:+ r) = r) as -> by done.
    rewrite String.eqb_eq. split; [by intros ->|]. intros E'. by apply sapp_inj_l in E'.
  - split; [done|]. intros ->. rewrite (proj2 (HasPrefix_spec _ _)) in E; [done|by exists want].
Qed.

(** ** Properties *)

(** C19: the control endpoint is closed to strangers: a server that starts
    without a token listens on a loopback address, and one that has a token
    answers every request whose header is not exactly that bearer token, on
    any path and with any method, with a 401 and without touching the agent
    or the metrics. *)
Theorem unauthorized_is_inert {A} `{Control A} cfg cfg' rq (s : Srv (A := A)) :
  NewServer cfg = Ok cfg' ->
  (sc_AuthToken cfg' = "" -> isLoopbackAddr (sc_ListenAddr cfg') = true) /\
  (sc_AuthToken cfg' <> "" -> rq_Authorization rq <> bearer +:+ sc_AuthToken cfg' ->
     rs_Status (fst (serve cfg' rq s)) = 401 /\ snd (serve cfg' rq s) = s).
Proof.
  unfold NewServer. set (c := if String.eqb (sc_ListenAddr cfg) "" then _ else cfg). intros Hn.
  assert (cfg' = c /\ (String.eqb (sc_AuthToken c) "" && negb (isLoopbackAddr (sc_ListenAddr c))) = false) as [-> Hc]
    by (destruct (_ && _); [done|by injection Hn]). clearbody c. split.
  - intros Ht. rewrite Ht in Hc. cbn in Hc. by apply negb_false_iff in Hc.
  - intros Ht Hh. unfold serve, withAuth. rewrite (proj2 (String.eqb_neq _ _) Ht).
    destruct (hasValidBearerToken _ _) eqn:E; [by apply bearer_spec in E|done].
Qed.

(** The routes as a table: path, method, counter. *)
Definition routes (cfg : ServerConfig) : list (string * string * option string) :=
  [("/status", MethodGet, Some "status"); ("/pause", MethodPost, Some "pause");
   ("/resume", MethodPost, Some "resume"); ("/resync", MethodPost, Some "resync");
   ("/reload", MethodPost, Some "reload"); ("/conflict/repair", MethodPost, Some "conflict_repair");
   ("/healthz", MethodGet, Some "healthz")] ++
  (if sc_EnableMetrics cfg then [("/metrics", MethodGet, None)] else []).

(** The counter a request adds to: the one of its route, when it is
    authenticated and uses the route's method. *)
Definition counted (cfg : ServerConfig) (rq : Request) : option string :=
  if negb (String.eqb (sc_AuthToken cfg) "") && negb (hasValidBearerToken (rq_Authorization rq) (sc_AuthToken cfg))
  then None
  else match List.find (fun '(p, _, _) => String.eqb (rq_Path rq) p) (routes cfg) with
       | Some (_, method, c) => if String.eqb (rq_Method rq) method then c else None
       | None => None
       end.

Fixpoint serve_all {A} `{Control A} (cfg : ServerConfig) (rqs : list Request) : ST (Srv (A := A)) (list Response) :=
  match rqs with
  | [] => st_ret []
  | rq :: rqs =>
      let* r := serve cfg rq in
      let* rs := serve_all cfg rqs in
      st_ret (r :: rs)
  end.

Definition counter (name : string) (m : Metrics) : Z := default 0 (mt_counters m !! name).

Lemma counter_inc name name' m :
  counter name (IncCounter name' m) =
  if String.eqb name name' then wrap64 (counter name m + 1) else counter name m.
Proof.
  unfold counter, IncCounter, AddCounter; cbn. destruct (String.eqb_spec name name') as [->|Hn].
  - by rewrite lookup_insert_eq.
  - by rewrite lookup_insert_ne.
Qed.

Lemma call_metrics {A B} `{Control A} route (f : ST A (result B)) fail done (s : Srv (A := A)) :
  snd (snd (call route f fail done s)) = IncCounter (counter_of route) (snd s).
Proof. destruct s as [a m]. unfold call, st_bind, count, on_agent, st_ret; cbn. by destruct (f a). Qed.

(** The route of a path, looked up and dispatched. *)
Ltac route_case rq :=
  match goal with
  | |- context [String.eqb (rq_Path rq) ?p] =>
      destruct (String.eqb_spec (rq_Path rq) p) as [Ep|_];
      [rewrite Ep; unfold methodOnly; cbn; destruct (String.eqb (rq_Method rq) _); cbn;
       [apply call_metrics|done]|]
  end.

Lemma mux_metrics {A} `{Control A} cfg rq (s : Srv (A := A)) :
  snd (snd (mux cfg rq s)) =
  match match List.find (fun '(p, _, _) => String.eqb (rq_Path rq) p) (routes cfg) with
        | Some (_, method, c) => if String.eqb (rq_Method rq) method then c else None
        | None => None
        end with
  | Some c => IncCounter (counter_of c) (snd s)
  | None => snd s
  end.
Proof.
  destruct s as [a m]. unfold mux, routes, route_of. cbn [List.find app].
  do 7 route_case rq. destruct (sc_EnableMetrics cfg); cbn [List.find andb].
  - destruct (String.eqb_spec (rq_Path rq) "/metrics") as [Ep|_].
    + rewrite Ep. unfold methodOnly. cbn. by destruct (String.eqb (rq_Method rq) MethodGet).
    + by destruct (negb _).
  - by destruct (negb _).
Qed.

Lemma serve_metrics {A} `{Control A} cfg rq (s : Srv (A := A)) :
  snd (snd (serve cfg rq s)) =
  match counted cfg rq with Some c => IncCounter (counter_of c) (snd s) | None => snd s end.
Proof.
  unfold serve, withAuth, counted.
  destruct (String.eqb (sc_AuthToken cfg) ""); cbn [negb andb]; [apply mux_metrics|].
  destruct (hasValidBearerToken _ _); cbn [negb]; [apply mux_metrics|by destruct s].
Qed.

(** The request counters count: after any sequence of requests, of any
    agent and whatever its answers, a route's counter is the number of
    authenticated requests with that route's path and method, modulo the
    64-bit wrap; every other request leaves the metrics alone. *)
Theorem counters_count {A} `{Control A} cfg rqs (a : A) m route :
  counter (counter_of route) m = 0 ->
  counter (counter_of route) (snd (snd (serve_all cfg rqs (a, m)))) =
  wrap64 (Z.of_nat (length (List.filter (fun rq => bool_decide (counted cfg rq = Some route)) rqs))).
Proof.
  intros Hm.
  assert (Hgen : forall (s : Srv (A := A)) n, counter (counter_of route) (snd s) = wrap64 n ->
    counter (counter_of route) (snd (snd (serve_all cfg rqs s))) =
    wrap64 (n + Z.of_nat (length (List.filter (fun rq => bool_decide (counted cfg rq = Some route)) rqs)))).
  { clear. induction rqs as [|rq rqs IH]; intros s n Hn; cbn.
    - by rewrite Z.add_0_r.
    - unfold st_bind at 1. pose proof (serve_metrics cfg rq s) as Hs.
      destruct (serve cfg rq s) as [r s1]. cbn in Hs. unfold st_bind.
      assert (Hk : counter (counter_of route) (snd s1) =
        wrap64 (n + (if bool_decide (counted cfg rq = Some route) then 1 else 0))).
      { rewrite Hs. destruct (counted cfg rq) as [c|].
        - rewrite counter_inc. destruct (String.eqb_spec (counter_of route) (counter_of c)) as [E|E].
          + apply sapp_inj_l in E as <-. rewrite bool_decide_eq_true_2 by done. rewrite Hn.
            apply wrap64_add.
          + rewrite bool_decide_eq_false_2 by congruence. by rewrite Z.add_0_r.
        - rewrite bool_decide_eq_false_2 by done. by rewrite Z.add_0_r. }
      specialize (IH s1 _ Hk). destruct (serve_all cfg rqs s1) as [rs s2]. cbn in IH |- *. rewrite IH.
      destruct (bool_decide _); cbn [length]; f_equal; lia. }
  specialize (Hgen (a, m) 0). cbn [snd] in Hgen. rewrite Hgen; [done|by rewrite Hm].
Qed.

(** A minimal agent: whether it is paused. *)
Definition idle_status (paused : bool) : StatusInfo :=
  mkStatusInfo (if paused then "paused" else "running") "v" 0 0 "" "" 0 0 0 0 false 0.

Definition switch_control : Control bool := {|
  ctl_Pause := fun _ => (Ok tt, true);
  ctl_Resume := fun _ => (Ok tt, false);
  ctl_ForceResync := fun p => (Err (EText "running"), p);
  ctl_Reload := fun p => (Ok tt, p);
  ctl_Status := fun p => (Ok (idle_status p), p);
  ctl_Healthz := fun p => (Ok (mkHealthResult true []), p);
  ctl_RunChainRepair := fun d p => (Ok (mkRepairReport 0 0 [] d), p);
|}.

Definition open_server : ServerConfig := mkServerConfig "0.0.0.0:6090" true "secret".

Definition post_pause (header : string) : Request := mkRequest MethodPost "/pause" [] header.

Lemma unauthorized_is_inert_witness :
  rs_Status (fst (@serve _ switch_control open_server (post_pause "Bearer secre") (false, NewMetrics))) = 401 /\
  snd (@serve _ switch_control open_server (post_pause "Bearer secre") (false, NewMetrics)) = (false, NewMetrics) /\
  fst (snd (@serve _ switch_control open_server (post_pause "Bearer secret") (false, NewMetrics))) = true.
Proof.
  destruct (@unauthorized_is_inert _ switch_control open_server open_server (post_pause "Bearer secre")
    (false, NewMetrics)) as [_ H].
  - vm_compute. reflexivity.
  - destruct H as [H1 H2]; [discriminate|discriminate|]. split; [exact H1|]. split; [exact H2|reflexivity].
Defined.

Lemma counters_count_witness :
  counter "homedrive_http_requests_total_pause"
    (snd (snd (@serve_all _ switch_control open_server
       [post_pause "Bearer secret"; post_pause "Bearer no"; post_pause "Bearer secret"] (false, NewMetrics)))) = 2.
Proof.
  exact (@counters_count _ switch_control open_server
    [post_pause "Bearer secret"; post_pause "Bearer no"; post_pause "Bearer secret"] false NewMetrics "pause"
    eq_refl).
Defined.

Example loopback_addresses :
  map isLoopbackAddr ["127.0.0.1:6090"; "[::1]:6090"; "localhost:1"; "127.9.9.9"; "::1"; "[::ffff:127.0.0.1]:1"] =
    [true; true; true; true; true; true] /\
  map isLoopbackAddr [":6090"; "0.0.0.0:6090"; "127.0.0.1.evil.org:80"; "192.168.1.4:6090"; "[::]:6090"; "127.1:80"] =
    [false; false; false; false; false; false].
Proof. split; reflexivity. Qed.

(** *** The metrics page *)

Lemma String_leb_total s t : String.leb s t = true \/ String.leb t s = true.
Proof. apply String.leb_total. Qed.

#[export] Instance name_le_total : Total name_le.
Proof. intros e e'. apply String_leb_total. Qed.

(** The page lists every counter and gauge once, by name. *)
Theorem metric_entries_sorted counters gauges :
  Sorted name_le (metric_entries counters gauges) /\
  metric_entries counters gauges ≡ₚ collect "counter" counters ++ collect "gauge" gauges.
Proof. split; [apply Sorted_merge_sort; apply _|apply merge_sort_Permutation]. Qed.
