(* ===== verification/Mqtt.v ===== *)
(** The MQTT publisher ([internal/mqtt]: mqtt.go, events.go, state.go,
    discovery.go): topics, the client's calls into the paho library and its
    error accounting, events, the periodic state, and Home Assistant discovery.
    paho and the broker are outside: the calls into paho are recorded in order,
    and what it answers comes in as an argument. *)
From Stdlib Require Import Floats.SpecFloat.
From S2P Require Import Prelude.
From S2P Require Import GoStrings.
From S2P Require Import GoRuntime.
From S2P Require Import GoFloat.
From S2P Require Import Rfc3339.
From S2P Require Import Quota.

(** ** Data *)

(** A value [encoding/json] encodes; the text it becomes stays abstract. *)
Inductive json :=
| JStr (s : string)
| JInt (z : Z)
| JFloat (x : float64)
| JList (l : list json)
| JObj (l : list (string * json)).

Definition finite (x : float64) : bool :=
  match x with S754_nan | S754_infinity _ => false | _ => true end.

Fixpoint json_ok (j : json) : bool :=
  match j with
  | JFloat x => finite x
  | JList l => forallb json_ok l
  | JObj l => forallb (fun kv => json_ok (snd kv)) l
  | _ => true
  end.

(** Strings are coerced to valid UTF-8. *)
Fixpoint json_clean (j : json) : json :=
  match j with
  | JStr s => JStr (to_valid_utf8 s)
  | JList l => JList (map json_clean l)
  | JObj l => JObj (map (fun kv => (fst kv, json_clean (snd kv))) l)
  | _ => j
  end.

(** What goes over the wire. *)
Inductive wire := WText (s : string) | WJson (j : json).

(** [json.Marshal], which refuses NaN and the infinities. *)
Definition json_Marshal_value (j : json) : result wire :=
  if json_ok j then Ok (WJson (json_clean j)) else Err (EText "json: unsupported value").

(** The [any] of [Publish]: bytes, a string, or a value. *)
Inductive payload := PBytes (w : wire) | PString (s : string) | PValue (j : json).

(** [Config]. *)
Record MqttConfig := mkMqttConfig {
  mq_Broker : string;
  mq_ClientIDPrefix : string;
  mq_BaseTopic : string;
  mq_HADiscoveryPrefix : string;
  mq_QoS : Z;
  mq_KeepAlive : Duration;
  mq_ReconnectMax : Duration;
  mq_Username : string;
  mq_Password : string;
}.

Record Message := mkMessage { ms_Topic : string; ms_QoS : Z; ms_Retain : bool; ms_Payload : wire }.

(** [paho.ClientOptions]; automatic reconnection and clean sessions are always
    on. *)
Record PahoOptions := mkPahoOptions {
  po_Broker : string;
  po_ClientID : string;
  po_KeepAlive : Duration;
  po_MaxReconnect : Duration;
  po_Will : Message;
  po_Credentials : option (string * string);
}.

Inductive pahoCall := PahoConnect (o : PahoOptions) | PahoPublish (m : Message) | PahoDisconnect (quiesce : Z).

(** A goroutine that waits for a token, and what became of the token within
    five seconds. *)
Inductive waiting := WaitPublish | WaitOnline.

Inductive delivery := Delivered | DeliveryFailed (e : error) | DeliveryTimeout.

(** [Client]; [cl_waits] are the waiting goroutines. *)
Record Client := mkClient {
  cl_cfg : MqttConfig;
  cl_host : string;
  cl_user : string;
  cl_errors : Z;
  cl_closed : bool;
  cl_waits : list waiting;
}.

(** The client and its calls so far. *)
Definition MqttState : Type := Client * list pahoCall.

(** ** mqtt.go *)

Definition withDefaults (cfg : MqttConfig) : MqttConfig :=
  let or_str s d := if String.eqb s "" then d else s in
  let or_Z z d := if z =? 0 then d else z in
  mkMqttConfig (mq_Broker cfg) (or_str (mq_ClientIDPrefix cfg) "homedrive") (or_str (mq_BaseTopic cfg) "homedrive")
    (mq_HADiscoveryPrefix cfg) (or_Z (mq_QoS cfg) 1) (or_Z (mq_KeepAlive cfg) (30 * Second))
    (or_Z (mq_ReconnectMax cfg) (5 * Minute)) (mq_Username cfg) (mq_Password cfg).

Definition clientID (prefix host user : string) : string := prefix +:+ "_" +:+ host +:+ "_" +:+ user.

Definition Topic (c : Client) (parts : list string) : string :=
  Join ([mq_BaseTopic (cl_cfg c); cl_host c; cl_user c] ++ parts) "/".

Definition toBytes (p : payload) : result wire :=
  match p with
  | PBytes w => Ok w
  | PString s => Ok (WText s)
  | PValue j => json_Marshal_value j
  end.

Definition paho (k : pahoCall) : ST MqttState unit := fun '(c, calls) => (tt, (c, calls ++ [k])).

Definition on_client (f : Client -> Client) : ST MqttState unit := fun '(c, calls) => (tt, (f c, calls)).

Definition the_client : ST MqttState Client := fun s => (fst s, s).

(** [c.errors.Add(1)]. *)
Definition add_error (c : Client) : Client :=
  mkClient (cl_cfg c) (cl_host c) (cl_user c) (wrap64 (cl_errors c + 1)) (cl_closed c) (cl_waits c).

Definition set_waits (ws : list waiting) (c : Client) : Client :=
  mkClient (cl_cfg c) (cl_host c) (cl_user c) (cl_errors c) (cl_closed c) ws.

Definition set_closed (c : Client) : Client :=
  mkClient (cl_cfg c) (cl_host c) (cl_user c) (cl_errors c) true (cl_waits c).

(** [paho.Publish] with a goroutine waiting for its token. *)
Definition publish_waiting (w : waiting) (m : Message) : ST MqttState unit :=
  paho (PahoPublish m) ;; on_client (fun c => set_waits (cl_waits c ++ [w]) c).

Definition Client_Publish (topic : string) (qos : Z) (retain : bool) (p : payload) : ST MqttState (result unit) :=
  match toBytes p with
  | Err e => on_client add_error ;; st_ret (Err (EWrap "mqtt payload encode" e))
  | Ok data => publish_waiting WaitPublish (mkMessage topic qos retain data) ;; st_ret (Ok tt)
  end.

Definition Client_PublishJSON (topic : string) (j : json) : ST MqttState (result unit) :=
  match json_Marshal_value j with
  | Err e => on_client add_error ;; st_ret (Err (EWrap "mqtt json marshal" e))
  | Ok data =>
      let* c := the_client in
      Client_Publish topic (mq_QoS (cl_cfg c)) false (PBytes data)
  end.

Definition online_message (c : Client) (text : string) : Message :=
  mkMessage (Topic c ["online"]) (mq_QoS (cl_cfg c)) true (WText text).

Definition onConnect : ST MqttState unit :=
  let* c := the_client in publish_waiting WaitOnline (online_message c "online").

(** A waiting goroutine ends: a timeout is counted, and so is a failure of a
    publication. *)
Definition settled (w : waiting) (d : delivery) (c : Client) : Client :=
  match w, d with
  | _, DeliveryTimeout | WaitPublish, DeliveryFailed _ => add_error c
  | _, _ => c
  end.

Definition settle (k : nat) (d : delivery) : ST MqttState unit :=
  on_client (fun c =>
    match cl_waits c !! k with
    | Some w => settled w d (set_waits (take k (cl_waits c) ++ drop (S k) (cl_waits c)) c)
    | None => c
    end).

(** [Close]; [open] is [IsConnectionOpen] at that time. *)
Definition Close (open : bool) : ST MqttState (result unit) :=
  let* c := the_client in
  if cl_closed c then st_ret (Ok tt)
  else
    on_client set_closed ;;
    (if open then paho (PahoPublish (online_message c "offline")) else st_ret tt) ;;
    paho (PahoDisconnect 500) ;;
    st_ret (Ok tt).

(** [New]; the outcome of [Connect] within ten seconds is an argument. *)
Definition NewMqtt (cfg : MqttConfig) (host user : string) (outcome : delivery) : result MqttState :=
  let cfg := withDefaults cfg in
  let c := mkClient cfg host user 0 false [] in
  let opts := mkPahoOptions (mq_Broker cfg) (clientID (mq_ClientIDPrefix cfg) host user) (mq_KeepAlive cfg)
    (mq_ReconnectMax cfg) (online_message c "offline")
    (if String.eqb (mq_Username cfg) "" then None else Some (mq_Username cfg, mq_Password cfg)) in
  match outcome with
  | DeliveryTimeout => Err (EText ("mqtt connect timeout: broker=" +:+ mq_Broker cfg))
  | DeliveryFailed e => Err (EWrap "mqtt connect" e)
  | Delivered => Ok (c, [PahoConnect opts])
  end.

(** [Publisher], as the other files use it. *)
Class Publisher (P : Type) := {
  pub_Topic : P -> list string -> string;
  pub_Publish : string -> Z -> bool -> payload -> ST P (result unit);
  pub_PublishJSON : string -> json -> ST P (result unit);
}.

#[export] Instance client_publisher : Publisher MqttState := {|
  pub_Topic := fun s => Topic (fst s);
  pub_Publish := Client_Publish;
  pub_PublishJSON := Client_PublishJSON;
|}.

(** ** events.go *)

Definition EventPushSuccess := "push.success".
Definition EventPushFailure := "push.failure".
Definition EventPullSuccess := "pull.success".
Definition EventPullFailure := "pull.failure".
Definition EventConflictDetected := "conflict.detected".
Definition EventConflictResolved := "conflict.resolved".
Definition EventDirRename := "dir_rename".
Definition EventQuotaWarning := "quota.warning".
Definition EventQuotaExhausted := "quota.exhausted".
Definition EventOAuthRefreshFailed := "oauth.refresh_failed".

Definition AllEventTypes : list string :=
  [EventPushSuccess; EventPushFailure; EventPullSuccess; EventPullFailure; EventConflictDetected;
   EventConflictResolved; EventDirRename; EventQuotaWarning; EventQuotaExhausted; EventOAuthRefreshFailed].

(** [Event]. *)
Record MqttEvent := mkMqttEvent {
  me_Timestamp : string;
  me_Type : string;
  me_Path : string;
  me_LocalMtime : string;
  me_RemoteMtime : string;
  me_Resolution : string;
  me_KeptOldAs : string;
  me_From : string;
  me_To : string;
  me_FilesCount : Z;
  me_Bytes : Z;
  me_Error : string;
  me_QuotaPct : float64;
}.

Definition f64_zero : float64 := S754_zero false.

(** An event with its type only. *)
Definition event_of (typ : string) : MqttEvent :=
  mkMqttEvent "" typ "" "" "" "" "" "" "" 0 0 "" f64_zero.

(** A field with [omitempty]. *)
Definition opt_str (key s : string) : list (string * json) := if String.eqb s "" then [] else [(key, JStr s)].

Definition opt_int (key : string) (z : Z) : list (string * json) := if z =? 0 then [] else [(key, JInt z)].

Definition opt_float (key : string) (x : float64) : list (string * json) :=
  match x with S754_zero _ => [] | _ => [(key, JFloat x)] end.

Definition event_json (e : MqttEvent) : json :=
  JObj ([("ts", JStr (me_Timestamp e)); ("type", JStr (me_Type e))] ++
    opt_str "path" (me_Path e) ++ opt_str "local_mtime" (me_LocalMtime e) ++
    opt_str "remote_mtime" (me_RemoteMtime e) ++ opt_str "resolution" (me_Resolution e) ++
    opt_str "kept_old_as" (me_KeptOldAs e) ++ opt_str "from" (me_From e) ++ opt_str "to" (me_To e) ++
    opt_int "files_count" (me_FilesCount e) ++ opt_int "bytes" (me_Bytes e) ++ opt_str "error" (me_Error e) ++
    opt_float "quota_pct" (me_QuotaPct e)).

(** [EventPublisher]: its QoS is kept and used nowhere. *)
Record EventPublisher := mkEventPublisher { ep_qos : Z }.

Definition NewEventPublisher (qos : Z) : EventPublisher := mkEventPublisher (if qos =? 0 then 1 else qos).

Definition stamped (t : Time) (e : MqttEvent) : MqttEvent :=
  if String.eqb (me_Timestamp e) "" then
    mkMqttEvent (Format_RFC3339 t) (me_Type e) (me_Path e) (me_LocalMtime e) (me_RemoteMtime e) (me_Resolution e)
      (me_KeptOldAs e) (me_From e) (me_To e) (me_FilesCount e) (me_Bytes e) (me_Error e) (me_QuotaPct e)
  else e.

Section publisher.
Context {P : Type} `{Publisher P}.

Definition pub_topic (parts : list string) : ST P string := fun p => (pub_Topic p parts, p).

Section events.
Variable ep : EventPublisher.
(** [time.Now]. *)
Variable t : Time.

Definition Emit (evt : MqttEvent) : ST P (result unit) :=
  let evt := stamped t evt in
  if String.eqb (me_Type evt) "" then st_ret (Err (EText "event type is required"))
  else
    let* topic := pub_topic ["events"; me_Type evt] in
    let* r := pub_PublishJSON topic (event_json evt) in
    st_ret (wrap ("event publish " +:+ me_Type evt) r).

Definition EmitSync (eventType path : string) (bytes : Z) (err : option error) : ST P (result unit) :=
  Emit (mkMqttEvent "" eventType path "" "" "" "" "" "" 0 bytes
    (match err with Some e => Error e | None => "" end) f64_zero).

(** [if !t.IsZero()]: formatted, else empty. *)
Definition mtime_text (t : Time) : string := if t =? 0 then "" else Format_RFC3339 t.

Definition EmitConflict (eventType path : string) (localMtime remoteMtime : Time) (resolution keptOldAs : string) :
    ST P (result unit) :=
  Emit (mkMqttEvent "" eventType path (mtime_text localMtime) (mtime_text remoteMtime) resolution keptOldAs "" ""
    0 0 "" f64_zero).

Definition EmitDirRename (from to : string) (filesCount : Z) : ST P (result unit) :=
  Emit (mkMqttEvent "" EventDirRename "" "" "" "" "" from to filesCount 0 "" f64_zero).

Definition EmitQuota (eventType : string) (quotaPct : float64) : ST P (result unit) :=
  Emit (mkMqttEvent "" eventType "" "" "" "" "" "" "" 0 0 "" quotaPct).

Definition EmitOAuthFailure (errMsg : string) : ST P (result unit) :=
  Emit (mkMqttEvent "" EventOAuthRefreshFailed "" "" "" "" "" "" "" 0 0 errMsg f64_zero).
End events.

(** ** state.go *)

(** What the two providers return in one round. *)
Record Provided := mkProvided {
  pv_Status : string;
  pv_LastPush : Time;
  pv_LastPull : Time;
  pv_PendingUploads : Z;
  pv_PendingDownloads : Z;
  pv_Conflicts24h : Z;
  pv_BytesUploaded24h : Z;
  pv_BytesDownloaded24h : Z;
  pv_QuotaUsedPct : float64;
}.

(** [fmt.Sprintf("%.1f", x)]: the exact value rounded to one decimal, ties to
    even. *)
Definition tenths (m : positive) (e : Z) : Z :=
  if 0 <=? e then 10 * Zpos m * 2 ^ e
  else
    let d := 2 ^ (- e) in
    let q := 10 * Zpos m / d in
    let r := 10 * Zpos m mod d in
    if (d <? 2 * r) || ((2 * r =? d) && Z.odd q) then q + 1 else q.

Definition Sprintf_1f (x : float64) : string :=
  let sign (s : bool) := if s then "-" else "" in
  match x with
  | S754_nan => "NaN"
  | S754_infinity s => if s then "-Inf" else "+Inf"
  | S754_zero s => sign s +:+ "0.0"
  | S754_finite s m e => sign s +:+ Itoa (tenths m e / 10) +:+ "." +:+ Itoa (tenths m e mod 10)
  end.

Definition publishString (subtopic value : string) : ST P unit :=
  let* topic := pub_topic [subtopic] in
  let* _ := pub_Publish topic 1 true (PString value) in
  st_ret tt.

Definition publishTimestamp (subtopic : string) (t : Time) : ST P unit := publishString subtopic (mtime_text t).

Definition publishInt (subtopic : string) (value : Z) : ST P unit := publishString subtopic (Itoa value).

Definition publishInt64 (subtopic : string) (value : Z) : ST P unit := publishString subtopic (Itoa value).

Definition publishFloat (subtopic : string) (value : float64) : ST P unit :=
  publishString subtopic (Sprintf_1f value).

Definition publishState (v : Provided) : ST P unit :=
  publishString "status" (pv_Status v) ;;
  publishTimestamp "last_push" (pv_LastPush v) ;;
  publishTimestamp "last_pull" (pv_LastPull v) ;;
  publishInt "queue/pending_up" (pv_PendingUploads v) ;;
  publishInt "queue/pending_down" (pv_PendingDownloads v) ;;
  publishInt "conflicts_24h" (pv_Conflicts24h v) ;;
  publishInt64 "bytes_up_24h" (pv_BytesUploaded24h v) ;;
  publishInt64 "bytes_down_24h" (pv_BytesDownloaded24h v) ;;
  publishFloat "quota_used_pct" (pv_QuotaUsedPct v).

(** [Run], over what the providers return at the start and at each tick until
    the context ends. *)
Fixpoint StatePublisher_Run (v : Provided) (ticks : list Provided) : ST P unit :=
  publishState v ;;
  match ticks with [] => st_ret tt | v :: ticks => StatePublisher_Run v ticks end.

End publisher.

Definition NewStatePublisher (interval : Duration) : Duration := if interval =? 0 then 30 * Second else interval.

(** ** discovery.go *)

Definition HASensor := "sensor".

Definition HABinarySensor := "binary_sensor".

Record EntityDef := mkEntityDef {
  en_Key : string;
  en_Name : string;
  en_Component : string;
  en_DeviceClass : string;
  en_Icon : string;
  en_Unit : string;
  en_StateTopic : string;
  en_ValueTmpl : string;
  en_PayloadOn : string;
  en_PayloadOff : string;
  en_ExpireAfter : Z;
}.

Record DeviceBlock := mkDeviceBlock {
  db_Identifiers : list string;
  db_Name : string;
  db_SWVersion : string;
  db_Model : string;
  db_Manufacturer : string;
}.

Record DiscoveryConfig := mkDiscoveryConfig {
  dc_Name : string;
  dc_UniqueID : string;
  dc_StateTopic : string;
  dc_Device : DeviceBlock;
  dc_DeviceClass : string;
  dc_Icon : string;
  dc_UnitOfMeasurement : string;
  dc_ValueTemplate : string;
  dc_PayloadOn : string;
  dc_PayloadOff : string;
  dc_ExpireAfter : Z;
}.

(** A sensor of [Entities]. *)
Definition sensor (key name class icon unit topic : string) : EntityDef :=
  mkEntityDef key name HASensor class icon unit topic "" "" "" 0.

Definition Entities : list EntityDef :=
  [sensor "status" "Status" "" "mdi:sync" "" "status";
   sensor "last_push" "Last Push" "timestamp" "mdi:cloud-upload" "" "last_push";
   sensor "last_pull" "Last Pull" "timestamp" "mdi:cloud-download" "" "last_pull";
   sensor "pending_up" "Pending Uploads" "" "mdi:upload" "" "queue/pending_up";
   sensor "pending_down" "Pending Downloads" "" "mdi:download" "" "queue/pending_down";
   sensor "conflicts_24h" "Conflicts (24h)" "" "mdi:alert-circle" "" "conflicts_24h";
   sensor "bytes_up_24h" "Bytes Uploaded (24h)" "" "mdi:upload-network" "B" "bytes_up_24h";
   sensor "bytes_down_24h" "Bytes Downloaded (24h)" "" "mdi:download-network" "B" "bytes_down_24h";
   sensor "quota_used_pct" "Drive Quota Used" "data_size" "mdi:google-drive" "%" "quota_used_pct";
   mkEntityDef "online" "Online" HABinarySensor "connectivity" "" "" "online" "" "online" "offline" 0].

Definition node_id (host user : string) : string := "homedrive_" +:+ host +:+ "_" +:+ user.

Definition buildDeviceBlock (host user swVersion : string) : DeviceBlock :=
  mkDeviceBlock [node_id host user] ("homedrive (" +:+ user +:+ "@" +:+ host +:+ ")") swVersion "homedrive"
    "asnowfix/home-automation".

Definition discoveryTopic (prefix host user : string) (entity : EntityDef) : string :=
  Join [prefix; en_Component entity; node_id host user +:+ "_" +:+ en_Key entity; "config"] "/".

Definition device_json (d : DeviceBlock) : json :=
  JObj [("identifiers", JList (map JStr (db_Identifiers d))); ("name", JStr (db_Name d));
        ("sw_version", JStr (db_SWVersion d)); ("model", JStr (db_Model d));
        ("manufacturer", JStr (db_Manufacturer d))].

Definition discovery_json (c : DiscoveryConfig) : json :=
  JObj ([("name", JStr (dc_Name c)); ("unique_id", JStr (dc_UniqueID c)); ("state_topic", JStr (dc_StateTopic c));
         ("device", device_json (dc_Device c))] ++
    opt_str "device_class" (dc_DeviceClass c) ++ opt_str "icon" (dc_Icon c) ++
    opt_str "unit_of_measurement" (dc_UnitOfMeasurement c) ++ opt_str "value_template" (dc_ValueTemplate c) ++
    opt_str "payload_on" (dc_PayloadOn c) ++ opt_str "payload_off" (dc_PayloadOff c) ++
    opt_int "expire_after" (dc_ExpireAfter c)).

(** The conditional copies leave an empty field empty; the identifiers of a
    device are never empty here ([buildDeviceBlock]). *)
Definition discovery_config (entity : EntityDef) (device : DeviceBlock) (stateTopic : string) : DiscoveryConfig :=
  mkDiscoveryConfig (en_Name entity)
    ("homedrive_" +:+ match db_Identifiers device with i :: _ => i | [] => "" end +:+ "_" +:+ en_Key entity)
    stateTopic device (en_DeviceClass entity) (en_Icon entity) (en_Unit entity) (en_ValueTmpl entity)
    (en_PayloadOn entity) (en_PayloadOff entity) (if 0 <? en_ExpireAfter entity then en_ExpireAfter entity else 0).

Definition buildDiscoveryPayload (entity : EntityDef) (device : DeviceBlock) (stateTopic : string) : result wire :=
  json_Marshal_value (discovery_json (discovery_config entity device stateTopic)).

Section discovery.
Context {P : Type} `{Publisher P}.
Variable cfg : MqttConfig.
Variables host user : string.

(** The loop; the first error is kept. *)
Fixpoint publish_entities (prefix : string) (device : DeviceBlock) (l : list EntityDef) (firstErr : option error) :
    ST P (option error) :=
  match l with
  | [] => st_ret firstErr
  | entity :: l =>
      let* stateTopic := pub_topic [en_StateTopic entity] in
      match buildDiscoveryPayload entity device stateTopic with
      | Err e =>
          publish_entities prefix device l
            (match firstErr with None => Some (EWrap ("discovery payload for " +:+ en_Key entity) e) | _ => firstErr end)
      | Ok data =>
          let* r := pub_Publish (discoveryTopic prefix host user entity) (mq_QoS cfg) true (PBytes data) in
          publish_entities prefix device l
            (match r, firstErr with
             | Err e, None => Some (EWrap ("discovery publish for " +:+ en_Key entity) e)
             | _, _ => firstErr
             end)
      end
  end.

Definition PublishDiscovery (swVersion : string) : ST P (result unit) :=
  let prefix := if String.eqb (mq_HADiscoveryPrefix cfg) "" then "homeassistant" else mq_HADiscoveryPrefix cfg in
  let* e := publish_entities prefix (buildDeviceBlock host user swVersion) Entities None in
  st_ret (match e with None => Ok tt | Some e => Err e end).

End discovery.

(** ** Lemmas *)

(** A string field of a JSON message. *)
Definition wire_field (key : string) (w : wire) : option string :=
  match w with
  | WJson (JObj l) =>
      match List.find (fun kv => String.eqb (fst kv) key) l with Some (_, JStr s) => Some s | _ => None end
  | _ => None
  end.

Definition published (calls : list pahoCall) : list Message :=
  omap (fun k => match k with PahoPublish m => Some m | _ => None end) calls.

Lemma opt_str_ok key s : forallb (fun kv => json_ok (snd kv)) (opt_str key s) = true.
Proof. unfold opt_str. by destruct (String.eqb s ""). Qed.

Lemma opt_int_ok key z : forallb (fun kv => json_ok (snd kv)) (opt_int key z) = true.
Proof. unfold opt_int. by destruct (z =? 0). Qed.

Lemma opt_float_ok key x : forallb (fun kv => json_ok (snd kv)) (opt_float key x) = finite x.
Proof. destruct x as [[]|[]| |[]]; reflexivity. Qed.

Lemma event_json_ok e : json_ok (event_json e) = finite (me_QuotaPct e).
Proof. unfold event_json. cbn [json_ok]. rewrite !forallb_app, !opt_str_ok, !opt_int_ok, opt_float_ok. done. Qed.

Lemma discovery_json_ok c : json_ok (discovery_json c) = true.
Proof.
  unfold discovery_json. cbn [json_ok]. rewrite !forallb_app, !opt_str_ok, !opt_int_ok.
  cbn. rewrite !andb_true_r. induction (db_Identifiers (dc_Device c)) as [|i l IH]; [done|exact IH].
Qed.

Lemma stamped_type t e : me_Type (stamped t e) = me_Type e /\ me_QuotaPct (stamped t e) = me_QuotaPct e.
Proof. unfold stamped. by destruct (String.eqb _ _). Qed.

(** *** Discovery *)

Lemma discoveryTopic_inj prefix host user e e' :
  en_Component e = en_Component e' -> discoveryTopic prefix host user e = discoveryTopic prefix host user e' ->
  en_Key e = en_Key e'.
Proof.
  intros Hc. unfold discoveryTopic. cbn [Join]. rewrite Hc, !sapp_assoc. intros Ht.
  do 6 apply sapp_inj_l in Ht. by apply sapp_inj_r in Ht.
Qed.

Lemma discovery_topics_NoDup prefix host user : NoDup (map (discoveryTopic prefix host user) Entities).
Proof.
  change Entities with (take 9 Entities ++ drop 9 Entities). rewrite map_app. apply NoDup_app. split_and!.
  - apply (NoDup_map_via _ en_Key); [|apply (bool_decide_unpack _); vm_compute; done].
    assert (forall e, e ∈ take 9 Entities -> en_Component e = HASensor) as Hc.
    { apply Forall_forall. repeat constructor. }
    intros e e' He He'. apply discoveryTopic_inj. by rewrite (Hc e He), (Hc e' He').
  - intros x Hx Hy. cbn [map drop] in Hy. apply list_elem_of_singleton in Hy as ->.
    apply list_elem_of_fmap in Hx as (e & Ht & He). unfold discoveryTopic in Ht. cbn [Join] in Ht.
    do 2 apply sapp_inj_l in Ht. cbn [take] in He. set_unfold.
    repeat destruct He as [->|He]; done.
  - apply NoDup_singleton.
Qed.

(** The message that announces an entity. *)
Definition announcement (cfg : MqttConfig) (host user prefix : string) (device : DeviceBlock) (c : Client)
    (e : EntityDef) : Message :=
  mkMessage (discoveryTopic prefix host user e) (mq_QoS cfg) true
    (WJson (json_clean (discovery_json (discovery_config e device (Topic c [en_StateTopic e]))))).

Lemma publish_entities_spec cfg host user prefix device l c calls :
  publish_entities cfg host user prefix device l None (c, calls) =
  (None, (set_waits (cl_waits c ++ repeat WaitPublish (length l)) c,
          calls ++ map (fun e => PahoPublish (announcement cfg host user prefix device c e)) l)).
Proof.
  revert c calls. induction l as [|e l IH]; intros c calls; cbn [publish_entities map length repeat].
  - rewrite !app_nil_r. by destruct c.
  - unfold st_bind at 1, pub_topic. cbn [fst pub_Topic client_publisher].
    unfold buildDiscoveryPayload, json_Marshal_value. rewrite discovery_json_ok.
    unfold st_bind. cbn [pub_Publish client_publisher]. unfold Client_Publish, publish_waiting, st_bind; cbn [toBytes paho on_client].
    unfold st_ret. cbn [on_client]. rewrite IH. unfold set_waits; cbn. by rewrite <- !app_assoc.
Qed.

Lemma announcement_state cfg host user prefix device c e :
  wire_field "state_topic" (ms_Payload (announcement cfg host user prefix device c e)) =
  Some (to_valid_utf8 (Topic c [en_StateTopic e])).
Proof. done. Qed.

(** The messages of one round of the state publisher. *)
Definition state_messages (c : Client) (v : Provided) : list Message :=
  map (fun '(topic, text) => mkMessage (Topic c [topic]) 1 true (WText text))
    [("status", pv_Status v); ("last_push", mtime_text (pv_LastPush v)); ("last_pull", mtime_text (pv_LastPull v));
     ("queue/pending_up", Itoa (pv_PendingUploads v)); ("queue/pending_down", Itoa (pv_PendingDownloads v));
     ("conflicts_24h", Itoa (pv_Conflicts24h v)); ("bytes_up_24h", Itoa (pv_BytesUploaded24h v));
     ("bytes_down_24h", Itoa (pv_BytesDownloaded24h v)); ("quota_used_pct", Sprintf_1f (pv_QuotaUsedPct v))].

Lemma publishState_spec v c calls :
  publishState v (c, calls) =
  (tt, (set_waits (cl_waits c ++ repeat WaitPublish 9) c, calls ++ map PahoPublish (state_messages c v))).
Proof.
  unfold publishState, publishTimestamp, publishInt, publishInt64, publishFloat, publishString, pub_topic, st_bind.
  cbn. unfold Client_Publish, publish_waiting, st_bind, st_ret, set_waits. cbn. by rewrite <- !app_assoc.
Qed.

(** *** The presence topic *)

(** What the client does, and what paho calls back. *)
Inductive mqtt_op :=
| MPublish (topic : string) (qos : Z) (retain : bool) (p : payload)
| MPublishJSON (topic : string) (j : json)
| MConnected
| MSettle (k : nat) (d : delivery)
| MClose (open : bool).

Definition mqtt_do (op : mqtt_op) : ST MqttState unit :=
  match op with
  | MPublish topic qos retain p => Client_Publish topic qos retain p ;; st_ret tt
  | MPublishJSON topic j => Client_PublishJSON topic j ;; st_ret tt
  | MConnected => onConnect
  | MSettle k d => settle k d
  | MClose open => Close open ;; st_ret tt
  end.

Fixpoint mqtt_run (ops : list mqtt_op) : ST MqttState unit :=
  match ops with [] => st_ret tt | op :: ops => mqtt_do op ;; mqtt_run ops end.

(** What the presence topic and the connection see of a run. *)
Fixpoint presence (c : Client) (closed : bool) (ops : list mqtt_op) : list pahoCall :=
  match ops with
  | [] => []
  | MConnected :: ops => PahoPublish (online_message c "online") :: presence c closed ops
  | MClose open :: ops =>
      if closed then presence c closed ops
      else (if open then [PahoPublish (online_message c "offline")] else []) ++
           PahoDisconnect 500 :: presence c true ops
  | _ :: ops => presence c closed ops
  end.

Definition on_presence (c : Client) (k : pahoCall) : bool :=
  match k with PahoPublish m => String.eqb (ms_Topic m) (Topic c ["online"]) | _ => true end.

(** No other publication uses the topic. *)
Definition elsewhere (c : Client) (op : mqtt_op) : Prop :=
  match op with
  | MPublish topic _ _ _ | MPublishJSON topic _ => topic <> Topic c ["online"]
  | _ => True
  end.

(** The part of the client that stays. *)
Definition same_client (c c' : Client) : Prop :=
  cl_cfg c' = cl_cfg c /\ cl_host c' = cl_host c /\ cl_user c' = cl_user c.

Lemma same_client_topic c c' parts : same_client c c' -> Topic c' parts = Topic c parts.
Proof. intros (E1 & E2 & E3). unfold Topic. by rewrite E1, E2, E3. Qed.

Lemma same_client_online c c' text : same_client c c' -> online_message c' text = online_message c text.
Proof. intros Hc. unfold online_message. rewrite (same_client_topic c c' _ Hc). by destruct Hc as (-> & _). Qed.

(** What one operation adds to the presence trace. *)
Lemma presence_step c c1 calls op ops :
  same_client c c1 -> elsewhere c op ->
  let '(_, (c2, calls2)) := mqtt_do op (c1, calls) in
  same_client c c2 /\
  List.filter (on_presence c) calls2 ++ presence c (cl_closed c2) ops =
  List.filter (on_presence c) calls ++ presence c (cl_closed c1) (op :: ops).
Proof.
  intros Hc He. pose proof (same_client_online c c1) as Ho.
  destruct op as [topic qos retain p|topic j| |k d|open]; cbn [mqtt_do].
  - unfold Client_Publish. destruct (toBytes p); cbn.
    + split; [done|]. rewrite List.filter_app. cbn [List.filter on_presence ms_Topic].
      rewrite (proj2 (String.eqb_neq _ _) He). by rewrite app_nil_r.
    + done.
  - unfold Client_PublishJSON. destruct (json_Marshal_value j); cbn.
    + split; [done|]. rewrite List.filter_app. cbn [List.filter on_presence ms_Topic].
      rewrite (proj2 (String.eqb_neq _ _) He). by rewrite app_nil_r.
    + done.
  - cbn. split; [done|]. rewrite List.filter_app, <- app_assoc, Ho by done.
    cbn [List.filter on_presence ms_Topic online_message]. by rewrite String.eqb_refl.
  - unfold settle, on_client. destruct (cl_waits c1 !! k) as [[]|], d; cbn; done.
  - unfold Close, the_client, st_bind. cbn [fst]. destruct (cl_closed c1) eqn:Ecl; cbn; rewrite ?Ecl; [done|].
    destruct open; cbn; (split; [done|]); rewrite !List.filter_app, <- !app_assoc; [|done].
    rewrite Ho by done. cbn [List.filter on_presence ms_Topic online_message]. by rewrite String.eqb_refl.
Qed.

(** ** Properties *)

(** The presence topic tells the truth about the client's own actions: over
    any sequence of publications, reconnections, acknowledgements and closes,
    the calls on that topic and on the connection are: the connection, with a
    retained will that says offline on it, a retained online at every
    (re)connection, and at the first close a retained offline if the connection
    is open, followed by the only disconnect; later closes do nothing. *)
Theorem client_presence cfg host user s ops :
  NewMqtt cfg host user Delivered = Ok s -> Forall (elsewhere (fst s)) ops ->
  exists opts, snd s = [PahoConnect opts] /\ po_Will opts = online_message (fst s) "offline" /\
  List.filter (on_presence (fst s)) (snd (snd (mqtt_run ops s))) = PahoConnect opts :: presence (fst s) false ops.
Proof.
  intros [= <-] He. cbn [fst snd] in *. set (c := mkClient _ _ _ _ _ _) in *.
  eexists. split; [reflexivity|]. split; [reflexivity|].
  set (calls := [PahoConnect _]).
  assert (forall c1 calls, same_client c c1 ->
    List.filter (on_presence c) (snd (snd (mqtt_run ops (c1, calls)))) =
    List.filter (on_presence c) calls ++ presence c (cl_closed c1) ops) as Hgen.
  { clear calls. induction ops as [|op ops IH]; intros c1 calls Hc; [by rewrite app_nil_r|].
    inversion_clear He as [|? ? He1 He2]. cbn [mqtt_run]. unfold st_bind at 1.
    pose proof (presence_step c c1 calls op ops Hc He1) as Hs.
    destruct (mqtt_do op (c1, calls)) as [[] [c2 calls2]]. destruct Hs as [Hc2 <-]. by apply IH. }
  by rewrite Hgen.
Qed.

(** Home Assistant is told the topics the agent uses: discovery over any
    client succeeds and sends ten retained messages on ten distinct topics,
    whose state topics are, in order, the nine a round of the state publisher
    writes (each retained) and the presence topic; and the presence entity's
    payloads are the texts the client publishes there. *)
Theorem discovery_matches_state cfg sw v c :
  let '(r, (_, announced)) := PublishDiscovery cfg (cl_host c) (cl_user c) sw (c, []) in
  let '(_, (_, stated)) := publishState v (c, []) in
  r = Ok tt /\ length announced = 10%nat /\
  NoDup (map ms_Topic (published announced)) /\
  Forall (fun m => ms_Retain m = true) (published announced ++ published stated) /\
  map (fun m => wire_field "state_topic" (ms_Payload m)) (published announced) =
    map (fun m => Some (to_valid_utf8 (ms_Topic m))) (published stated ++ [online_message c "online"]) /\
  option_map (fun m => (wire_field "payload_on" (ms_Payload m), wire_field "payload_off" (ms_Payload m)))
    (last (published announced)) = Some (Some "online", Some "offline").
Proof.
  unfold PublishDiscovery. set (prefix := if String.eqb _ _ then _ else _). unfold st_bind at 1.
  rewrite publish_entities_spec, publishState_spec. unfold st_ret.
  set (f := announcement _ _ _ _ _ _).
  assert (published ([] ++ map (fun e => PahoPublish (f e)) Entities) = map f Entities) as -> by done.
  assert (published ([] ++ map PahoPublish (state_messages c v)) = state_messages c v) as -> by done.
  split; [done|]. split; [done|]. split; [|split; [|split]].
  - rewrite map_map. apply (discovery_topics_NoDup prefix (cl_host c) (cl_user c)).
  - apply Forall_app. split; repeat constructor.
  - rewrite map_app, map_map. done.
  - done.
Qed.

(** One event, one message: an event with a type is sent as one message that
    is not retained, on [<base>/<host>/<user>/events/<type>] with the client's
    QoS, carrying the whole event with its time filled in where it had none;
    when its quota percentage is not a number nothing is sent, the error count
    grows by one and the caller gets the error; and an event without a type is
    refused. *)
Theorem emit_event t evt c calls :
  let '(r, (c', calls')) := Emit t evt (c, calls) in
  (me_Type evt = "" -> is_ok r = false /\ (c', calls') = (c, calls)) /\
  (me_Type evt <> "" -> finite (me_QuotaPct evt) = true ->
     r = Ok tt /\ cl_errors c' = cl_errors c /\
     calls' = calls ++ [PahoPublish (mkMessage
       (mq_BaseTopic (cl_cfg c) +:+ "/" +:+ cl_host c +:+ "/" +:+ cl_user c +:+ "/events/" +:+ me_Type evt)
       (mq_QoS (cl_cfg c)) false (WJson (json_clean (event_json (stamped t evt)))))]) /\
  (me_Type evt <> "" -> finite (me_QuotaPct evt) = false ->
     is_ok r = false /\ cl_errors c' = wrap64 (cl_errors c + 1) /\ calls' = calls).
Proof.
  unfold Emit. destruct (stamped_type t evt) as [-> Hq].
  destruct (String.eqb_spec (me_Type evt) "") as [E|E]; [by split_and!|].
  unfold pub_topic, st_bind at 1. cbn [pub_Topic pub_PublishJSON client_publisher fst].
  unfold Client_PublishJSON, json_Marshal_value. rewrite event_json_ok, Hq.
  destruct (finite (me_QuotaPct evt)); cbn; by split_and!.
Qed.

(** ** Witnesses *)

Definition broker_config : MqttConfig := mkMqttConfig "tcp://nas:1883" "" "" "" 0 0 0 "" "".

Definition nas_client : Client := mkClient (withDefaults broker_config) "nas" "fix" 0 false [].

Lemma client_presence_witness :
  exists s, NewMqtt broker_config "nas" "fix" Delivered = Ok s /\
  map ms_Payload (published (List.filter (on_presence (fst s)) (snd (snd (mqtt_run
    [MConnected; MPublishJSON "homedrive/nas/fix/events/push.success" (JInt 1); MConnected; MClose true; MClose true] s))))) =
  [WText "online"; WText "online"; WText "offline"].
Proof.
  destruct (NewMqtt broker_config "nas" "fix" Delivered) as [s|] eqn:E; [|discriminate E].
  exists s. split; [reflexivity|].
  destruct (client_presence broker_config "nas" "fix" s
    [MConnected; MPublishJSON "homedrive/nas/fix/events/push.success" (JInt 1); MConnected; MClose true; MClose true] E)
    as (opts & _ & _ & Ht).
  - injection E as <-. repeat constructor. discriminate.
  - rewrite Ht. injection E as <-. reflexivity.
Defined.

Lemma emit_event_witness :
  is_ok (fst (EmitQuota 0 EventQuotaWarning (S754_nan) (nas_client, []))) = false /\
  snd (snd (EmitQuota 0 EventQuotaWarning (S754_nan) (nas_client, []))) = [].
Proof.
  set (evt := mkMqttEvent "" EventQuotaWarning "" "" "" "" "" "" "" 0 0 "" S754_nan).
  pose proof (emit_event 0 evt nas_client []) as He.
  change (is_ok (fst (Emit 0 evt (nas_client, []))) = false /\ snd (snd (Emit 0 evt (nas_client, []))) = []).
  destruct (Emit 0 evt (nas_client, [])) as [r [c' calls']]. destruct He as (_ & _ & Hn).
  destruct (Hn ltac:(discriminate) eq_refl) as (H1 & _ & H2). split; [exact H1|exact H2].
Defined.

(** ** What the names do not promise *)

(** Client identifiers differ between the users of a host. *)
Lemma clientID_user prefix host user user' : clientID prefix host user = clientID prefix host user' -> user = user'.
Proof. unfold clientID. intros E. by do 4 apply sapp_inj_l in E. Qed.

(** But not between hosts: with an underscore in a name two agents share the
    client identifier, so the broker disconnects one for the other, and share
    the discovery topics; and a quality of service of 0, which the
    configuration allows, becomes 1 (the findings' counterexamples). *)
Theorem mqtt_names_and_qos :
  clientID "homedrive" "nas_a" "b" = clientID "homedrive" "nas" "a_b" /\
  map (discoveryTopic "homeassistant" "nas_a" "b") Entities = map (discoveryTopic "homeassistant" "nas" "a_b") Entities /\
  mq_QoS (withDefaults broker_config) = 1 /\
  option_map (fun e => (en_DeviceClass e, en_Unit e)) (Entities !! 8%nat) = Some ("data_size", "%") /\
  option_map en_DeviceClass (Entities !! 6%nat) = Some "" /\
  dc_UniqueID (discovery_config (sensor "status" "Status" "" "mdi:sync" "" "status")
    (buildDeviceBlock "nas" "fix" "0.1") "") = "homedrive_homedrive_nas_fix_status".
Proof. by split_and!. Qed.

Example one_decimal :
  map Sprintf_1f [float64_of_Z 0; float64_of_Z 100; f64_div (float64_of_Z 1) (float64_of_Z 4);
                  f64_div (float64_of_Z 3) (float64_of_Z 4); f64_div (float64_of_Z (-1999)) (float64_of_Z 20); S754_nan] =
  ["0.0"; "100.0"; "0.2"; "0.8"; "-100.0"; "NaN"].
Proof. vm_compute. done. Qed.
