(* ===== verification/AgentConfig.v ===== *)
(** [internal/config/config.go]: the agent's configuration, its defaults and
    its validation. Reading YAML is a third-party parser and a parameter. *)
From S2P Require Import Prelude.
From S2P Require Import GoStrings.
From S2P Require Import GoRuntime.
From S2P Require Import GoFloat.
From S2P Require Import GoDuration.
From S2P Require Import OldSuffix.
From S2P Require Import Quota.

(** ** Definitions *)

Record WatcherCfg := mkWatcherCfg {
  cw_Debounce : Duration;
  cw_DirRenamePairWindow : Duration;
  cw_Exclude : list string;
}.

Record RetryCfg := mkRetryCfg {
  cr_MaxAttempts : Z;
  cr_InitialBackoff : Duration;
  cr_MaxBackoff : Duration;
}.

Record PushCfg := mkPushCfg { cp_Workers : Z; cp_Retry : RetryCfg }.

Record PullCfg := mkPullCfg { cl_ChangesAPIInterval : Duration; cl_BisyncInterval : Duration }.

Record RetentionCfg := mkRetentionCfg {
  rc_MaxPerFile : Z;
  rc_MaxAge : Duration;
  rc_SweepInterval : Duration;
}.

#[export] Instance RetentionCfg_eq_dec : EqDecision RetentionCfg.
Proof. solve_decision. Defined.

(** [cc_RepairChains] is a pointer. *)
Record ConflictCfg := mkConflictCfg {
  cc_Policy : string;
  cc_OldSuffixFormat : string;
  cc_Retention : RetentionCfg;
  cc_RepairChains : option bool;
}.

Record StateCfg := mkStateCfg { cs_Path : string; cs_AuditLog : string }.

Record HTTPCfg := mkHTTPCfg {
  ch_Listen : string;
  ch_Metrics : bool;
  ch_AuthToken : string;
  ch_CtlTimeout : Duration;
}.

Record MQTTCfg := mkMQTTCfg {
  cm_Enabled : bool;
  cm_Broker : string;
  cm_ClientIDPrefix : string;
  cm_BaseTopic : string;
  cm_HADiscoveryPrefix : string;
  cm_PublishInterval : Duration;
  cm_QoS : Z;
}.

Record LoggingCfg := mkLoggingCfg { cg_Level : string; cg_Format : string }.

Record QuotaCfg := mkQuotaCfg { cq_WarnPct : float64; cq_StopPushPct : float64 }.

Record AppConfig := mkAppConfig {
  c_LocalRoot : string;
  c_Remote : string;
  c_RcloneConfig : string;
  c_Watcher : WatcherCfg;
  c_Push : PushCfg;
  c_Pull : PullCfg;
  c_Conflict : ConflictCfg;
  c_State : StateCfg;
  c_HTTP : HTTPCfg;
  c_MQTT : MQTTCfg;
  c_Logging : LoggingCfg;
  c_Quota : QuotaCfg;
  c_DryRun : bool;
}.

(** [Duration.UnmarshalYAML] of a node with the text [value]: a bad text leaves
    the field as it was. *)
Definition Duration_UnmarshalYAML (value : string) : ST Duration (result unit) := fun d =>
  match ParseDuration value with
  | Err err => (Err (EWrap ("invalid duration " +:+ value) err), d)
  | Ok dur => (Ok tt, dur)
  end.

Definition zero_retention : RetentionCfg := mkRetentionCfg 0 0 0.

Definition defaultMaxPerFile : Z := 3.

Definition defaultSweepInterval : Duration := 24 * Hour.

(** The retention half of [applyDefaults]. *)
Definition retention_defaults (r : RetentionCfg) : RetentionCfg :=
  if decide (r = zero_retention) then mkRetentionCfg defaultMaxPerFile (rc_MaxAge r) defaultSweepInterval
  else if rc_MaxPerFile r <=? 0 then mkRetentionCfg 1 (rc_MaxAge r) (rc_SweepInterval r)
  else r.

Definition set_conflict (cc : ConflictCfg) (c : AppConfig) : AppConfig :=
  mkAppConfig (c_LocalRoot c) (c_Remote c) (c_RcloneConfig c) (c_Watcher c) (c_Push c) (c_Pull c) cc
    (c_State c) (c_HTTP c) (c_MQTT c) (c_Logging c) (c_Quota c) (c_DryRun c).

Definition set_dry_run (v : bool) (c : AppConfig) : AppConfig :=
  mkAppConfig (c_LocalRoot c) (c_Remote c) (c_RcloneConfig c) (c_Watcher c) (c_Push c) (c_Pull c)
    (c_Conflict c) (c_State c) (c_HTTP c) (c_MQTT c) (c_Logging c) (c_Quota c) v.

Definition applyDefaults (c : AppConfig) : AppConfig :=
  let cc := c_Conflict c in
  set_conflict
    (mkConflictCfg (cc_Policy cc) (cc_OldSuffixFormat cc) (retention_defaults (cc_Retention cc))
       (match cc_RepairChains cc with None => Some true | Some b => Some b end)) c.

(** [Load] after [os.ReadFile], whose outcome is [data]. *)
Definition Load (yaml_Unmarshal : string -> result AppConfig) (path : string) (data : result string) :
    result AppConfig :=
  match data with
  | Err e => Err (EWrap ("config: read " +:+ path) e)
  | Ok data =>
      match yaml_Unmarshal data with
      | Err e => Err (EWrap ("config: parse " +:+ path) e)
      | Ok cfg =>
          match New (cc_OldSuffixFormat (c_Conflict cfg)) with
          | Err e => Err (EWrap "config: conflict.old_suffix_format" e)
          | Ok _ => Ok (applyDefaults cfg)
          end
      end
  end.

(** ** Properties *)

(** What loading a configuration guarantees its consumers: the suffix
    format compiles, at least one conflict loser is kept per file, chain repair
    is decided, an omitted retention block gets the documented limits while a
    configured one keeps its age and sweep interval, everything else is as it
    was written, and applying the defaults again changes nothing. *)
Theorem Load_spec unmarshal path data cfg raw :
  unmarshal data = Ok raw -> Load unmarshal path (Ok data) = Ok cfg ->
  let r := cc_Retention (c_Conflict cfg) in let r0 := cc_Retention (c_Conflict raw) in
  is_ok (New (cc_OldSuffixFormat (c_Conflict cfg))) = true /\ 1 <= rc_MaxPerFile r /\
  cc_RepairChains (c_Conflict cfg) <> None /\
  (r0 = zero_retention -> r = mkRetentionCfg 3 0 (24 * Hour)) /\
  (r0 <> zero_retention -> r = mkRetentionCfg (Z.max 1 (rc_MaxPerFile r0)) (rc_MaxAge r0) (rc_SweepInterval r0)) /\
  set_conflict (c_Conflict raw) cfg = raw /\ applyDefaults cfg = cfg.
Proof.
  intros Hu Hl r r0. cbn [Load] in Hl. rewrite Hu in Hl.
  destruct (New _) eqn:Hnew; [|done]. injection Hl as <-.
  assert (forall x, 1 <= rc_MaxPerFile (retention_defaults x)) as Hpos.
  { intros x. unfold retention_defaults, defaultMaxPerFile. destruct (decide _); [done|].
    destruct (Z.leb_spec (rc_MaxPerFile x) 0); cbn; lia. }
  split_and!.
  - cbn. by rewrite Hnew.
  - apply Hpos.
  - cbn. by destruct (cc_RepairChains (c_Conflict raw)).
  - intros E. subst r r0. cbn. by rewrite E.
  - intros E. subst r r0. cbn. unfold retention_defaults. destruct (decide _); [done|].
    destruct (cc_Retention (c_Conflict raw)) as [m age sw]. cbn.
    destruct (Z.leb_spec m 0); f_equal; lia.
  - by destruct raw.
  - destruct raw as [? ? ? ? ? ? cc]. unfold applyDefaults, set_conflict. cbn.
    f_equal. destruct cc as [p f re ch]. cbn. f_equal; [|by destruct ch].
    unfold retention_defaults at 1. pose proof (Hpos re) as H1.
    destruct (decide _) as [E|_]; [rewrite E in H1; cbn in H1; lia|].
    destruct (Z.leb_spec (rc_MaxPerFile (retention_defaults re)) 0); [lia|done].
Qed.

(** A duration of the configuration: a whole number of a unit sets the field to
    exactly that many nanoseconds if they fit 64 bits; any other outcome of any
    text is an error that leaves the field alone, or a 64-bit value. *)
Theorem UnmarshalYAML_spec k u n value d :
  0 <= k -> unitMap u = Some n -> in_int64 d ->
  Duration_UnmarshalYAML (Itoa k +:+ u) d =
    (if k * n <=? max_int64 then (Ok tt, k * n)
     else (Err (EWrap ("invalid duration " +:+ Itoa k +:+ u)
             (EText ("time: invalid duration " +:+ Itoa k +:+ u))), d)) /\
  let '(r, d') := Duration_UnmarshalYAML value d in in_int64 d' /\ (is_ok r = false -> d' = d).
Proof.
  intros Hk Hu Hd. unfold Duration_UnmarshalYAML. split.
  - rewrite (ParseDuration_exact k u n) by done. by destruct (k * n <=? max_int64).
  - destruct (ParseDuration value) as [x|] eqn:E; [|done]. split; [by apply ParseDuration_bounds in E|done].
Qed.

(** ** Witnesses *)

(** A configuration as YAML leaves it when only the paths are given. *)
Definition minimal_config : AppConfig :=
  mkAppConfig "/home" "gdrive:" "" (mkWatcherCfg 0 0 []) (mkPushCfg 0 (mkRetryCfg 0 0 0))
    (mkPullCfg 0 0) (mkConflictCfg "" "" zero_retention None) (mkStateCfg "" "")
    (mkHTTPCfg "" false "" 0) (mkMQTTCfg false "" "" "" "" 0 0) (mkLoggingCfg "" "")
    (mkQuotaCfg (float64_of_Z 0) (float64_of_Z 0)) false.

Definition demo_config : AppConfig := applyDefaults minimal_config.

Lemma Load_spec_witness : applyDefaults demo_config = demo_config.
Proof.
  assert (Load (fun _ => Ok minimal_config) "c.yaml" (Ok "") = Ok demo_config) as E
    by (vm_compute; reflexivity).
  apply (Load_spec (fun _ => Ok minimal_config) "c.yaml" "" demo_config minimal_config); [reflexivity|exact E].
Defined.
