(* ===== verification/Agent.v ===== *)
(** [cmd/homedrive/agent.go] and [agent_run.go]: how the agent is put together
    from its configuration, and how watcher events are handed to the push
    syncer. The goroutines it starts are in Engine. *)
From S2P Require Import Prelude.
From S2P Require Import GoStrings.
From S2P Require Import GoRuntime.
From S2P Require Import OldSuffix.
From S2P Require Import LocalFS.
From S2P Require Import Remote.
From S2P Require Import MemFS.
From S2P Require Import FsWrappers.
From S2P Require Import Bolt.
From S2P Require Import Journal.
From S2P Require Import World.
From S2P Require Import Prune.
From S2P Require Import Retry.
From S2P Require Import PathFilter.
From S2P Require Import Debouncer.
From S2P Require Import Watcher.
From S2P Require Import Quota.
From S2P Require Import Http.
From S2P Require Import Mqtt.
From S2P Require Import AgentConfig.
From S2P Require Import BisyncJournal.
From S2P Require Import Bisync.
From S2P Require Import Push.
From S2P Require Import Pull.

(** ** Definitions *)

(** *** Construction *)

(** The fixed part of the agent; [ag_chanCap] is the capacity of [pushEvents]
    and of [pushRenames]. *)
Record Agent := mkAgent {
  ag_cfg : AppConfig;
  ag_matcher : Matcher;
  ag_chanCap : nat;
  ag_watch : WatcherConfig;
  ag_push : Syncer;
  ag_puller : Puller;
  ag_bisync : Bisync;
  ag_http : ServerConfig;
}.

Definition retentionPolicy (cfg : RetentionCfg) : RetentionPolicy :=
  mkPolicy (rc_MaxPerFile cfg) (rc_MaxAge cfg).

(** A [time.Duration] of the configuration with a fallback. *)
Definition or_default (d fallback : Duration) : Duration := if d <=? 0 then fallback else d.

Definition buildWatcher {F} (cfg : AppConfig) (fsw : result F) (t : Time) :
    result (WatcherConfig * WatcherState F) :=
  wrap "init watcher"
    (NewWatcher (mkWatcherConfig (c_LocalRoot cfg) (cw_Debounce (c_Watcher cfg))
       (cw_DirRenamePairWindow (c_Watcher cfg)) (cw_Exclude (c_Watcher cfg))) fsw t).

Definition buildPushSyncer (cfg : AppConfig) (pub : option (list string -> string)) (audit : bool) :
    Syncer :=
  let retry := cp_Retry (c_Push cfg) in
  NewSyncer
    (mkConfig (cp_Workers (c_Push cfg))
       (mkRetryConfig (cr_MaxAttempts retry) (cr_InitialBackoff retry) (cr_MaxBackoff retry))
       (c_DryRun cfg) (c_LocalRoot cfg)) audit pub.

Definition buildPuller (cfg : AppConfig) (matcher : Matcher) (pub : option (list string -> string))
    (audit auditor : bool) : Puller * PullState :=
  NewPuller
    (mkPullerConfig (or_default (cl_ChangesAPIInterval (c_Pull cfg)) (30 * Second)) (c_LocalRoot cfg)
       (cc_Policy (c_Conflict cfg)) matcher (retentionPolicy (cc_Retention (c_Conflict cfg))) auditor
       (c_DryRun cfg)) (Some matcher) audit pub.

Definition buildBisync (cfg : AppConfig) (matcher : Matcher) (pub : option (list string -> string))
    (rawAudit auditor : bool) : Bisync * BisyncState :=
  NewBisync
    (mkBisyncConfig (or_default (cl_BisyncInterval (c_Pull cfg)) Hour) (c_LocalRoot cfg) (c_DryRun cfg)
       matcher (retentionPolicy (cc_Retention (c_Conflict cfg)))
       (rc_SweepInterval (cc_Retention (c_Conflict cfg)))
       (match cc_RepairChains (c_Conflict cfg) with None => true | Some b => b end))
    (Some matcher) pub rawAudit auditor.

Definition buildHTTPServer (cfg : AppConfig) : result ServerConfig :=
  wrap "build http server"
    (NewServer (mkServerConfig (ch_Listen (c_HTTP cfg)) (ch_Metrics (c_HTTP cfg)) (ch_AuthToken (c_HTTP cfg)))).

(** [newAgent] once its files, database and connections are open: [pub] is the
    publisher [buildPublisher] returned, [fsw] the outcome of
    [fsnotify.NewWatcher]; the audit log is there when it has a path. *)
Definition newAgent {F} (cfg : AppConfig) (dryRun : bool) (pub : option (list string -> string))
    (fsw : result F) (t : Time) : result (Agent * WatcherState F * PullState * BisyncState) :=
  let cfg := if dryRun then set_dry_run true cfg else cfg in
  let audit := negb (String.eqb (cs_AuditLog (c_State cfg)) "") in
  result_bind (wrap "compile old-suffix matcher" (New (cc_OldSuffixFormat (c_Conflict cfg))))
    (fun matcher =>
  let size := cp_Workers (c_Push cfg) * 4 + 4 in
  if size <? 0 then Err (EText "panic: makechan: size out of range")
  else
  result_bind (buildWatcher cfg fsw t) (fun '(wcfg, watch) =>
  let push := buildPushSyncer cfg pub audit in
  let '(puller, pst) := buildPuller cfg matcher pub audit audit in
  let '(bisync, bst) := buildBisync cfg matcher pub audit audit in
  result_bind (buildHTTPServer cfg) (fun http =>
  Ok (mkAgent cfg matcher (Z.to_nat size) wcfg push puller bisync http, watch, pst, bst)))).

(** [os.Hostname] and [user.Current] are arguments. *)
Definition hostAndUser (hostname user : result string) : string * string :=
  let name d r := match r with Ok "" | Err _ => d | Ok s => s end in
  (name "unknown-host" hostname, name "unknown-user" user).

(** [noopPublisher.Topic]. *)
Definition noop_Topic (parts : list string) : string := Join parts "/".

(** The topic function of the publisher and the client, if MQTT is enabled. *)
Definition buildPublisher (cfg : AppConfig) (hostname user : result string) (outcome : delivery) :
    result ((list string -> string) * option MqttState) :=
  let m := c_MQTT cfg in
  if negb (cm_Enabled m) then Ok (noop_Topic, None)
  else
    let '(host, username) := hostAndUser hostname user in
    result_bind (wrap "connect mqtt"
      (NewMqtt (mkMqttConfig (cm_Broker m) (cm_ClientIDPrefix m) (cm_BaseTopic m) (cm_HADiscoveryPrefix m) (cm_QoS m)
         0 0 "" "") host username outcome)) (fun s =>
    Ok (Topic (fst s), Some s)).

(** [newAgent], with the broker. *)
Definition newAgent_connected {F} (cfg : AppConfig) (dryRun : bool) (hostname user : result string)
    (outcome : delivery) (fsw : result F) (t : Time) :
    result (Agent * WatcherState F * PullState * BisyncState * option MqttState) :=
  result_bind (buildPublisher cfg hostname user outcome) (fun '(topic, mq) =>
  result_bind (newAgent cfg dryRun (Some topic) fsw t) (fun '(ag, ws, pst, bst) => Ok (ag, ws, pst, bst, mq))).

(** *** From the watcher to the push syncer *)

Definition toSyncerOp (op : WOp) : Op :=
  match op with
  | WCreate => OpCreate
  | WWrite => OpWrite
  | WRemove => OpRemove
  | WRename => OpRename
  | _ => OpWrite
  end.

(** What the push workers receive. *)
Inductive item := IEvent (ev : Event) | IRename (dr : DirRename).

#[export] Instance item_eq_dec : EqDecision item.
Proof. intros x y. unfold Decision. repeat decide equality. Defined.

(** The conversion in [dispatchWatchEvent]. *)
Definition to_item (root : string) (we : WatchEvent) : item :=
  match we with
  | WatchDirRename dr =>
      IRename (mkDirRename (relToRoot root (wd_From dr)) (relToRoot root (wd_To dr)) (wd_At dr))
  | WatchFile ev => IEvent (mkEvent (relToRoot root (we_Path ev)) (toSyncerOp (we_Op ev)) (we_At ev))
  end.

(** *** The parts of a push handler *)

Section parts.
Context {R S : Type} `{RemoteFS R} `{Store S} `{Env}.
Abbreviation W := (World R S).
Variable s : Syncer.

Definition handle (it : item) : ST W unit :=
  match it with IEvent ev => handleEvent s ev | IRename dr => handleDirRename s dr end.

(** Up to [bisyncMu.RLock()]; [None] where the handler returns before it. *)
Definition handle_begin (it : item) : ST W (option Time) :=
  let* start := now in
  match it with
  | IEvent ev =>
      let* skip := skipDirEvent s ev in
      if skip : bool then st_ret None
      else if cfg_DryRun (s_cfg s) then logDryRun s ev ;; st_ret None
      else st_ret (Some start)
  | IRename dr =>
      if cfg_DryRun (s_cfg s) then logDryRunDirRename s dr ;; st_ret None else st_ret (Some start)
  end.

(** Under the read lock. *)
Definition handle_locked (it : item) (start : Time) : ST W unit :=
  match it with
  | IEvent ev =>
      let* r := retryFunc (Retry (s_cfg s)) (Op_String (ev_Op ev)) contextSleep (execEvent s ev) in
      let* finished := now in
      recordResult s (ev_Path ev) (Op_String (ev_Op ev)) r (Sub finished start)
  | IRename dr =>
      let* r := retryFunc (Retry (s_cfg s)) "dir_rename" contextSleep
                  (on_remote (MoveFile (dr_From dr) (dr_To dr))) in
      let* finished := now in
      match r with
      | Ok _ => dir_rename_ok s dr (Sub finished start)
      | Err err => dir_rename_failed s dr err (Sub finished start)
      end
  end.

(** ** Lemmas *)

Lemma handle_split it (w : W) :
  handle it w =
  (let* o := handle_begin it in
   match o with None => st_ret tt | Some start => handle_locked it start end) w.
Proof.
  unfold handle, handle_begin, handle_locked, handleEvent, handleDirRename. destruct it as [ev|dr].
  - unfold st_bind, now, tick. destruct (skipDirEvent s ev _) as [[] w1]; [done|].
    destruct (cfg_DryRun (s_cfg s)); [|done]. by destruct (logDryRun s ev w1) as [[] w2].
  - unfold st_bind, now, tick. destruct (cfg_DryRun (s_cfg s)); [|done].
    by destruct (logDryRunDirRename s dr _) as [[] w2].
Qed.

Lemma quiet_handle_begin it : quiet (handle_begin it).
Proof.
  unfold handle_begin. destruct it as [ev|dr]; unfold logDryRun, logDryRunDirRename; solve_quiet.
Qed.

End parts.

(** ** Properties *)

(** A configuration without [push.retry] is accepted and disables the push
    path: the agent built from it changes neither local files, nor the remote,
    nor the journal for any event -- the documented default of five attempts is
    applied nowhere, and no attempt is made (the finding's theorem). *)
Theorem push_retry_omitted {R S F} `{RemoteFS R} `{Store S} `{Env} cfg dry pub (fsw : result F) t
    ag ws pst bst ev (w : World R S) :
  cr_MaxAttempts (cp_Retry (c_Push cfg)) = 0 ->
  newAgent cfg dry pub fsw t = Ok (ag, ws, pst, bst) ->
  cfg_DryRun (s_cfg (ag_push ag)) = c_DryRun cfg || dry /\
  same_data w (snd (handleEvent (ag_push ag) ev w)).
Proof.
  intros Hz Hn. unfold newAgent in Hn.
  set (cfg' := if dry then set_dry_run true cfg else cfg) in *. cbv zeta in Hn.
  assert (cr_MaxAttempts (cp_Retry (c_Push cfg')) = 0) as Hz' by (subst cfg'; by destruct dry).
  assert (c_DryRun cfg' = c_DryRun cfg || dry) as Hd.
  { subst cfg'. destruct dry; [by rewrite orb_true_r|by rewrite orb_false_r]. }
  destruct (New _) as [m|]; [|done]. cbn [wrap GoRuntime.map_err result_bind] in Hn. destruct (_ <? _); [done|].
  destruct (buildWatcher cfg' fsw t) as [[wcfg watch]|]; [|done]. cbn [result_bind] in Hn.
  destruct (buildPuller _ _ _ _ _) as [pu p0]. destruct (buildBisync _ _ _ _ _) as [bi b0].
  destruct (buildHTTPServer cfg') as [http|]; [|done].
  injection Hn as <- _ _ _. cbn [ag_push].
  set (s := buildPushSyncer cfg' pub _).
  assert (cfg_DryRun (s_cfg s) = c_DryRun cfg' /\ MaxAttempts (Retry (s_cfg s)) = 0) as [E1 E2].
  { subst s. unfold buildPushSyncer, NewSyncer. cbn. by destruct (_ <? 1). }
  split; [by rewrite E1|]. enough (quiet (R := R) (S := S) (handleEvent s ev)) as Hq by apply Hq.
  unfold handleEvent, logDryRun. unfold retryFunc. rewrite E2. cbn [Z.to_nat retry_loop].
  apply quiet_bind; [apply quiet_now|intros start].
  apply quiet_bind; [apply quiet_skipDirEvent|intros []]; [apply quiet_ret|].
  destruct (cfg_DryRun _); [solve_quiet|]. intros w0. unfold st_ret, st_bind, now, tick.
  etrans; [|apply recordResult_err]. done.
Qed.

(** ** Witnesses *)

Definition demo_pub : option (list string -> string) := Some (fun ps => Join ps "/").

Definition minimal_agent : Agent :=
  match newAgent demo_config false demo_pub (Ok ∅ : result (gset string)) 0 with
  | Ok (ag, _, _, _) => ag
  | Err _ => mkAgent demo_config default_matcher 0 DefaultWatcherConfig demo_syncer (fst (buildPuller demo_config default_matcher None true true)) (demo_bisync true)
      (mkServerConfig "" false "")
  end.

Lemma push_retry_omitted_witness :
  Load (fun _ => Ok minimal_config) "c.yaml" (Ok "") = Ok demo_config /\
  same_data (demo_world demo_db)
    (snd (@handleEvent _ _ _ _ demo_env (ag_push minimal_agent) (mkEvent "docs/a.txt" OpWrite 0)
      (demo_world demo_db))).
Proof.
  split; [vm_compute; reflexivity|].
  destruct (newAgent demo_config false demo_pub (Ok ∅ : result (gset string)) 0)
    as [[[[ag ws] pst] bst]|e] eqn:E; [|vm_compute in E; discriminate].
  assert (minimal_agent = ag) as -> by (unfold minimal_agent; rewrite E; reflexivity).
  apply (push_retry_omitted (H1 := demo_env) demo_config false demo_pub (Ok ∅) 0 ag ws pst bst);
    [reflexivity|exact E].
Defined.
