(* ===== verification/Engine.v ===== *)
(** The running agent: the push syncer's pool ([Syncer.Run] and [worker] of
    internal/syncer/syncer.go), the pull loop, the bisync loop and the chain
    repair requests ([agent_run.go], bisync.go), and the read-write mutex
    [bisyncMu] between them, as one transition system.

    An action is one step of one goroutine: a channel operation, a step of a
    lock, or what a handler does between two of them. A handler's body under
    the lock is one action; everything else interleaves freely. *)
From S2P Require Import Prelude.
From S2P Require Import GoStrings.
From S2P Require Import GoRuntime.
From S2P Require Import GoFloat.
From S2P Require Import LocalFS.
From S2P Require Import Remote.
From S2P Require Import MemFS.
From S2P Require Import Bolt.
From S2P Require Import Journal.
From S2P Require Import World.
From S2P Require Import Retry.
From S2P Require Import Debouncer.
From S2P Require Import AgentConfig.
From S2P Require Import BisyncJournal.
From S2P Require Import Bisync.
From S2P Require Import Push.
From S2P Require Import Pull.
From S2P Require Import Agent.

(** ** [sync.RWMutex] *)

(** A writer first announces itself, which keeps new readers out, and then
    waits for the readers inside to leave; other writers queue behind it. *)
Inductive writer := NoWriter | WriterPending | WriterHolds.

Record rwmutex := mkRW { rw_readers : nat; rw_writer : writer }.

Definition RLock (m : rwmutex) : option rwmutex :=
  match rw_writer m with NoWriter => Some (mkRW (S (rw_readers m)) NoWriter) | _ => None end.

Definition RUnlock (m : rwmutex) : rwmutex := mkRW (pred (rw_readers m)) (rw_writer m).

Definition Lock_announce (m : rwmutex) : option rwmutex :=
  match rw_writer m with NoWriter => Some (mkRW (rw_readers m) WriterPending) | _ => None end.

Definition Lock_acquire (m : rwmutex) : option rwmutex :=
  match rw_writer m, rw_readers m with
  | WriterPending, O => Some (mkRW 0 WriterHolds)
  | _, _ => None
  end.

Definition Unlock (m : rwmutex) : rwmutex := mkRW (rw_readers m) NoWriter.

(** ** The goroutines *)

(** A user of the lock, with what it carries through it. *)
Inductive seat (A : Type) :=
| Away
| Wanting (a : A)
| Announced (a : A)
| Holding (a : A)
| Leaving
| Stopped.
Arguments Away {A}.
Arguments Wanting {A} _.
Arguments Announced {A} _.
Arguments Holding {A} _.
Arguments Leaving {A}.
Arguments Stopped {A}.

(** A push worker: [WHas] between the receive and the check of the context,
    [WWait] at [RLock] (the time is the handler's [start]). *)
Inductive worker :=
| WIdle
| WHas (it : item)
| WWait (it : item) (start : Time)
| WHold (it : item) (start : Time)
| WExited.

(** A fan-in goroutine: at its receive, at its send, or returned. *)
Inductive fan := FWait | FHas (it : item) | FDone.

(** [Syncer.Run]: the two input channels, the goroutines that merge them, the
    work channel and the workers. *)
Record Pool := mkPool {
  pl_events : list Event;
  pl_renames : list DirRename;
  pl_fanE : fan;
  pl_fanR : fan;
  pl_work : list item;
  pl_closed : bool;
  pl_workers : list worker;
}.

(** The agent: [e_sync] is the bisync loop, carrying a pass's start time;
    [e_repairs] are the control endpoint's repair requests, carrying their
    dry-run flag. The last three fields record what the pump handed over, what
    the workers finished and what was discarded because of the shutdown. *)
Record Engine (R S : Type) := mkEngine {
  e_world : World R S;
  e_pull : PullState;
  e_bis : BisyncState;
  e_paused : bool;
  e_canceled : bool;
  e_pool : Pool;
  e_lock : rwmutex;
  e_poll : seat unit;
  e_sync : seat Time;
  e_repairs : list (seat bool);
  e_lastPush : Z;
  e_lastPull : Z;
  e_accepted : list item;
  e_handled : list item;
  e_dropped : list item;
}.
Arguments mkEngine {R S} _ _ _ _ _ _ _ _ _ _ _ _ _ _ _.
Arguments e_world {R S} _.
Arguments e_pull {R S} _.
Arguments e_bis {R S} _.
Arguments e_paused {R S} _.
Arguments e_canceled {R S} _.
Arguments e_pool {R S} _.
Arguments e_lock {R S} _.
Arguments e_poll {R S} _.
Arguments e_sync {R S} _.
Arguments e_repairs {R S} _.
Arguments e_lastPush {R S} _.
Arguments e_lastPull {R S} _.
Arguments e_accepted {R S} _.
Arguments e_handled {R S} _.
Arguments e_dropped {R S} _.

Section engine.
Context {R S : Type} `{RemoteFS R} `{Store S} `{BJournal S} `{Env}.
Abbreviation W := (World R S).
Abbreviation E := (Engine R S).

Inductive action :=
| ADispatch (we : WatchEvent)
| AFanEvent
| AFanRename
| AFanEventDone
| AFanRenameDone
| AClose
| ATake (i : nat)
| ABegin (i : nat)
| AAcquire (i : nat)
| AFinish (i : nat)
| AExit (i : nat)
| APollTick
| APollAcquire
| APollRun
| APollStop
| ASyncWake (force : bool)
| ASyncAnnounce
| ASyncAcquire
| ASyncPass
| ASyncLeave
| ASyncStop
| ARepair (k : nat) (dryRun : bool)
| ARepairAnnounce (k : nat)
| ARepairAcquire (k : nat)
| ARepairRun (k : nat)
| AForce
| APause (v : bool)
| ACancel
| AOutside (fs : LocalFS) (r : R).

Definition set_world (x : W) (e : E) : E :=
  mkEngine x (e_pull e) (e_bis e) (e_paused e) (e_canceled e) (e_pool e) (e_lock e) (e_poll e) (e_sync e) (e_repairs e) (e_lastPush e) (e_lastPull e) (e_accepted e) (e_handled e) (e_dropped e).

Definition set_pull (x : PullState) (e : E) : E :=
  mkEngine (e_world e) x (e_bis e) (e_paused e) (e_canceled e) (e_pool e) (e_lock e) (e_poll e) (e_sync e) (e_repairs e) (e_lastPush e) (e_lastPull e) (e_accepted e) (e_handled e) (e_dropped e).

Definition set_bis (x : BisyncState) (e : E) : E :=
  mkEngine (e_world e) (e_pull e) x (e_paused e) (e_canceled e) (e_pool e) (e_lock e) (e_poll e) (e_sync e) (e_repairs e) (e_lastPush e) (e_lastPull e) (e_accepted e) (e_handled e) (e_dropped e).

Definition set_paused (x : bool) (e : E) : E :=
  mkEngine (e_world e) (e_pull e) (e_bis e) x (e_canceled e) (e_pool e) (e_lock e) (e_poll e) (e_sync e) (e_repairs e) (e_lastPush e) (e_lastPull e) (e_accepted e) (e_handled e) (e_dropped e).

Definition set_canceled (x : bool) (e : E) : E :=
  mkEngine (e_world e) (e_pull e) (e_bis e) (e_paused e) x (e_pool e) (e_lock e) (e_poll e) (e_sync e) (e_repairs e) (e_lastPush e) (e_lastPull e) (e_accepted e) (e_handled e) (e_dropped e).

Definition set_pool (x : Pool) (e : E) : E :=
  mkEngine (e_world e) (e_pull e) (e_bis e) (e_paused e) (e_canceled e) x (e_lock e) (e_poll e) (e_sync e) (e_repairs e) (e_lastPush e) (e_lastPull e) (e_accepted e) (e_handled e) (e_dropped e).

Definition set_lock (x : rwmutex) (e : E) : E :=
  mkEngine (e_world e) (e_pull e) (e_bis e) (e_paused e) (e_canceled e) (e_pool e) x (e_poll e) (e_sync e) (e_repairs e) (e_lastPush e) (e_lastPull e) (e_accepted e) (e_handled e) (e_dropped e).

Definition set_poll (x : seat unit) (e : E) : E :=
  mkEngine (e_world e) (e_pull e) (e_bis e) (e_paused e) (e_canceled e) (e_pool e) (e_lock e) x (e_sync e) (e_repairs e) (e_lastPush e) (e_lastPull e) (e_accepted e) (e_handled e) (e_dropped e).

Definition set_sync (x : seat Time) (e : E) : E :=
  mkEngine (e_world e) (e_pull e) (e_bis e) (e_paused e) (e_canceled e) (e_pool e) (e_lock e) (e_poll e) x (e_repairs e) (e_lastPush e) (e_lastPull e) (e_accepted e) (e_handled e) (e_dropped e).

Definition set_repairs (x : list (seat bool)) (e : E) : E :=
  mkEngine (e_world e) (e_pull e) (e_bis e) (e_paused e) (e_canceled e) (e_pool e) (e_lock e) (e_poll e) (e_sync e) x (e_lastPush e) (e_lastPull e) (e_accepted e) (e_handled e) (e_dropped e).

Definition set_lastPush (x : Z) (e : E) : E :=
  mkEngine (e_world e) (e_pull e) (e_bis e) (e_paused e) (e_canceled e) (e_pool e) (e_lock e) (e_poll e) (e_sync e) (e_repairs e) x (e_lastPull e) (e_accepted e) (e_handled e) (e_dropped e).

Definition set_lastPull (x : Z) (e : E) : E :=
  mkEngine (e_world e) (e_pull e) (e_bis e) (e_paused e) (e_canceled e) (e_pool e) (e_lock e) (e_poll e) (e_sync e) (e_repairs e) (e_lastPush e) x (e_accepted e) (e_handled e) (e_dropped e).

Definition set_accepted (x : list item) (e : E) : E :=
  mkEngine (e_world e) (e_pull e) (e_bis e) (e_paused e) (e_canceled e) (e_pool e) (e_lock e) (e_poll e) (e_sync e) (e_repairs e) (e_lastPush e) (e_lastPull e) x (e_handled e) (e_dropped e).

Definition set_handled (x : list item) (e : E) : E :=
  mkEngine (e_world e) (e_pull e) (e_bis e) (e_paused e) (e_canceled e) (e_pool e) (e_lock e) (e_poll e) (e_sync e) (e_repairs e) (e_lastPush e) (e_lastPull e) (e_accepted e) x (e_dropped e).

Definition set_dropped (x : list item) (e : E) : E :=
  mkEngine (e_world e) (e_pull e) (e_bis e) (e_paused e) (e_canceled e) (e_pool e) (e_lock e) (e_poll e) (e_sync e) (e_repairs e) (e_lastPush e) (e_lastPull e) (e_accepted e) (e_handled e) x.

Definition add_accepted (it : item) (e : E) : E := set_accepted (e_accepted e ++ [it]) e.

Definition add_handled (it : item) (e : E) : E := set_handled (e_handled e ++ [it]) e.

Definition add_dropped (it : item) (e : E) : E := set_dropped (e_dropped e ++ [it]) e.

(** [m] on the world. *)
Definition on_world {A} (m : ST W A) (e : E) : A * E :=
  let '(a, w) := m (e_world e) in (a, set_world w e).

(** [m] on the world and the bisync state. *)
Definition on_bis {A} (m : ST (W * BisyncState) A) (e : E) : A * E :=
  let '(a, (w, st)) := m (e_world e, e_bis e) in (a, set_bis st (set_world w e)).

Definition set_worker (i : nat) (x : worker) (e : E) : E :=
  let p := e_pool e in
  set_pool (mkPool (pl_events p) (pl_renames p) (pl_fanE p) (pl_fanR p) (pl_work p) (pl_closed p)
    (<[i := x]> (pl_workers p))) e.

Definition set_repair (k : nat) (x : seat bool) (e : E) : E :=
  set_repairs (<[k := x]> (e_repairs e)) e.

Definition get_worker (i : nat) (e : E) : option worker := pl_workers (e_pool e) !! i.

Variable ag : Agent.

Definition workCap : nat := Z.to_nat (Workers (s_cfg (ag_push ag)) * 4).

(** [atomic.Int64.Store(time.Now().UnixNano())]. *)
Definition stamp_push (e : E) : E := let '(t, e) := on_world now e in set_lastPush (UnixNano t) e.

Definition stamp_pull (e : E) : E := let '(t, e) := on_world now e in set_lastPull (UnixNano t) e.

(** [dispatchWatchEvent]: dropped while paused, and blocked while the channel
    is full. *)
Definition dispatchWatchEvent (we : WatchEvent) (e : E) : option E :=
  if e_paused e then Some e
  else
    let p := e_pool e in
    let it := to_item (c_LocalRoot (ag_cfg ag)) we in
    match it with
    | IRename dr =>
        if (length (pl_renames p) <? ag_chanCap ag)%nat then
          Some (stamp_push (add_accepted it (set_pool
            (mkPool (pl_events p) (pl_renames p ++ [dr]) (pl_fanE p) (pl_fanR p) (pl_work p) (pl_closed p)
              (pl_workers p)) e)))
        else None
    | IEvent ev =>
        if (length (pl_events p) <? ag_chanCap ag)%nat then
          Some (stamp_push (add_accepted it (set_pool
            (mkPool (pl_events p ++ [ev]) (pl_renames p) (pl_fanE p) (pl_fanR p) (pl_work p) (pl_closed p)
              (pl_workers p)) e)))
        else None
    end.

(** One step of a fan-in goroutine: a receive from its channel or a send to the
    work channel. *)
Definition fan_step {A} (inj : A -> item) (q : list A) (f : fan) (work : list item) :
    option (list A * fan * list item) :=
  match f, q with
  | FWait, a :: q => Some (q, FHas (inj a), work)
  | FHas it, _ => if (length work <? workCap)%nat then Some (q, FWait, work ++ [it]) else None
  | _, _ => None
  end.

(** What a cancelled fan-in goroutine still held. *)
Definition drop_fan (f : fan) (e : E) : E :=
  match f with FHas it => add_dropped it e | _ => e end.

Definition fan_done (f : fan) : bool := match f with FDone => true | _ => false end.

(** The select of a fan-in goroutine picks [ctx.Done()]. *)
Definition fanE_done (e : E) : option E :=
  let p := e_pool e in
  if e_canceled e && negb (fan_done (pl_fanE p)) then
    Some (drop_fan (pl_fanE p) (set_pool
      (mkPool (pl_events p) (pl_renames p) FDone (pl_fanR p) (pl_work p) (pl_closed p) (pl_workers p)) e))
  else None.

Definition fanR_done (e : E) : option E :=
  let p := e_pool e in
  if e_canceled e && negb (fan_done (pl_fanR p)) then
    Some (drop_fan (pl_fanR p) (set_pool
      (mkPool (pl_events p) (pl_renames p) (pl_fanE p) FDone (pl_work p) (pl_closed p) (pl_workers p)) e))
  else None.

Definition pool_fanE (e : E) : option E :=
  let p := e_pool e in
  match fan_step IEvent (pl_events p) (pl_fanE p) (pl_work p) with
  | Some (q, f, work) =>
      Some (set_pool (mkPool q (pl_renames p) f (pl_fanR p) work (pl_closed p) (pl_workers p)) e)
  | None => None
  end.

Definition pool_fanR (e : E) : option E :=
  let p := e_pool e in
  match fan_step IRename (pl_renames p) (pl_fanR p) (pl_work p) with
  | Some (q, f, work) =>
      Some (set_pool (mkPool (pl_events p) q (pl_fanE p) f work (pl_closed p) (pl_workers p)) e)
  | None => None
  end.

(** [wg.Wait()], then [close(work)]. *)
Definition pool_close (e : E) : option E :=
  let p := e_pool e in
  if fan_done (pl_fanE p) && fan_done (pl_fanR p) && negb (pl_closed p) then
    Some (set_pool (mkPool (pl_events p) (pl_renames p) (pl_fanE p) (pl_fanR p) (pl_work p) true
      (pl_workers p)) e)
  else None.

(** *** [worker] *)

Definition worker_take (i : nat) (e : E) : option E :=
  let p := e_pool e in
  match get_worker i e, pl_work p with
  | Some WIdle, it :: work =>
      Some (set_worker i (WHas it) (set_pool
        (mkPool (pl_events p) (pl_renames p) (pl_fanE p) (pl_fanR p) work (pl_closed p) (pl_workers p)) e))
  | _, _ => None
  end.

(** [for item := range work] ends when the channel is closed and empty. *)
Definition worker_exit (i : nat) (e : E) : option E :=
  match get_worker i e, pl_work (e_pool e), pl_closed (e_pool e) with
  | Some WIdle, [], true => Some (set_worker i WExited e)
  | _, _, _ => None
  end.

(** [if ctx.Err() != nil { return }], then the handler up to the lock. *)
Definition worker_begin (i : nat) (e : E) : option E :=
  match get_worker i e with
  | Some (WHas it) =>
      if e_canceled e then Some (add_dropped it (set_worker i WExited e))
      else
        let '(o, e) := on_world (handle_begin (ag_push ag) it) e in
        Some (match o with
              | None => add_handled it (set_worker i WIdle e)
              | Some start => set_worker i (WWait it start) e
              end)
  | _ => None
  end.

Definition worker_acquire (i : nat) (e : E) : option E :=
  match get_worker i e, RLock (e_lock e) with
  | Some (WWait it start), Some l => Some (set_worker i (WHold it start) (set_lock l e))
  | _, _ => None
  end.

Definition worker_finish (i : nat) (e : E) : option E :=
  match get_worker i e with
  | Some (WHold it start) =>
      let '(_, e) := on_world (handle_locked (ag_push ag) it start) e in
      Some (add_handled it (set_worker i WIdle (set_lock (RUnlock (e_lock e)) e)))
  | _ => None
  end.

(** *** [runPullLoop] and [pollOnceGuarded] *)

Definition poll_tick (e : E) : option E :=
  match e_poll e with Away => Some (set_poll (Wanting tt) e) | _ => None end.

Definition poll_acquire (e : E) : option E :=
  match e_poll e, RLock (e_lock e) with
  | Wanting _, Some l => Some (set_poll (Holding tt) (set_lock l e))
  | _, _ => None
  end.

(** The last-pull stamp is kept unless the poll failed for a reason other than
    the cancelled context. *)
Definition poll_run (e : E) : option E :=
  match e_poll e with
  | Holding _ =>
      let '(r, (w, pst)) := poll (ag_puller ag) (e_world e, e_pull e) in
      let e := set_pull pst (set_world w e) in
      let e := match r with
               | Err err => if errors_Is err ErrCanceled then stamp_pull e else e
               | Ok _ => stamp_pull e
               end in
      Some (set_poll Away (set_lock (RUnlock (e_lock e)) e))
  | _ => None
  end.

Definition poll_stop (e : E) : option E :=
  match e_poll e, e_canceled e with Away, true => Some (set_poll Stopped e) | _, _ => None end.

(** *** [Bisync.Run] and [Bisync.execute] *)

(** [execute] up to [b.mu.Lock()]. *)
Definition execute_begin : ST (W * BisyncState) (option Time) :=
  let* running := in_state (fun st => (bs_running st, st)) in
  if running : bool then st_ret None
  else
    set_running true ;;
    let* start := in_world now in
    in_world (Bisync.publishEvent (ag_bisync ag)
      (mkBisyncEvent start "bisync.started" 0 0 0 (bc_DryRun (b_cfg (ag_bisync ag))) "")) ;;
    st_ret (Some start).

Definition sync_begin (e : E) : option E :=
  let '(o, e) := on_bis execute_begin e in
  Some (match o with None => e | Some start => set_sync (Wanting start) e end).

(** A tick, or a receive from [forceCh]. *)
Definition sync_wake (force : bool) (e : E) : option E :=
  match e_sync e with
  | Away =>
      let st := e_bis e in
      if force then
        if bs_force st then
          sync_begin (set_bis (mkBisyncState (bs_running st) (bs_lastSweep st) (bs_pendingPrune st) false) e)
        else None
      else sync_begin e
  | _ => None
  end.

Definition sync_announce (e : E) : option E :=
  match e_sync e, Lock_announce (e_lock e) with
  | Wanting start, Some l => Some (set_sync (Announced start) (set_lock l e))
  | _, _ => None
  end.

Definition sync_acquire (e : E) : option E :=
  match e_sync e, Lock_acquire (e_lock e) with
  | Announced start, Some l => Some (set_sync (Holding start) (set_lock l e))
  | _, _ => None
  end.

(** The pass; the deferred calls unlock first and clear the flag then. *)
Definition sync_pass (e : E) : option E :=
  match e_sync e with
  | Holding start =>
      let '(_, e) := on_bis (locked_pass (ag_bisync ag) start) e in
      Some (set_sync Leaving (set_lock (Unlock (e_lock e)) e))
  | _ => None
  end.

Definition sync_leave (e : E) : option E :=
  match e_sync e with
  | Leaving => Some (set_sync Away (snd (on_bis (set_running false) e)))
  | _ => None
  end.

Definition sync_stop (e : E) : option E :=
  match e_sync e, e_canceled e with Away, true => Some (set_sync Stopped e) | _, _ => None end.

(** *** [Bisync.RunChainRepair] *)

Definition repair_request (k : nat) (dryRun : bool) (e : E) : option E :=
  match e_repairs e !! k with Some Away => Some (set_repair k (Wanting dryRun) e) | _ => None end.

Definition repair_announce (k : nat) (e : E) : option E :=
  match e_repairs e !! k, Lock_announce (e_lock e) with
  | Some (Wanting d), Some l => Some (set_repair k (Announced d) (set_lock l e))
  | _, _ => None
  end.

Definition repair_acquire (k : nat) (e : E) : option E :=
  match e_repairs e !! k, Lock_acquire (e_lock e) with
  | Some (Announced d), Some l => Some (set_repair k (Holding d) (set_lock l e))
  | _, _ => None
  end.

Definition repair_run (k : nat) (e : E) : option E :=
  match e_repairs e !! k with
  | Some (Holding d) =>
      let '(_, e) := on_world (RunChainRepair (ag_bisync ag) d) e in
      Some (set_repair k Away (set_lock (Unlock (e_lock e)) e))
  | _ => None
  end.

(** *** The system *)

Definition engine_do (a : action) (e : E) : option E :=
  match a with
  | ADispatch we => dispatchWatchEvent we e
  | AFanEvent => pool_fanE e
  | AFanRename => pool_fanR e
  | AFanEventDone => fanE_done e
  | AFanRenameDone => fanR_done e
  | AClose => pool_close e
  | ATake i => worker_take i e
  | ABegin i => worker_begin i e
  | AAcquire i => worker_acquire i e
  | AFinish i => worker_finish i e
  | AExit i => worker_exit i e
  | APollTick => poll_tick e
  | APollAcquire => poll_acquire e
  | APollRun => poll_run e
  | APollStop => poll_stop e
  | ASyncWake force => sync_wake force e
  | ASyncAnnounce => sync_announce e
  | ASyncAcquire => sync_acquire e
  | ASyncPass => sync_pass e
  | ASyncLeave => sync_leave e
  | ASyncStop => sync_stop e
  | ARepair k d => repair_request k d e
  | ARepairAnnounce k => repair_announce k e
  | ARepairAcquire k => repair_acquire k e
  | ARepairRun k => repair_run k e
  | AForce => Some (set_bis (snd (ForceRun (e_bis e))) e)
  | APause v => Some (set_paused v e)
  | ACancel => Some (set_canceled true e)
  | AOutside fs r =>
      let w := e_world e in Some (set_world (mkWorld fs r (w_store w) (w_tick w) (w_out w)) e)
  end.

Fixpoint engine_run (acts : list action) (e : E) : option E :=
  match acts with
  | [] => Some e
  | a :: acts => match engine_do a e with None => None | Some e => engine_run acts e end
  end.

(** The agent as [Run] starts it; the immediate first poll is an [APollTick].
    [n] repair requests can be served at a time. *)
Definition engine_start (w : W) (pst : PullState) (bst : BisyncState) (n : nat) : E :=
  mkEngine w pst bst false false
    (mkPool [] [] FWait FWait [] false (repeat WIdle (Z.to_nat (Workers (s_cfg (ag_push ag))))))
    (mkRW 0 NoWriter) Away Away (repeat Away n) 0 0 [] [] [].

(** The steps the agent takes by itself, as opposed to ticks, requests,
    signals, file events and changes from outside. *)
Definition internal (a : action) : bool :=
  match a with
  | ADispatch _ | APollTick | ASyncWake _ | ARepair _ _ | AForce | APause _ | ACancel | AOutside _ _ => false
  | _ => true
  end.

(** Items that are neither finished nor discarded. *)
Definition fan_items (f : fan) : list item := match f with FHas it => [it] | _ => [] end.

Definition worker_items (x : worker) : list item :=
  match x with WHas it | WWait it _ | WHold it _ => [it] | _ => [] end.

Definition in_flight (e : E) : list item :=
  let p := e_pool e in
  map IEvent (pl_events p) ++ map IRename (pl_renames p) ++ fan_items (pl_fanE p) ++
  fan_items (pl_fanR p) ++ pl_work p ++ concat (map worker_items (pl_workers p)).

End engine.

(** ** Lemmas *)

Section engine_lemmas.
Context {R S : Type} `{RemoteFS R} `{Store S} `{BJournal S} `{Env}.
Abbreviation W := (World R S).
Abbreviation E := (Engine R S).
Variable ag : Agent.

(** *** Counting *)

Definition reads (x : worker) : nat := match x with WHold _ _ => 1 | _ => 0 end.

Definition seat_ann {A} (s : seat A) : nat := match s with Announced _ => 1 | _ => 0 end.

Definition seat_held {A} (s : seat A) : nat := match s with Holding _ => 1 | _ => 0 end.

Definition readers_in (e : E) : nat :=
  (sum_list_with reads (pl_workers (e_pool e)) + seat_held (e_poll e))%nat.

Definition announced (e : E) : nat := (seat_ann (e_sync e) + sum_list_with seat_ann (e_repairs e))%nat.

Definition held (e : E) : nat := (seat_held (e_sync e) + sum_list_with seat_held (e_repairs e))%nat.

(** The mutex counts its users. *)
Record lock_ok (e : E) : Prop := {
  lk_readers : rw_readers (e_lock e) = readers_in e;
  lk_ann : announced e = match rw_writer (e_lock e) with WriterPending => 1%nat | _ => 0%nat end;
  lk_held : held e = match rw_writer (e_lock e) with WriterHolds => 1%nat | _ => 0%nat end;
  lk_excl : rw_writer (e_lock e) = WriterHolds -> rw_readers (e_lock e) = 0%nat;
}.

(** The weight of what is in flight. *)
Definition flight (f : item -> nat) (e : E) : nat :=
  let p := e_pool e in
  (sum_list_with (fun ev => f (IEvent ev)) (pl_events p) +
   sum_list_with (fun dr => f (IRename dr)) (pl_renames p) +
   sum_list_with f (fan_items (pl_fanE p)) + sum_list_with f (fan_items (pl_fanR p)) +
   sum_list_with f (pl_work p) + sum_list_with (fun x => sum_list_with f (worker_items x)) (pl_workers p))%nat.

(** Nothing accepted is lost or duplicated. *)
Definition flow_ok (e : E) : Prop := forall f,
  sum_list_with f (e_accepted e) =
  (sum_list_with f (e_handled e) + sum_list_with f (e_dropped e) + flight f e)%nat.

(** Only a shutdown ends goroutines and discards items. *)
Record life_ok (e : E) : Prop := {
  lf_dropped : e_canceled e = false -> e_dropped e = [];
  lf_fans : e_canceled e = false -> fan_done (pl_fanE (e_pool e)) = false /\ fan_done (pl_fanR (e_pool e)) = false;
  lf_closed : pl_closed (e_pool e) = true ->
    fan_done (pl_fanE (e_pool e)) = true /\ fan_done (pl_fanR (e_pool e)) = true;
  lf_exited : e_canceled e = false -> Forall (fun x => x <> WExited) (pl_workers (e_pool e));
  lf_workers : length (pl_workers (e_pool e)) = Z.to_nat (Workers (s_cfg (ag_push ag)));
  lf_poll : match e_poll e with Announced _ | Leaving => False | Stopped => e_canceled e = true | _ => True end;
  lf_sync : e_sync e = Stopped -> e_canceled e = true;
  lf_repairs : Forall (fun x => x <> Leaving /\ x <> Stopped) (e_repairs e);
}.

(** Case analysis of one step. *)
Ltac step_cases Hs :=
  unfold engine_do, dispatchWatchEvent, pool_fanE, pool_fanR, fan_step, fanE_done, fanR_done, drop_fan,
    pool_close, worker_take, worker_begin, worker_acquire, worker_finish, worker_exit, poll_tick,
    poll_acquire, poll_run, poll_stop, sync_wake, sync_begin, sync_announce, sync_acquire, sync_pass,
    sync_leave, sync_stop, repair_request, repair_announce, repair_acquire, repair_run, stamp_push,
    stamp_pull, on_world, on_bis, set_worker, set_repair, get_worker, add_accepted, add_handled,
    add_dropped, RLock, Lock_announce, Lock_acquire in Hs;
  repeat match type of Hs with
  | context [match ?x with _ => _ end] =>
      lazymatch x with context [match _ with _ => _ end] => fail | _ => destruct x eqn:? end
  end;
  try discriminate Hs; injection Hs as <-.

Ltac proj :=
  cbn [e_world e_pull e_bis e_paused e_canceled e_pool e_lock e_poll e_sync e_repairs e_lastPush e_lastPull
    e_accepted e_handled e_dropped set_world set_pull set_bis set_paused set_canceled set_pool set_lock
    set_poll set_sync set_repairs set_lastPush set_lastPull set_accepted set_handled set_dropped
    pl_events pl_renames pl_fanE pl_fanR pl_work pl_closed pl_workers rw_readers rw_writer RUnlock Unlock] in *.

Ltac sum_inserts :=
  repeat match goal with
  | Hl : ?l !! ?i = Some ?x |- context [sum_list_with ?f (<[?i := ?y]> ?l)] =>
      pose proof (sum_with_insert f l i x y Hl);
      generalize dependent (sum_list_with f (<[i := y]> l)); intros
  end.

Lemma lock_step a e e' : lock_ok e -> engine_do ag a e = Some e' -> lock_ok e'.
Proof.
  intros [K1 K2 K3 K4] Hs. unfold readers_in, announced, held in *.
  destruct (e_lock e) as [rd wr] eqn:El. cbn [rw_readers rw_writer] in *.
  assert (wr <> WriterHolds \/ rd = 0%nat) as K5 by (destruct wr; auto). clear K4.
  destruct a; step_cases Hs; proj; rewrite ?El in *; proj; subst.
  all: constructor; unfold readers_in, announced, held; proj; rewrite ?El; proj; sum_inserts.
  all: repeat match goal with Hx : ?s = _ :> seat _ |- _ => rewrite Hx in *; revert Hx end; intros.
  all: cbn [reads seat_ann seat_held] in *.
  all: try first [lia | done | destruct wr; lia | destruct K5; [congruence|lia]].
  pose proof (sum_with_lookup seat_held _ _ _ Heqo) as Hh. cbn in Hh. destruct wr; lia.
Qed.

Lemma flow_step a e e' : flow_ok e -> engine_do ag a e = Some e' -> flow_ok e'.
Proof.
  intros Hf Hs f. specialize (Hf f). unfold flight in *.
  destruct a; step_cases Hs; proj.
  all: rewrite ?sum_list_with_app in *; sum_inserts.
  all: repeat match goal with Hx : ?s = _ :> fan |- _ => rewrite Hx in *; revert Hx end; intros.
  all: repeat match goal with Hx : ?s = _ :> list _ |- _ => rewrite Hx in *; revert Hx end; intros.
  all: cbn [fan_items worker_items sum_list_with] in *.
  all: lia.
Qed.

Lemma life_step a e e' : life_ok e -> engine_do ag a e = Some e' -> life_ok e'.
Proof.
  intros [K1 K2 K3 K4 K5 K6 K7 K8] Hs.
  assert (e_canceled e = true \/ (e_canceled e = false /\ e_dropped e = [] /\
    fan_done (pl_fanE (e_pool e)) = false /\ fan_done (pl_fanR (e_pool e)) = false /\
    Forall (fun x => x <> WExited) (pl_workers (e_pool e)))) as [Hc|(Hc & D1 & D2 & D3 & D4)]
    by (destruct (e_canceled e); [by left|right]; destruct (K2 eq_refl); split_and!; auto).
  all: destruct a; step_cases Hs; try congruence; constructor; proj; rewrite ?length_insert; try done;
    try (intros; congruence).
  all: repeat match goal with Hx : _ && _ = true |- _ => apply andb_true_iff in Hx as [??] end.
  all: try (intros _; try split; congruence).
  all: try by (intros; apply Forall_insert).
  all: try (intros Hx; destruct (K3 Hx); split; first [done|congruence]).
  all: try (destruct (K3 eq_refl); congruence).
  all: repeat match goal with Hx : ?s = _ :> seat _ |- _ => rewrite Hx in *; revert Hx end; intros; try done.
  all: try (destruct (e_poll e); congruence).
  all: try (match goal with Hx : e_sync _ = Stopped |- _ => specialize (K7 Hx) end; congruence).
Qed.

(** *** Runs *)

Definition engine_ok (e : E) : Prop := lock_ok e /\ flow_ok e /\ life_ok e.

Lemma engine_step_ok a e e' : engine_ok e -> engine_do ag a e = Some e' -> engine_ok e'.
Proof.
  intros (K1 & K2 & K3) Hs. split_and!; [by eapply lock_step|by eapply flow_step|by eapply life_step].
Qed.

Lemma engine_run_ok acts e e' : engine_ok e -> engine_run ag acts e = Some e' -> engine_ok e'.
Proof.
  revert e. induction acts as [|a acts IH]; intros e Hok Hr; [by injection Hr as <-|].
  cbn in Hr. destruct (engine_do ag a e) as [e1|] eqn:Ha; [|done]. eauto using engine_step_ok.
Qed.

Lemma sum_with_repeat {A} (f : A -> nat) x n : f x = 0%nat -> sum_list_with f (repeat x n) = 0%nat.
Proof. intros Hx. induction n as [|n IH]; cbn; lia. Qed.

Lemma engine_start_ok w pst bst n : engine_ok (engine_start ag w pst bst n).
Proof.
  split_and!.
  - constructor; unfold readers_in, announced, held; cbn; rewrite ?sum_with_repeat by done; done.
  - intros f. unfold flight. cbn. by rewrite sum_with_repeat.
  - constructor; cbn; try done.
    + intros _. apply Forall_forall. intros x Hx%list_elem_of_In%repeat_spec. by subst.
    + apply repeat_length.
    + apply Forall_forall. intros x Hx%list_elem_of_In%repeat_spec. by subst.
Qed.

Lemma flight_items f e : sum_list_with f (in_flight e) = flight f e.
Proof.
  unfold in_flight, flight. rewrite !sum_list_with_app.
  assert (forall A (g : A -> item) l, sum_list_with f (map g l) = sum_list_with (fun x => f (g x)) l) as Hm
    by (intros A g l; induction l as [|x l IH]; cbn; [done|by rewrite IH]).
  assert (forall ws, sum_list_with f (concat (map worker_items ws)) =
    sum_list_with (fun x => sum_list_with f (worker_items x)) ws) as Hc
    by (intros ws; induction ws as [|x ws IH]; cbn; [done|by rewrite sum_list_with_app, IH]).
  rewrite !Hm, Hc. lia.
Qed.

Lemma flow_accepted e : flow_ok e -> e_accepted e ≡ₚ e_handled e ++ e_dropped e ++ in_flight e.
Proof.
  intros Hf. apply sum_with_Permutation. intros f. rewrite !sum_list_with_app, flight_items, Hf. lia.
Qed.

(** *** Pausing *)

Definition is_dispatch (a : action (R := R)) : bool := match a with ADispatch _ => true | _ => false end.

Definition is_pause (a : action (R := R)) : bool := match a with APause _ => true | _ => false end.

(** Only the pump reads the flag. *)
Lemma paused_frame v a e :
  is_dispatch a = false -> is_pause a = false ->
  engine_do ag a (set_paused v e) = option_map (set_paused v) (engine_do ag a e).
Proof.
  intros Hd Hp. destruct e. destruct a; try done.
  all: unfold engine_do, pool_fanE, pool_fanR, fanE_done, fanR_done, drop_fan,
    pool_close, worker_take, worker_begin, worker_acquire, worker_finish, worker_exit, poll_tick,
    poll_acquire, poll_run, poll_stop, sync_wake, sync_begin, sync_announce, sync_acquire, sync_pass,
    sync_leave, sync_stop, repair_request, repair_announce, repair_acquire, repair_run,
    stamp_pull, on_world, on_bis, set_worker, set_repair, get_worker, add_handled, add_dropped; proj.
  all: repeat match goal with
    | |- context [match ?x with _ => _ end] =>
        lazymatch x with context [match _ with _ => _ end] => fail | _ => destruct x eqn:? end
    end.
  all: done.
Qed.

Lemma paused_run acts e e' :
  engine_run ag acts e = Some e' -> e_paused e = true -> Forall (fun a => is_pause a = false) acts ->
  e_paused e' = true /\
  engine_run ag (List.filter (fun a => negb (is_dispatch a)) acts) (set_paused false e) = Some (set_paused false e').
Proof.
  revert e. induction acts as [|a acts IH]; intros e Hr Hp Ha; [by injection Hr as <-|].
  cbn in Hr. destruct (engine_do ag a e) as [e1|] eqn:E; [|done]. inversion_clear Ha as [|? ? Ha1 Ha2].
  destruct (is_dispatch a) eqn:Ed.
  - destruct a; try done. cbn in E. unfold dispatchWatchEvent in E. rewrite Hp in E. injection E as <-.
    cbn. eauto.
  - assert (e = set_paused true e) as Ee by (destruct e; cbn in Hp; by subst).
    assert (e_paused e1 = true) as Hp1.
    { rewrite Ee, paused_frame in E by done. destruct (engine_do ag a e); [by injection E as <-|done]. }
    cbn. rewrite Ed. cbn. rewrite paused_frame, E by done. cbn. eauto.
Qed.

(** Without file events nothing is handed over. *)
Lemma accepted_step a e e' :
  engine_do ag a e = Some e' -> is_dispatch a = false -> e_accepted e' = e_accepted e.
Proof. intros Hs Hd. destruct a; step_cases Hs; proj; done. Qed.

Lemma accepted_run acts e e' :
  engine_run ag acts e = Some e' -> Forall (fun a => is_dispatch a = false) acts -> e_accepted e' = e_accepted e.
Proof.
  revert e. induction acts as [|a acts IH]; intros e Hr Ha; [by injection Hr as <-|].
  cbn in Hr. destruct (engine_do ag a e) as [e1|] eqn:E; [|done]. inversion_clear Ha as [|? ? Ha1 Ha2].
  rewrite (IH _ Hr Ha2). by eapply accepted_step.
Qed.

(** *** Which steps change the data *)

Lemma same_data_execute_begin (w : W) st :
  same_data w (fst (snd (execute_begin ag (w, st)))).
Proof.
  enough (preserves (on_fst (St := BisyncState) same_data) (execute_begin (S := S) ag)) as Hp
    by apply (Hp (w, st)).
  unfold execute_begin. apply preserves_bind; [typeclasses eauto|apply preserves_state; typeclasses eauto|].
  intros []; [apply preserves_ret; typeclasses eauto|].
  apply preserves_bind; [typeclasses eauto|apply preserves_state; typeclasses eauto|intros _].
  apply preserves_bind; [typeclasses eauto|apply preserves_world, quiet_now|intros start].
  apply preserves_bind; [typeclasses eauto|apply preserves_world, quiet_publish|intros _].
  apply preserves_ret; typeclasses eauto.
Qed.

(** The steps that run under the lock, and the outside. *)
Definition may_write (a : action (R := R)) (e : E) : Prop :=
  match a with
  | AFinish i => exists it start, get_worker i e = Some (WHold it start)
  | APollRun => e_poll e = Holding tt
  | ASyncPass => exists start, e_sync e = Holding start
  | ARepairRun k => exists d, e_repairs e !! k = Some (Holding d)
  | AOutside _ _ => True
  | _ => False
  end.

Lemma step_data a e e' :
  engine_do ag a e = Some e' -> same_data (e_world e) (e_world e') \/ may_write a e.
Proof.
  intros Hs. destruct a; unfold may_write, get_worker; step_cases Hs; proj; subst.
  all: try (left; done).
  all: try (right; eauto; done).
  all: try (left; match goal with Hx : handle_begin _ ?it ?w = _ |- _ =>
    pose proof (quiet_handle_begin (ag_push ag) it w) as Hq; by rewrite Hx in Hq end).
  all: try (left; match goal with Hx : execute_begin _ ?x = _ |- _ =>
    pose proof (same_data_execute_begin (fst x) (snd x)) as Hq; cbn [fst snd] in Hq; by rewrite Hx in Hq end).
  all: try (left; match goal with Hx : now ?w = _ |- _ =>
    pose proof (quiet_now w) as Hq; by rewrite Hx in Hq end).
  all: try (right; by repeat match goal with x : unit |- _ => destruct x end).
  left. match goal with Hx : set_running false ?x = _ |- _ => injection Hx as <- <- end. done.
Qed.

(** *** After the goroutines are gone *)

(** A request from outside, through the control endpoint. *)
Definition is_request (a : action (R := R)) : bool :=
  match a with ARepair _ _ | AForce | APause _ => true | _ => false end.

(** What [wg.Wait] of [Agent.Run] waits for, as far as the engine goes. *)
Definition goroutines_done (e : E) : Prop :=
  fan_done (pl_fanE (e_pool e)) = true /\ fan_done (pl_fanR (e_pool e)) = true /\
  Forall (fun x => x = WExited) (pl_workers (e_pool e)) /\ e_poll e = Stopped /\ e_sync e = Stopped.

Definition no_repairs (e : E) : Prop := Forall (fun s => s = Away) (e_repairs e).

(** A goroutine that returned does not come back. *)
Lemma done_step a e e' : goroutines_done e -> engine_do ag a e = Some e' -> goroutines_done e'.
Proof.
  intros (G1 & G2 & G3 & G4 & G5) Hs. unfold goroutines_done.
  assert (forall i x, pl_workers (e_pool e) !! i = Some x -> x = WExited) as Hw
    by (intros i x Hi; by apply (Forall_lookup_1 _ _ _ _ G3 Hi)).
  destruct a; step_cases Hs; proj; try congruence; try (by split_and!).
  all: try (match goal with Hx : pl_workers _ !! _ = Some _ |- _ => by apply Hw in Hx end).
  all: match goal with Hx : _ = (_ : fan) |- _ => rewrite Hx in G1, G2 || rewrite Hx in G1 || rewrite Hx in G2 end; done.
Qed.

Lemma no_repairs_step a e e' :
  no_repairs e -> is_request a = false -> engine_do ag a e = Some e' -> no_repairs e'.
Proof.
  intros Hn Hr Hs. unfold no_repairs in *.
  assert (forall k x, e_repairs e !! k = Some x -> x = Away) as Ha
    by (intros k x Hk; by apply (Forall_lookup_1 _ _ _ _ Hn Hk)).
  destruct a; try done; step_cases Hs; proj; try done.
  all: match goal with Hx : e_repairs _ !! _ = Some _ |- _ => by apply Ha in Hx end.
Qed.

(** Then nothing but the outside changes the data. *)
Lemma done_data a e e' :
  goroutines_done e -> no_repairs e -> engine_do ag a e = Some e' ->
  (forall fs r, a <> AOutside fs r) -> same_data (e_world e) (e_world e').
Proof.
  intros (_ & _ & G3 & G4 & G5) Hn Hs Ho. destruct (step_data a e e' Hs) as [|Hm]; [done|].
  destruct a; try done; cbn in Hm.
  - destruct Hm as (it & start & Hi). by apply (Forall_lookup_1 _ _ _ _ G3) in Hi.
  - by rewrite G4 in Hm.
  - destruct Hm as [start Hm]. by rewrite G5 in Hm.
  - destruct Hm as [d Hk]. by apply (Forall_lookup_1 _ _ _ _ Hn) in Hk.
  - by destruct (Ho fs r).
Qed.

(** The flags of the agent only change in their own steps. *)
Lemma flags_step a e e' : engine_do ag a e = Some e' ->
  (e_canceled e = true -> e_canceled e' = true) /\ (a <> ACancel -> e_canceled e' = e_canceled e) /\
  (is_pause a = false -> e_paused e' = e_paused e).
Proof. intros Hs. destruct a; step_cases Hs; proj; try done. Qed.

(** *** Progress *)

Definition worker_work (x : worker) : nat :=
  match x with WExited => 0 | WIdle => 1 | WHold _ _ => 3 | WWait _ _ => 4 | WHas _ => 5 end.

Definition fan_work (f : fan) : nat := match f with FDone => 0 | FWait => 1 | FHas _ => 8 end.

Definition seat_work {A} (s : seat A) : nat :=
  match s with
  | Stopped => 0 | Away => 1 | Leaving => 2 | Holding _ => 3 | Announced _ => 4 | Wanting _ => 5
  end.

(** The internal steps that are left, at most. *)
Definition work_left (e : E) : nat :=
  let p := e_pool e in
  (8 * length (pl_events p) + 8 * length (pl_renames p) + fan_work (pl_fanE p) + fan_work (pl_fanR p) +
   6 * length (pl_work p) + (if pl_closed p then 0 else 1) + sum_list_with worker_work (pl_workers p) +
   seat_work (e_poll e) + seat_work (e_sync e) + sum_list_with seat_work (e_repairs e))%nat.

Lemma internal_decreases a e e' :
  internal a = true -> engine_do ag a e = Some e' -> (work_left e' < work_left e)%nat.
Proof.
  intros Hi Hs. unfold work_left. destruct a; try discriminate Hi; step_cases Hs; proj; sum_inserts.
  all: repeat match goal with Hx : _ && _ = true |- _ => apply andb_true_iff in Hx as [??] end.
  all: repeat match goal with Hx : ?s = _ :> fan |- _ => rewrite Hx in *; revert Hx end; intros.
  all: repeat match goal with Hx : ?s = _ :> list _ |- _ => rewrite Hx in *; revert Hx end; intros.
  all: repeat match goal with Hx : ?s = _ :> seat _ |- _ => rewrite Hx in *; revert Hx end; intros.
  all: rewrite ?length_app in *; cbn [fan_work worker_work seat_work length negb] in *.
  all: try lia; try discriminate.
  destruct (pl_closed (e_pool e)); [discriminate|lia].
Qed.

Lemma internal_run_bounded acts e e' :
  Forall (fun a => internal a = true) acts -> engine_run ag acts e = Some e' ->
  (length acts <= work_left e)%nat.
Proof.
  revert e. induction acts as [|a acts IH]; intros e Hi Hr; cbn [engine_run length] in *; [lia|].
  apply Forall_cons in Hi as [Ha Hi]. destruct (engine_do ag a e) as [e1|] eqn:E1; [|done].
  pose proof (internal_decreases a e e1 Ha E1). pose proof (IH e1 Hi Hr). lia.
Qed.

(** What the pump hands over. *)
Lemma dispatch_accepts we e e' : dispatchWatchEvent ag we e = Some e' ->
  e_paused e' = e_paused e /\ e_canceled e' = e_canceled e /\
  e_accepted e' = e_accepted e ++ (if e_paused e then [] else [to_item (c_LocalRoot (ag_cfg ag)) we]) /\
  (work_left e' <= work_left e + 8)%nat.
Proof.
  intros Hd. assert (engine_do ag (ADispatch we) e = Some e') as Hs by done. clear Hd. unfold work_left.
  destruct we; step_cases Hs; proj; rewrite ?app_nil_r, ?length_app; cbn [length]; split_and!; try done; lia.
Qed.

(** Nothing internal can happen. *)
Definition stuck (e : E) : Prop := forall a, internal a = true -> engine_do ag a e = None.

Lemma stuck_readers e : lock_ok e -> stuck e ->
  rw_readers (e_lock e) = 0%nat /\ (forall i it t, get_worker i e <> Some (WHold it t)) /\
  e_poll e <> Holding tt.
Proof.
  intros [K1 _ _ _] Hst.
  assert (forall i it t, get_worker i e <> Some (WHold it t)) as Hw.
  { intros i it t Hi. specialize (Hst (AFinish i) eq_refl). cbn in Hst. unfold worker_finish in Hst.
    rewrite Hi in Hst. by destruct (on_world _ _). }
  assert (e_poll e <> Holding tt) as Hp.
  { intros Hp. specialize (Hst APollRun eq_refl). cbn in Hst. unfold poll_run in Hst. rewrite Hp in Hst.
    by destruct (poll _ _) as [? [? ?]]. }
  split; [|done]. rewrite K1. unfold readers_in.
  assert (sum_list_with reads (pl_workers (e_pool e)) = 0%nat) as ->.
  { destruct (sum_list_with reads _) eqn:Hs; [done|].
    destruct (sum_with_positive reads (pl_workers (e_pool e))) as (i & x & Hi & Hx); [lia|].
    destruct x; try (cbn in Hx; lia). by apply Hw in Hi. }
  destruct (e_poll e) as [|[]|[]|[]| |]; done.
Qed.

Lemma stuck_writer e : lock_ok e -> stuck e -> rw_writer (e_lock e) = NoWriter.
Proof.
  intros Hok Hst. destruct (stuck_readers e Hok Hst) as (Hr & _ & _). destruct Hok as [_ K2 K3 _].
  unfold announced in K2. unfold held in K3. destruct (e_lock e) as [rd wr] eqn:El. cbn in Hr, K2, K3. subst rd.
  destruct wr; [done| |]; exfalso.
  - destruct (e_sync e) eqn:Es; cbn in K2.
    3: { specialize (Hst ASyncAcquire eq_refl). cbn in Hst. unfold sync_acquire in Hst. by rewrite Es, El in Hst. }
    all: destruct (sum_with_positive seat_ann (e_repairs e)) as (k & x & Hk & Hx); [lia|];
      destruct x; try (cbn in Hx; lia);
      specialize (Hst (ARepairAcquire k) eq_refl); cbn in Hst; unfold repair_acquire in Hst; by rewrite Hk, El in Hst.
  - destruct (e_sync e) eqn:Es; cbn in K3.
    4: { specialize (Hst ASyncPass eq_refl). cbn in Hst. unfold sync_pass in Hst. rewrite Es in Hst.
         by destruct (on_bis _ _). }
    all: destruct (sum_with_positive seat_held (e_repairs e)) as (k & x & Hk & Hx); [lia|];
      destruct x; try (cbn in Hx; lia);
      specialize (Hst (ARepairRun k) eq_refl); cbn in Hst; unfold repair_run in Hst; rewrite Hk in Hst;
      by destruct (on_world _ _).
Qed.

Definition at_rest {A} (s : seat A) : Prop := s = Away \/ s = Stopped.

(** Then the lock is free and nobody is on the way to it. *)
Lemma stuck_rest e : lock_ok e -> life_ok e -> stuck e ->
  e_lock e = mkRW 0 NoWriter /\ at_rest (e_poll e) /\ at_rest (e_sync e) /\
  (forall k s, e_repairs e !! k = Some s -> s = Away) /\
  (forall i x, get_worker i e = Some x -> x = WIdle \/ x = WExited).
Proof.
  intros Hok Hlife Hst. destruct (stuck_readers e Hok Hst) as (Hr & Hw & Hp).
  pose proof (stuck_writer e Hok Hst) as Hwr.
  assert (e_lock e = mkRW 0 NoWriter) as El by (destruct (e_lock e); cbn in *; by subst).
  pose proof (lk_ann e Hok) as Ka. pose proof (lk_held e Hok) as Kh. unfold announced, held in Ka, Kh.
  rewrite El in Ka, Kh. cbn in Ka, Kh. split_and!; [done| | | |].
  - pose proof (lf_poll e Hlife) as Hl. unfold at_rest.
    destruct (e_poll e) as [|[]|[]|[]| |] eqn:Ep; try done; auto.
    specialize (Hst APollAcquire eq_refl). cbn in Hst. unfold poll_acquire in Hst. by rewrite Ep, El in Hst.
  - unfold at_rest. destruct (e_sync e) eqn:Es; try (cbn in Ka, Kh; lia); auto.
    + specialize (Hst ASyncAnnounce eq_refl). cbn in Hst. unfold sync_announce in Hst. by rewrite Es, El in Hst.
    + specialize (Hst ASyncLeave eq_refl). cbn in Hst. unfold sync_leave in Hst. by rewrite Es in Hst.
  - intros k s Hk. pose proof (sum_with_lookup seat_ann _ _ _ Hk). pose proof (sum_with_lookup seat_held _ _ _ Hk).
    pose proof (lf_repairs e Hlife) as Hl. rewrite Forall_lookup in Hl. destruct (Hl _ _ Hk).
    destruct s; try (cbn in *; lia); try done.
    specialize (Hst (ARepairAnnounce k) eq_refl). cbn in Hst. unfold repair_announce in Hst. by rewrite Hk, El in Hst.
  - intros i x Hx. destruct x; auto; exfalso.
    + specialize (Hst (ABegin i) eq_refl). cbn in Hst. unfold worker_begin in Hst. rewrite Hx in Hst.
      destruct (e_canceled e); [done|]. by destruct (on_world _ _).
    + specialize (Hst (AAcquire i) eq_refl). cbn in Hst. unfold worker_acquire in Hst. by rewrite Hx, El in Hst.
    + by eapply Hw.
Qed.

(** While the agent runs, being stuck means that everything was handled. *)
Lemma stuck_running e : life_ok e -> stuck e -> 1 <= Workers (s_cfg (ag_push ag)) ->
  (forall i x, get_worker i e = Some x -> x = WIdle \/ x = WExited) -> e_canceled e = false -> in_flight e = [].
Proof.
  intros Hlife Hst Hn Hw Hc. destruct (lf_fans e Hlife Hc) as [F1 F2].
  pose proof (lf_exited e Hlife Hc) as He. rewrite Forall_lookup in He.
  assert (forall i x, pl_workers (e_pool e) !! i = Some x -> x = WIdle) as Hidle
    by (intros i x Hi; destruct (Hw i x Hi); [done|by destruct (He i x Hi)]).
  assert (pl_work (e_pool e) = []) as Hwork.
  { destruct (pl_workers (e_pool e)) as [|x ws] eqn:E0; [pose proof (lf_workers e Hlife) as Hl;
      rewrite E0 in Hl; cbn in Hl; lia|].
    specialize (Hst (ATake 0) eq_refl). cbn in Hst. unfold worker_take, get_worker in Hst.
    rewrite E0 in Hst. cbn [lookup list_lookup] in Hst. rewrite (Hidle 0%nat x eq_refl) in Hst.
    by destruct (pl_work (e_pool e)). }
  assert ((length (@nil item) <? workCap ag)%nat = true) as Hcap
    by (apply Nat.ltb_lt; unfold workCap; cbn; lia).
  pose proof (Hst AFanEvent eq_refl) as H3. pose proof (Hst AFanRename eq_refl) as H4.
  cbn in H3, H4. unfold pool_fanE, pool_fanR, fan_step in H3, H4. rewrite Hwork, Hcap in H3, H4.
  unfold in_flight. rewrite Hwork.
  assert (pl_fanE (e_pool e) = FWait /\ pl_events (e_pool e) = []) as [-> ->]
    by (destruct (pl_fanE (e_pool e)), (pl_events (e_pool e)); done).
  assert (pl_fanR (e_pool e) = FWait /\ pl_renames (e_pool e) = []) as [-> ->]
    by (destruct (pl_fanR (e_pool e)), (pl_renames (e_pool e)); done).
  cbn. clear -Hidle. induction (pl_workers (e_pool e)) as [|x ws IH]; [done|]. cbn.
  rewrite (Hidle 0%nat x eq_refl). apply IH. intros i y Hi. by apply (Hidle (Datatypes.S i)).
Qed.

(** After a cancellation, being stuck means that every goroutine returned. *)
Lemma stuck_canceled e : stuck e -> at_rest (e_poll e) -> at_rest (e_sync e) ->
  (forall i x, get_worker i e = Some x -> x = WIdle \/ x = WExited) -> e_canceled e = true ->
  e_poll e = Stopped /\ e_sync e = Stopped /\ pl_closed (e_pool e) = true /\
  fan_done (pl_fanE (e_pool e)) = true /\ fan_done (pl_fanR (e_pool e)) = true /\
  Forall (fun x => x = WExited) (pl_workers (e_pool e)).
Proof.
  intros Hst Hp Hs Hw Hc.
  assert (e_poll e = Stopped) as P1.
  { destruct Hp as [Hp|Hp]; [|done]. specialize (Hst APollStop eq_refl). cbn in Hst. unfold poll_stop in Hst.
    by rewrite Hp, Hc in Hst. }
  assert (e_sync e = Stopped) as P2.
  { destruct Hs as [Hs|Hs]; [|done]. specialize (Hst ASyncStop eq_refl). cbn in Hst. unfold sync_stop in Hst.
    by rewrite Hs, Hc in Hst. }
  assert (fan_done (pl_fanE (e_pool e)) = true) as P3.
  { specialize (Hst AFanEventDone eq_refl). cbn in Hst. unfold fanE_done in Hst. rewrite Hc in Hst.
    by destruct (fan_done (pl_fanE (e_pool e))). }
  assert (fan_done (pl_fanR (e_pool e)) = true) as P4.
  { specialize (Hst AFanRenameDone eq_refl). cbn in Hst. unfold fanR_done in Hst. rewrite Hc in Hst.
    by destruct (fan_done (pl_fanR (e_pool e))). }
  assert (pl_closed (e_pool e) = true) as P5.
  { specialize (Hst AClose eq_refl). cbn in Hst. unfold pool_close in Hst. rewrite P3, P4 in Hst.
    by destruct (pl_closed (e_pool e)). }
  split_and!; try done. apply Forall_lookup. intros i x Hi. destruct (Hw i x Hi) as [->|]; [|done].
  pose proof (Hst (ATake i) eq_refl) as H3. pose proof (Hst (AExit i) eq_refl) as H4. cbn in H3, H4.
  unfold worker_take, get_worker in H3. unfold worker_exit, get_worker in H4. rewrite Hi in H3, H4. rewrite P5 in H4.
  by destruct (pl_work (e_pool e)).
Qed.

(** ** Properties *)

(** C8: bisync excludes everything else: in every state the agent can reach in
    which a bisync pass or a chain repair holds the lock, no push handler and
    no poll is in its critical section, no second pass or repair is, and no
    step but the holder's own (or a change from outside) alters a local file,
    the remote or the journal. *)
Theorem bisync_excludes w pst bst n acts e :
  engine_run ag acts (engine_start ag w pst bst n) = Some e ->
  (exists start, e_sync e = Holding start) \/ (exists k d, e_repairs e !! k = Some (Holding d)) ->
  (forall i it t, get_worker i e <> Some (WHold it t)) /\ e_poll e <> Holding tt /\
  (forall start k d, e_sync e = Holding start -> e_repairs e !! k <> Some (Holding d)) /\
  (forall k k' d d', e_repairs e !! k = Some (Holding d) -> e_repairs e !! k' = Some (Holding d') -> k = k') /\
  (forall a e', engine_do ag a e = Some e' -> same_data (e_world e) (e_world e') \/
     match a with ASyncPass | ARepairRun _ | AOutside _ _ => may_write a e | _ => False end).
Proof.
  intros Hr Hh. destruct (engine_run_ok _ _ _ (engine_start_ok w pst bst n) Hr) as ([K1 _ K3 K4] & _ & _).
  unfold held in K3. unfold readers_in in K1.
  assert (rw_writer (e_lock e) = WriterHolds) as Hw.
  { destruct Hh as [[start Hs]|(k & d & Hk)].
    - rewrite Hs in K3. cbn in K3. by destruct (rw_writer (e_lock e)).
    - pose proof (sum_with_lookup seat_held _ _ _ Hk) as Hl. cbn in Hl. destruct (rw_writer (e_lock e)); [lia..|done]. }
  rewrite Hw in K3. rewrite (K4 Hw) in K1.
  assert (forall i it t, get_worker i e <> Some (WHold it t)) as Q1
    by (intros i it t Hi; pose proof (sum_with_lookup reads _ _ _ Hi) as Hl; cbn in Hl; lia).
  assert (e_poll e <> Holding tt) as Q2 by (intros Hp; rewrite Hp in K1; cbn in K1; lia).
  split_and!; [done|done| | |].
  - intros start k d Hs Hk. pose proof (sum_with_lookup seat_held _ _ _ Hk) as Hl. rewrite Hs in K3. cbn in Hl, K3. lia.
  - intros k k' d d' Hk Hk'. destruct (decide (k = k')) as [|Hne]; [done|].
    pose proof (sum_with_two seat_held _ _ _ _ _ Hne Hk Hk') as Hl. cbn in Hl. lia.
  - intros a e' Ha. destruct (step_data a e e' Ha) as [Hd|Hm]; [by left|]. destruct a; try (by right; exact Hm); try done.
    + destruct Hm as (it & t & Hi). by apply Q1 in Hi.
Qed.

(** C9: no event is lost or handled twice: in every reachable state the items
    the pump handed over are exactly those handled, those in flight (in the
    channels, the fan-in goroutines and the workers) and those discarded --
    and nothing is discarded, and no goroutine ends, before the shutdown. *)
Theorem no_event_lost w pst bst n acts e :
  engine_run ag acts (engine_start ag w pst bst n) = Some e ->
  e_accepted e ≡ₚ e_handled e ++ e_dropped e ++ in_flight e /\
  (e_canceled e = false -> e_dropped e = [] /\ Forall (fun x => x <> WExited) (pl_workers (e_pool e))).
Proof.
  intros Hr. destruct (engine_run_ok _ _ _ (engine_start_ok w pst bst n) Hr) as (_ & Hf & Hl).
  split; [by apply flow_accepted|]. intros Hc. split; [by apply (lf_dropped e Hl)|by apply (lf_exited e Hl)].
Qed.

(** C10: the agent makes progress and shuts down: from a reachable state its own
    steps run out after at most [work_left] of them, whatever their order, so
    the lock never deadlocks; when none is left the lock is free, and either
    every item handed over has been handled, or, after a cancellation, every
    goroutine has returned. *)
Theorem engine_progress w pst bst n acts e :
  1 <= Workers (s_cfg (ag_push ag)) -> engine_run ag acts (engine_start ag w pst bst n) = Some e ->
  (forall own e', Forall (fun a => internal a = true) own -> engine_run ag own e = Some e' ->
     (length own <= work_left e)%nat) /\
  (stuck e ->
     e_lock e = mkRW 0 NoWriter /\
     (e_canceled e = false -> in_flight e = [] /\ e_accepted e ≡ₚ e_handled e) /\
     (e_canceled e = true ->
        e_poll e = Stopped /\ e_sync e = Stopped /\ pl_closed (e_pool e) = true /\
        fan_done (pl_fanE (e_pool e)) = true /\ fan_done (pl_fanR (e_pool e)) = true /\
        Forall (fun x => x = WExited) (pl_workers (e_pool e)))).
Proof.
  intros Hn Hr. split; [intros own e' Ho Hrun; by eapply internal_run_bounded|]. intros Hst.
  destruct (engine_run_ok _ _ _ (engine_start_ok w pst bst n) Hr) as (Hlock & Hf & Hl).
  destruct (stuck_rest e Hlock Hl Hst) as (El & Hp & Hs & _ & Hw). split_and!; [done| |by apply stuck_canceled].
  intros Hc. pose proof (stuck_running e Hl Hst Hn Hw Hc) as Hfl. split; [done|].
  rewrite (flow_accepted e Hf), Hfl, (lf_dropped e Hl Hc). by rewrite !app_nil_r.
Qed.

(** C18: a pause drops file events and does nothing else: a run of the paused
    agent is, step for step, the run of the agent that is not paused with the
    file events left out -- queued pushes, polls and bisync passes go on -- and
    no file event of that time is ever handed to the push workers, so a
    resume does not bring it back. *)
Theorem pause_only_drops acts e e' :
  engine_run ag acts e = Some e' -> e_paused e = true -> Forall (fun a => is_pause a = false) acts ->
  engine_run ag (List.filter (fun a => negb (is_dispatch a)) acts) (set_paused false e) = Some (set_paused false e') /\
  e_accepted e' = e_accepted e /\
  engine_do ag (APause false) e' = Some (set_paused false e').
Proof.
  intros Hr Hp Ha. destruct (paused_run acts e e' Hr Hp Ha) as [_ Hf]. split; [exact Hf|]. split; [|done].
  apply accepted_run in Hf; [by destruct e, e'|].
  apply List.Forall_forall. intros a [_ Hn]%filter_In. by apply negb_true_iff in Hn.
Qed.

End engine_lemmas.

(** ** Witnesses *)

(** Two workers, three attempts. *)
Definition engine_config : AppConfig :=
  mkAppConfig "/home" "gdrive:" "" (mkWatcherCfg 0 0 [])
    (mkPushCfg 0 (mkRetryCfg 3 Second Minute)) (mkPullCfg 0 0)
    (mkConflictCfg "" "" zero_retention None) (mkStateCfg "" "") (mkHTTPCfg "" false "" 0)
    (mkMQTTCfg false "" "" "" "" 0 0) (mkLoggingCfg "" "")
    (mkQuotaCfg (float64_of_Z 0) (float64_of_Z 0)) false.

Definition engine_agent : Agent :=
  match newAgent (applyDefaults engine_config) false demo_pub (Ok ∅ : result (gset string)) 0 with
  | Ok (ag, _, _, _) => ag
  | Err _ => minimal_agent
  end.

Definition demo_engine : Engine MemFS (JournalStore MemBolt) :=
  engine_start engine_agent (top_world (400 * Second)) (mkPullState 0 ∅) idle_state0 1.

Abbreviation demo_action := (action (R := MemFS)).

Abbreviation demo_run := (@engine_run MemFS (JournalStore MemBolt) _ _ _ demo_env engine_agent).

Definition watch_a (op : WOp) : WatchEvent := WatchFile (mkWEvent "/home/a.txt" op 0).

(** One worker handles an upload while a bisync pass waits for it. *)
Definition pass_waits : list demo_action :=
  [ADispatch (watch_a WWrite); AFanEvent; AFanEvent; ATake 0; ABegin 0; AAcquire 0; ASyncWake false;
   ASyncAnnounce; AFinish 0; ASyncAcquire].

(** A test on the state a run reaches. *)
Definition reaches (test : Engine MemFS (JournalStore MemBolt) -> bool) (acts : list demo_action) : bool :=
  match demo_run acts demo_engine with Some e => test e | None => false end.

Lemma reaches_spec test acts :
  reaches test acts = true -> exists e, demo_run acts demo_engine = Some e /\ test e = true.
Proof. unfold reaches. destruct (demo_run acts demo_engine) as [e|]; [by exists e|done]. Qed.

Definition pass_runs (e : Engine MemFS (JournalStore MemBolt)) : bool :=
  match e_sync e with Holding _ => true | _ => false end.

Lemma bisync_excludes_witness :
  exists e, demo_run pass_waits demo_engine = Some e /\ pass_runs e = true /\ e_poll e <> Holding tt.
Proof.
  destruct (reaches_spec pass_runs pass_waits) as (e & E & Hs); [vm_compute; reflexivity|].
  exists e. split; [exact E|]. split; [exact Hs|].
  apply (bisync_excludes (H2 := demo_env) engine_agent (top_world (400 * Second)) (mkPullState 0 ∅)
    idle_state0 1 pass_waits e E).
  left. unfold pass_runs in Hs. destruct (e_sync e) as [| | |start| |]; try discriminate Hs. exists start. reflexivity.
Defined.

Lemma no_event_lost_witness :
  exists e, demo_run pass_waits demo_engine = Some e /\ e_accepted e ≡ₚ e_handled e ++ e_dropped e ++ in_flight e.
Proof.
  destruct (reaches_spec pass_runs pass_waits) as (e & E & _); [vm_compute; reflexivity|].
  exists e. split; [exact E|].
  apply (no_event_lost (H2 := demo_env) engine_agent (top_world (400 * Second)) (mkPullState 0 ∅)
    idle_state0 1 pass_waits e E).
Defined.

Lemma engine_progress_witness :
  exists e, demo_run pass_waits demo_engine = Some e /\
    forall own e', Forall (fun a => internal a = true) own -> demo_run own e = Some e' ->
      (length own <= work_left e)%nat.
Proof.
  destruct (reaches_spec pass_runs pass_waits) as (e & E & _); [vm_compute; reflexivity|].
  exists e. split; [exact E|].
  apply (engine_progress (H2 := demo_env) engine_agent (top_world (400 * Second)) (mkPullState 0 ∅)
    idle_state0 1 pass_waits e).
  - vm_compute. discriminate.
  - exact E.
Defined.

(** A paused agent drops the write of a file and finishes the queued one. *)
Definition paused_events : list demo_action :=
  [AFanEvent; ADispatch (watch_a WWrite); AFanEvent; ATake 0; ABegin 0; AAcquire 0; AFinish 0].

Definition paused_engine : Engine MemFS (JournalStore MemBolt) :=
  match demo_run [ADispatch (watch_a WCreate); APause true] demo_engine with Some e => e | None => demo_engine end.

Lemma pause_only_drops_witness :
  exists e', demo_run paused_events paused_engine = Some e' /\
    length (e_handled e') = 1%nat /\ e_accepted e' = e_accepted paused_engine.
Proof.
  assert (exists e', demo_run paused_events paused_engine = Some e' /\ length (e_handled e') = 1%nat) as (e' & E & Hh).
  { assert (match demo_run paused_events paused_engine with Some e' => length (e_handled e') = 1%nat | None => False end)
      as Hm by (vm_compute; reflexivity).
    destruct (demo_run paused_events paused_engine) as [e'|]; [exists e'; split; [reflexivity|exact Hm]|destruct Hm]. }
  exists e'. split; [exact E|]. split; [exact Hh|].
  assert (e_paused paused_engine = true) as Hp by (vm_compute; reflexivity).
  assert (Forall (fun a : demo_action => is_pause a = false) paused_events) as Ha by (repeat constructor).
  apply (pause_only_drops (H2 := demo_env) engine_agent paused_events paused_engine e' E Hp Ha).
Defined.

(** *** What the pool does not promise *)

(** The file is removed and created again; the first worker still deletes when
    the second has uploaded. *)
Definition reordered : list demo_action :=
  [ADispatch (watch_a WRemove); ADispatch (watch_a WCreate); AFanEvent; AFanEvent; AFanEvent; AFanEvent;
   ATake 0; ATake 1; ABegin 0; ABegin 1; AAcquire 0; AAcquire 1; AFinish 1; AFinish 0].

(** Two events of one path can be handled in the opposite order by two
    workers: a reachable state with nothing in flight where the file that was
    removed and created again exists locally, both events were handled without
    an error, and the remote has lost it (the finding's counterexample). *)
Theorem same_path_reordered :
  match demo_run reordered demo_engine with
  | Some e =>
      in_flight e = [] /\ map (fun it => match it with IEvent ev => ev_Op ev | _ => OpRename end) (e_accepted e) = [OpRemove; OpCreate] /\
      map (fun it => match it with IEvent ev => ev_Op ev | _ => OpRename end) (e_handled e) = [OpCreate; OpRemove] /\
      is_ok (fst (os_Stat "/home/a.txt" (w_fs (e_world e)))) = true /\
      m_files (w_remote (e_world demo_engine)) !! "a.txt" <> None /\
      m_files (w_remote (e_world e)) !! "a.txt" = None
  | None => False
  end.
Proof. vm_compute. split_and!; done. Qed.

(** A shutdown discards what is queued: the second event is never handled. *)
Definition shutdown : list demo_action :=
  [ADispatch (watch_a WWrite); ADispatch (watch_a WRemove); AFanEvent; AFanEvent; AFanEvent; AFanEvent;
   ATake 0; ABegin 0; AAcquire 0; ACancel; AFinish 0; AFanEventDone; AFanRenameDone; AClose; ATake 1; ABegin 1;
   AExit 0; APollStop; ASyncStop].

Example shutdown_drops_queue :
  match demo_run shutdown demo_engine with
  | Some e =>
      pl_workers (e_pool e) = [WExited; WExited] /\ length (e_handled e) = 1%nat /\
      length (e_dropped e) = 1%nat
  | None => False
  end.
Proof. vm_compute. done. Qed.
