(* ===== verification/AgentControl.v ===== *)
(** The agent behind the control endpoint (cmd/homedrive/agent_control.go): what
    each request does to the engine, and the endpoint over it. A repair request
    is taken here once it has the lock; its waiting is in Engine.v. *)
From Stdlib Require Import Floats.SpecFloat.
From S2P Require Import Prelude.
From S2P Require Import GoStrings.
From S2P Require Import GoRuntime.
From S2P Require Import GoFloat.
From S2P Require Import OldSuffix.
From S2P Require Import Rfc3339.
From S2P Require Import LocalFS.
From S2P Require Import Remote.
From S2P Require Import MemFS.
From S2P Require Import Bolt.
From S2P Require Import Journal.
From S2P Require Import World.
From S2P Require Import Repair.
From S2P Require Import BisyncJournal.
From S2P Require Import Bisync.
From S2P Require Import Push.
From S2P Require Import Debouncer.
From S2P Require Import Quota.
From S2P Require Import Http.
From S2P Require Import AgentConfig.
From S2P Require Import Agent.
From S2P Require Import Engine.

(** ** Definitions *)

(** Truncation of a [float64] towards zero; outside the range of [int] the
    result is the one of amd64. *)
Definition int_of_float64 (x : float64) : Z :=
  match x with
  | S754_finite s m e =>
      let v := if 0 <=? e then Zpos m * 2 ^ e else Z.quot (Zpos m) (2 ^ (- e)) in
      let v := if s then - v else v in
      if (min_int64 <=? v) && (v <=? max_int64) then v else min_int64
  | S754_zero _ => 0
  | _ => min_int64
  end.

(** [Duration.Seconds], truncated. *)
Definition whole_seconds (d : Duration) : Z :=
  int_of_float64 (SFadd f64_prec f64_emax (float64_of_Z (Z.quot d Second))
    (f64_div (float64_of_Z (Z.rem d Second)) (float64_of_Z 1000000000))).

Definition unixNanoToRFC3339 (n : Z) : string :=
  if n =? 0 then "" else Format_RFC3339 (unix_epoch + n).

(** [slog.Level]s. *)
Definition parseLogLevel (level : string) : Z :=
  if String.eqb level "debug" then -4
  else if String.eqb level "warn" then 4
  else if String.eqb level "error" then 8
  else 0.

(** The engine and what only the control endpoint uses. *)
Record ControlState (R S : Type) := mkControlState {
  co_engine : Engine R S;
  co_reloadedDryRun : bool;
  co_logLevel : option Z;
}.
Arguments mkControlState {R S} _ _ _.
Arguments co_engine {R S} _.
Arguments co_reloadedDryRun {R S} _.
Arguments co_logLevel {R S} _.

(** The fixed part: the version, the start time, the configuration file as it
    would be read now, whether MQTT is enabled and connected, and the remote's
    OAuth status where it reports one (checked, client configured). *)
Record ControlEnv (R : Type) := mkControlEnv {
  ce_version : string;
  ce_startTime : Time;
  ce_config : result AppConfig;
  ce_mqtt : option bool;
  ce_oauth : option (R -> bool * bool);
}.
Arguments mkControlEnv {R} _ _ _ _ _.
Arguments ce_version {R} _.
Arguments ce_startTime {R} _.
Arguments ce_config {R} _.
Arguments ce_mqtt {R} _.
Arguments ce_oauth {R} _.

(** [NAME is healthy], or not with a message. *)
Definition healthy (name : string) : ComponentHealth := mkComponentHealth name true "" false.

Definition unhealthy (name msg : string) : ComponentHealth := mkComponentHealth name false msg false.

Definition mqttHealth (connected : bool) : ComponentHealth :=
  if connected then healthy "mqtt" else unhealthy "mqtt" "disconnected".

(** With an initialised remote, which [newAgent] guarantees. *)
Definition rcloneHealth (oauth : option (bool * bool)) : ComponentHealth :=
  match oauth with
  | Some (true, false) =>
      mkComponentHealth "rclone" true
        ("oauth client_id/client_secret not configured for remote; Drive Changes API polling is failing and " +:+
         "backing off (push and the hourly bisync safety net are unaffected) -- see homedrive/README.md prerequisites")
        true
  | _ =>
      mkComponentHealth "rclone" true "initialized; no live probe (avoids Drive API quota use on health checks)"
        false
  end.

Definition storeHealth (count : result Z) : ComponentHealth :=
  match count with Err e => unhealthy "store" (Error e) | Ok _ => healthy "store" end.

Definition side_name (s : side) : string := match s with SLocal => "local" | SRemote => "remote" end.

Section control.
Context {R DB : Type} `{RemoteFS R} `{Bolt DB} `{Env}.
Abbreviation S := (JournalStore DB).
Abbreviation C := (ControlState R S).
Variable ag : Agent.
Variable ce : ControlEnv R.

Definition on_engine {A} (f : Engine R S -> A * Engine R S) : ST C A := fun c =>
  let '(a, e) := f (co_engine c) in (a, mkControlState e (co_reloadedDryRun c) (co_logLevel c)).

Definition Pause : ST C (result unit) := on_engine (fun e => (Ok tt, set_paused true e)).

Definition Resume : ST C (result unit) := on_engine (fun e => (Ok tt, set_paused false e)).

Definition ForceResync : ST C (result unit) :=
  on_engine (fun e => let '(r, st) := ForceRun (e_bis e) in (r, set_bis st e)).

Definition Agent_RunChainRepair (dryRun : bool) : ST C (result RepairReport) :=
  let? report := on_engine (on_world (Bisync.RunChainRepair (ag_bisync ag) dryRun)) in
  st_ret (Ok (mkRepairReport (Scanned report) (Z.of_nat (length (Links report)))
    (map (fun l => mkHttpRepairedLink (OldPath l) (NewPath l) (side_name (Side l))) (Links report)) dryRun)).

Definition Reload : ST C (result unit) := fun c =>
  match ce_config ce with
  | Err e => (Err (EWrap "reload config" e), c)
  | Ok cfg =>
      (Ok tt, mkControlState (co_engine c) (c_DryRun cfg)
                (match co_logLevel c with
                 | None => None
                 | Some _ => Some (parseLogLevel (cg_Level (c_Logging cfg)))
                 end))
  end.

Definition quotaUsedPct : ST C Z :=
  let* q := on_engine (on_world (on_remote RemoteQuota)) in
  st_ret (match q with
          | Err _ => 0
          | Ok q =>
              if q_Total q <=? 0 then 0
              else int_of_float64 (f64_mul (f64_div (float64_of_Z (q_Used q)) (float64_of_Z (q_Total q)))
                                     (float64_of_Z 100))
          end).

Definition Status : ST C (result StatusInfo) :=
  let* c := (fun c => (c, c)) in
  let* pct := quotaUsedPct in
  let* t := on_engine (on_world now) in
  let e := co_engine c in
  st_ret (Ok (mkStatusInfo (if e_paused e then "paused" else "running") (ce_version ce)
    (Z.of_nat (length (pl_events (e_pool e)) + length (pl_renames (e_pool e)))) 0
    (unixNanoToRFC3339 (e_lastPush e)) (unixNanoToRFC3339 (e_lastPull e)) pct 0 0 0
    (co_reloadedDryRun c) (whole_seconds (Sub t (ce_startTime ce))))).

Definition Healthz : ST C (result HealthResult) := fun c =>
  let w := e_world (co_engine c) in
  let components :=
    [storeHealth (Journal_Count (js_J (w_store w)));
     rcloneHealth (match ce_oauth ce with Some f => Some (f (w_remote w)) | None => None end)] ++
    match ce_mqtt ce with Some connected => [mqttHealth connected] | None => [] end in
  (Ok (mkHealthResult (forallb ch_Healthy components) components), c).

#[local] Instance agent_control : Control C := {|
  ctl_Pause := Pause;
  ctl_Resume := Resume;
  ctl_ForceResync := ForceResync;
  ctl_Reload := Reload;
  ctl_Status := Status;
  ctl_Healthz := Healthz;
  ctl_RunChainRepair := Agent_RunChainRepair;
|}.

End control.

(** ** Lemmas *)

(** A timestamp is shown to the second, whatever its sign. *)
Lemma unixNano_shown n :
  min_int64 <= n <= max_int64 -> n <> 0 ->
  Parse_RFC3339 (unixNanoToRFC3339 n) = Some (unix_epoch + n - n mod Second).
Proof.
  intros Hn Hz. unfold unixNanoToRFC3339. rewrite (proj2 (Z.eqb_neq n 0) Hz).
  unfold min_int64, max_int64, unix_epoch in *.
  rewrite parse_format by (unfold year_10000, Second in *; lia).
  do 2 f_equal. rewrite (Z.add_comm (62135596800 * Second)). apply Z.mod_add. done.
Qed.

Section control_lemmas.
Context {R DB : Type} `{RemoteFS R} `{Bolt DB} `{Env}.
Abbreviation S := (JournalStore DB).
Abbreviation C := (ControlState R S).
Variable ag : Agent.
Variable ce : ControlEnv R.

(** The endpoint over this agent. *)
Definition control_serve (cfg : ServerConfig) (rq : Request) : ST (C * Metrics) Response :=
  @serve C (agent_control ag ce) cfg rq.

Definition authorized (cfg : ServerConfig) (rq : Request) : Prop :=
  sc_AuthToken cfg = "" \/ rq_Authorization rq = bearer +:+ sc_AuthToken cfg.

(** The step of the engine that a request is. *)
Definition request_action (rq : Request) : option (action (R := R)) :=
  if negb (String.eqb (rq_Method rq) MethodPost) then None
  else if String.eqb (rq_Path rq) "/pause" then Some (APause true)
  else if String.eqb (rq_Path rq) "/resume" then Some (APause false)
  else if String.eqb (rq_Path rq) "/resync" then Some AForce
  else None.

Lemma authorized_mux cfg rq s :
  authorized cfg rq -> control_serve cfg rq s = @mux C (agent_control ag ce) cfg rq s.
Proof.
  unfold control_serve, serve, withAuth. intros [->|Ha]; [done|].
  apply bearer_spec in Ha as ->. by destruct (String.eqb (sc_AuthToken cfg) "").
Qed.

(** C20: a control request is a step of the engine: an authenticated request
    other than a status query and a repair is exactly the engine's pause,
    resume or forced-bisync step when its path and method say so (answered 200,
    200, and 202 or, while a pass runs, 500), and no step at all otherwise, so
    the engine's invariants hold under any control traffic. *)
Theorem request_steps cfg rq c m :
  authorized cfg rq -> rq_Path rq <> "/status" -> rq_Path rq <> "/conflict/repair" ->
  let '(r, (c', _)) := control_serve cfg rq (c, m) in
  match request_action rq with
  | Some a =>
      engine_do ag a (co_engine c) = Some (co_engine c') /\
      rs_Status r = match a with
                    | AForce => if is_ok (fst (ForceRun (e_bis (co_engine c)))) then 202 else 500
                    | _ => 200
                    end
  | None => co_engine c' = co_engine c
  end.
Proof.
  intros Ha Hs Hr. rewrite authorized_mux by done. unfold mux, route_of, request_action, methodOnly.
  rewrite (proj2 (String.eqb_neq _ _) Hs), (proj2 (String.eqb_neq _ _) Hr).
  destruct (String.eqb_spec (rq_Path rq) "/pause") as [->|_].
  { cbn. by destruct (String.eqb (rq_Method rq) MethodPost). }
  destruct (String.eqb_spec (rq_Path rq) "/resume") as [->|_].
  { cbn. by destruct (String.eqb (rq_Method rq) MethodPost). }
  destruct (String.eqb_spec (rq_Path rq) "/resync") as [->|_].
  { change (mux_path "/resync") with "/resync". cbn.
    destruct (String.eqb (rq_Method rq) MethodPost); [|done]. cbn.
    unfold handleResync, call, st_bind, count, Http.on_agent; cbn. unfold ForceResync, on_engine.
    by destruct (ForceRun (e_bis (co_engine c))) as [[] st]. }
  assert ((if negb (String.eqb (rq_Method rq) MethodPost) then None else None) = @None (action (R := R))) as ->
    by (by destruct (negb _)).
  destruct (negb (String.eqb (mux_path (rq_Path rq)) (rq_Path rq))); [done|].
  destruct (String.eqb (rq_Path rq) "/reload").
  { destruct (negb _); [done|]. cbn. unfold handleReload, call, st_bind, count, Http.on_agent; cbn. unfold Reload.
    by destruct (ce_config ce). }
  destruct (String.eqb (rq_Path rq) "/healthz"); [by destruct (negb _)|].
  destruct (sc_EnableMetrics cfg && _); [by destruct (negb _)|done].
Qed.

(** The health check: an authenticated GET of /healthz answers 200 exactly
    when the journal can be read and MQTT, if it is enabled, is connected, and
    503 otherwise, with those components listed in a fixed order; it changes
    nothing, and a missing OAuth client degrades the remote's entry without
    changing the verdict. *)
Theorem healthz_verdict cfg rq c m :
  authorized cfg rq -> rq_Path rq = "/healthz" -> rq_Method rq = MethodGet ->
  let '(r, (c', _)) := control_serve cfg rq (c, m) in
  let db := js_J (w_store (e_world (co_engine c))) in
  let oauth := match ce_oauth ce with Some f => Some (f (w_remote (e_world (co_engine c)))) | None => None end in
  c' = c /\
  (rs_Status r = 200 <-> is_ok (Journal_Count db) = true /\ ce_mqtt ce <> Some false) /\
  (rs_Status r = 200 \/ rs_Status r = 503) /\
  exists h, rs_Body r = BHealth h /\
    map ch_Name (hr_Components h) = ["store"; "rclone"] ++ (match ce_mqtt ce with Some _ => ["mqtt"] | None => [] end) /\
    map ch_Degraded (hr_Components h) =
      [false; bool_decide (oauth = Some (true, false))] ++ (match ce_mqtt ce with Some _ => [false] | None => [] end).
Proof.
  intros Ha Hp Hm. rewrite authorized_mux by done. destruct rq as [meth path q au]. cbn in Hp, Hm. subst.
  unfold mux, route_of, methodOnly. change (mux_path "/healthz") with "/healthz". cbn.
  unfold handleHealthz, call, st_bind, count, Http.on_agent; cbn. unfold Healthz.
  split; [done|]. unfold st_ret. cbv zeta. cbn [rs_Status rs_Body writeJSON fst snd].
  generalize (Journal_Count (js_J (w_store (e_world (co_engine c))))) as cnt.
  generalize (match ce_oauth ce with Some f => Some (f (w_remote (e_world (co_engine c)))) | None => None end) as oauth.
  intros oauth cnt.
  destruct cnt, (ce_mqtt ce) as [[]|], oauth as [[[] []]|]; cbn.
  all: split; [split; [try done; try (by intros [])|try (by intros []); try done]|].
  all: split; [by auto|by eexists].
Qed.

(** The pump stamps what it hands over. *)
Lemma dispatch_stamps we (e e' : Engine R S) :
  dispatchWatchEvent ag we e = Some e' -> e_paused e = false ->
  e_lastPush e' = UnixNano (fst (now (e_world e))).
Proof.
  intros Hd Hp. unfold dispatchWatchEvent in Hd. rewrite Hp in Hd.
  destruct (to_item _ we); destruct (_ <? _)%nat; try done; injection Hd as <-; done.
Qed.

(** What the status shows as the last push: right after the pump handed an
    event over, the [last_push] text is the RFC 3339 time of that step, to the
    second -- parsing it gives the clock truncated -- and it is empty as long
    as nothing was handed over; the state text tells a paused agent. *)
Theorem status_last_push we (e e' : Engine R S) dry level :
  dispatchWatchEvent ag we e = Some e' ->
  let t := fst (now (e_world e)) in
  - max_int64 <= t - unix_epoch <= max_int64 -> t <> unix_epoch ->
  match fst (Status ce (mkControlState e' dry level)) with
  | Ok info =>
      (e_paused e = false -> Parse_RFC3339 (si_LastPush info) = Some (t - t mod Second)) /\
      (e_paused e = true -> e_lastPush e = 0 -> si_LastPush info = "") /\
      si_State info = (if e_paused e' then "paused" else "running") /\ si_DryRun info = dry
  | Err _ => False
  end.
Proof.
  intros Hd t Ht Hz. unfold Status, st_bind. cbn [co_engine].
  destruct (quotaUsedPct _) as [pct c1]. destruct (on_engine (on_world now) c1) as [t' c2]. cbn.
  split_and!; [| |done|done].
  - intros Hp. rewrite (dispatch_stamps we e e' Hd Hp). fold t. unfold UnixNano.
    rewrite wrap64_id by (unfold in_int64, min_int64, max_int64 in *; lia).
    rewrite unixNano_shown by (unfold min_int64, max_int64 in *; lia).
    change (env_now (w_tick (e_world e))) with t.
    assert ((t - unix_epoch) mod Second = t mod Second) as ->; [|f_equal; lia].
    replace (t - unix_epoch) with (t + (-62135596800) * Second) by (unfold unix_epoch; lia).
    by apply Z.mod_add.
  - intros Hp Hl. unfold dispatchWatchEvent in Hd. rewrite Hp in Hd. injection Hd as <-. by rewrite Hl.
Qed.

End control_lemmas.

(** ** Witnesses *)

Definition control_env : ControlEnv MemFS :=
  mkControlEnv "v1" unix_epoch (Ok (set_dry_run true engine_config)) (Some false) (Some (fun _ => (true, false))).

Definition demo_control : ControlState MemFS (JournalStore MemBolt) := mkControlState demo_engine false (Some 0).

Definition bearer_request (meth path : string) : Request := mkRequest meth path [] "Bearer secret".

Abbreviation demo_serve := (@control_serve MemFS MemBolt _ _ demo_env engine_agent control_env open_server).

Lemma demo_authorized meth path : authorized open_server (bearer_request meth path).
Proof. right. reflexivity. Qed.

Lemma request_steps_witness :
  let '(r, (c, _)) := demo_serve (bearer_request MethodPost "/resync") (demo_control, NewMetrics) in
  bs_force (e_bis (co_engine c)) = true /\
  Some (co_engine demo_control) <> None /\
  demo_run [AForce] (co_engine demo_control) = Some (co_engine c) /\ rs_Status r = 202.
Proof.
  pose proof (request_steps (H1 := demo_env) engine_agent control_env open_server (bearer_request MethodPost "/resync")
    demo_control NewMetrics (demo_authorized _ _) ltac:(discriminate) ltac:(discriminate)) as Hs.
  destruct (demo_serve _ _) as [r [c m]] eqn:E. cbn in Hs. destruct Hs as [[= Hc] Hr].
  rewrite <- Hc. split; [vm_compute; reflexivity|]. split; [discriminate|]. split; [reflexivity|exact Hr].
Defined.

(** The broker is away, and the OAuth client is missing. *)
Lemma healthz_verdict_witness :
  let '(r, _) := demo_serve (bearer_request MethodGet "/healthz") (demo_control, NewMetrics) in
  rs_Status r = 503 /\ exists h, rs_Body r = BHealth h /\ map ch_Degraded (hr_Components h) = [false; true; false].
Proof.
  pose proof (healthz_verdict (H1 := demo_env) engine_agent control_env open_server (bearer_request MethodGet "/healthz")
    demo_control NewMetrics (demo_authorized _ _) eq_refl eq_refl) as Hs.
  destruct (demo_serve _ _) as [r [c m]]. cbn in Hs. destruct Hs as (_ & H1 & [H2|H2] & h & E & _ & Hd).
  - exfalso. apply H1 in H2 as [_ H3]. apply H3. reflexivity.
  - split; [exact H2|]. exists h. split; [exact E|exact Hd].
Defined.

(** A clock of November 2023. *)
Definition modern_env : Env := {|
  env_now := fun n => unix_epoch + 1700000000 * Second + Z.of_nat n;
  env_ctx := fun _ => None;
  env_order := fun _ _ l => l;
  env_order_perm := fun _ _ _ => reflexivity _;
  env_md5 := fun s => s;
|}.

Definition pushed_engine : Engine MemFS (JournalStore MemBolt) :=
  match @dispatchWatchEvent _ _ modern_env engine_agent (watch_a WWrite) demo_engine with
  | Some e => e
  | None => demo_engine
  end.

Lemma status_last_push_witness :
  match fst (@Status _ _ _ modern_env control_env (mkControlState pushed_engine false None)) with
  | Ok info => Parse_RFC3339 (si_LastPush info) = Parse_RFC3339 "2023-11-14T22:13:20Z"
  | Err _ => False
  end.
Proof.
  assert (@dispatchWatchEvent _ _ modern_env engine_agent (watch_a WWrite) demo_engine = Some pushed_engine) as Hd.
  { assert (match @dispatchWatchEvent _ _ modern_env engine_agent (watch_a WWrite) demo_engine with
            | Some _ => True | None => False end) as Hm by (vm_compute; exact I).
    unfold pushed_engine. destruct (@dispatchWatchEvent _ _ modern_env _ _ _); [reflexivity|destruct Hm]. }
  pose proof (status_last_push (H1 := modern_env) engine_agent control_env (watch_a WWrite) demo_engine pushed_engine
    false None Hd) as Hs.
  destruct (fst (@Status _ _ _ modern_env _ _)) as [info|err]; cbn zeta in Hs.
  - destruct Hs as [Hp _]; [vm_compute; split; discriminate|vm_compute; discriminate|].
    rewrite Hp by (vm_compute; reflexivity). vm_compute. reflexivity.
  - apply Hs; vm_compute; [split|]; discriminate.
Defined.

(** *** What a reload does not reach *)

(** After a reload of a file that asks for a dry run the status reports one,
    and the running agent still uploads. *)
Example reload_is_reported_only :
  let '(_, (c, _)) := demo_serve (bearer_request MethodPost "/reload") (demo_control, NewMetrics) in
  match fst (@Status _ _ _ demo_env control_env c), demo_run [ADispatch (watch_a WRemove); AFanEvent; AFanEvent; ATake 0; ABegin 0; AAcquire 0; AFinish 0] (co_engine c) with
  | Ok info, Some e =>
      si_DryRun info = true /\ m_files (w_remote (e_world (co_engine c))) !! "a.txt" <> None /\
      m_files (w_remote (e_world e)) !! "a.txt" = None
  | _, _ => False
  end.
Proof. vm_compute. split_and!; done. Qed.
