(* ===== verification/AgentRun.v ===== *)
(** The life of the agent ([Run], [startComponents], [watchSIGHUP] and the
    [shutdown] functions of cmd/homedrive/agent_run.go): the watcher, the pump,
    the engine, the signals and the control endpoint as one transition system,
    from the start to the return of [Run]. *)
From S2P Require Import Prelude.
From S2P Require Import GoStrings.
From S2P Require Import GoRuntime.
From S2P Require Import OldSuffix.
From S2P Require Import LocalFS.
From S2P Require Import Remote.
From S2P Require Import MemFS.
From S2P Require Import Bolt.
From S2P Require Import Journal.
From S2P Require Import World.
From S2P Require Import PathFilter.
From S2P Require Import Debouncer.
From S2P Require Import Watcher.
From S2P Require Import WatcherLoop.
From S2P Require Import Http.
From S2P Require Import Mqtt.
From S2P Require Import AgentConfig.
From S2P Require Import BisyncJournal.
From S2P Require Import Bisync.
From S2P Require Import Push.
From S2P Require Import Pull.
From S2P Require Import Agent.
From S2P Require Import Engine.
From S2P Require Import AgentControl.

(** ** Definitions *)

(** Where [Run] is: blocked on the context, in [shutdownHTTP], in [wg.Wait],
    before [shutdownMQTT], before [shutdownStore], returned. *)
Inductive phase := Serving | Draining | Waiting | Disconnecting | Closing | Returned.

Definition rank (p : phase) : nat :=
  match p with Serving => 0 | Draining => 1 | Waiting => 2 | Disconnecting => 3 | Closing => 4 | Returned => 5 end.

(** [pumpWatcherEvents]: at its receive, at the test of the pause flag, at its
    send, or returned. *)
Inductive pump := PumpWaits | PumpHas (we : WatchEvent) | PumpSends (we : WatchEvent) | PumpDone.

Definition pump_items (p : pump) : list WatchEvent :=
  match p with PumpHas we | PumpSends we => [we] | _ => [] end.

(** The engine with the control endpoint's state; the watcher (whose world is
    the engine's, kept there between its steps); the pump; whether the SIGHUP
    goroutine runs; the MQTT client, if enabled; whether the control endpoint
    accepts requests; whether the audit log is open; and
    whether the endpoint was drained within its timeout. *)
Record Running (R S F : Type) := mkRunning {
  ru_control : ControlState R S;
  ru_loop : Loop R S F;
  ru_pump : pump;
  ru_sighup : bool;
  ru_mqtt : option MqttState;
  ru_listening : bool;
  ru_phase : phase;
  ru_open : bool;
  ru_drained : bool;
}.
Arguments mkRunning {R S F} _ _ _ _ _ _ _ _ _.
Arguments ru_control {R S F} _.
Arguments ru_loop {R S F} _.
Arguments ru_pump {R S F} _.
Arguments ru_sighup {R S F} _.
Arguments ru_mqtt {R S F} _.
Arguments ru_listening {R S F} _.
Arguments ru_phase {R S F} _.
Arguments ru_open {R S F} _.
Arguments ru_drained {R S F} _.

Section run.
Context {R DB F : Type} `{RemoteFS R} `{Bolt DB} `{Fsnotify F} `{Env}.
Abbreviation S := (JournalStore DB).
Abbreviation W := (World R S).
Abbreviation U := (Running R S F).

(** A step of the engine or a request to it, a step of the watcher, the pump's
    steps (a cancelled send drops its event), SIGHUP, the MQTT client, and the
    steps of [Run] itself. *)
Inductive run_action :=
| REngine (a : action (R := R))
| RWatch (a : laction)
| RPumpTake
| RPumpCheck
| RPumpSend
| RPumpDrop
| RPumpStop
| RReload
| RSighupStop
| RMqtt (op : mqtt_op)
| RListenFails
| RShutdown
| RDrained
| RDrainTimeout
| RWait
| RDisconnect (open : bool)
| RCloseStore.

Definition ru_engine (u : U) : Engine R S := co_engine (ru_control u).

Definition set_control (c : ControlState R S) (u : U) : U :=
  mkRunning c (ru_loop u) (ru_pump u) (ru_sighup u) (ru_mqtt u) (ru_listening u) (ru_phase u) (ru_open u) (ru_drained u).

Definition set_engine (e : Engine R S) (u : U) : U :=
  set_control (mkControlState e (co_reloadedDryRun (ru_control u)) (co_logLevel (ru_control u))) u.

Definition set_loop (l : Loop R S F) (u : U) : U :=
  mkRunning (ru_control u) l (ru_pump u) (ru_sighup u) (ru_mqtt u) (ru_listening u) (ru_phase u) (ru_open u) (ru_drained u).

Definition set_pump (p : pump) (u : U) : U :=
  mkRunning (ru_control u) (ru_loop u) p (ru_sighup u) (ru_mqtt u) (ru_listening u) (ru_phase u) (ru_open u) (ru_drained u).

Definition set_mqtt (m : option MqttState) (u : U) : U :=
  mkRunning (ru_control u) (ru_loop u) (ru_pump u) (ru_sighup u) m (ru_listening u) (ru_phase u) (ru_open u) (ru_drained u).

Definition set_listening (b : bool) (u : U) : U :=
  mkRunning (ru_control u) (ru_loop u) (ru_pump u) (ru_sighup u) (ru_mqtt u) b (ru_phase u) (ru_open u) (ru_drained u).

Definition set_phase (p : phase) (u : U) : U :=
  mkRunning (ru_control u) (ru_loop u) (ru_pump u) (ru_sighup u) (ru_mqtt u) (ru_listening u) p (ru_open u) (ru_drained u).

Definition loop_world (w : W) (l : Loop R S F) : Loop R S F :=
  mkLoop w (lp_ws l) (lp_held l) (lp_result l) (lp_received l).

Variable doublestar_Match : string -> string -> bool.
Variable ag : Agent.
Variable ce : ControlEnv R.

(** The store behind the watcher's echo guard. *)
Definition watch_store : option (string -> ST W (option SyncRecord)) :=
  Some (watcherStoreAdapter_GetSyncRecord (c_LocalRoot (ag_cfg ag))).

Definition watch_do (a : laction) (u : U) : option U :=
  match loop_do (ag_watch ag) doublestar_Match watch_store a (loop_world (e_world (ru_engine u)) (ru_loop u)) with
  | Some l => Some (set_engine (set_world (lp_world l) (ru_engine u)) (set_loop l u))
  | None => None
  end.

(** The watcher's own steps: the receive is the pump's, the outside's changes
    are the engine's, and the context's error is that of the signal. *)
Definition watch_step (a : laction) (u : U) : option U :=
  match a with
  | LReceive | LOutside _ => None
  | LCtxDone e =>
      match e with
      | ESent ErrCanceled => if e_canceled (ru_engine u) then watch_do a u else None
      | _ => None
      end
  | _ => watch_do a u
  end.

(** Requests come through the endpoint, events through the pump. *)
Definition engine_step (a : action (R := R)) (u : U) : option U :=
  let enabled :=
    match a with
    | ADispatch _ => false
    | _ => if is_request a then ru_listening u else true
    end in
  if enabled then
    match engine_do ag a (ru_engine u) with Some e => Some (set_engine e u) | None => None end
  else None.

(** *** [pumpWatcherEvents] *)

Definition pump_take (u : U) : option U :=
  match ru_pump u, ws_events (lp_ws (ru_loop u)) with
  | PumpWaits, we :: _ => match watch_do LReceive u with Some u => Some (set_pump (PumpHas we) u) | None => None end
  | _, _ => None
  end.

Definition pump_check (u : U) : option U :=
  match ru_pump u with
  | PumpHas we => Some (set_pump (if e_paused (ru_engine u) then PumpWaits else PumpSends we) u)
  | _ => None
  end.

(** The send itself no longer looks at the flag. *)
Definition pump_send (u : U) : option U :=
  match ru_pump u with
  | PumpSends we =>
      match dispatchWatchEvent ag we (set_paused false (ru_engine u)) with
      | Some e => Some (set_pump PumpWaits (set_engine (set_paused (e_paused (ru_engine u)) e) u))
      | None => None
      end
  | _ => None
  end.

(** [case <-ctx.Done()] of the send. *)
Definition pump_drop (u : U) : option U :=
  match ru_pump u, e_canceled (ru_engine u) with
  | PumpSends _, true => Some (set_pump PumpWaits u)
  | _, _ => None
  end.

Definition pump_stop (u : U) : option U :=
  match ru_pump u with PumpWaits => if e_canceled (ru_engine u) then Some (set_pump PumpDone u) else None | _ => None end.

(** *** [watchSIGHUP] *)

Definition sighup_reload (u : U) : option U :=
  if ru_sighup u then Some (set_control (snd (Reload ce (ru_control u))) u) else None.

Definition sighup_stop (u : U) : option U :=
  if e_canceled (ru_engine u) && ru_sighup u then
    Some (mkRunning (ru_control u) (ru_loop u) (ru_pump u) false (ru_mqtt u) (ru_listening u) (ru_phase u) (ru_open u)
            (ru_drained u))
  else None.

(** *** The endpoint and the broker *)

(** [ListenAndServe] returns early, for a port in use: its error is only read at
    the shutdown. *)
Definition listen_fails (u : U) : option U :=
  match ru_phase u with Serving => if ru_listening u then Some (set_listening false u) else None | _ => None end.

Definition mqtt_step (op : mqtt_op) (u : U) : option U :=
  match ru_mqtt u, op with
  | _, MClose _ => None
  | Some s, _ => Some (set_mqtt (Some (snd (mqtt_do op s))) u)
  | None, _ => None
  end.

(** *** [Run] after the signal *)

(** [httpSrv.Shutdown] stops accepting at once. *)
Definition run_shutdown (u : U) : option U :=
  match ru_phase u with
  | Serving => if e_canceled (ru_engine u) then Some (set_phase Draining (set_listening false u)) else None
  | _ => None
  end.

Definition set_drained (b : bool) (u : U) : U :=
  mkRunning (ru_control u) (ru_loop u) (ru_pump u) (ru_sighup u) (ru_mqtt u) (ru_listening u) (ru_phase u) (ru_open u) b.

(** It returns when no request is being served, or after ten seconds. *)
Definition run_drained (u : U) : option U :=
  match ru_phase u with
  | Draining =>
      if forallb (fun s : seat bool => match s with Away => true | _ => false end) (e_repairs (ru_engine u))
      then Some (set_phase Waiting (set_drained true u)) else None
  | _ => None
  end.

Definition run_drain_timeout (u : U) : option U :=
  match ru_phase u with Draining => Some (set_phase Waiting u) | _ => None end.

(** The goroutines [startComponents] and [watchSIGHUP] added to the group. *)
Definition all_returned (u : U) : bool :=
  let e := ru_engine u in let p := e_pool e in
  match lp_result (ru_loop u) with Some _ => true | None => false end &&
  match ru_pump u with PumpDone => true | _ => false end &&
  (fan_done (pl_fanE p) && fan_done (pl_fanR p) &&
   forallb (fun x => match x with WExited => true | _ => false end) (pl_workers p)) &&
  match e_poll e with Stopped => true | _ => false end &&
  match e_sync e with Stopped => true | _ => false end &&
  negb (ru_sighup u).

Definition run_wait (u : U) : option U :=
  match ru_phase u with Waiting => if all_returned u then Some (set_phase Disconnecting u) else None | _ => None end.

(** [shutdownMQTT]. *)
Definition run_disconnect (open : bool) (u : U) : option U :=
  match ru_phase u with
  | Disconnecting =>
      Some (set_phase Closing
        (match ru_mqtt u with None => u | Some s => set_mqtt (Some (snd (Close open s))) u end))
  | _ => None
  end.

Definition set_open (b : bool) (u : U) : U :=
  mkRunning (ru_control u) (ru_loop u) (ru_pump u) (ru_sighup u) (ru_mqtt u) (ru_listening u) (ru_phase u) b (ru_drained u).

(** [shutdownStore]; then [Run] returns nil. *)
Definition shutdownStore (u : U) : U :=
  set_open false (set_engine (snd (on_world (on_store (on_J Journal_Close)) (ru_engine u))) u).

Definition run_close (u : U) : option U :=
  match ru_phase u with Closing => Some (set_phase Returned (shutdownStore u)) | _ => None end.

Definition run_do (a : run_action) (u : U) : option U :=
  match a with
  | REngine a => engine_step a u
  | RWatch a => watch_step a u
  | RPumpTake => pump_take u
  | RPumpCheck => pump_check u
  | RPumpSend => pump_send u
  | RPumpDrop => pump_drop u
  | RPumpStop => pump_stop u
  | RReload => sighup_reload u
  | RSighupStop => sighup_stop u
  | RMqtt op => mqtt_step op u
  | RListenFails => listen_fails u
  | RShutdown => run_shutdown u
  | RDrained => run_drained u
  | RDrainTimeout => run_drain_timeout u
  | RWait => run_wait u
  | RDisconnect open => run_disconnect open u
  | RCloseStore => run_close u
  end.

Fixpoint run_all (acts : list run_action) (u : U) : option U :=
  match acts with
  | [] => Some u
  | a :: acts => match run_do a u with None => None | Some u => run_all acts u end
  end.

(** [Run] up to the context: the watcher's initial walk comes first. *)
Definition run_start (w : W) (ws : WatcherState F) (pst : PullState) (bst : BisyncState) (mq : option MqttState) (n : nat)
    (level : option Z) : U :=
  let l := loop_start (ag_watch ag) doublestar_Match w ws in
  mkRunning (mkControlState (engine_start ag (lp_world l) pst bst n) (c_DryRun (ag_cfg ag)) level) l PumpWaits true mq
    true Serving true false.

(** The steps the agent takes by itself once it was told to stop, and those of
    its pump and engine before. *)
Definition own_step (a : run_action) : bool :=
  match a with
  | REngine a => internal a
  | RWatch (LCtxDone _) | RPumpTake | RPumpCheck | RPumpSend | RPumpDrop | RPumpStop | RSighupStop | RShutdown | RDrained
  | RDrainTimeout | RWait | RDisconnect _ | RCloseStore => true
  | _ => false
  end.

Definition pump_work (p : pump) : nat := match p with PumpDone => 0 | PumpWaits => 1 | PumpSends _ => 10 | PumpHas _ => 11 end.

(** The own steps that are left, at most. *)
Definition steps_left (u : U) : nat :=
  (work_left (ru_engine u) + 12 * length (ws_events (lp_ws (ru_loop u))) + pump_work (ru_pump u) +
   (match lp_result (ru_loop u) with None => 1 | Some _ => 0 end) + (if ru_sighup u then 1 else 0) +
   (5 - rank (ru_phase u)))%nat.

End run.

(** ** Lemmas *)

Lemma store_guard_quiet {R S} `{BJournalLaws S} root path :
  quiet (R := R) (watcherStoreAdapter_GetSyncRecord (S := S) root path).
Proof.
  unfold watcherStoreAdapter_GetSyncRecord. apply quiet_bind.
  - apply quiet_store. intros s. by rewrite bj_get.
  - intros [[]|]; solve_quiet.
Qed.

Section run_lemmas.
Context {R DB F : Type} `{RemoteFS R} `{BoltLaws DB} `{Fsnotify F} `{Env}.
Abbreviation S := (JournalStore DB).
Abbreviation W := (World R S).
Abbreviation U := (Running R S F).
Variable doublestar_Match : string -> string -> bool.
Variable ag : Agent.
Variable ce : ControlEnv R.
Abbreviation step := (run_do doublestar_Match ag ce).
Abbreviation run := (run_all doublestar_Match ag ce).
Implicit Type u : U.

(** *** The watcher inside the agent *)

Lemma loop_ok_world w (l : Loop R S F) :
  loop_ok (ag_watch ag) doublestar_Match l -> loop_ok (ag_watch ag) doublestar_Match (loop_world w l).
Proof. intros [[] K2 K3 K4 K5]. by constructor. Qed.

Lemma engine_ok_world (w : W) e : engine_ok ag e -> engine_ok ag (set_world w e).
Proof. intros ([] & Hf & []). split_and!; [by constructor|done|by constructor]. Qed.

Lemma engine_ok_paused v (e : Engine R S) : engine_ok ag e -> engine_ok ag (set_paused v e).
Proof. intros Hk. by apply (engine_step_ok ag (APause v) e). Qed.

(** The echo guard only reads. *)
Lemma suppress_quiet path op : quiet (R := R) (suppressSelfInduced (S := S) (watch_store ag) path op).
Proof.
  unfold suppressSelfInduced, watch_store. destruct (_ || _); [|apply quiet_ret].
  unfold isSelfInduced. apply quiet_bind; [apply store_guard_quiet|]. intros [rec|]; solve_quiet.
Qed.

(** After [Start] has returned only timers' goroutines are left, and they only
    read. *)
Lemma returned_quiet a (l l' : Loop R S F) r :
  lp_result l = Some r -> match a with LReceive | LOutside _ => False | _ => True end ->
  loop_do (ag_watch ag) doublestar_Match (watch_store ag) a l = Some l' ->
  lp_result l' = Some r /\ same_data (lp_world l) (lp_world l').
Proof.
  intros Hr Ha Hd. destruct a; try done; cbn [loop_do] in Hd; unfold eventLoop in Hd; try rewrite Hr in Hd; try done.
  - unfold debouncer_fires in Hd. destruct (timer_fires _ _); [|done]. by injection Hd as <-.
  - unfold deb_take in Hd. destruct (timer_callback _ _) as [[]|]; [|done]. by injection Hd as <-.
  - unfold pair_take in Hd. destruct (p_armed _ !! _) as [[]|]; [|done]. destruct (_ <=? _); [|done].
    destruct (expireRename _ _). by injection Hd as <-.
  - unfold hand_on in Hd. destruct (lp_held l !! k) as [[ev|ev]|]; [| |done]; injection Hd as <-.
    + pose proof (suppress_quiet (we_Path ev) (we_Op ev) (lp_world l)) as Hq.
      unfold run_handler, fireEvent, st_bind, in_world.
      by destruct (suppressSelfInduced _ _ _ _) as [[] w1].
    + done.
  - by injection Hd as <-.
Qed.

(** *** The invariant *)

(** Everything the wait group counts has returned. *)
Definition group_done (u : U) : Prop :=
  lp_result (ru_loop u) <> None /\ ru_pump u = PumpDone /\ goroutines_done (ru_engine u) /\ ru_sighup u = false.

(** Events reach the engine in the order of the channel, each at most once. *)
Definition chained (u : U) : Prop :=
  exists passed, lp_received (ru_loop u) = passed ++ pump_items (ru_pump u) /\
    e_accepted (ru_engine u) `sublist_of` map (to_item (c_LocalRoot (ag_cfg ag))) passed.

Record run_ok (u : U) : Prop := {
  rk_engine : engine_ok ag (ru_engine u);
  rk_loop : loop_ok (ag_watch ag) doublestar_Match (ru_loop u);
  rk_chain : chained u;
  rk_signal : ru_phase u <> Serving -> e_canceled (ru_engine u) = true /\ ru_listening u = false;
  rk_drained : ru_drained u = true -> no_repairs (ru_engine u) /\ ru_listening u = false;
  rk_group : (3 <= rank (ru_phase u))%nat -> group_done u;
  rk_mqtt : (4 <= rank (ru_phase u))%nat -> forall s, ru_mqtt u = Some s -> cl_closed (fst s) = true;
  rk_open : ru_open u = negb (rank (ru_phase u) =? 5)%nat;
}.

(** Case analysis of one step. *)
Ltac run_cases Hs :=
  unfold run_do, engine_step, watch_step, pump_take, watch_do, pump_check, pump_send, pump_drop, pump_stop, sighup_reload,
    sighup_stop, mqtt_step, listen_fails, run_shutdown, run_drained, run_drain_timeout, run_wait, run_disconnect,
    run_close in Hs;
  repeat match type of Hs with
  | context [match ?x with _ => _ end] =>
      lazymatch x with context [match _ with _ => _ end] => fail | _ => destruct x eqn:? end
  end;
  try discriminate Hs; injection Hs as <-.

Lemma all_returned_spec u : all_returned u = true <-> group_done u.
Proof.
  unfold all_returned, group_done, goroutines_done. rewrite !andb_true_iff, forallb_forall, List.Forall_forall. split.
  - intros (((((H1' & H2') & (H3' & H4') & H5') & H6') & H7') & H8'). split_and!; try done.
    + by destruct (lp_result _).
    + by destruct (ru_pump u).
    + intros x Hx. specialize (H5' x Hx). by destruct x.
    + by destruct (e_poll _).
    + by destruct (e_sync _).
    + by destruct (ru_sighup u).
  - intros (H1' & -> & (H2' & H3' & H4' & -> & ->) & ->). split_and!; try done.
    + by destruct (lp_result (ru_loop u)).
    + intros x Hx. by rewrite (H4' x Hx).
Qed.

(** *** Every step keeps it *)

Lemma engine_action_ok a u e :
  run_ok u -> engine_do ag a (ru_engine u) = Some e -> is_dispatch a = false ->
  (is_request a = true -> ru_listening u = true) -> run_ok (set_engine e u).
Proof.
  intros [K1 K2 (passed & P1 & P2) K4 K5 K6 K7 K8] Hs Hd Hq. destruct (flags_step ag a _ e Hs) as (F1 & _ & _).
  constructor; try done.
  - by apply (engine_step_ok ag a (ru_engine u)).
  - exists passed. split; [done|]. cbn. by rewrite (accepted_step ag a _ e Hs Hd).
  - intros Hp. destruct (K4 Hp) as [Hc Hl]. split; [by apply F1|done].
  - intros Hr. destruct (K5 Hr) as [Hn Hl]. split; [|done]. apply (no_repairs_step ag a _ e Hn); [|done].
    apply not_true_iff_false. intros Hx. apply Hq in Hx. congruence.
  - intros Hr. destruct (K6 Hr) as (G1 & G2 & G3 & G4). split_and!; try done. by apply (done_step ag a _ e G3).
Qed.

(** The pump alone takes events out of the channel. *)
Lemma loop_received a (l l' : Loop R S F) :
  loop_do (ag_watch ag) doublestar_Match (watch_store ag) a l = Some l' -> a <> LReceive ->
  lp_received l' = lp_received l.
Proof.
  assert (forall m (l : Loop R S F), lp_received (run_handler m l) = lp_received l) as Hm
    by (intros m l0; unfold run_handler; by destruct (m _) as [? []]).
  intros Hd Ha. destruct a; try done; cbn [loop_do] in Hd; unfold eventLoop in Hd;
    try (destruct (lp_result l); [discriminate Hd|]).
  1-4: injection Hd as <-; try done; cbn; apply Hm.
  - unfold debouncer_fires in Hd. destruct (timer_fires _ _); [|done]. by injection Hd as <-.
  - unfold deb_take in Hd. destruct (timer_callback _ _) as [[]|]; [|done]. by injection Hd as <-.
  - unfold pair_take in Hd. destruct (p_armed _ !! _) as [[]|]; [|done]. destruct (_ <=? _); [|done].
    destruct (expireRename _ _). by injection Hd as <-.
  - unfold hand_on in Hd. destruct (lp_held l !! k); [|done]. injection Hd as <-. cbn. apply Hm.
  - by injection Hd as <-.
  - by injection Hd as <-.
Qed.

Lemma watch_action_ok a u l :
  run_ok u -> a <> LReceive -> (forall fs, a <> LOutside fs) ->
  loop_do (ag_watch ag) doublestar_Match (watch_store ag) a (loop_world (e_world (ru_engine u)) (ru_loop u)) = Some l ->
  run_ok (set_engine (set_world (lp_world l) (ru_engine u)) (set_loop l u)).
Proof.
  intros [K1 K2 (passed & P1 & P2) K4 K5 K6 K7 K8] Ha Ho Hd. constructor; try done.
  - by apply engine_ok_world.
  - by destruct (step_sound _ _ _ _ _ _ (loop_ok_world (e_world (ru_engine u)) _ K2) Hd).
  - exists passed. split; [|done]. cbn. rewrite (loop_received _ _ _ Hd Ha). done.
  - intros Hr. destruct (K6 Hr) as (G1 & G2 & G3 & G4). split_and!; try done. cbn.
    destruct (lp_result (ru_loop u)) as [r|] eqn:Er; [|done].
    destruct (returned_quiet a (loop_world (e_world (ru_engine u)) (ru_loop u)) l r) as [-> _]; [done| |done|done].
    destruct a; try done. by destruct (Ho fs).
Qed.

Lemma take_ok u we q :
  run_ok u -> ru_pump u = PumpWaits -> ws_events (lp_ws (ru_loop u)) = we :: q ->
  exists l, watch_do doublestar_Match ag LReceive u = Some (set_engine (set_world (e_world (ru_engine u)) (ru_engine u)) (set_loop l u)) /\
    lp_result l = lp_result (ru_loop u) /\ ws_events (lp_ws l) = q /\ lp_received l = lp_received (ru_loop u) ++ [we] /\
    loop_ok (ag_watch ag) doublestar_Match l.
Proof.
  intros Hk Hp Hq. unfold watch_do. cbn [loop_do]. unfold receive. cbn [loop_world lp_ws]. rewrite Hq.
  eexists. split; [reflexivity|]. split_and!; try done.
  eapply receive_sound; [by apply (loop_ok_world (e_world (ru_engine u))), rk_loop|].
  unfold receive. cbn [loop_world lp_ws]. by rewrite Hq.
Qed.

(** A pump that lets go of its event has passed it. *)
Lemma pump_action_ok u p e :
  run_ok u -> engine_ok ag e -> ru_pump u <> PumpDone ->
  (e_canceled (ru_engine u) = true -> e_canceled e = true) -> (no_repairs (ru_engine u) -> no_repairs e) ->
  (exists passed, lp_received (ru_loop u) = passed ++ pump_items p /\
     e_accepted e `sublist_of` map (to_item (c_LocalRoot (ag_cfg ag))) passed) ->
  run_ok (set_pump p (set_engine e u)).
Proof.
  intros [K1 K2 K3 K4 K5 K6 K7 K8] He Hp Hc Hn Hch. constructor; try done.
  - intros Hx. destruct (K4 Hx). auto.
  - intros Hx. destruct (K5 Hx). auto.
  - intros Hx. destruct (K6 Hx) as (_ & G & _). done.
Qed.

Lemma set_engine_same u : set_engine (ru_engine u) u = u.
Proof. by destruct u as [[]]. Qed.

(** The pump keeps its event or drops it. *)
Lemma pump_move_ok u held p :
  run_ok u -> ru_pump u <> PumpDone -> pump_items (ru_pump u) = held -> pump_items p = [] \/ pump_items p = held ->
  run_ok (set_pump p u).
Proof.
  intros Hk Hp Hh Hi. pose proof (pump_action_ok u p (ru_engine u) Hk (rk_engine u Hk) Hp) as Ha.
  rewrite set_engine_same in Ha. apply Ha; try done. clear Ha.
  destruct (rk_chain u Hk) as (passed & P1 & P2). rewrite Hh in P1. destruct Hi as [->| ->]; [|by exists passed].
  exists (passed ++ held). rewrite app_nil_r. split; [done|]. rewrite map_app. by apply sublist_inserts_r.
Qed.

Lemma send_ok u we e :
  run_ok u -> ru_pump u = PumpSends we -> dispatchWatchEvent ag we (set_paused false (ru_engine u)) = Some e ->
  run_ok (set_pump PumpWaits (set_engine (set_paused (e_paused (ru_engine u)) e) u)).
Proof.
  intros Hk Hp Hd. destruct (dispatch_accepts ag we _ e Hd) as (_ & D2 & D3 & _).
  apply pump_action_ok; [done| |congruence| | |].
  - apply engine_ok_paused. eapply (engine_step_ok ag (ADispatch we)); [|exact Hd]. by apply engine_ok_paused, rk_engine.
  - intros Hc. cbn. by rewrite D2.
  - intros Hn. by apply (no_repairs_step ag (ADispatch we) (set_paused false (ru_engine u)) e Hn).
  - destruct (rk_chain u Hk) as (passed & P1 & P2). rewrite Hp in P1. exists (passed ++ [we]). cbn. rewrite app_nil_r.
    split; [done|]. rewrite D3, map_app. cbn. by apply sublist_app.
Qed.

Lemma closed_stays op (s : MqttState) :
  cl_closed (fst s) = true -> cl_closed (fst (snd (mqtt_do op s))) = true.
Proof.
  destruct s as [c calls]. intros Hc. destruct op as [topic qos retain p|topic j| |k d|open]; cbn in *.
  - unfold Client_Publish, st_bind. destruct (toBytes p); done.
  - unfold Client_PublishJSON, Client_Publish, st_bind. destruct (json_Marshal_value j); done.
  - done.
  - unfold settle, on_client. cbn. destruct (cl_waits c !! k) as [[]|], d; done.
  - unfold Close, the_client, st_bind. cbn. by rewrite Hc.
Qed.

Lemma close_closes open (s : MqttState) : cl_closed (fst (snd (Close open s))) = true.
Proof.
  destruct s as [c calls]. unfold Close, the_client, st_bind. cbn. destruct (cl_closed c) eqn:E; [done|].
  by destruct open.
Qed.

Lemma take_run u u' : run_ok u -> pump_take doublestar_Match ag u = Some u' ->
  exists we q l, ru_pump u = PumpWaits /\ ws_events (lp_ws (ru_loop u)) = we :: q /\
    u' = set_pump (PumpHas we) (set_engine (set_world (e_world (ru_engine u)) (ru_engine u)) (set_loop l u)) /\
    lp_result l = lp_result (ru_loop u) /\ ws_events (lp_ws l) = q /\ lp_received l = lp_received (ru_loop u) ++ [we] /\
    loop_ok (ag_watch ag) doublestar_Match l.
Proof.
  intros Hk Hs. unfold pump_take in Hs. destruct (ru_pump u) eqn:Ep; try done.
  destruct (ws_events (lp_ws (ru_loop u))) as [|we q] eqn:Eq; [done|].
  destruct (take_ok u we q Hk Ep Eq) as (l & E & L1 & L2 & L3 & L4). rewrite E in Hs. injection Hs as <-.
  by exists we, q, l.
Qed.

(** Reloading leaves the engine alone. *)
Lemma reload_engine (c : ControlState R S) : co_engine (snd (Reload ce c)) = co_engine c.
Proof. unfold Reload. by destruct (ce_config ce). Qed.

Lemma reload_ok u : run_ok u -> run_ok (set_control (snd (Reload ce (ru_control u))) u).
Proof.
  pose proof (reload_engine (ru_control u)) as He.
  intros [K1 K2 K3 K4 K5 K6 K7 K8]. constructor; unfold chained, group_done, ru_engine, set_control in *;
    cbn [ru_control ru_loop ru_pump ru_sighup ru_mqtt ru_listening ru_phase ru_open ru_drained] in *; by rewrite ?He.
Qed.

(** The steps of [Run] itself. *)
Definition phase_action (a : run_action (R := R)) : bool :=
  match a with RShutdown | RDrained | RDrainTimeout | RWait | RDisconnect _ | RCloseStore => true | _ => false end.

Lemma shutdownStore_world u :
  exists w, shutdownStore u = set_open false (set_engine (set_world w (ru_engine u)) u).
Proof. unfold shutdownStore, on_world. destruct (on_store _ _) as [r w]. by exists w. Qed.

Lemma phase_step_ok a u u' : phase_action a = true -> run_ok u -> step a u = Some u' -> run_ok u'.
Proof.
  intros Ha Hk Hs. destruct a; try done; unfold run_do, run_shutdown, run_drained, run_drain_timeout, run_wait,
    run_disconnect, run_close in Hs; destruct (ru_phase u) eqn:Ep; try done;
    destruct Hk as [K1 K2 K3 K4 K5 K6 K7 K8]; rewrite Ep in *; cbn [rank] in *.
  - destruct (e_canceled _) eqn:Ec; [|done]. injection Hs as <-. constructor; try done; cbn; try lia.
    intros Hx. by destruct (K5 Hx).
  - destruct (forallb _ _) eqn:Ef; [|done]. injection Hs as <-. destruct K4 as [C1 C2]; [done|].
    constructor; try done; cbn; try lia. intros _. split; [|done]. apply List.Forall_forall. intros x Hx.
    rewrite forallb_forall in Ef. specialize (Ef x Hx). by destruct x.
  - injection Hs as <-. destruct K4 as [C1 C2]; [done|]. constructor; try done; cbn; lia.
  - destruct (all_returned u) eqn:Er; [|done]. injection Hs as <-. apply all_returned_spec in Er.
    destruct K4 as [C1 C2]; [done|]. constructor; try done; cbn; lia.
  - injection Hs as <-. destruct K4 as [C1 C2]; [done|]. destruct K6 as (G1 & G2 & G3 & G4); [lia|].
    destruct (ru_mqtt u) as [s|] eqn:Em; constructor; try done; cbn; intros _ s' Hs'; [|congruence].
    injection Hs' as <-. apply close_closes.
  - injection Hs as <-. destruct K4 as [C1 C2]; [done|]. destruct K6 as (G1 & G2 & G3 & G4); [lia|].
    destruct (shutdownStore_world u) as [w ->].
    constructor; try done; [by apply engine_ok_world|]. intros _. apply K7. lia.
Qed.

Lemma run_step_ok a u u' : run_ok u -> step a u = Some u' -> run_ok u'.
Proof.
  intros Hk Hs. destruct a as [a|a| | | | | | | |op| | | | | |open|].
  - unfold run_do, engine_step in Hs. destruct (match a with ADispatch _ => false | _ => _ end) eqn:Ea; [|done].
    destruct (engine_do ag a (ru_engine u)) as [e|] eqn:E; [|done]. injection Hs as <-.
    apply (engine_action_ok a u e Hk E); [by destruct a|]. intros Hq. by destruct a.
  - assert (watch_do doublestar_Match ag a u = Some u' /\ a <> LReceive /\ forall fs, a <> LOutside fs) as (Hw & H1' & H2').
    { destruct a; unfold run_do, watch_step in Hs; try done.
      repeat match type of Hs with context [match ?x with _ => _ end] => destruct x; try done end. }
    unfold watch_do in Hw. destruct (loop_do _ _ _ a _) as [l|] eqn:E; [|done]. injection Hw as <-.
    by apply (watch_action_ok a u l Hk).
  - destruct (take_run u u' Hk Hs) as (we & q & l & Ep & _ & -> & L1 & _ & L3 & L4).
    destruct Hk as [K1 K2 (passed & P1 & P2) K4 K5 K6 K7 K8]. constructor; try done.
    + by apply engine_ok_world.
    + exists passed. cbn. split; [|done]. rewrite L3, P1, Ep. by rewrite app_nil_r.
    + intros Hx. destruct (K6 Hx) as (_ & G & _). congruence.
  - cbn in Hs. unfold pump_check in Hs. destruct (ru_pump u) as [|we| |] eqn:Ep; try done. injection Hs as <-.
    apply (pump_move_ok u [we]); [done|congruence|by rewrite Ep|]. destruct (e_paused _); [by left|by right].
  - cbn in Hs. unfold pump_send in Hs. destruct (ru_pump u) as [| |we|] eqn:Ep; try done.
    destruct (dispatchWatchEvent _ _ _) as [e|] eqn:E; [|done]. injection Hs as <-. by apply (send_ok u we e).
  - cbn in Hs. unfold pump_drop in Hs. destruct (ru_pump u) as [| |we|] eqn:Ep; try done.
    destruct (e_canceled _) eqn:Ec; [|done]. injection Hs as <-. apply (pump_move_ok u [we]); [done|congruence|by rewrite Ep|by left].
  - cbn in Hs. unfold pump_stop in Hs. destruct (ru_pump u) as [| |we|] eqn:Ep; try done.
    destruct (e_canceled _) eqn:Ec; [|done]. injection Hs as <-. apply (pump_move_ok u []); [done|congruence|by rewrite Ep|by left].
  - cbn in Hs. unfold sighup_reload in Hs. destruct (ru_sighup u); [|done]. injection Hs as <-. by apply reload_ok.
  - cbn in Hs. unfold sighup_stop in Hs. destruct (_ && _); [|done]. injection Hs as <-.
    destruct Hk as [K1 K2 K3 K4 K5 K6 K7 K8]. constructor; try done. intros Hx. by destruct (K6 Hx) as (G1 & G2 & G3 & _).
  - cbn in Hs. unfold mqtt_step in Hs. destruct (ru_mqtt u) as [s|] eqn:Em; [|by destruct op].
    assert (u' = set_mqtt (Some (snd (mqtt_do op s))) u) as -> by (destruct op; try done; by injection Hs as <-).
    destruct Hk as [K1 K2 K3 K4 K5 K6 K7 K8]. constructor; try done.
    intros Hx s' Hs'. injection Hs' as <-. apply closed_stays. by apply K7.
  - cbn in Hs. unfold listen_fails in Hs. destruct (ru_phase u) eqn:Ep; try done. destruct (ru_listening u); [|done].
    injection Hs as <-. destruct Hk as [K1 K2 K3 K4 K5 K6 K7 K8]. constructor; try done; cbn; try (rewrite Ep; done).
    intros Hx. by destruct (K5 Hx).
  - by apply (phase_step_ok RShutdown u u').
  - by apply (phase_step_ok RDrained u u').
  - by apply (phase_step_ok RDrainTimeout u u').
  - by apply (phase_step_ok RWait u u').
  - by apply (phase_step_ok (RDisconnect open) u u').
  - by apply (phase_step_ok RCloseStore u u').
Qed.

Lemma run_ok_run acts u u' : run_ok u -> run acts u = Some u' -> run_ok u'.
Proof.
  revert u. induction acts as [|a acts IH]; intros u Hk Hr; [by injection Hr as <-|].
  cbn in Hr. destruct (step a u) as [u1|] eqn:Ea; [|done]. eauto using run_step_ok.
Qed.

(** *** The start *)

Lemma run_start_ok w deb window fsw t pst bst mq n level :
  run_ok (run_start doublestar_Match ag w (mkWatcherState (newDebouncer deb t) (newPairer window) (fsw : F) [] false)
    pst bst mq n level).
Proof.
  constructor; try done; cbn; try lia.
  - apply engine_start_ok.
  - apply start_ok.
  - exists []. split; [|by constructor]. cbn. unfold loop_start. by destruct (initialWalk _ _ _) as [? []].
Qed.

(** *** The steps run out *)

Lemma work_left_world (w : W) e : work_left (set_world w e) = work_left e.
Proof. done. Qed.

Lemma work_left_paused v (e : Engine R S) : work_left (set_paused v e) = work_left e.
Proof. done. Qed.

(** The select's last step. *)
Lemma ctx_done_step err u u' : step (RWatch (LCtxDone err)) u = Some u' ->
  e_canceled (ru_engine u) = true /\ lp_result (ru_loop u) = None /\
  exists l, u' = set_engine (set_world (lp_world l) (ru_engine u)) (set_loop l u) /\ lp_result l <> None /\
    ws_events (lp_ws l) = ws_events (lp_ws (ru_loop u)).
Proof.
  unfold run_do, watch_step. intros Hs. destruct err as [s1| | |]; try done. destruct s1; try done.
  destruct (e_canceled _); [|done]. split; [done|]. unfold watch_do in Hs. cbn [loop_do] in Hs. unfold eventLoop in Hs.
  cbn [loop_world lp_result] in Hs. destruct (lp_result (ru_loop u)); [done|]. split; [done|].
  injection Hs as <-.
  exists (set_result (Err (ESent ErrCanceled)) (run_handler Stop (loop_world (e_world (ru_engine u)) (ru_loop u)))).
  split; [done|]. split; [done|]. cbn. by destruct (ws_stopped _).
Qed.

Ltac ru :=
  unfold ru_engine in *; cbn [ru_control ru_loop ru_pump ru_sighup ru_mqtt ru_listening ru_phase ru_open ru_drained co_engine
    set_engine set_control set_loop set_pump set_mqtt set_listening set_phase set_drained rank pump_work length] in *.

Lemma own_decreases a u u' :
  run_ok u -> own_step a = true -> step a u = Some u' -> (steps_left u' < steps_left u)%nat.
Proof.
  intros Hk Ha Hs. unfold steps_left. destruct a as [a|a| | | | | | | |op| | | | | |open|]; try done.
  - unfold run_do, engine_step in Hs. destruct (match a with ADispatch _ => false | _ => _ end); [|done].
    destruct (engine_do ag a (ru_engine u)) as [e|] eqn:E; [|done]. injection Hs as <-.
    pose proof (internal_decreases ag a _ e Ha E). ru. lia.
  - destruct a; try done. destruct (ctx_done_step _ u u' Hs) as (_ & Er & l & -> & El & Ee). ru.
    rewrite Er, Ee, work_left_world. destruct (lp_result l); [lia|done].
  - destruct (take_run u u' Hk Hs) as (we & q & l & Ep & Eq & -> & L1 & L2 & _). ru.
    rewrite Ep, Eq, L1, L2, work_left_world. ru. lia.
  - cbn in Hs. unfold pump_check in Hs. destruct (ru_pump u) eqn:Ep; try done. injection Hs as <-. ru.
    destruct (e_paused _); ru; lia.
  - cbn in Hs. unfold pump_send in Hs. destruct (ru_pump u) as [| |we|] eqn:Ep; try done.
    destruct (dispatchWatchEvent _ _ _) as [e|] eqn:E; [|done]. injection Hs as <-.
    destruct (dispatch_accepts ag we _ e E) as (_ & _ & _ & Hw). rewrite work_left_paused in Hw. ru.
    rewrite work_left_paused. lia.
  - cbn in Hs. unfold pump_drop in Hs. destruct (ru_pump u) eqn:Ep; try done. destruct (e_canceled _); [|done].
    injection Hs as <-. ru. lia.
  - cbn in Hs. unfold pump_stop in Hs. destruct (ru_pump u) eqn:Ep; try done. destruct (e_canceled _); [|done].
    injection Hs as <-. ru. lia.
  - cbn in Hs. unfold sighup_stop in Hs. destruct (ru_sighup u); [|by rewrite andb_false_r in Hs].
    destruct (_ && _); [|done]. injection Hs as <-. ru. lia.
  - cbn in Hs. unfold run_shutdown in Hs. destruct (ru_phase u); try done. destruct (e_canceled _); [|done].
    injection Hs as <-. ru. lia.
  - cbn in Hs. unfold run_drained in Hs. destruct (ru_phase u); try done. destruct (forallb _ _); [|done].
    injection Hs as <-. ru. lia.
  - cbn in Hs. unfold run_drain_timeout in Hs. destruct (ru_phase u); try done. injection Hs as <-. ru. lia.
  - cbn in Hs. unfold run_wait in Hs. destruct (ru_phase u); try done. destruct (all_returned _); [|done].
    injection Hs as <-. ru. lia.
  - cbn in Hs. unfold run_disconnect in Hs. destruct (ru_phase u); try done. injection Hs as <-.
    destruct (ru_mqtt u); ru; lia.
  - cbn in Hs. unfold run_close in Hs. destruct (ru_phase u); try done. injection Hs as <-.
    destruct (shutdownStore_world u) as [w ->]. unfold set_open. ru. rewrite work_left_world. lia.
Qed.

Lemma own_run_bounded own u u' :
  run_ok u -> Forall (fun a => own_step a = true) own -> run own u = Some u' -> (length own <= steps_left u)%nat.
Proof.
  revert u. induction own as [|a own IH]; intros u Hk Ho Hr; cbn [run_all length] in *; [lia|].
  apply Forall_cons in Ho as [Ha Ho]. destruct (step a u) as [u1|] eqn:E1; [|done].
  pose proof (own_decreases a u u1 Hk Ha E1). pose proof (IH u1 (run_step_ok a u u1 Hk E1) Ho Hr). lia.
Qed.

(** When nothing is left to do after the signal, [Run] has returned. *)
Definition halted u : Prop := forall a, own_step a = true -> step a u = None.

Lemma halted_engine u : halted u -> stuck ag (ru_engine u).
Proof.
  intros Hh a Ha. specialize (Hh (REngine a) Ha). unfold run_do, engine_step in Hh.
  destruct a; try done; cbn [is_request] in Hh; by destruct (engine_do ag _ (ru_engine u)).
Qed.

Lemma halted_watcher u : halted u -> e_canceled (ru_engine u) = true -> lp_result (ru_loop u) <> None.
Proof.
  intros Hh Hc Hr. specialize (Hh (RWatch (LCtxDone (ESent ErrCanceled))) eq_refl).
  unfold run_do, watch_step, watch_do in Hh. rewrite Hc in Hh. cbn [loop_do] in Hh. unfold eventLoop in Hh.
  cbn [loop_world lp_result] in Hh. by rewrite Hr in Hh.
Qed.

Lemma halted_pump u : halted u -> e_canceled (ru_engine u) = true -> ru_pump u = PumpDone.
Proof.
  intros Hh Hc. pose proof (Hh RPumpCheck eq_refl) as H1'. pose proof (Hh RPumpDrop eq_refl) as H2'.
  pose proof (Hh RPumpStop eq_refl) as H3'. unfold run_do, pump_check, pump_drop, pump_stop in *.
  rewrite Hc in H2', H3'. by destruct (ru_pump u).
Qed.

Lemma halted_group u : run_ok u -> halted u -> e_canceled (ru_engine u) = true -> group_done u.
Proof.
  intros Hk Hh Hc. destruct (rk_engine u Hk) as (Hlock & _ & Hlife). pose proof (halted_engine u Hh) as Hst.
  destruct (stuck_rest ag _ Hlock Hlife Hst) as (_ & Hp & Hs & _ & Hw).
  destruct (stuck_canceled ag _ Hst Hp Hs Hw Hc) as (S1 & S2 & _ & S4 & S5 & S6).
  split_and!; [by apply halted_watcher|by apply halted_pump|by split_and!|].
  specialize (Hh RSighupStop eq_refl). unfold run_do, sighup_stop in Hh. rewrite Hc in Hh. by destruct (ru_sighup u).
Qed.

Lemma halted_returned u : run_ok u -> halted u -> e_canceled (ru_engine u) = true -> ru_phase u = Returned.
Proof.
  intros Hk Hh Hc. pose proof (proj2 (all_returned_spec u) (halted_group u Hk Hh Hc)) as Hg.
  pose proof (Hh RShutdown eq_refl) as H1'. pose proof (Hh RDrainTimeout eq_refl) as H2'.
  pose proof (Hh RWait eq_refl) as H3'. pose proof (Hh (RDisconnect true) eq_refl) as H4'.
  pose proof (Hh RCloseStore eq_refl) as H5'.
  unfold run_do, run_shutdown, run_drain_timeout, run_wait, run_disconnect, run_close in *. rewrite Hc in H1'.
  rewrite Hg in H3'. by destruct (ru_phase u).
Qed.

(** The steps of [Run] leave the pump, the watcher and the queues alone. *)
Lemma phase_engine a u u' : phase_action a = true -> step a u = Some u' ->
  ru_loop u' = ru_loop u /\ ru_pump u' = ru_pump u /\ exists w, ru_engine u' = set_world w (ru_engine u).
Proof.
  assert (exists w, ru_engine u = set_world w (ru_engine u)) as Hw by (exists (e_world (ru_engine u)); by destruct (ru_engine u)).
  intros Ha Hs. destruct a; try done; cbn [run_do] in Hs; unfold run_shutdown, run_drained, run_drain_timeout, run_wait,
    run_disconnect, run_close in Hs; destruct (ru_phase u); try done.
  1, 2, 4: by (destruct (e_canceled _) || destruct (forallb _ _) || destruct (all_returned u));
    try discriminate Hs; injection Hs as <-.
  - by injection Hs as <-.
  - injection Hs as <-. by destruct (ru_mqtt u).
  - injection Hs as <-. destruct (shutdownStore_world u) as [w ->]. split_and!; try done. by exists w.
Qed.

(** The signal stays. *)
Lemma canceled_step a u u' : run_ok u -> step a u = Some u' ->
  e_canceled (ru_engine u) = true -> e_canceled (ru_engine u') = true.
Proof.
  intros Hk Hs Hc. destruct (phase_action a) eqn:Ea.
  { destruct (phase_engine a u u' Ea Hs) as (_ & _ & w & ->). done. }
  destruct a as [a|a| | | | | | | |op| | | | | |open|]; try done; cbn [run_do] in Hs.
  - unfold engine_step in Hs. destruct (match a with ADispatch _ => false | _ => _ end); [|done].
    destruct (engine_do ag a (ru_engine u)) as [e|] eqn:E; [|done]. injection Hs as <-. by apply (flags_step ag a _ e E).
  - run_cases Hs; done.
  - destruct (take_run u u' Hk Hs) as (we & q & l & _ & _ & -> & _). done.
  - run_cases Hs; done.
  - unfold pump_send in Hs. destruct (ru_pump u); try done. destruct (dispatchWatchEvent _ _ _) as [e|] eqn:E; [|done].
    injection Hs as <-. destruct (dispatch_accepts ag _ _ e E) as (_ & D2 & _). cbn. by rewrite D2.
  - run_cases Hs; done.
  - run_cases Hs; done.
  - unfold sighup_reload in Hs. destruct (ru_sighup u); [|done]. injection Hs as <-. unfold ru_engine.
    cbn [set_control ru_control]. by rewrite reload_engine.
  - run_cases Hs; done.
  - run_cases Hs; done.
  - run_cases Hs; done.
Qed.

Lemma canceled_run acts u u' : run_ok u -> run acts u = Some u' ->
  e_canceled (ru_engine u) = true -> e_canceled (ru_engine u') = true.
Proof.
  revert u. induction acts as [|a acts IH]; intros u Hk Hr Hc; [by injection Hr as <-|].
  cbn in Hr. destruct (step a u) as [u1|] eqn:Ea; [|done]. eauto using run_step_ok, canceled_step.
Qed.

(** The own steps that can be enabled at all. *)
Definition own_candidates u : list (run_action (R := R)) :=
  let ws := seq 0 (length (pl_workers (e_pool (ru_engine u)))) in
  let ks := seq 0 (length (e_repairs (ru_engine u))) in
  map REngine ([AFanEvent; AFanRename; AFanEventDone; AFanRenameDone; AClose; APollAcquire; APollRun; APollStop;
    ASyncAnnounce; ASyncAcquire; ASyncPass; ASyncLeave; ASyncStop] ++
    map ATake ws ++ map ABegin ws ++ map AAcquire ws ++ map AFinish ws ++ map AExit ws ++
    map ARepairAnnounce ks ++ map ARepairAcquire ks ++ map ARepairRun ks) ++
  [RWatch (LCtxDone (ESent ErrCanceled)); RPumpTake; RPumpCheck; RPumpSend; RPumpDrop; RPumpStop; RSighupStop; RShutdown;
   RDrained; RDrainTimeout; RWait; RDisconnect true; RCloseStore].

Ltac listed := repeat first [apply list_elem_of_here | apply list_elem_of_further].

Lemma candidates_own u : Forall (fun a => own_step a = true) (own_candidates u).
Proof.
  unfold own_candidates. apply Forall_app. split; [|by repeat constructor].
  rewrite !map_app, !map_map, !Forall_app. split_and!.
  all: first [by repeat constructor|apply List.Forall_forall; by intros a (i & <- & _)%in_map_iff].
Qed.

Lemma worker_index (e : Engine R S) i x : get_worker i e = Some x -> i ∈ seq 0 (length (pl_workers (e_pool e))).
Proof. intros Hi. apply elem_of_seq. apply lookup_lt_Some in Hi. lia. Qed.

Lemma repair_index (e : Engine R S) k x : e_repairs e !! k = Some x -> k ∈ seq 0 (length (e_repairs e)).
Proof. intros Hi. apply elem_of_seq. apply lookup_lt_Some in Hi. lia. Qed.

Lemma engine_candidate a u e : internal a = true -> engine_do ag a (ru_engine u) = Some e -> REngine a ∈ own_candidates u.
Proof.
  intros Ha He. unfold own_candidates. apply elem_of_app. left. apply list_elem_of_fmap. exists a. split; [done|].
  assert (forall (f : nat -> action (R := R)) i l, i ∈ l -> f i ∈ map f l) as Hm
    by (intros f i l Hi; apply list_elem_of_fmap; by exists i).
  rewrite !elem_of_app. destruct a; try discriminate Ha;
    unfold engine_do, worker_take, worker_begin, worker_acquire, worker_finish, worker_exit, repair_announce,
      repair_acquire, repair_run in He.
  all: try solve [left; listed].
  all: right.
  all: repeat match type of He with
    | context [match get_worker ?i ?e with _ => _ end] =>
        let E := fresh in destruct (get_worker i e) eqn:E; [apply worker_index in E|done]
    | context [match e_repairs ?e !! ?k with _ => _ end] =>
        let E := fresh in destruct (e_repairs e !! k) eqn:E; [apply repair_index in E|done]
    end; auto 12.
Qed.

(** Those that are not the engine's or the watcher's. *)
Lemma plain_candidate a u u' : own_step a = true -> step a u = Some u' ->
  match a with REngine _ | RWatch _ | RDisconnect false => False | _ => True end ->
  a ∈ own_candidates u /\ own_step a = true /\ step a u = Some u'.
Proof.
  intros Ha Hs Hp. split_and!; [|done|done]. apply elem_of_app. right.
  destruct a as [| | | | | | | | | | | | | | |[]|]; try done; listed.
Qed.

Lemma own_candidate a u u' : own_step a = true -> step a u = Some u' ->
  exists b u1, b ∈ own_candidates u /\ own_step b = true /\ step b u = Some u1.
Proof.
  intros Ha Hs. destruct a as [a|a| | | | | | | |op| | | | | |open|]; try discriminate Ha.
  - pose proof Hs as Hs'. unfold run_do, engine_step in Hs.
    destruct (match a with ADispatch _ => false | _ => _ end); [|done].
    destruct (engine_do ag a (ru_engine u)) as [e|] eqn:E; [|done].
    exists (REngine a), u'. split_and!; [by eapply engine_candidate|done|done].
  - destruct a; try discriminate Ha. exists (RWatch (LCtxDone (ESent ErrCanceled))), u'.
    split_and!; [apply elem_of_app; right; listed|done|].
    unfold run_do, watch_step in Hs |- *. destruct e as [s0| | |]; try discriminate Hs. by destruct s0.
  - exists RPumpTake, u'. by apply plain_candidate.
  - exists RPumpCheck, u'. by apply plain_candidate.
  - exists RPumpSend, u'. by apply plain_candidate.
  - exists RPumpDrop, u'. by apply plain_candidate.
  - exists RPumpStop, u'. by apply plain_candidate.
  - exists RSighupStop, u'. by apply plain_candidate.
  - exists RShutdown, u'. by apply plain_candidate.
  - exists RDrained, u'. by apply plain_candidate.
  - exists RDrainTimeout, u'. by apply plain_candidate.
  - exists RWait, u'. by apply plain_candidate.
  - assert (exists u1, step (RDisconnect true) u = Some u1) as [u1 E1].
    { unfold run_do, run_disconnect in Hs |- *. destruct (ru_phase u); try done. by eexists. }
    exists (RDisconnect true), u1. by apply plain_candidate.
  - exists RCloseStore, u'. by apply plain_candidate.
Qed.

Lemma halted_or_step u : halted u \/ exists a u', own_step a = true /\ step a u = Some u'.
Proof.
  destruct (decide (Exists (fun a => is_Some (step a u)) (own_candidates u))) as [Hex|Hno].
  - right. apply Exists_exists in Hex as (a & Hin & u' & Hs). exists a, u'. split; [|done].
    pose proof (candidates_own u) as Hf. rewrite Forall_forall in Hf. by apply Hf.
  - left. intros a Ha. destruct (step a u) as [u'|] eqn:E; [|done]. destruct Hno.
    destruct (own_candidate a u u' Ha E) as (b & u1 & Hin & _ & Hs). apply Exists_exists. exists b. by split.
Qed.

(** So after the signal there is always a way to the end. *)
Lemma returns u : run_ok u -> e_canceled (ru_engine u) = true ->
  exists own u', Forall (fun a => own_step a = true) own /\ run own u = Some u' /\ ru_phase u' = Returned.
Proof.
  remember (steps_left u) as n eqn:En. revert u En. induction (lt_wf n) as [n _ IH]. intros u -> Hk Hc.
  destruct (halted_or_step u) as [Hh|(a & u1 & Ha & Hs)]; [exists [], u; split_and!; auto using halted_returned|].
  destruct (IH (steps_left u1)) with (u := u1) as (own & u' & Ho & Hr & Hp);
    [by apply (own_decreases a)|done|by eapply run_step_ok|by eapply canceled_step|].
  exists (a :: own), u'. split_and!; [by constructor|cbn; by rewrite Hs|done].
Qed.

(** *** After the return *)

(** A change by somebody else. *)
Definition is_outside (a : run_action (R := R)) : bool := match a with REngine (AOutside _ _) => true | _ => false end.

Definition quiescent u : Prop :=
  run_ok u /\ ru_phase u = Returned /\ no_repairs (ru_engine u) /\ ru_listening u = false /\ group_done u.

Definition ru_data u : W := e_world (ru_engine u).

Lemma quiescent_step a u u' : quiescent u -> is_outside a = false -> step a u = Some u' ->
  quiescent u' /\ same_data (ru_data u) (ru_data u').
Proof.
  intros (Hk & Hp & Hn & Hl & Hg) Ho Hs. pose proof (run_step_ok a u u' Hk Hs) as Hk'.
  destruct Hg as (G1 & G2 & G3 & G4). destruct a as [a|a| | | | | | | |op| | | | | |open|];
    cbn [run_do] in Hs; unfold pump_take, pump_check, pump_send, pump_drop, pump_stop, sighup_reload, sighup_stop,
      mqtt_step, listen_fails, run_shutdown, run_drained, run_drain_timeout, run_wait, run_disconnect, run_close in Hs;
    rewrite ?Hp, ?G2, ?G4, ?andb_false_r in Hs; try done.
  - unfold engine_step in Hs. destruct (match a with ADispatch _ => false | _ => _ end) eqn:Ea; [|done].
    destruct (engine_do ag a (ru_engine u)) as [e|] eqn:E; [|done]. injection Hs as <-.
    assert (is_request a = false) as Hq by (destruct a; try done; cbn in Ea; congruence).
    split; [|apply (done_data ag a _ e G3 Hn E); intros fs r ->; done].
    split_and!; try done; [by apply (no_repairs_step ag a _ e Hn)|].
    split_and!; try done. by apply (done_step ag a _ e G3).
  - assert (watch_do doublestar_Match ag a u = Some u' /\ match a with LReceive | LOutside _ => False | _ => True end)
      as (Hw & Ha).
    { destruct a; unfold watch_step in Hs; try done.
      repeat match type of Hs with context [match ?x with _ => _ end] => destruct x; try done end. }
    unfold watch_do in Hw. destruct (loop_do _ _ _ a _) as [l|] eqn:E; [|done]. injection Hw as <-.
    destruct (lp_result (ru_loop u)) as [r|] eqn:Er; [|done].
    destruct (returned_quiet a (loop_world (e_world (ru_engine u)) (ru_loop u)) l r Er Ha E) as [Hr Hd].
    split; [|exact Hd]. split_and!; try done. split_and!; try done. cbn. by rewrite Hr.
  - destruct (ru_mqtt u) as [s|]; [|by destruct op].
    assert (u' = set_mqtt (Some (snd (mqtt_do op s))) u) as -> by (destruct op; try done; by injection Hs as <-).
    split; [|done]. by split_and!.
Qed.

Lemma quiescent_run acts u u' : quiescent u -> Forall (fun a => is_outside a = false) acts -> run acts u = Some u' ->
  same_data (ru_data u) (ru_data u').
Proof.
  revert u. induction acts as [|a acts IH]; intros u Hq Ho Hr; [by injection Hr as <-|].
  apply Forall_cons in Ho as [Ha Ho]. cbn in Hr. destruct (step a u) as [u1|] eqn:E; [|done].
  destruct (quiescent_step a u u1 Hq Ha E) as [Hq1 Hd]. etrans; [exact Hd|]. by apply IH.
Qed.

Lemma phase_frame a u u' : phase_action a = false -> step a u = Some u' ->
  ru_phase u' = ru_phase u /\ ru_drained u' = ru_drained u.
Proof.
  intros Ha Hs. destruct a; try done; run_cases Hs; try done.
Qed.

(** The journal is closed when [Run] has returned after a drained shutdown. *)
Definition sealed u : Prop := ru_drained u = true -> ru_phase u = Returned ->
  is_ok (bolt_begin (js_J (w_store (ru_data u)))) = false.

Lemma quiescent_of u : run_ok u -> ru_drained u = true -> ru_phase u = Returned -> quiescent u.
Proof.
  intros Hk Hd Hp. destruct (rk_drained u Hk Hd) as [Hn Hl]. split_and!; try done.
  apply (rk_group u Hk). rewrite Hp. cbn. lia.
Qed.

Lemma sealed_close u : is_ok (bolt_begin (js_J (w_store (ru_data (shutdownStore u))))) = false.
Proof.
  unfold shutdownStore, on_world, on_store, on_J, Journal_Close, ru_data, ru_engine.
  pose proof (bolt_close_begin (js_J (w_store (e_world (co_engine (ru_control u)))))) as Hc.
  by destruct (bolt_close _) as [r db].
Qed.

Lemma sealed_step a u u' : run_ok u -> sealed u -> step a u = Some u' -> sealed u'.
Proof.
  intros Hk Hsl Hs Hd Hp. destruct (phase_action a) eqn:Ea.
  - destruct a; try done; cbn [run_do] in Hs; unfold run_shutdown, run_drained, run_drain_timeout, run_wait,
      run_disconnect, run_close in Hs; destruct (ru_phase u); try done.
    1, 2, 4: by (destruct (e_canceled _) || destruct (forallb _ _) || destruct (all_returned u));
      try discriminate Hs; injection Hs as <-.
    + by injection Hs as <-.
    + injection Hs as <-. by destruct (ru_mqtt u).
    + injection Hs as <-. apply sealed_close.
  - destruct (phase_frame a u u' Ea Hs) as [E1 E2]. rewrite E1 in Hp. rewrite E2 in Hd.
    specialize (Hsl Hd Hp). pose proof (quiescent_of u Hk Hd Hp) as Hq.
    destruct (is_outside a) eqn:Eo.
    + destruct a as [[]| | | | | | | | | | | | | | | |]; try done. by injection Hs as <-.
    + destruct (quiescent_step a u u' Hq Eo Hs) as [_ (_ & _ & Ew)]. by rewrite Ew.
Qed.

Lemma sealed_run acts u u' : run_ok u -> sealed u -> run acts u = Some u' -> sealed u'.
Proof.
  revert u. induction acts as [|a acts IH]; intros u Hk Hsl Hr; [by injection Hr as <-|].
  cbn in Hr. destruct (step a u) as [u1|] eqn:Ea; [|done]. eauto using run_step_ok, sealed_step.
Qed.

(** *** What [newAgent] starts from *)

Lemma newAgent_parts cfg dry pub (fsw : result F) t ws pst bst :
  newAgent cfg dry pub fsw t = Ok (ag, ws, pst, bst) ->
  exists deb window f, ws = mkWatcherState (newDebouncer deb t) (newPairer window) f [] false.
Proof.
  unfold newAgent. intros Hn. destruct (New _) as [m|]; [|done]. cbn [wrap GoRuntime.map_err result_bind] in Hn.
  destruct (_ <? _); [done|]. unfold buildWatcher, NewWatcher in Hn. destruct (String.eqb _ ""); [done|].
  destruct fsw as [f|]; [|done]. cbn [wrap GoRuntime.map_err result_bind] in Hn.
  destruct (buildPuller _ _ _ _ _) as [pu p0]. destruct (buildBisync _ _ _ _ _) as [bi b0].
  destruct (buildHTTPServer _) as [http|]; [|done]. injection Hn as _ <- _ _. by eexists _, _, f.
Qed.

Lemma agent_run_ok cfg dry pub (fsw : result F) t ws pst bst w mq n level acts u :
  newAgent cfg dry pub fsw t = Ok (ag, ws, pst, bst) ->
  run acts (run_start doublestar_Match ag w ws pst bst mq n level) = Some u -> run_ok u /\ sealed u.
Proof.
  intros Hn Hr. destruct (newAgent_parts _ _ _ _ _ _ _ _ Hn) as (deb & window & f & ->).
  pose proof (run_start_ok w deb window f t pst bst mq n level) as Hs. split; [by eapply run_ok_run|].
  eapply sealed_run; [exact Hs| |exact Hr]. done.
Qed.

(** With nobody in its critical section the lock is free. *)
Lemma quiescent_lock u : quiescent u -> e_lock (ru_engine u) = mkRW 0 NoWriter.
Proof.
  intros (Hk & _ & Hn & _ & _ & _ & (_ & _ & Hw & Hp & Hs) & _). destruct (rk_engine u Hk) as ([K1 K2 K3 _] & _ & _).
  assert (forall f : seat bool -> nat, f Away = 0%nat -> sum_list_with f (e_repairs (ru_engine u)) = 0%nat) as Hz.
  { intros f Hf. unfold no_repairs in Hn. induction Hn as [|x l -> Hl IH]; [done|]. cbn. by rewrite Hf. }
  assert (sum_list_with reads (pl_workers (e_pool (ru_engine u))) = 0%nat) as Hr.
  { clear -Hw. induction Hw as [|x l -> Hl IH]; [done|exact IH]. }
  unfold readers_in, announced, held in *. rewrite Hs, (Hz seat_ann), (Hz seat_held) in * by done.
  rewrite Hr, Hp in K1. cbn in *. destruct (e_lock (ru_engine u)) as [rd []]; cbn in *; by subst.
Qed.

(** *** Without a pause *)

Definition run_pauses (a : run_action (R := R)) : bool := match a with REngine a => is_pause a | _ => false end.

(** While it runs and is not paused, the pump has handed on all it has
    received. *)
Definition handed_on u : Prop :=
  e_paused (ru_engine u) = false /\ (e_canceled (ru_engine u) = false ->
    map (to_item (c_LocalRoot (ag_cfg ag))) (lp_received (ru_loop u)) =
    e_accepted (ru_engine u) ++ map (to_item (c_LocalRoot (ag_cfg ag))) (pump_items (ru_pump u)) /\
    ru_pump u <> PumpDone).

Lemma handed_phase a u u' : phase_action a = true -> handed_on u -> step a u = Some u' -> handed_on u'.
Proof.
  intros Ha Hh Hs. destruct (phase_engine a u u' Ha Hs) as (E1 & E2 & w & E3).
  unfold handed_on. by rewrite E1, E2, E3.
Qed.

Lemma handed_step a u u' : run_ok u -> handed_on u -> run_pauses a = false -> step a u = Some u' -> handed_on u'.
Proof.
  intros Hk [H1' H2'] Ha Hs. destruct a as [a|a| | | | | | | |op| | | | | |open|]; cbn [run_do] in Hs.
  - unfold engine_step in Hs. destruct (match a with ADispatch _ => false | _ => _ end) eqn:Ea; [|done].
    destruct (engine_do ag a (ru_engine u)) as [e|] eqn:E; [|done]. injection Hs as <-.
    destruct (flags_step ag a _ e E) as (F1 & _ & F3). unfold handed_on, set_engine. ru. rewrite (F3 Ha).
    split; [done|]. intros Hc. rewrite (accepted_step ag a _ e E) by (by destruct a). apply H2'.
    destruct (e_canceled _); [|done]. rewrite F1 in Hc; done.
  - assert (exists l, loop_do (ag_watch ag) doublestar_Match (watch_store ag) a
        (loop_world (e_world (ru_engine u)) (ru_loop u)) = Some l /\ a <> LReceive /\
        u' = set_engine (set_world (lp_world l) (ru_engine u)) (set_loop l u)) as (l & E & Hx & ->).
    { destruct a; unfold watch_step in Hs; try done.
      all: repeat match type of Hs with context [match ?x with _ => _ end] => destruct x; try done end.
      all: unfold watch_do in Hs; destruct (loop_do _ _ _ _ _) as [l|]; [|done]; injection Hs as <-; by exists l. }
    pose proof (loop_received _ _ _ E Hx) as Hrec. split; [done|]. intros Hc. cbn. rewrite Hrec. by apply H2'.
  - destruct (take_run u u' Hk Hs) as (we & q & l & Ep & _ & -> & _ & _ & L3 & _). split; [done|]. intros Hc.
    destruct (H2' Hc) as [Hm _]. cbn. rewrite L3, map_app, Hm, Ep. cbn. by rewrite app_nil_r.
  - unfold pump_check in Hs. destruct (ru_pump u) as [|we| |] eqn:Ep; try done. injection Hs as <-.
    split; [done|]. intros Hc. destruct (H2' Hc) as [Hm _]. cbn. ru. rewrite H1'. done.
  - unfold pump_send in Hs. destruct (ru_pump u) as [| |we|] eqn:Ep; try done.
    destruct (dispatchWatchEvent _ _ _) as [e|] eqn:E; [|done]. injection Hs as <-.
    destruct (dispatch_accepts ag we _ e E) as (_ & D2 & D3 & _). split; [done|]. intros Hc. cbn in Hc.
    rewrite D2 in Hc. destruct (H2' Hc) as [Hm _]. cbn. rewrite D3, Hm. cbn. by rewrite app_nil_r.
  - unfold pump_drop in Hs. destruct (ru_pump u) eqn:Ep; try done. destruct (e_canceled _) eqn:Ec; [|done].
    injection Hs as <-. split; [done|]. intros Hc. cbn in Hc. ru. congruence.
  - unfold pump_stop in Hs. destruct (ru_pump u) eqn:Ep; try done. destruct (e_canceled _) eqn:Ec; [|done].
    injection Hs as <-. split; [done|]. intros Hc. ru. congruence.
  - unfold sighup_reload in Hs. destruct (ru_sighup u); [|done]. injection Hs as <-. unfold handed_on, ru_engine.
    cbn [set_control ru_control ru_loop ru_pump]. by rewrite reload_engine.
  - unfold sighup_stop in Hs. destruct (_ && _); [|done]. by injection Hs as <-.
  - unfold mqtt_step in Hs. destruct (ru_mqtt u), op; try done; by injection Hs as <-.
  - unfold listen_fails in Hs. destruct (ru_phase u); try done. destruct (ru_listening u); [|done]. by injection Hs as <-.
  - by apply (handed_phase RShutdown u u').
  - by apply (handed_phase RDrained u u').
  - by apply (handed_phase RDrainTimeout u u').
  - by apply (handed_phase RWait u u').
  - by apply (handed_phase (RDisconnect open) u u').
  - by apply (handed_phase RCloseStore u u').
Qed.

Lemma handed_run acts u u' : run_ok u -> handed_on u -> Forall (fun a => run_pauses a = false) acts ->
  run acts u = Some u' -> handed_on u'.
Proof.
  revert u. induction acts as [|a acts IH]; intros u Hk Hh Ha Hr; [by injection Hr as <-|].
  apply Forall_cons in Ha as [Ha1 Ha2]. cbn in Hr. destruct (step a u) as [u1|] eqn:Ea; [|done].
  eauto using run_step_ok, handed_step.
Qed.

(** ** Properties *)

(** C15: from the file system to the push workers: in every state an agent built by
    [newAgent] can reach -- over all interleavings of watcher, timers, pump,
    workers, polls, passes, requests, signals and the shutdown -- every item a
    worker has finished comes from an event whose path the exclusion patterns
    admit, the items handed over are the watcher's events in their order, each
    at most once; and as long as the agent is neither paused nor stopping, what
    the watcher has put into its channel is exactly what was handled, what is
    in flight and what the pump has not taken or passed on. *)
Theorem watcher_to_workers cfg dry pub (fsw : result F) t ws pst bst w mq n level acts u :
  newAgent cfg dry pub fsw t = Ok (ag, ws, pst, bst) ->
  run acts (run_start doublestar_Match ag w ws pst bst mq n level) = Some u ->
  let f := to_item (c_LocalRoot (ag_cfg ag)) in
  let e := ru_engine u in
  (forall it, it ∈ e_handled e ->
     exists we, we ∈ emitted (ru_loop u) /\ it = f we /\ admitted_event (ag_watch ag) doublestar_Match we) /\
  e_accepted e `sublist_of` map f (emitted (ru_loop u)) /\
  (Forall (fun a => run_pauses a = false) acts -> e_canceled e = false ->
     map f (emitted (ru_loop u)) ≡ₚ
     e_handled e ++ in_flight e ++ map f (pump_items (ru_pump u) ++ ws_events (lp_ws (ru_loop u)))).
Proof.
  intros Hn Hr f e. destruct (agent_run_ok _ _ _ _ _ _ _ _ _ _ _ _ _ _ Hn Hr) as [Hk _].
  destruct (rk_engine u Hk) as (_ & Hf & Hl). pose proof (flow_accepted e Hf) as Hperm.
  destruct (rk_loop u Hk) as [[_ _ _ W4 _ _] _ W2 _ _]. cbn [snd] in W4.
  destruct (rk_chain u Hk) as (passed & P1 & P2).
  assert (e_accepted e `sublist_of` map f (emitted (ru_loop u))) as Hsub.
  { etrans; [exact P2|]. unfold emitted. rewrite P1, !map_app. apply sublist_inserts_r, sublist_inserts_r. done. }
  split_and!; [|done|].
  - intros it Hit. assert (it ∈ e_accepted e) as Hacc by (rewrite Hperm; apply elem_of_app; by left).
    apply (sublist_submseteq _ _), elem_of_submseteq with (x := it) in Hsub; [|done].
    apply list_elem_of_fmap in Hsub as (we & -> & Hwe). exists we. split_and!; [done|done|].
    assert (Forall (admitted_event (ag_watch ag) doublestar_Match) (emitted (ru_loop u))) as Hall by (by apply Forall_app).
    by apply (Forall_forall _ _) with (x := we) in Hall.
  - intros Ha Hc. destruct (newAgent_parts _ _ _ _ _ _ _ _ Hn) as (deb & window & f0 & ->).
    assert (handed_on u) as [_ Hh].
    { eapply handed_run; [apply run_start_ok| |exact Ha|exact Hr]. split; [done|]. intros _. cbn.
      unfold loop_start. by destruct (initialWalk _ _ _) as [? []]. }
    destruct (Hh Hc) as [Hm _]. unfold emitted. rewrite !map_app. fold f in Hm. rewrite Hm. fold e. rewrite Hperm.
    rewrite (lf_dropped ag e Hl Hc). by rewrite <- !app_assoc.
Qed.

(** C16: the agent stops when told to: from any state it can reach after the
    signal, its own steps run out after at most [steps_left] of them, whatever
    their order and whatever a stuck repair request does; when none is left
    [Run] has returned, and wherever they have led, some of them lead there. *)
Theorem agent_shuts_down cfg dry pub (fsw : result F) t ws pst bst w mq n level acts u own u' :
  newAgent cfg dry pub fsw t = Ok (ag, ws, pst, bst) ->
  run acts (run_start doublestar_Match ag w ws pst bst mq n level) = Some u -> e_canceled (ru_engine u) = true ->
  Forall (fun a => own_step a = true) own -> run own u = Some u' ->
  (length own <= steps_left u)%nat /\ (halted u' -> ru_phase u' = Returned /\ ru_open u' = false) /\
  exists more u2, Forall (fun a => own_step a = true) more /\ run more u' = Some u2 /\ ru_phase u2 = Returned.
Proof.
  intros Hn Hr Hc Ho Hrun. destruct (agent_run_ok _ _ _ _ _ _ _ _ _ _ _ _ _ _ Hn Hr) as [Hk _].
  pose proof (run_ok_run own u u' Hk Hrun) as Hk'. pose proof (canceled_run own u u' Hk Hrun Hc) as Hc'.
  split_and!; [by eapply own_run_bounded| |by apply returns]. intros Hh.
  pose proof (halted_returned u' Hk' Hh Hc') as Hp. split; [done|]. by rewrite (rk_open u' Hk'), Hp.
Qed.

(** C17: the order of the shutdown: whenever [Run] has returned, the context was
    cancelled, the endpoint takes no requests, the watcher, the pump, the
    workers, the poll and bisync loops and the signal handler have all
    returned, and the MQTT client is closed; and if the endpoint was drained
    within its ten seconds, no repair is under way, the lock is free, the
    journal is closed, and from then on no step of anything left over -- the
    timers' goroutines included -- changes a local file, the remote or the
    journal. *)
Theorem shutdown_is_clean cfg dry pub (fsw : result F) t ws pst bst w mq n level acts u :
  newAgent cfg dry pub fsw t = Ok (ag, ws, pst, bst) ->
  run acts (run_start doublestar_Match ag w ws pst bst mq n level) = Some u -> ru_phase u = Returned ->
  (e_canceled (ru_engine u) = true /\ ru_listening u = false /\ ru_open u = false /\ group_done u /\
   forall s, ru_mqtt u = Some s -> cl_closed (fst s) = true) /\
  (ru_drained u = true ->
     no_repairs (ru_engine u) /\ e_lock (ru_engine u) = mkRW 0 NoWriter /\
     is_ok (bolt_begin (js_J (w_store (ru_data u)))) = false /\
     forall more u', Forall (fun a => is_outside a = false) more -> run more u = Some u' ->
       same_data (ru_data u) (ru_data u')).
Proof.
  intros Hn Hr Hp. destruct (agent_run_ok _ _ _ _ _ _ _ _ _ _ _ _ _ _ Hn Hr) as [Hk Hsl]. split.
  - destruct (rk_signal u Hk) as [Hc Hl]; [by rewrite Hp|]. split_and!; try done.
    + by rewrite (rk_open u Hk), Hp.
    + apply (rk_group u Hk). rewrite Hp. cbn. lia.
    + apply (rk_mqtt u Hk). rewrite Hp. cbn. lia.
  - intros Hd. pose proof (quiescent_of u Hk Hd Hp) as Hq. split_and!; [by destruct Hq as (_ & _ & Hq & _)| | |].
    + by apply quiescent_lock.
    + by apply Hsl.
    + intros more u' Ho Hm. by eapply quiescent_run.
Qed.

End run_lemmas.

(** ** Witnesses *)

Abbreviation demo_running := (Running MemFS (JournalStore MemBolt) (gset string)).

Abbreviation demo_all := (@run_all MemFS MemBolt (gset string) _ _ demo_Fsnotify demo_env demo_match engine_agent control_env).

(** The watcher [newAgent] made. *)
Definition demo_watcher : WatcherState (gset string) :=
  match newAgent (applyDefaults engine_config) false demo_pub (Ok ∅ : result (gset string)) 0 with
  | Ok (_, ws, _, _) => ws
  | Err _ => mkWatcherState (newDebouncer 0 0) (newPairer 0) ∅ [] false
  end.

Definition demo_start : demo_running :=
  @run_start MemFS MemBolt (gset string) demo_Fsnotify demo_env demo_match engine_agent (top_world (400 * Second)) demo_watcher
    (mkPullState 0 ∅) idle_state0 None 1 None.

Lemma demo_built :
  newAgent (applyDefaults engine_config) false demo_pub (Ok ∅ : result (gset string)) 0 =
  Ok (engine_agent, demo_watcher, mkPullState 0 ∅, idle_state0).
Proof. vm_compute. reflexivity. Qed.

(** A removal goes all the way; a second event is still in the channel. *)
Abbreviation RE a := (REngine (R := MemFS) a).

Definition pushed_once : list (run_action (R := MemFS)) :=
  [RWatch (LEvent (mkFSEvent "/home/a.txt" false false true false)); RWatch (LWait Hour); RWatch (LDebFires 0);
   RWatch (LDebTake 0); RWatch (LHandOn 0); RPumpTake; RPumpCheck; RPumpSend; RE AFanEvent; RE AFanEvent; RE (ATake 0);
   RE (ABegin 0); RE (AAcquire 0); RE (AFinish 0);
   RWatch (LEvent (mkFSEvent "/home/b.txt" false false true false)); RWatch (LWait Hour); RWatch (LDebFires 1);
   RWatch (LDebTake 1); RWatch (LHandOn 0)].

Definition drains : list (run_action (R := MemFS)) :=
  [RShutdown; RDrained; RWatch (LCtxDone (ESent ErrCanceled)); RPumpStop; RSighupStop; RE AFanEventDone; RE AFanRenameDone;
   RE AClose; RE (AExit 0); RE (AExit 1); RE APollStop; RE ASyncStop; RWait; RDisconnect true; RCloseStore].

Example demo_drained :
  match demo_all (pushed_once ++ RE ACancel :: drains) demo_start with
  | Some u => length (e_handled (ru_engine u)) = 1%nat /\ ru_phase u = Returned /\ ru_drained u = true
  | None => False
  end.
Proof. vm_compute. done. Qed.

(** A run's final state, for the witnesses. *)
Lemma demo_reaches (test : demo_running -> bool) acts :
  match demo_all acts demo_start with Some u => test u | None => false end = true ->
  exists u, demo_all acts demo_start = Some u /\ test u = true.
Proof. destruct (demo_all acts demo_start) as [u|]; [by exists u|done]. Qed.

Lemma watcher_to_workers_witness :
  exists u, demo_all pushed_once demo_start = Some u /\ length (e_handled (ru_engine u)) = 1%nat /\
    map (to_item "/home") (emitted (ru_loop u)) ≡ₚ
    e_handled (ru_engine u) ++ in_flight (ru_engine u) ++
      map (to_item "/home") (pump_items (ru_pump u) ++ ws_events (lp_ws (ru_loop u))).
Proof.
  destruct (demo_reaches (fun u => Nat.eqb (length (e_handled (ru_engine u))) 1 && negb (e_canceled (ru_engine u)))
    pushed_once) as (u & E & [Hl%Nat.eqb_eq Hc%negb_true_iff]%andb_true_iff); [vm_compute; reflexivity|].
  exists u. split; [exact E|]. split; [exact Hl|].
  destruct (watcher_to_workers (H2 := demo_Fsnotify) (H3 := demo_env) demo_match engine_agent control_env _ _ _ _ _ _ _ _
    (top_world (400 * Second)) None 1 None pushed_once u demo_built E) as (_ & _ & Hp).
  apply Hp; [repeat constructor|exact Hc].
Defined.

Lemma agent_shuts_down_witness :
  exists u u', demo_all (pushed_once ++ [RE ACancel]) demo_start = Some u /\ demo_all drains u = Some u' /\
    ru_phase u' = Returned /\ (length drains <= steps_left u)%nat.
Proof.
  destruct (demo_reaches (fun u => e_canceled (ru_engine u) &&
    match demo_all drains u with Some u' => match ru_phase u' with Returned => true | _ => false end | None => false end)
    (pushed_once ++ [RE ACancel])) as (u & E & [Hc Hd]%andb_true_iff); [vm_compute; reflexivity|].
  destruct (demo_all drains u) as [u'|] eqn:E'; [|discriminate Hd].
  exists u, u'. split; [exact E|]. split; [exact E'|]. split; [by destruct (ru_phase u')|].
  destruct (agent_shuts_down (H2 := demo_Fsnotify) (H3 := demo_env) demo_match engine_agent control_env _ _ _ _ _ _ _ _
    (top_world (400 * Second)) None 1 None (pushed_once ++ [RE ACancel]) u drains u' demo_built E Hc) as (Hl & _);
    [repeat constructor|exact E'|exact Hl].
Defined.

Lemma shutdown_is_clean_witness :
  exists u, demo_all (pushed_once ++ RE ACancel :: drains) demo_start = Some u /\
    e_lock (ru_engine u) = mkRW 0 NoWriter /\ group_done u /\
    is_ok (bolt_begin (js_J (w_store (ru_data u)))) = false.
Proof.
  destruct (demo_reaches (fun u => ru_drained u && match ru_phase u with Returned => true | _ => false end)
    (pushed_once ++ RE ACancel :: drains)) as (u & E & [Hd Hp]%andb_true_iff); [vm_compute; reflexivity|].
  exists u. split; [exact E|].
  destruct (shutdown_is_clean (H2 := demo_Fsnotify) (H3 := demo_env) demo_match engine_agent control_env _ _ _ _ _ _ _ _
    (top_world (400 * Second)) None 1 None (pushed_once ++ RE ACancel :: drains) u demo_built E)
    as ((_ & _ & _ & Hg & _) & Hq); [by destruct (ru_phase u)|].
  destruct (Hq Hd) as (_ & Hl & Hs & _). by split_and!.
Defined.

(** *** A repair that outlives the journal *)

(** A nested conflict name with its journal entry. *)
Definition nested_name : string := "a.txt.old.1.old.1".

Definition nested_world : World MemFS (JournalStore MemBolt) :=
  mkWorld (set_nodes (<[["home"; nested_name] := File (500 * Second) "loser"]> (fs_nodes top_fs)) top_fs)
    demo_mem (mkJournalStore (mkMemBolt true (<[nested_name := Encoded (demo_entry nested_name)]> ∅) ∅) None) 0 [].

Definition nested_start : demo_running :=
  @run_start MemFS MemBolt (gset string) demo_Fsnotify demo_env demo_match engine_agent nested_world demo_watcher
    (mkPullState 0 ∅) idle_state0 None 1 None.

(** The request holds the lock when the signal comes and the ten seconds run
    out. *)
Definition repair_left_behind : list (run_action (R := MemFS)) :=
  [RE (ARepair 0 false); RE (ARepairAnnounce 0); RE (ARepairAcquire 0); RE ACancel; RShutdown; RDrainTimeout;
   RWatch (LCtxDone (ESent ErrCanceled)); RPumpStop; RSighupStop; RE AFanEventDone; RE AFanRenameDone; RE AClose;
   RE (AExit 0); RE (AExit 1); RE APollStop; RE ASyncStop; RWait; RDisconnect true; RCloseStore].

(** [Run] returns, with the journal closed, while a repair request is still in
    its critical section: the wait group does not count the handlers of the
    control endpoint. The repair then renames the file,
    but its journal entry stays under the old name (the finding's
    counterexample). *)
Theorem repair_outlives_store :
  match demo_all repair_left_behind nested_start with
  | Some u =>
      ru_phase u = Returned /\ ru_drained u = false /\ e_repairs (ru_engine u) = [Holding false] /\
      is_ok (bolt_begin (js_J (w_store (ru_data u)))) = false /\
      match demo_all [RE (ARepairRun 0)] u with
      | Some u' =>
          is_ok (fst (os_Stat ("/home/" +:+ nested_name) (w_fs (ru_data u)))) = true /\
          is_ok (fst (os_Stat ("/home/" +:+ nested_name) (w_fs (ru_data u')))) = false /\
          is_ok (fst (os_Stat "/home/a.txt.old.1" (w_fs (ru_data u')))) = true /\
          mb_journal (js_J (w_store (ru_data u'))) !! nested_name = Some (Encoded (demo_entry nested_name))
      | None => False
      end
  | None => False
  end.
Proof. vm_compute. split_and!; done. Qed.
