(* ===== verification/Startup.v ===== *)
(** The start of the agent ([newAgent] with [buildAuditLog], [closeAuditFile] and
    [closeResources] of cmd/homedrive/agent.go, and [runAgent] of main.go): what
    is opened, in which order, and what a failure closes again. What the
    operating system, BoltDB, the broker and the remote answer is in [Host]. *)
From S2P Require Import Prelude.
From S2P Require Import GoStrings.
From S2P Require Import GoRuntime.
From S2P Require Import OldSuffix.
From S2P Require Import GoPath.
From S2P Require Import LocalFS.
From S2P Require Import Remote.
From S2P Require Import MemFS.
From S2P Require Import Bolt.
From S2P Require Import Journal.
From S2P Require Import World.
From S2P Require Import Debouncer.
From S2P Require Import Watcher.
From S2P Require Import WatcherLoop.
From S2P Require Import Http.
From S2P Require Import Mqtt.
From S2P Require Import AgentConfig.
From S2P Require Import BisyncJournal.
From S2P Require Import Bisync.
From S2P Require Import Push.
From S2P Require Import Pull.
From S2P Require Import Agent.
From S2P Require Import Engine.
From S2P Require Import AgentControl.
From S2P Require Import AgentRun.

(** ** Definitions *)

(** The outcomes of [config.Load], [os.MkdirAll], [bolt.Open], [os.OpenFile] on
    the audit log, [NewRcloneFS], [os.Hostname], [user.Current], the connection
    to the broker and [fsnotify.NewWatcher]. *)
Record Host (DB F : Type) := mkHost {
  ho_config : result AppConfig;
  ho_mkdir : string -> result unit;
  ho_bolt : result DB;
  ho_audit : result unit;
  ho_remote : result unit;
  ho_hostname : result string;
  ho_user : result string;
  ho_broker : delivery;
  ho_fsw : result F;
}.
Arguments mkHost {DB F} _ _ _ _ _ _ _ _ _.
Arguments ho_config {DB F} _.
Arguments ho_mkdir {DB F} _.
Arguments ho_bolt {DB F} _.
Arguments ho_audit {DB F} _.
Arguments ho_remote {DB F} _.
Arguments ho_hostname {DB F} _.
Arguments ho_user {DB F} _.
Arguments ho_broker {DB F} _.
Arguments ho_fsw {DB F} _.

(** The database once it exists, whether the audit file is open, and the client
    of the broker. *)
Record Opened (DB : Type) := mkOpened {
  op_db : option DB;
  op_audit : bool;
  op_mqtt : option MqttState;
}.
Arguments mkOpened {DB} _ _ _.
Arguments op_db {DB} _.
Arguments op_audit {DB} _.
Arguments op_mqtt {DB} _.

Section startup.
Context {DB F : Type} `{Bolt DB}.
Abbreviation O := (Opened DB).

(** [OpenJournal]. *)
Definition open_journal (r : result DB) : ST O (result unit) := fun o =>
  match r with
  | Err e => (Err (EWrap "store: open db" e), o)
  | Ok db => let '(r, db) := OpenJournal db in (r, mkOpened (Some db) (op_audit o) (op_mqtt o))
  end.

Definition close_journal : ST O unit := fun o =>
  (tt, match op_db o with
       | None => o
       | Some db => mkOpened (Some (snd (Journal_Close db))) (op_audit o) (op_mqtt o)
       end).

Definition set_audit (b : bool) : ST O unit := fun o => (tt, mkOpened (op_db o) b (op_mqtt o)).

Definition set_client (m : option MqttState) : ST O unit := fun o => (tt, mkOpened (op_db o) (op_audit o) m).

(** [f.Close()], of a file that may be nil. *)
Definition closeAuditFile : ST O unit := set_audit false.

(** Journal and audit log; the client of the broker and the watcher's handle are
    not among them. *)
Definition closeResources : ST O unit := close_journal ;; closeAuditFile.

Variable h : Host DB F.

Definition buildAuditLog (cfg : AppConfig) : ST O (result unit) :=
  let path := cs_AuditLog (c_State cfg) in
  if String.eqb path "" then st_ret (Ok tt)
  else
    let? _ := st_ret (ho_mkdir h (Dir path)) ?: "create audit log dir" in
    let? _ := st_ret (ho_audit h) ?: "open audit log" in
    set_audit true ;;
    st_ret (Ok tt).

(** [make(chan syncer.Event, cfg.Push.Workers*4+4)] with a negative size ends
    the process. *)
Definition makechan_panics (cfg : AppConfig) : bool :=
  is_ok (New (cc_OldSuffixFormat (c_Conflict cfg))) && (cp_Workers (c_Push cfg) * 4 + 4 <? 0).

(** [newAgent] once the journal is open. *)
Definition start_opened (cfg : AppConfig) (t : Time) :
    ST O (result (Agent * WatcherState F * PullState * BisyncState)) :=
  let* audit := buildAuditLog cfg in
  match audit with
  | Err e => close_journal ;; st_ret (Err e)
  | Ok _ =>
      match ho_remote h with
      | Err e => closeResources ;; st_ret (Err (EWrap "init rclone remote" e))
      | Ok _ =>
          match buildPublisher cfg (ho_hostname h) (ho_user h) (ho_broker h) with
          | Err e => closeResources ;; st_ret (Err e)
          | Ok (topic, client) =>
              set_client client ;;
              match newAgent cfg false (Some topic) (ho_fsw h) t with
              | Ok a => st_ret (Ok a)
              | Err e => (if makechan_panics cfg then st_ret tt else closeResources) ;; st_ret (Err e)
              end
          end
      end
  end.

(** [newAgent] from [config.Load] on. *)
Definition startup (dryRun : bool) (t : Time) :
    ST O (result (Agent * WatcherState F * PullState * BisyncState)) :=
  let? cfg := st_ret (ho_config h) ?: "load config" in
  let cfg := if dryRun then set_dry_run true cfg else cfg in
  let? _ := st_ret (ho_mkdir h (Dir (cs_Path (c_State cfg)))) ?: "create state dir" in
  let? _ := st_ret (ho_mkdir h (c_LocalRoot cfg)) ?: "create local root" in
  let? _ := open_journal (ho_bolt h) ?: "open journal" in
  start_opened cfg t.

End startup.

(** [runAgent]: the agent as [Run] starts it, on the files [fs] and the remote
    [r]. *)
Definition runAgent {R DB F} `{Bolt DB} `{Fsnotify F} `{Env} (doublestar_Match : string -> string -> bool)
    (h : Host DB F) (dryRun : bool) (fs : LocalFS) (r : R) (n : nat) (level : option Z) :
    result (Agent * Running R (JournalStore DB) F) :=
  match startup h dryRun (env_now 0) (mkOpened None false None) with
  | (Err e, _) => Err (EWrap "build agent" e)
  | (Ok (ag, ws, pst, bst), o) =>
      match op_db o with
      | None => Err panic_nil
      | Some db =>
          Ok (ag, run_start doublestar_Match ag (mkWorld fs r (mkJournalStore db (Some (ag_matcher ag))) 0 []) ws pst bst
                    (op_mqtt o) n level)
      end
  end.

(** [defaultConfigPath]; the argument is what [os.UserConfigDir] returns. *)
Definition defaultConfigPath (dir : result string) : string :=
  match dir with Err _ => "/etc/homedrive/config.yaml" | Ok d => PathJoin (PathJoin d "homedrive") "config.yaml" end.

(** ** Lemmas *)

Section startup_lemmas.
Context {DB F : Type} `{BoltLaws DB}.
Abbreviation O := (Opened DB).
Variable h : Host DB F.

(** Journal and audit log are closed, or were never opened. *)
Definition released (o : O) : Prop :=
  (forall db, op_db o = Some db -> is_ok (bolt_begin db) = false) /\ op_audit o = false.

Lemma released_resources (o : O) : released (snd (closeResources o)).
Proof.
  unfold closeResources, st_bind, close_journal, closeAuditFile, set_audit. destruct o as [[db|] a m]; cbn; split; try done.
  intros ? [= <-]. apply bolt_close_begin.
Qed.

Lemma released_journal (o : O) : op_audit o = false -> released (snd (close_journal o)).
Proof.
  unfold close_journal. destruct o as [[db|] a m]; cbn; intros ->; split; try done. intros ? [= <-]. apply bolt_close_begin.
Qed.

(** [OpenJournal] either opens or leaves a closed database. *)
Lemma open_journal_spec r a m :
  let '(res, o) := open_journal r (mkOpened (DB := DB) None a m) in
  op_audit o = a /\ op_mqtt o = m /\
  match res with
  | Ok _ => exists db, r = Ok db /\ fst (OpenJournal db) = Ok tt /\ op_db o = Some (snd (OpenJournal db))
  | Err _ => forall db, op_db o = Some db -> is_ok (bolt_begin db) = false
  end.
Proof.
  unfold open_journal. destruct r as [db|e]; [|by split_and!].
  destruct (OpenJournal db) as [res db'] eqn:E. cbn. split; [done|]. split; [done|]. destruct res as [[]|e].
  - exists db. by rewrite E.
  - intros ? [= <-]. unfold OpenJournal in E. destruct (bolt_Update _ db) as [[[]|e'] db1]; [done|].
    injection E as <- <-. apply bolt_close_begin.
Qed.

Lemma buildAuditLog_spec cfg (o : O) : op_audit o = false ->
  let '(r, o') := buildAuditLog h cfg o in
  op_db o' = op_db o /\ op_mqtt o' = op_mqtt o /\
  op_audit o' = is_ok r && negb (String.eqb (cs_AuditLog (c_State cfg)) "").
Proof.
  intros Ha. unfold buildAuditLog, st_try, st_bind, st_ret, set_audit. destruct (String.eqb _ ""); [by split_and!|].
  destruct (ho_mkdir h _) as [[]|e]; [|by split_and!]. by destruct (ho_audit h) as [[]|e].
Qed.

Lemma buildPublisher_spec cfg topic client :
  buildPublisher cfg (ho_hostname h) (ho_user h) (ho_broker h) = Ok (topic, client) ->
  (is_Some client <-> cm_Enabled (c_MQTT cfg) = true) /\ forall s, client = Some s -> cl_closed (fst s) = false.
Proof.
  unfold buildPublisher. destruct (cm_Enabled (c_MQTT cfg)); cbn [negb].
  - destruct (hostAndUser _ _) as [host user]. unfold NewMqtt. cbv zeta. destruct (ho_broker h); try done.
    intros [= <- <-]. split; [done|]. by intros ? [= <-].
  - intros [= <- <-]. split; [|done]. split; [by intros []|done].
Qed.

Lemma newAgent_dry_run cfg pub (fsw : result F) t ag ws pst bst :
  newAgent cfg false pub fsw t = Ok (ag, ws, pst, bst) -> cfg_DryRun (s_cfg (ag_push ag)) = c_DryRun cfg.
Proof.
  unfold newAgent. intros Hn. destruct (New _) as [m|]; [|done]. cbn [wrap GoRuntime.map_err result_bind] in Hn.
  destruct (_ <? _); [done|]. destruct (buildWatcher _ _ _) as [[wcfg watch]|]; [|done]. cbn [result_bind] in Hn.
  destruct (buildPuller _ _ _ _ _) as [pu p0]. destruct (buildBisync _ _ _ _ _) as [bi b0].
  destruct (buildHTTPServer _) as [http|]; [|done]. injection Hn as <- _ _ _. cbn [ag_push].
  unfold buildPushSyncer, NewSyncer. cbn. by destruct (_ <? 1).
Qed.

(** What closing leaves of the broker's client. *)
Lemma closing_mqtt (o : O) : op_mqtt (snd (closeResources o)) = op_mqtt o /\ op_mqtt (snd (close_journal o)) = op_mqtt o.
Proof. unfold closeResources, st_bind, close_journal, closeAuditFile, set_audit. by destruct o as [[db|] a m]. Qed.

(** [newAgent] once the journal is open. *)
Lemma start_after_journal cfg t db :
  makechan_panics cfg = false ->
  let '(r, o) := start_opened h cfg t (mkOpened (Some db) false None) in
  match r with
  | Err _ => released o /\ forall s, op_mqtt o = Some s -> cl_closed (fst s) = false
  | Ok (ag, ws, pst, bst) =>
      op_db o = Some db /\ op_audit o = negb (String.eqb (cs_AuditLog (c_State cfg)) "") /\
      (is_Some (op_mqtt o) <-> cm_Enabled (c_MQTT cfg) = true) /\ cfg_DryRun (s_cfg (ag_push ag)) = c_DryRun cfg
  end.
Proof.
  intros Hp. unfold start_opened, st_bind.
  pose proof (buildAuditLog_spec cfg (mkOpened (Some db) false None) eq_refl) as Ha.
  destruct (buildAuditLog h cfg _) as [[[]|e] o1]; destruct Ha as (A1 & A2 & A3); cbn in A1, A2, A3.
  2: { pose proof (released_journal o1 A3) as Hr. destruct (closing_mqtt o1) as [_ Hm].
       destruct (close_journal o1) as [[] o2]. cbn in *. split; [done|]. intros s. by rewrite Hm, A2. }
  pose proof (released_resources o1) as Hr. destruct (closing_mqtt o1) as [Hm _]. rewrite A2 in Hm.
  destruct (ho_remote h) as [[]|e].
  2: { destruct (closeResources o1) as [[] o2]. cbn in *. split; [done|]. intros s. by rewrite Hm. }
  destruct (buildPublisher _ _ _ _) as [[topic client]|e] eqn:Ep.
  2: { destruct (closeResources o1) as [[] o2]. cbn in *. split; [done|]. intros s. by rewrite Hm. }
  clear Hr Hm. destruct (buildPublisher_spec cfg topic client Ep) as [P1 P2]. unfold set_client.
  set (o2 := mkOpened _ _ client). pose proof (released_resources o2) as Hr. destruct (closing_mqtt o2) as [Hm _].
  destruct (newAgent cfg false (Some topic) (ho_fsw h) t) as [[[[ag ws] pst] bst]|e] eqn:En.
  - cbn. split_and!; try done. by eapply newAgent_dry_run.
  - rewrite Hp. destruct (closeResources o2) as [[] o3]. cbn in *. split; [done|]. intros s. rewrite Hm. apply P2.
Qed.

(** C26: a failed start leaks no file: whatever the operating system, BoltDB,
    the remote and the broker answer, and wherever [newAgent] gives up, the
    journal's database and the audit log are closed again or were never
    opened; and when it succeeds the journal is the database BoltDB opened
    with its buckets created, the audit log is open exactly when it has a path,
    the broker is connected exactly when MQTT is enabled, and the command
    line's dry-run flag is in the push syncer. The only other way out is the
    panic of a negative channel size. *)
Theorem startup_releases dryRun t :
  (forall cfg, ho_config h = Ok cfg -> makechan_panics cfg = false) ->
  let '(r, o) := startup h dryRun t (mkOpened None false None) in
  match r with
  | Err _ => released o /\ forall s, op_mqtt o = Some s -> cl_closed (fst s) = false
  | Ok (ag, ws, pst, bst) =>
      exists cfg db, ho_config h = Ok cfg /\ ho_bolt h = Ok db /\ fst (OpenJournal db) = Ok tt /\
        op_db o = Some (snd (OpenJournal db)) /\
        op_audit o = negb (String.eqb (cs_AuditLog (c_State cfg)) "") /\
        (is_Some (op_mqtt o) <-> cm_Enabled (c_MQTT cfg) = true) /\
        cfg_DryRun (s_cfg (ag_push ag)) = c_DryRun cfg || dryRun
  end.
Proof.
  intros Hp. unfold startup, st_try, st_ret. destruct (ho_config h) as [cfg|e]; [|by split].
  set (cfg' := if dryRun then set_dry_run true cfg else cfg).
  assert (makechan_panics cfg' = false /\ cs_AuditLog (c_State cfg') = cs_AuditLog (c_State cfg) /\
    cm_Enabled (c_MQTT cfg') = cm_Enabled (c_MQTT cfg) /\ c_DryRun cfg' = c_DryRun cfg || dryRun) as (C1 & C2 & C3 & C4).
  { subst cfg'. specialize (Hp cfg eq_refl). destruct dryRun; split_and!; try done;
      [by rewrite orb_true_r|by rewrite orb_false_r]. }
  destruct (ho_mkdir h (Dir _)) as [[]|e]; [|by split]. destruct (ho_mkdir h (c_LocalRoot _)) as [[]|e]; [|by split].
  pose proof (open_journal_spec (ho_bolt h) false None) as Ho.
  destruct (open_journal _ _) as [[[]|e] o1]; destruct Ho as (O1 & O2 & O3); [|split; [by split|by rewrite O2]].
  destruct O3 as (db & E1 & E2 & E3). pose proof (start_after_journal cfg' t (snd (OpenJournal db)) C1) as Hs.
  destruct o1 as [d a m]. cbn in O1, O2, E3. subst d a m. destruct (start_opened h cfg' t _) as [[[[[ag ws] pst] bst]|e] o2].
  - destruct Hs as (S1 & S2 & S3 & S4). exists cfg, db. rewrite <- C2, <- C3, <- C4. by split_and!.
  - exact Hs.
Qed.

End startup_lemmas.

(** ** Witnesses *)

Definition quiet_host (cfg : AppConfig) : Host MemBolt (gset string) :=
  mkHost (Ok cfg) (fun _ => Ok tt) (Ok emptyMemBolt) (Ok tt) (Ok tt) (Ok "nas") (Ok "fix") Delivered (Ok ∅).

(** The endpoint on every interface, without a token, and a broker. *)
Definition exposed_config : AppConfig :=
  let c := applyDefaults engine_config in
  mkAppConfig (c_LocalRoot c) (c_Remote c) (c_RcloneConfig c) (c_Watcher c) (c_Push c) (c_Pull c) (c_Conflict c)
    (mkStateCfg "/var/journal.db" "/var/audit.jsonl") (mkHTTPCfg ":6090" false "" 0)
    (mkMQTTCfg true "tcp://nas:1883" "" "" "" 0 0) (c_Logging c) (c_Quota c) false.

Lemma startup_releases_witness :
  exists e o, startup (quiet_host exposed_config) false 0 (mkOpened None false None) = (Err e, o) /\ released o.
Proof.
  pose proof (startup_releases (quiet_host exposed_config) false 0) as Hs.
  destruct (startup (quiet_host exposed_config) false 0 (mkOpened None false None)) as [[a|e] o] eqn:E;
    [vm_compute in E; discriminate E|].
  exists e, o. split; [reflexivity|]. apply Hs. intros cfg [= <-]. vm_compute. reflexivity.
Defined.

(** That start fails after the connection to the broker, which stays open: the
    client is in nobody's hands any more (the finding's counterexample). *)
Theorem failed_start_keeps_broker :
  match startup (quiet_host exposed_config) false 0 (mkOpened None false None) with
  | (Err e, o) =>
      op_audit o = false /\
      match op_db o with Some db => mb_open db = false | None => False end /\
      match op_mqtt o with
      | Some (c, calls) => cl_closed c = false /\ length calls = 1%nat
      | None => False
      end
  | (Ok _, _) => False
  end.
Proof. vm_compute. split_and!; done. Qed.
