(* ===== verification/Ctl.v ===== *)
(** The command line's client of the control endpoint (cmd/homedrive/ctl.go),
    and the way of a command from it through the endpoint to the engine. The
    network is an argument; so is the reading of JSON answers, with what
    encoding/json promises as hypotheses. *)
From S2P Require Import Prelude.
From S2P Require Import GoStrings.
From S2P Require Import GoRuntime.
From S2P Require Import GoFloat.
From S2P Require Import Remote.
From S2P Require Import MemFS.
From S2P Require Import Bolt.
From S2P Require Import Journal.
From S2P Require Import World.
From S2P Require Import BisyncJournal.
From S2P Require Import Bisync.
From S2P Require Import Http.
From S2P Require Import AgentConfig.
From S2P Require Import Agent.
From S2P Require Import Engine.
From S2P Require Import AgentControl.

(** ** Definitions *)

Definition defaultCtlAddr : string := "127.0.0.1:6090".

Definition defaultCtlHTTPTimeout : Duration := 10 * Second.

(** Address, token and timeout, from the outcome of [config.Load]. *)
Definition ctlTarget (loaded : result AppConfig) : string * string * Duration :=
  match loaded with
  | Err _ => (defaultCtlAddr, "", 0)
  | Ok cfg =>
      let h := c_HTTP cfg in
      (if String.eqb (ch_Listen h) "" then defaultCtlAddr else ch_Listen h, ch_AuthToken h, ch_CtlTimeout h)
  end.

(** [flag] is [--timeout] where it was given. *)
Definition ctlEffectiveTimeout (flag : option Duration) (cfgTimeout : Duration) : Duration :=
  let rest := if 0 <? cfgTimeout then cfgTimeout else defaultCtlHTTPTimeout in
  match flag with
  | Some t => if 0 <? t then t else rest
  | None => rest
  end.

(** [http.NewRequest] on a path with an optional query of plain
    [key=value] pairs. *)
Definition parse_query (q : string) : list (string * string) :=
  if String.eqb q "" then []
  else map (fun kv => let '(k, v, _) := Cut kv "=" in (k, v)) (SplitByte q "&"%char).

Definition NewRequest (method path authorization : string) : Request :=
  let '(p, q, _) := Cut path "?" in mkRequest method p (parse_query q) authorization.

Section ctl.
Context {N : Type}.

(** [http.DefaultClient.Do], within a timeout. *)
Variable net : string -> Duration -> Request -> ST N (result Response).

(** The text of a body, as it appears in an error. *)
Variable body_text : Body -> string.

Definition ctlDo {A} (decode : Body -> result A) (method addr token : string) (timeout : Duration) (path : string) :
    ST N (result A) :=
  let rq := NewRequest method path (if String.eqb token "" then "" else "Bearer " +:+ token) in
  let? resp := net addr timeout rq
                 ?: "ctl: request to http://" +:+ addr +:+ path +:+ " failed (is the agent running?)" in
  st_ret (if 400 <=? rs_Status resp
          then Err (EText ("ctl: " +:+ method +:+ " " +:+ path +:+ " returned " +:+ Itoa (rs_Status resp) +:+ ": " +:+
                           body_text (rs_Body resp)))
          else wrap ("ctl: decode response from " +:+ path) (decode (rs_Body resp))).

(** The configuration as the command reads it, and its flag. *)
Variable loaded : result AppConfig.
Variable flag : option Duration.

Definition ctl_call {A} (decode : Body -> result A) (method path : string) : ST N (result A) :=
  let '(addr, token, cfgTimeout) := ctlTarget loaded in
  ctlDo decode method addr token (ctlEffectiveTimeout flag cfgTimeout) path.

Variable decode_status : Body -> result StatusInfo.
Variable decode_fields : Body -> result (list (string * string)).
Variable decode_report : Body -> result RepairReport.

Definition ctlRunStatus : ST N (result StatusInfo) := ctl_call decode_status MethodGet "/status".

Definition ctlRunAction (action : string) : ST N (result (list (string * string))) :=
  ctl_call decode_fields MethodPost ("/" +:+ action).

Definition ctlRunConflictRepair (dryRun : bool) : ST N (result RepairReport) :=
  ctl_call decode_report MethodPost (if dryRun then "/conflict/repair" +:+ "?dry_run=1" else "/conflict/repair").

End ctl.

(** ** Lemmas *)

Lemma ctlEffectiveTimeout_positive flag cfgTimeout : 0 < ctlEffectiveTimeout flag cfgTimeout.
Proof.
  unfold ctlEffectiveTimeout. assert (0 < (if 0 <? cfgTimeout then cfgTimeout else defaultCtlHTTPTimeout))
    by (destruct (Z.ltb_spec 0 cfgTimeout); [done|reflexivity]).
  destruct flag as [t|]; [|done]. by destruct (Z.ltb_spec 0 t).
Qed.

Section end_to_end.
Context {R DB : Type} `{RemoteFS R} `{Bolt DB} `{Env}.
Abbreviation S := (JournalStore DB).
Abbreviation C := (ControlState R S).
Variable ag : Agent.
Variable ce : ControlEnv R.

(** A network on which the agent's endpoint listens, and nothing else. *)
Definition net_to (sc : ServerConfig) (addr : string) (_ : Duration) (rq : Request) :
    ST (C * Metrics) (result Response) := fun s =>
  if String.eqb addr (sc_ListenAddr sc)
  then let '(resp, s) := control_serve ag ce sc rq s in (Ok resp, s)
  else (Err (EText "connect: connection refused"), s).

(** The client and the server agree on the address and on the token. *)
Lemma target_matches cfg sc :
  buildHTTPServer cfg = Ok sc ->
  fst (ctlTarget (Ok cfg)) = (sc_ListenAddr sc, sc_AuthToken sc) /\
  forall method path q, authorized sc (mkRequest method path q
    (if String.eqb (sc_AuthToken sc) "" then "" else "Bearer " +:+ sc_AuthToken sc)).
Proof.
  unfold buildHTTPServer, ctlTarget. intros Hb%wrap_Ok. unfold NewServer in Hb. cbn in Hb |- *.
  split.
  - destruct (String.eqb (ch_Listen (c_HTTP cfg)) ""); cbn in Hb; destruct (_ && _) in Hb; try done; by injection Hb as <-.
  - intros method path q. unfold authorized. cbn. destruct (String.eqb_spec (sc_AuthToken sc) "") as [->|]; [by left|by right].
Qed.

Section calls.
Variables (cfg : AppConfig) (sc : ServerConfig) (body_text : Body -> string) (flag : option Duration).
Hypothesis built : buildHTTPServer cfg = Ok sc.

(** A call of the client is the request at the endpoint's router. *)
Lemma ctl_call_mux {A} (decode : Body -> result A) method path s :
  let rq := NewRequest method path (if String.eqb (sc_AuthToken sc) "" then "" else "Bearer " +:+ sc_AuthToken sc) in
  ctl_call (net_to sc) body_text (Ok cfg) flag decode method path s =
  let '(resp, s') := @mux C (agent_control ag ce) sc rq s in
  (if 400 <=? rs_Status resp
   then Err (EText ("ctl: " +:+ method +:+ " " +:+ path +:+ " returned " +:+ Itoa (rs_Status resp) +:+ ": " +:+
                    body_text (rs_Body resp)))
   else wrap ("ctl: decode response from " +:+ path) (decode (rs_Body resp)), s').
Proof.
  destruct (target_matches cfg sc built) as [Ht Ha]. cbv zeta. unfold ctl_call.
  destruct (ctlTarget (Ok cfg)) as [[addr token] cfgTimeout]. cbn [fst] in Ht. injection Ht as -> ->.
  unfold ctlDo, st_try, net_to. rewrite String.eqb_refl. unfold NewRequest in *.
  destruct (Cut path "?") as [[p q] found]. rewrite (authorized_mux ag ce sc _ s (Ha method p (parse_query q))).
  by destruct (mux sc _ s) as [resp s'].
Qed.

Lemma mux_status q au c m :
  fst (@mux C (agent_control ag ce) sc (mkRequest MethodGet "/status" q au) (c, m)) =
  match fst (Status ce c) with
  | Ok info => writeJSON 200 (BStatus info)
  | Err _ => writeError 500 "failed to retrieve status"
  end.
Proof.
  unfold mux, route_of, methodOnly. cbn [rq_Path rq_Method]. change (mux_path "/status") with "/status".
  cbn -[Status]. unfold handleStatus, call, st_bind, count, Http.on_agent; cbn -[Status]. by destruct (Status ce c) as [[info|e] c'].
Qed.

Lemma mux_repair au dry c m :
  let rq := NewRequest MethodPost (if dry : bool then "/conflict/repair" +:+ "?dry_run=1" else "/conflict/repair") au in
  fst (@mux C (agent_control ag ce) sc rq (c, m)) =
  match fst (Agent_RunChainRepair ag dry c) with
  | Ok rep => writeJSON 200 (BReport rep)
  | Err _ => writeError 500 "chain repair failed"
  end.
Proof.
  cbv zeta. assert (NewRequest MethodPost (if dry then "/conflict/repair" +:+ "?dry_run=1" else "/conflict/repair") au =
    mkRequest MethodPost "/conflict/repair" (if dry then [("dry_run", "1")] else []) au) as -> by (by destruct dry).
  unfold mux, route_of, methodOnly. cbn [rq_Path rq_Method]. change (mux_path "/conflict/repair") with "/conflict/repair".
  cbn -[Agent_RunChainRepair query_get].
  unfold handleConflictRepair, call, st_bind, count, Http.on_agent; cbn -[Agent_RunChainRepair query_get].
  assert (String.eqb (query_get "dry_run" (if dry then [("dry_run", "1")] else [])) "1" = dry) as -> by (by destruct dry).
  by destruct (Agent_RunChainRepair ag dry c) as [[rep|e] c'].
Qed.

Lemma mux_action (name : string) au c m :
  let '(r, (c', _)) := @mux C (agent_control ag ce) sc (NewRequest MethodPost ("/" +:+ name) au) (c, m) in
  (name = "pause" -> r = writeJSON 200 (status_json "paused") /\
     engine_do ag (APause true) (co_engine c) = Some (co_engine c')) /\
  (name = "resume" -> r = writeJSON 200 (status_json "resumed") /\
     engine_do ag (APause false) (co_engine c) = Some (co_engine c')) /\
  (name = "resync" ->
     r = (if is_ok (fst (ForceRun (e_bis (co_engine c)))) then writeJSON 202 (status_json "resync_triggered")
          else writeError 500 "failed to trigger resync") /\
     engine_do ag AForce (co_engine c) = Some (co_engine c')).
Proof.
  destruct (mux sc _ (c, m)) as [r [c' m']] eqn:E. split_and!; intros ->; revert E.
  1-2: intros [= <- <- _]; done.
  change (NewRequest MethodPost ("/" +:+ "resync") au) with (mkRequest MethodPost "/resync" [] au).
  unfold mux, route_of, methodOnly. cbn [rq_Path rq_Method]. change (mux_path "/resync") with "/resync". cbn.
  unfold handleResync, call, st_bind, count, Http.on_agent; cbn. unfold ForceResync, on_engine.
  by destruct (ForceRun (e_bis (co_engine c))) as [[] st]; intros [= <- <- _].
Qed.

(** An action of the command line, as it returns to the user. *)
Lemma ctl_action dec_fields name c m : (forall l, dec_fields (BFields l) = Ok l) ->
  let x := ctlRunAction (net_to sc) body_text (Ok cfg) flag dec_fields name (c, m) in
  let stepped a := engine_do ag a (co_engine c) = Some (co_engine (fst (snd x))) in
  (name = "pause" -> fst x = Ok [("status", "paused")] /\ stepped (APause true)) /\
  (name = "resume" -> fst x = Ok [("status", "resumed")] /\ stepped (APause false)) /\
  (name = "resync" -> is_ok (fst x) = is_ok (fst (ForceRun (e_bis (co_engine c)))) /\ stepped AForce).
Proof.
  intros Hf. cbv zeta. unfold ctlRunAction. rewrite ctl_call_mux.
  set (au := if String.eqb (sc_AuthToken sc) "" then "" else "Bearer " +:+ sc_AuthToken sc).
  pose proof (mux_action name au c m) as Hm. destruct (mux sc _ (c, m)) as [r [c' m']].
  destruct Hm as (H1' & H2' & H3'). split; [|split]; intros Hn.
  - destruct (H1' Hn) as [-> He]. split; [|exact He]. cbn. unfold status_json. by rewrite Hf.
  - destruct (H2' Hn) as [-> He]. split; [|exact He]. cbn. unfold status_json. by rewrite Hf.
  - destruct (H3' Hn) as [-> He]. split; [|exact He].
    destruct (is_ok (fst (ForceRun (e_bis (co_engine c))))); cbn; [unfold status_json; by rewrite Hf|done].
Qed.

(** Without the configuration there is no token. *)
Lemma ctl_unconfigured {A} (decode : Body -> result A) err method path s : sc_AuthToken sc <> "" ->
  is_ok (fst (ctl_call (net_to sc) body_text (Err err) flag decode method path s)) = false /\
  snd (ctl_call (net_to sc) body_text (Err err) flag decode method path s) = s.
Proof.
  intros Ht. unfold ctl_call, ctlTarget, ctlDo, st_try, net_to. destruct (String.eqb _ _); [|done].
  unfold NewRequest. destruct (Cut _ _) as [[p q] fd].
  unfold control_serve, serve, withAuth. rewrite (proj2 (String.eqb_neq _ _) Ht). done.
Qed.

End calls.

(** ** Properties *)

(** C21: the command line controls the agent built from the same configuration:
    whatever listen address and token that has, [ctl pause], [resume] and
    [resync] are the engine's steps and report its answer (a resync during a
    pass is an error), [ctl status] shows the agent's status, [ctl conflict
    repair] runs the repair with the given dry-run flag and shows its report;
    and if the command cannot read the configuration of an agent that has a
    token, it fails and the agent is left alone. *)
Theorem ctl_controls_agent cfg sc text flag dec_status dec_fields dec_report c m :
  buildHTTPServer cfg = Ok sc ->
  (forall i, dec_status (BStatus i) = Ok i) -> (forall l, dec_fields (BFields l) = Ok l) ->
  (forall r, dec_report (BReport r) = Ok r) ->
  let act loaded name := ctlRunAction (net_to sc) text loaded flag dec_fields name (c, m) in
  let after (x : result (list (string * string)) * (C * Metrics)) := co_engine (fst (snd x)) in
  (fst (act (Ok cfg) "pause") = Ok [("status", "paused")] /\
     engine_do ag (APause true) (co_engine c) = Some (after (act (Ok cfg) "pause"))) /\
  (fst (act (Ok cfg) "resume") = Ok [("status", "resumed")] /\
     engine_do ag (APause false) (co_engine c) = Some (after (act (Ok cfg) "resume"))) /\
  (is_ok (fst (act (Ok cfg) "resync")) = is_ok (fst (ForceRun (e_bis (co_engine c)))) /\
     engine_do ag AForce (co_engine c) = Some (after (act (Ok cfg) "resync"))) /\
  (forall info, fst (Status ce c) = Ok info ->
     fst (ctlRunStatus (net_to sc) text (Ok cfg) flag dec_status (c, m)) = Ok info) /\
  (forall dry rep, fst (Agent_RunChainRepair ag dry c) = Ok rep ->
     fst (ctlRunConflictRepair (net_to sc) text (Ok cfg) flag dec_report dry (c, m)) = Ok rep) /\
  (forall err name, sc_AuthToken sc <> "" ->
     is_ok (fst (act (Err err) name)) = false /\ snd (act (Err err) name) = (c, m)).
Proof.
  intros Hb Hs Hf Hr act after.
  destruct (ctl_action cfg sc text flag Hb dec_fields "pause" c m Hf) as (H1' & _ & _).
  destruct (ctl_action cfg sc text flag Hb dec_fields "resume" c m Hf) as (_ & H2' & _).
  destruct (ctl_action cfg sc text flag Hb dec_fields "resync" c m Hf) as (_ & _ & H3').
  split; [by apply H1'|]. split; [by apply H2'|]. split; [by apply H3'|]. split; [|split].
  - intros info Hi. unfold ctlRunStatus. rewrite (ctl_call_mux cfg sc text flag Hb).
    set (au := if String.eqb _ "" then _ else _). pose proof (mux_status sc [] au c m) as Hm. rewrite Hi in Hm.
    change (NewRequest MethodGet "/status" au) with (mkRequest MethodGet "/status" [] au).
    destruct (mux sc _ (c, m)) as [resp s']. cbn in Hm. subst resp. cbn. by rewrite Hs.
  - intros dry rep Hi. unfold ctlRunConflictRepair. rewrite (ctl_call_mux cfg sc text flag Hb).
    set (au := if String.eqb _ "" then _ else _). pose proof (mux_repair sc au dry c m) as Hm. cbv zeta in Hm. rewrite Hi in Hm.
    destruct (mux sc _ (c, m)) as [resp s']. cbn in Hm. subst resp. cbn. by rewrite Hr.
  - intros err name Ht. by apply ctl_unconfigured.
Qed.

End end_to_end.

(** ** Witnesses *)

(** The endpoint of a configuration that listens everywhere, with a token. *)
Definition remote_cfg : AppConfig :=
  mkAppConfig "/home" "gdrive:" "" (mkWatcherCfg 0 0 []) (mkPushCfg 0 (mkRetryCfg 0 0 0)) (mkPullCfg 0 0)
    (mkConflictCfg "" "" zero_retention None) (mkStateCfg "" "") (mkHTTPCfg "0.0.0.0:7000" true "secret" 0)
    (mkMQTTCfg false "" "" "" "" 0 0) (mkLoggingCfg "" "")
    (mkQuotaCfg (float64_of_Z 0) (float64_of_Z 0)) false.

Definition read_fields (b : Body) : result (list (string * string)) :=
  match b with BFields l => Ok l | _ => Err (EText "json") end.

Definition read_status (b : Body) : result StatusInfo := match b with BStatus i => Ok i | _ => Err (EText "json") end.

Definition read_report (b : Body) : result RepairReport := match b with BReport r => Ok r | _ => Err (EText "json") end.

Abbreviation demo_ctl_run loaded name :=
  (ctlRunAction (@net_to MemFS MemBolt _ _ demo_env engine_agent control_env
     (mkServerConfig "0.0.0.0:7000" true "secret")) (fun _ => "") loaded None read_fields name (demo_control, NewMetrics)).

Lemma ctl_controls_agent_witness :
  fst (demo_ctl_run (Ok remote_cfg) "pause") = Ok [("status", "paused")] /\
  e_paused (co_engine (fst (snd (demo_ctl_run (Ok remote_cfg) "pause")))) = true /\
  is_ok (fst (demo_ctl_run (Err (EText "no file")) "pause")) = false.
Proof.
  destruct (ctl_controls_agent (H1 := demo_env) engine_agent control_env remote_cfg
    (mkServerConfig "0.0.0.0:7000" true "secret") (fun _ => "") None read_status read_fields read_report demo_control
    NewMetrics) as ((Hp & He) & _ & _ & _ & _ & Hn).
  - vm_compute. reflexivity.
  - reflexivity.
  - reflexivity.
  - reflexivity.
  - split; [exact Hp|]. split.
    + vm_compute. reflexivity.
    + destruct (Hn (EText "no file") "pause") as [Hf _]; [discriminate|exact Hf].
Defined.

Example ctl_timeouts :
  map (fun f => ctlEffectiveTimeout f (30 * Second)) [None; Some 0; Some (-1); Some (2 * Second)] =
    [30 * Second; 30 * Second; 30 * Second; 2 * Second] /\
  ctlEffectiveTimeout None 0 = defaultCtlHTTPTimeout.
Proof. by split. Qed.
