(* ===== verification/Drive.v ===== *)
(** The Drive Changes API behind [RcloneFS] (internal/rcloneclient):
    idpathcache.go, rootid.go, oauthstatus.go, oauthvalidate.go and
    driveapi.go. The API client, the OAuth library and rclone.conf are
    third-party and parameters; what is modelled is what the code makes of
    their answers. *)
From S2P Require Import Prelude.
From S2P Require Import GoStrings.
From S2P Require Import GoRuntime.
From S2P Require Import GoPath.
From S2P Require Import Rfc3339.
From S2P Require Import Remote.
From S2P Require Import PathFilter.

(** ** The third-party client *)

(** [drive.File], [drive.Change] and [drive.ChangeList]: the requested fields. *)
Record DFile := mkDFile {
  df_Name : string;
  df_Parents : list string;
  df_MimeType : string;
  df_ModifiedTime : string;
  df_Md5Checksum : string;
  df_Size : Z;
  df_Trashed : bool;
}.

Record DChange := mkDChange { dc_FileId : string; dc_Removed : bool; dc_File : option DFile }.

Record DChangeList := mkDChangeList {
  dl_Changes : list DChange;
  dl_NewStartPageToken : string;
  dl_NextPageToken : string;
}.

(** The calls the code makes, [errors.As] against the two error types it asks
    for (the HTTP code of a [googleapi.Error], the error code of an
    [oauth2.RetrieveError]), the sections of rclone.conf and the token
    refresh. *)
Class DriveAPI (D : Type) := {
  Changes_List : string -> ST D (result DChangeList);
  Changes_GetStartPageToken : ST D (result string);
  Files_Get_root : ST D (result string);
  Files_List : string -> ST D (result (list string));
  NewService : ST D (result unit);
  api_code : error -> option Z;
  retrieve_code : error -> option string;
  FileGetValue : string -> string -> option string;
  Unmarshal_token : string -> result string;
  refresh_token : string -> ST D (result unit);
}.

(** ** Definitions *)

(** *** idpathcache.go *)

Definition idPathCache : Type := gmap string string.

Definition cache_get (id : string) (c : idPathCache) : option string :=
  if String.eqb id "" then None else c !! id.

Definition cache_put (id path : string) (c : idPathCache) : idPathCache :=
  if String.eqb id "" then c else <[id := path]> c.

(** *** State

    [ds_service] is whether [changesSvc] was built. *)
Record DriveState (D : Type) := mkDriveState {
  ds_api : D;
  ds_service : bool;
  ds_rootID : string;
  ds_cache : idPathCache;
  ds_oauthChecked : bool;
  ds_oauthConfigured : bool;
}.
Arguments mkDriveState {D} _ _ _ _ _ _.
Arguments ds_api {D} _.
Arguments ds_service {D} _.
Arguments ds_rootID {D} _.
Arguments ds_cache {D} _.
Arguments ds_oauthChecked {D} _.
Arguments ds_oauthConfigured {D} _.

(** The fixed part of [RcloneFS]; [r_pages] bounds the pages that one poll
    follows and the depth of a walk (see [pollChanges_fuel] and the walk's
    theorems for why a bound that is large enough is no restriction). *)
Record RcloneCfg := mkRcloneCfg {
  r_remote : string;
  r_exclude : list string;
  r_root : string;
  r_bound : nat;
  r_match : string -> string -> bool;
}.

(** [remoteSectionName]. *)
Definition remoteSectionName (remote : string) : string := fst (fst (Cut remote ":")).

(** Byte-for-string replacement, [strings.ReplaceAll] with a one-byte pattern. *)
Fixpoint ReplaceByte (c : ascii) (rep s : string) : string :=
  match s with
  | "" => ""
  | String c' r => if Ascii.eqb c c' then rep +:+ ReplaceByte c rep r else String c' (ReplaceByte c rep r)
  end.

Definition backslash : ascii := "\"%char.

Definition quote : ascii := "'"%char.

Definition escapeDriveQueryValue (s : string) : string :=
  ReplaceByte quote (String backslash (String quote "")) (ReplaceByte backslash (String backslash (String backslash "")) s).

Definition StatusGone : Z := 410.

Definition StatusBadRequest : Z := 400.

Definition initialSyncPrefix : string := "initial_sync:".

Definition driveFolderMimeType : string := "application/vnd.google-apps.folder".

Section drive.
Context {D : Type} `{DriveAPI D}.
Abbreviation DS := (DriveState D).

Definition on_api {A} (m : ST D A) : ST DS A := fun s =>
  let '(a, d) := m (ds_api s) in
  (a, mkDriveState d (ds_service s) (ds_rootID s) (ds_cache s) (ds_oauthChecked s) (ds_oauthConfigured s)).

Definition get_cache : ST DS idPathCache := fun s => (ds_cache s, s).

Definition put_path (id path : string) : ST DS unit := fun s =>
  (tt, mkDriveState (ds_api s) (ds_service s) (ds_rootID s) (cache_put id path (ds_cache s))
         (ds_oauthChecked s) (ds_oauthConfigured s)).

Definition set_rootID (id : string) : ST DS unit := fun s =>
  (tt, mkDriveState (ds_api s) (ds_service s) id (ds_cache s) (ds_oauthChecked s) (ds_oauthConfigured s)).

Definition set_oauth (configured : bool) : ST DS unit := fun s =>
  (tt, mkDriveState (ds_api s) (ds_service s) (ds_rootID s) (ds_cache s) true configured).

Definition set_service : ST DS unit := fun s =>
  (tt, mkDriveState (ds_api s) true (ds_rootID s) (ds_cache s) (ds_oauthChecked s) (ds_oauthConfigured s)).

Variable r : RcloneCfg.

Definition remoteName : string := remoteSectionName (r_remote r).

(** *** OAuth *)

(** [readOAuthConfig] and [buildOAuthConfig]: the stored refresh token, and
    whether the remote has client credentials of its own. *)
Definition readOAuthConfig : result (string * bool) :=
  match FileGetValue remoteName "token" with
  | None => Err (EText ("no oauth token stored for remote " +:+ remoteName +:+ " in rclone.conf"))
  | Some tokenJSON =>
      if String.eqb tokenJSON ""
      then Err (EText ("no oauth token stored for remote " +:+ remoteName +:+ " in rclone.conf"))
      else
        let value key := match FileGetValue remoteName key with Some v => v | None => "" end in
        match Unmarshal_token tokenJSON with
        | Err e => Err (EWrap "parse stored oauth token" e)
        | Ok tok => Ok (tok, negb (String.eqb (value "client_id") "")
                             && negb (String.eqb (value "client_secret") ""))
        end
  end.

Definition oauthHTTPClient : ST DS (result unit) :=
  match readOAuthConfig with
  | Err e => st_ret (Err e)
  | Ok (_, configured) => set_oauth configured ;; st_ret (Ok tt)
  end.

(** Built once. *)
Definition driveService : ST DS (result unit) := fun s =>
  if ds_service s then (Ok tt, s)
  else
    (let? _ := oauthHTTPClient ?: "build oauth client for changes API" in
     let? _ := on_api NewService ?: "build drive service" in
     set_service ;; st_ret (Ok tt)) s.

(** [OAuthStatus]: checked, and client configured. *)
Definition OAuthStatus (s : DS) : bool * bool := (ds_oauthChecked s, ds_oauthConfigured s).

Definition isOAuthClientMissingErr (err : error) (clientConfigured : bool) : bool :=
  if clientConfigured then false else match retrieve_code err with Some _ => true | None => false end.

Definition clientSetupErrorCodes : list string :=
  ["invalid_client"; "unauthorized_client"; "unsupported_grant_type"; "invalid_scope"].

Definition classifyOAuthRefreshErr (code : string) (cause : error) : error :=
  let see := " -- see homedrive/docs/oauth-troubleshooting.md" in
  if existsb (String.eqb code) clientSetupErrorCodes then
    EJoin (ESent ErrOAuthClientMisconfigured)
      (EWrap ("remote " +:+ remoteName +:+ "'s client_id/client_secret was rejected by Google's token endpoint ("
              +:+ code +:+ ")" +:+ see) cause)
  else
    EJoin (ESent ErrOAuthTokenInvalid)
      (EWrap ("remote " +:+ remoteName +:+ "'s stored refresh token was rejected by Google's token endpoint ("
              +:+ code +:+ ")" +:+ see) cause).

Definition forceOAuthRefresh (tok : string) : ST DS (result unit) :=
  let* r := on_api (refresh_token tok) in
  st_ret (match r with
          | Ok _ => Ok tt
          | Err e => match retrieve_code e with
                     | None => Ok tt
                     | Some code => Err (classifyOAuthRefreshErr code e)
                     end
          end).

(** The startup check. *)
Definition validateOAuthCredential : ST DS (result unit) :=
  match readOAuthConfig with
  | Err _ => st_ret (Ok tt)
  | Ok (tok, configured) =>
      set_oauth configured ;;
      if String.eqb tok "" then st_ret (Ok tt) else forceOAuthRefresh tok
  end.

(** *** rootid.go *)

Definition folder_query (parentID name : string) : string :=
  "name = '" +:+ escapeDriveQueryValue name +:+ "' and '" +:+ parentID +:+
  "' in parents and mimeType = 'application/vnd.google-apps.folder' and trashed = false".

Definition findChildFolderID (parentID name : string) : ST DS (result string) :=
  let? files := on_api (Files_List (folder_query parentID name)) ?: "resolve root segment " +:+ name in
  st_ret (match files with
          | id :: _ => Ok id
          | [] => Err (EText ("resolve root segment " +:+ name +:+ ": not found under parent " +:+ parentID))
          end).

Fixpoint resolve_segments (segs : list string) (parentID : string) : ST DS (result string) :=
  match segs with
  | [] => st_ret (Ok parentID)
  | seg :: segs =>
      let? id := findChildFolderID parentID seg in
      resolve_segments segs id
  end.

(** [strings.Trim(s, "/")]. *)
Fixpoint trim_left_slash (s : string) : string :=
  match s with String c rest => if Ascii.eqb c slash then trim_left_slash rest else s | "" => "" end.

Definition Trim_slash (s : string) : string :=
  let s := trim_left_slash s in
  if String.eqb s "" then "" else strip_trailing_slashes (strlen s) s.

Definition resolveRootID (root : string) : ST DS (result string) :=
  let rel := Trim_slash root in
  if String.eqb rel "" || String.eqb rel "." then
    let? id := on_api Files_Get_root ?: "resolve My Drive root id" in
    st_ret (Ok id)
  else resolve_segments (SplitByte rel slash) "root".

(** Resolved once; a failure is not remembered. *)
Definition ensureRootID : ST DS (result unit) := fun s =>
  if negb (String.eqb (ds_rootID s) "") then (Ok tt, s)
  else
    (let? id := resolveRootID (r_root r) in
     set_rootID id ;;
     put_path id "" ;;
     st_ret (Ok tt)) s.

(** *** Changes *)

Definition isGoneErr (e : error) : bool :=
  match api_code e with Some c => c =? StatusGone | None => false end.

Definition isBadPageTokenErr (e : error) : bool :=
  match api_code e with Some c => c =? StatusBadRequest | None => false end.

Definition resolveChangePath (f : DFile) (c : idPathCache) : option string :=
  match df_Parents f with
  | [] => Some (df_Name f)
  | parentID :: _ =>
      match cache_get parentID c with
      | None => None
      | Some parentPath =>
          if String.eqb parentPath "" then Some (df_Name f) else Some (PathJoin parentPath (df_Name f))
      end
  end.

Definition change_object (id path : string) (f : DFile) : RemoteObject :=
  mkRemoteObject path (df_Size f) (parseDriveTime (df_ModifiedTime f)) (df_Md5Checksum f) id false
    (String.eqb (df_MimeType f) driveFolderMimeType).

Definition translateChange (c : DChange) : ST DS (option Change) :=
  let* cache := get_cache in
  match dc_Removed c, dc_File c with
  | false, Some f =>
      match resolveChangePath f cache with
      | None => st_ret None
      | Some p =>
          if remote_excluded (r_match r) (r_exclude r) p then st_ret None
          else if df_Trashed f then st_ret (Some (mkChange p true None))
          else
            put_path (dc_FileId c) p ;;
            st_ret (Some (mkChange p false (Some (change_object (dc_FileId c) p f))))
      end
  | _, _ =>
      match cache_get (dc_FileId c) cache with
      | None => st_ret None
      | Some p =>
          st_ret (if remote_excluded (r_match r) (r_exclude r) p then None else Some (mkChange p true None))
      end
  end.

(** The loop over a page. *)
Fixpoint translate_page (cs : list DChange) : ST DS (list Change) :=
  match cs with
  | [] => st_ret []
  | c :: cs =>
      let* ch := translateChange c in
      let* chs := translate_page cs in
      st_ret (match ch with Some ch => ch :: chs | None => chs end)
  end.

(** What a failed [changes.list] becomes. *)
Definition classify_list_err (err : error) (s : DS) : error :=
  if isGoneErr err then EWrap "rcloneclient: changes.list" (EJoin (ESent ErrGone) err)
  else if isBadPageTokenErr err then EWrap "rcloneclient: changes.list" (NewTokenRejectedErr err)
  else if isOAuthClientMissingErr err (snd (OAuthStatus s))
  then EWrap "rcloneclient: changes.list" (EJoin (ESent ErrOAuthClientMissing) err)
  else EWrap "rcloneclient: changes.list" err.

Definition too_many_pages : error := EText "more pages than the model's bound".

(** The page loop of [pollChanges]. *)
Fixpoint poll_pages (fuel : nat) (token : string) (items : list Change) : ST DS (result Changes) :=
  match fuel with
  | O => st_ret (Err too_many_pages)
  | S fuel => fun s =>
      let '(r, s) := on_api (Changes_List token) s in
      match r with
      | Err err => (Err (classify_list_err err s), s)
      | Ok l =>
          let '(chs, s) := translate_page (dl_Changes l) s in
          let items := items ++ chs in
          if negb (String.eqb (dl_NewStartPageToken l) "")
          then (Ok (mkChanges items (dl_NewStartPageToken l)), s)
          else if negb (String.eqb (dl_NextPageToken l) "")
          then poll_pages fuel (dl_NextPageToken l) items s
          else (Ok (mkChanges items token), s)
      end
  end.

Definition pollChanges (pageToken : string) : ST DS (result Changes) :=
  let? _ := driveService in
  let? _ := ensureRootID ?: "resolve sync root id" in
  poll_pages (r_bound r) pageToken [].

Definition Drive_GetStartPageToken : ST DS (result string) :=
  let? _ := driveService ?: "rcloneclient: build changes client" in
  let? tok := on_api Changes_GetStartPageToken ?: "rcloneclient: changes.getStartPageToken" in
  st_ret (Ok (initialSyncPrefix +:+ tok)).

End drive.

(** ** Lemmas *)

(** *** Query literals

    How Drive reads a string literal of a query after its opening quote: a
    backslash takes the next character as it is, an unescaped quote ends the
    literal. *)
Fixpoint read_literal (s : string) : option (string * string) :=
  match s with
  | "" => None
  | String c rest =>
      if Ascii.eqb c quote then Some ("", rest)
      else if Ascii.eqb c backslash then
        match rest with
        | "" => None
        | String c' rest => '(v, rest) ← read_literal rest; Some (String c' v, rest)
        end
      else '(v, rest) ← read_literal rest; Some (String c v, rest)
  end.

(** The two replacements, character by character. *)
Lemma escape_cons c s :
  escapeDriveQueryValue (String c s) =
  if Ascii.eqb c backslash || Ascii.eqb c quote
  then String backslash (String c (escapeDriveQueryValue s))
  else String c (escapeDriveQueryValue s).
Proof.
  unfold escapeDriveQueryValue. cbn [ReplaceByte].
  destruct (Ascii.eqb_spec backslash c) as [<-|Hb].
  - by rewrite Ascii.eqb_refl.
  - rewrite (proj2 (Ascii.eqb_neq c backslash)) by congruence. cbn [ReplaceByte orb].
    destruct (Ascii.eqb_spec quote c) as [<-|Hq]; [by rewrite Ascii.eqb_refl|].
    by rewrite (proj2 (Ascii.eqb_neq c quote)) by congruence.
Qed.

(** A folder name put into a Drive query is read back as exactly that
    name: whatever quotes and backslashes it has, the literal ends where the
    code closes it, and the rest of the query is what the code wrote. *)
Theorem escape_roundtrip name rest :
  read_literal (escapeDriveQueryValue name +:+ String quote rest) = Some (name, rest).
Proof.
  induction name as [|c name IH]; [done|]. rewrite escape_cons.
  set (q := escapeDriveQueryValue name) in *.
  destruct (Ascii.eqb_spec c backslash) as [->|Hb]; [|destruct (Ascii.eqb_spec c quote) as [->|Hq]];
    cbn [orb].
  - change (_ +:+ _) with (String backslash (String backslash (q +:+ String quote rest))).
    cbn [read_literal]. by rewrite IH.
  - change (_ +:+ _) with (String backslash (String quote (q +:+ String quote rest))).
    cbn [read_literal]. by rewrite IH.
  - change (_ +:+ _) with (String c (q +:+ String quote rest)). cbn [read_literal].
    rewrite (proj2 (Ascii.eqb_neq c quote)), (proj2 (Ascii.eqb_neq c backslash)) by done.
    by rewrite IH.
Qed.

(** *** The page loop *)

Section drive_lemmas.
Context {D : Type} `{DriveAPI D}.
Abbreviation DS := (DriveState D).
Variable r : RcloneCfg.

Definition with_api (d : D) (s : DS) : DS :=
  mkDriveState d (ds_service s) (ds_rootID s) (ds_cache s) (ds_oauthChecked s) (ds_oauthConfigured s).

(** The pages Drive serves from a token on: their changes in order, the token
    to continue from, the API's state after them, and how many they are. *)
Inductive served : D -> string -> list DChange -> string -> D -> nat -> Prop :=
| served_last d tok l d' :
    Changes_List tok d = (Ok l, d') -> dl_NewStartPageToken l <> "" ->
    served d tok (dl_Changes l) (dl_NewStartPageToken l) d' 1
| served_end d tok l d' :
    Changes_List tok d = (Ok l, d') -> dl_NewStartPageToken l = "" -> dl_NextPageToken l = "" ->
    served d tok (dl_Changes l) tok d' 1
| served_more d tok l d1 cs t d2 n :
    Changes_List tok d = (Ok l, d1) -> dl_NewStartPageToken l = "" -> dl_NextPageToken l <> "" ->
    served d1 (dl_NextPageToken l) cs t d2 n ->
    served d tok (dl_Changes l ++ cs) t d2 (S n).

(** Translation only reads and extends the path cache. *)
Lemma translateChange_api c d (s : DS) :
  translateChange r c (with_api d s) =
  let '(a, s') := translateChange r c s in (a, with_api d s').
Proof.
  destruct s as [d0 sv root cache ck cf].
  unfold translateChange, st_bind, get_cache, st_ret, with_api; cbn.
  destruct (dc_Removed c), (dc_File c) as [f|]; try by destruct (cache_get _ _).
  destruct (resolveChangePath _ _); [|done]. destruct (remote_excluded _ _ _); [done|].
  by destruct (df_Trashed f).
Qed.

Lemma translateChange_keeps_api c (s : DS) : ds_api (snd (translateChange r c s)) = ds_api s.
Proof.
  destruct s as [d sv root cache ck cf].
  unfold translateChange, st_bind, get_cache, st_ret; cbn.
  destruct (dc_Removed c), (dc_File c) as [f|]; try by destruct (cache_get _ _).
  destruct (resolveChangePath _ _); [|done]. destruct (remote_excluded _ _ _); [done|].
  by destruct (df_Trashed f).
Qed.

Lemma translate_page_api cs d (s : DS) :
  translate_page r cs (with_api d s) = let '(a, s') := translate_page r cs s in (a, with_api d s').
Proof.
  revert s. induction cs as [|c cs IH]; intros s; cbn; [done|]. unfold st_bind.
  rewrite translateChange_api. destruct (translateChange r c s) as [o s1].
  rewrite IH. by destruct (translate_page r cs s1).
Qed.

Lemma translate_page_app cs1 cs2 (s : DS) :
  translate_page r (cs1 ++ cs2) s =
  let '(a, s1) := translate_page r cs1 s in
  let '(b, s2) := translate_page r cs2 s1 in (a ++ b, s2).
Proof.
  revert s. induction cs1 as [|c cs1 IH]; intros s; cbn.
  - by destruct (translate_page r cs2 s).
  - unfold st_bind. destruct (translateChange r c s) as [o s1]. rewrite IH.
    destruct (translate_page r cs1 s1) as [a s2].
    destruct o; cbn; by destruct (translate_page r cs2 s2) as [b s3].
Qed.

Lemma with_api_id (s : DS) : with_api (ds_api s) s = s.
Proof. by destruct s. Qed.

Lemma poll_pages_page fuel tok items (s : DS) l d' :
  Changes_List tok (ds_api s) = (Ok l, d') ->
  poll_pages r (S fuel) tok items s =
  let '(chs, s') := translate_page r (dl_Changes l) s in
  let s' := with_api d' s' in
  if negb (String.eqb (dl_NewStartPageToken l) "")
  then (Ok (mkChanges (items ++ chs) (dl_NewStartPageToken l)), s')
  else if negb (String.eqb (dl_NextPageToken l) "")
  then poll_pages r fuel (dl_NextPageToken l) (items ++ chs) s'
  else (Ok (mkChanges (items ++ chs) tok), s').
Proof.
  intros E. cbn [poll_pages]. unfold on_api. rewrite E. fold (with_api d' s).
  rewrite translate_page_api. by destruct (translate_page r (dl_Changes l) s).
Qed.

Lemma poll_pages_served fuel (s : DS) tok items cs t d' n :
  served (ds_api s) tok cs t d' n -> (n <= fuel)%nat ->
  poll_pages r fuel tok items s =
  let '(chs, s') := translate_page r cs s in (Ok (mkChanges (items ++ chs) t), with_api d' s').
Proof.
  intros Hs. remember (ds_api s) as d0 eqn:Ed. revert s Ed fuel items.
  induction Hs as [d tok l d' E Hn|d tok l d' E Hn Hx|d tok l d1 cs t d2 n E Hn Hx Hs IH];
    intros s -> [|fuel] items Hle; try lia; rewrite (poll_pages_page _ _ _ _ _ _ E).
  - by rewrite (proj2 (String.eqb_neq _ _) Hn).
  - by rewrite Hn, Hx.
  - rewrite translate_page_app, Hn, (proj2 (String.eqb_neq _ _) Hx). cbn [negb].
    rewrite String.eqb_refl. cbn [negb].
    destruct (translate_page r (dl_Changes l) s) as [chs s'].
    rewrite (IH (with_api d1 s')) by (done || lia). rewrite translate_page_api.
    destruct (translate_page r cs s') as [chs2 s2]. by rewrite <- app_assoc.
Qed.

(** With the client built and the root resolved, a poll is its page loop. *)
Lemma pollChanges_ready tok (s : DS) :
  ds_service s = true -> ds_rootID s <> "" -> pollChanges r tok s = poll_pages r (r_bound r) tok [] s.
Proof.
  intros Hs Hr. unfold pollChanges, driveService, ensureRootID, st_try. rewrite Hs.
  by rewrite (proj2 (String.eqb_neq _ _) Hr).
Qed.

(** C25: polling follows every page: when Drive serves the changes of a token
    over [n] pages, the poll returns the translation of all of them in order,
    and the token to continue from, for every bound of at least [n] pages. The
    changes are translated as one list, so how they are cut into pages does
    not matter. *)
Theorem poll_pages_complete tok (s : DS) cs t d' n :
  ds_service s = true -> ds_rootID s <> "" ->
  served (ds_api s) tok cs t d' n -> (n <= r_bound r)%nat ->
  pollChanges r tok s =
  let '(chs, s') := translate_page r cs s in (Ok (mkChanges chs t), with_api d' s').
Proof. intros Hs Hr Hp Hn. rewrite pollChanges_ready by done. by apply poll_pages_served with n. Qed.

(** C27: how a failed [changes.list] is classified, exactly: a 410 or a 400
    asks for a new token (the puller resets on [ErrGone]), only the 400 is
    marked as a rejected token, and only a failed token refresh on a remote
    without client credentials is the OAuth condition the puller backs off on;
    the cause stays in the chain. Nothing of the page is kept. *)
Theorem list_error_classified tok (s : DS) err d' :
  ds_service s = true -> ds_rootID s <> "" -> (0 < r_bound r)%nat ->
  Changes_List tok (ds_api s) = (Err err, d') ->
  (forall x, In x [ErrGone; ErrTokenRejected; ErrOAuthClientMissing] -> errors_Is err x = false) ->
  exists e, pollChanges r tok s = (Err e, with_api d' s) /\
    errors_Is e ErrGone = bool_decide (api_code err = Some 410 \/ api_code err = Some 400) /\
    errors_Is e ErrTokenRejected = bool_decide (api_code err = Some 400) /\
    errors_Is e ErrOAuthClientMissing =
      (isOAuthClientMissingErr err (ds_oauthConfigured s) &&
       negb (bool_decide (api_code err = Some 410 \/ api_code err = Some 400))) /\
    forall x, errors_Is err x = true -> errors_Is e x = true.
Proof.
  intros Hs Hr Hb Hl Hx. exists (classify_list_err err (with_api d' s)).
  pose proof (Hx ErrGone ltac:(cbn; tauto)) as H1.
  pose proof (Hx ErrTokenRejected ltac:(cbn; tauto)) as H2.
  pose proof (Hx ErrOAuthClientMissing ltac:(cbn; tauto)) as H3. split.
  - rewrite pollChanges_ready by done. destruct (r_bound r); [lia|]. cbn. unfold on_api.
    by rewrite Hl.
  - unfold classify_list_err, isGoneErr, isBadPageTokenErr, StatusGone, StatusBadRequest.
    change (snd (OAuthStatus (with_api d' s))) with (ds_oauthConfigured s).
    destruct (api_code err) as [c|].
    + destruct (Z.eqb_spec c 410) as [->|H410]; [|destruct (Z.eqb_spec c 400) as [->|H400]].
      1,2: cbn; rewrite H1, H2, H3, ?andb_false_r; repeat split; intros x ->; by rewrite ?orb_true_r.
      rewrite !bool_decide_eq_false_2 by naive_solver. rewrite andb_true_r.
      destruct (isOAuthClientMissingErr _ _); cbn; rewrite H1, H2, H3;
        repeat split; intros x ->; by rewrite ?orb_true_r.
    + rewrite !bool_decide_eq_false_2 by naive_solver. rewrite andb_true_r.
      destruct (isOAuthClientMissingErr _ _); cbn; rewrite H1, H2, H3;
        repeat split; intros x ->; by rewrite ?orb_true_r.
Qed.

End drive_lemmas.

(** ** An in-memory Drive

    Files by path with identifier, mtime, content and after how many bytes their
    stream breaks, if it does; folders with their identifiers; the
    answers of [changes.list] by token and of the token endpoint. *)
Record MemDrive := mkMemDrive {
  md_files : gmap string (string * Time * string * option nat);
  md_dirs : gmap string string;
  md_next : Z;
  md_pages : string -> result DChangeList;
  md_refresh : result unit;
}.

Definition http_error (code : string) : error := EText ("googleapi: Error " +:+ code).

#[export] Instance MemDrive_api : DriveAPI MemDrive := {
  Changes_List tok d := (md_pages d tok, d);
  Changes_GetStartPageToken d := (Ok "1", d);
  Files_Get_root d := (Ok "id-root", d);
  Files_List _ d := (Ok [], d);
  NewService d := (Ok tt, d);
  api_code e :=
    match e with
    | EText m => match Cut m "googleapi: Error " with (_, code, true) => Atoi code | _ => None end
    | _ => None
    end;
  retrieve_code e :=
    match e with
    | EText m => match Cut m "oauth2: " with (_, code, true) => Some code | _ => None end
    | _ => None
    end;
  FileGetValue _ key := if String.eqb key "token" then Some "token" else None;
  Unmarshal_token tok := Ok tok;
  refresh_token _ d := (md_refresh d, d);
}.

Definition demo_rclone : RcloneCfg := mkRcloneCfg "gdrive:" [] "" 10 (fun _ _ => false).

Definition pages_drive (pages : string -> result DChangeList) : MemDrive :=
  mkMemDrive ∅ ∅ 0 pages (Ok tt).

(** A client that is set up, with the folders a walk has found. *)
Definition ready (d : MemDrive) (cache : idPathCache) : DriveState MemDrive :=
  mkDriveState d true "id-root" cache true false.

Definition demo_file (name parent : string) : DFile := mkDFile name [parent] "text/plain" "" "" 1 false.

Definition demo_folder (name parent : string) : DFile := mkDFile name [parent] driveFolderMimeType "" "" 0 false.

Definition two_pages (tok : string) : result DChangeList :=
  if String.eqb tok "1" then Ok (mkDChangeList [mkDChange "f1" false (Some (demo_file "a" "id-root"))] "" "2")
  else if String.eqb tok "2" then Ok (mkDChangeList [mkDChange "f2" true None] "3" "")
  else Err (http_error "410").

Definition root_cache : idPathCache := <["id-root" := ""]> (<["f2" := "b"]> ∅).

Lemma poll_pages_complete_witness :
  match fst (pollChanges demo_rclone "1" (ready (pages_drive two_pages) root_cache)) with
  | Ok c => map ch_Path (Items c) = ["a"; "b"] /\ NextPageToken c = "3"
  | Err _ => False
  end.
Proof.
  rewrite (poll_pages_complete demo_rclone "1" (ready (pages_drive two_pages) root_cache)
    (dl_Changes (mkDChangeList [mkDChange "f1" false (Some (demo_file "a" "id-root"))] "" "2") ++
     dl_Changes (mkDChangeList [mkDChange "f2" true None] "3" ""))
    "3" (pages_drive two_pages) 2).
  - vm_compute. split; reflexivity.
  - reflexivity.
  - discriminate.
  - eapply served_more; [reflexivity|reflexivity|discriminate|].
    eapply (served_last _ _ (mkDChangeList _ _ _)); [reflexivity|discriminate].
  - cbn. lia.
Defined.

Lemma list_error_classified_witness :
  exists e, fst (pollChanges demo_rclone "9" (ready (pages_drive two_pages) root_cache)) = Err e /\
    errors_Is e ErrGone = true /\ errors_Is e ErrTokenRejected = false.
Proof.
  destruct (list_error_classified demo_rclone "9" (ready (pages_drive two_pages) root_cache)
    (http_error "410") (pages_drive two_pages)) as (e & E & H1 & H2 & _).
  - reflexivity.
  - discriminate.
  - cbn. lia.
  - reflexivity.
  - intros x _. reflexivity.
  - exists e. rewrite E, H1, H2. repeat split; reflexivity.
Defined.

(** A folder's children stay at its old path: after the folder [a] of the
    walked tree [a/b] is renamed to [c], a change to a file in the sub-folder
    is reported at [a/b/x], a path the remote no longer has, because only the
    renamed folder's own entry of the cache is replaced. The comment on
    [idPathCache] says staleness only affects very recently created
    parents. *)
Theorem nested_change_misplaced :
  map ch_Path (fst (translate_page demo_rclone
    [mkDChange "id-a" false (Some (demo_folder "c" "id-root"));
     mkDChange "id-x" false (Some (demo_file "x" "id-b"))]
    (ready (pages_drive two_pages) (<["id-root" := ""]> (<["id-a" := "a"]> (<["id-b" := "a/b"]> ∅)))))) =
  ["c"; "a/b/x"].
Proof. reflexivity. Qed.
