(* ===== verification/RcloneFS.v ===== *)
(** The production remote (internal/rcloneclient/rclonefs.go): [RcloneFS] over
    rclone's file-system backend and the Drive client of Drive.v. The backend
    is third-party and a parameter; its laws are the ones its documentation
    gives, and an in-memory backend shows that they can hold. *)
From S2P Require Import Prelude.
From S2P Require Import GoStrings.
From S2P Require Import GoRuntime.
From S2P Require Import GoPath.
From S2P Require Import LocalFS.
From S2P Require Import Remote.
From S2P Require Import PathFilter.
From S2P Require Import Drive.

(** ** The third-party backend *)

(** rclone's [fs.Object] as the code reads it: the identifier is absent when
    the object is no [IDer]. *)
Record RObject := mkRObject {
  rb_Remote : string;
  rb_Size : Z;
  rb_ModTime : Time;
  rb_ID : option string;
  rb_MimeType : string;
}.

(** [fs.DirEntry]: an object, or a directory with its path and identifier. *)
Inductive DirEntry := EObject (o : RObject) | EDirectory (remote id : string).

(** The calls the code makes. A stream that is opened delivers some bytes and
    then ends or breaks. [op_Rcat] uploads a content under a path with a
    modification time; [op_Move] is [operations.Move] to a path. [fs_About] is
    absent when the backend is no [Abouter]; its answer's fields are pointers.
    The two predicates are [errors.Is] against rclone's sentinels. *)
Class RcloneBackend (D : Type) := {
  fs_NewObject : string -> ST D (result RObject);
  fs_List : string -> ST D (result (list DirEntry));
  obj_Open : RObject -> ST D (result (string * option error));
  op_Rcat : string -> string -> Time -> ST D (result RObject);
  op_DeleteFile : RObject -> ST D (result unit);
  op_Move : string -> RObject -> ST D (result unit);
  fs_About : option (ST D (result (option Z * option Z)));
  is_ErrorObjectNotFound : error -> bool;
  is_ErrorIsDir : error -> bool;
}.

(** ** Definitions *)

(** [RcloneFSConfig], with rclone's answer to [config.SetConfigPath]. *)
Record RcloneFSConfig := mkRcloneFSConfig {
  rf_Remote : string;
  rf_ConfigPath : string;
  rf_Exclude : list string;
}.

(** [remoteObjectFromRclone]. *)
Definition remoteObjectFromRclone (o : RObject) : RemoteObject :=
  mkRemoteObject (rb_Remote o) (rb_Size o) (rb_ModTime o) ""
    (match rb_ID o with Some id => id | None => "" end) false false.

Definition danglingShortcutMimeType : string := "application/vnd.google-apps.shortcut.dangling".

Definition too_deep : error := EText "deeper than the model's bound".

Section rclone.
Context {D : Type} `{DriveAPI D} `{RcloneBackend D}.
Abbreviation DS := (DriveState D).

(** [newRcloneFS] with the default validation; [set_path] is rclone's answer to
    [config.SetConfigPath] and [buildFs] its [NewFs], which says whether the
    backend is Drive's and what its root is. The model's bound and the glob
    matcher are fixed here. *)
Definition newRcloneFS (cfg : RcloneFSConfig) (bound : nat) (matches : string -> string -> bool)
    (set_path : string -> result unit) (buildFs : string -> ST D (result (bool * string))) (d : D) :
    result (RcloneCfg * DS) * D :=
  match if String.eqb (rf_ConfigPath cfg) "" then Ok tt else set_path (rf_ConfigPath cfg) with
  | Err e => (Err (EWrap ("rcloneclient: set config path " +:+ rf_ConfigPath cfg) e), d)
  | Ok _ =>
      if String.eqb (rf_Remote cfg) "" then (Err (EText "rcloneclient: remote is required"), d)
      else
        let r root := mkRcloneCfg (rf_Remote cfg) (rf_Exclude cfg) root bound matches in
        let '(v, s) := validateOAuthCredential (r "") (mkDriveState d false "" ∅ false false) in
        match v with
        | Err e => (Err e, ds_api s)
        | Ok _ =>
            let '(b, s) := on_api (buildFs (rf_Remote cfg)) s in
            match b with
            | Err e => (Err (EWrap ("rcloneclient: init remote " +:+ rf_Remote cfg) e), ds_api s)
            | Ok (false, _) =>
                (Err (EText ("rcloneclient: remote " +:+ rf_Remote cfg +:+ " is not a drive backend")), ds_api s)
            | Ok (true, root) => (Ok (r root, s), ds_api s)
            end
        end
  end.

Variable r : RcloneCfg.

(** The file is opened, its mtime read, and its content streamed. *)
Definition Rclone_CopyFile (src dstDir : string) (fs : LocalFS) : ST DS (result RemoteObject) :=
  let dstRemote := PathJoin dstDir (PathBase src) in
  let what := "rcloneclient: copy " +:+ src +:+ " to " +:+ dstRemote in
  match fst (os_ReadFile src fs) with
  | Err e => st_ret (Err (EWrap what e))
  | Ok content =>
      match fst (os_Stat src fs) with
      | Err e => st_ret (Err (EWrap what e))
      | Ok info =>
          let? o := on_api (op_Rcat dstRemote content (ModTime info)) ?: what in
          st_ret (Ok (remoteObjectFromRclone o))
      end
  end.

Definition Rclone_DeleteFile (remotePath : string) : ST DS (result unit) :=
  let lookup := "rcloneclient: delete lookup " +:+ remotePath in
  let* o := on_api (fs_NewObject remotePath) in
  match o with
  | Err e =>
      st_ret (Err (EWrap lookup (if is_ErrorObjectNotFound e then ESent ErrNotFound
                                 else if is_ErrorIsDir e then ESent ErrIsDir else e)))
  | Ok obj =>
      let? _ := on_api (op_DeleteFile obj) ?: "rcloneclient: delete " +:+ remotePath in
      st_ret (Ok tt)
  end.

Definition Rclone_MoveFile (src dst : string) : ST DS (result unit) :=
  let? srcObj := on_api (fs_NewObject src) ?: "rcloneclient: move lookup " +:+ src in
  let? _ := on_api (op_Move dst srcObj) ?: "rcloneclient: move " +:+ src +:+ " to " +:+ dst in
  st_ret (Ok tt).

Definition Rclone_Stat (remotePath : string) : ST DS (result RemoteObject) :=
  let? obj := on_api (fs_NewObject remotePath) ?: "rcloneclient: stat " +:+ remotePath in
  st_ret (Ok (remoteObjectFromRclone obj)).

(** Objects of one directory; sub-directories are left out. *)
Fixpoint objects_of (es : list DirEntry) : list RemoteObject :=
  match es with
  | [] => []
  | EObject o :: es => remoteObjectFromRclone o :: objects_of es
  | EDirectory _ _ :: es => objects_of es
  end.

Definition Rclone_List (dir : string) : ST DS (result (list RemoteObject)) :=
  let? es := on_api (fs_List dir) ?: "rcloneclient: list " +:+ dir in
  st_ret (Ok (objects_of es)).

Definition Rclone_Quota : ST DS (result Quota) :=
  match fs_About with
  | None => st_ret (Err (EText "rcloneclient: remote does not support About"))
  | Some about =>
      let? u := on_api about ?: "rcloneclient: quota" in
      let '(used, total) := u in
      st_ret (Ok (mkQuota (match used with Some z => z | None => 0 end)
                          (match total with Some z => z | None => -1 end)))
  end.

(** The loop over a directory's entries, [rec] walking a sub-directory; the
    changes found so far are handed on, an error stops the walk. *)
Fixpoint walk_entries (rec : string -> list Change -> ST DS (result (list Change)))
    (es : list DirEntry) (items : list Change) : ST DS (result (list Change)) :=
  match es with
  | [] => st_ret (Ok items)
  | EObject o :: es =>
      let ro := remoteObjectFromRclone o in
      if remote_excluded (r_match r) (r_exclude r) (ro_Path ro) then walk_entries rec es items
      else
        put_path (ro_RemoteID ro) (ro_Path ro) ;;
        walk_entries rec es (items ++ [mkChange (ro_Path ro) false (Some ro)])
  | EDirectory p id :: es =>
      put_path id p ;;
      if remote_excluded (r_match r) (r_exclude r) p then walk_entries rec es items
      else
        let? items := rec p items in
        walk_entries rec es items
  end.

Fixpoint listRecursive (fuel : nat) (dir : string) (items : list Change) : ST DS (result (list Change)) :=
  match fuel with
  | O => st_ret (Err too_deep)
  | S fuel =>
      let? entries := on_api (fs_List dir) ?: "list " +:+ dir in
      walk_entries (listRecursive fuel) entries items
  end.

Definition fullWalkThenResume (resumeToken : string) : ST DS (result Changes) :=
  let? resumeToken :=
    (if String.eqb resumeToken "" then
       let? tok := Drive_GetStartPageToken r in st_ret (Ok (TrimPrefix tok initialSyncPrefix))
     else st_ret (Ok resumeToken)) in
  let? items := listRecursive (r_bound r) "" [] ?: "rcloneclient: walk for initial sync" in
  st_ret (Ok (mkChanges items resumeToken)).

Definition Rclone_ListChanges (pageToken : string) : ST DS (result Changes) :=
  if String.eqb pageToken "" || HasPrefix pageToken initialSyncPrefix
  then fullWalkThenResume (TrimPrefix pageToken initialSyncPrefix)
  else pollChanges r pageToken.

(** A call on the remote beside the local files, and one on the files. *)
Definition at_remote {A} (m : ST DS A) : ST (DS * LocalFS) A := fun '(s, fs) =>
  let '(a, s) := m s in (a, (s, fs)).

Definition at_local {A} (m : ST LocalFS A) : ST (DS * LocalFS) A := fun '(s, fs) =>
  let '(a, fs) := m fs in (a, (s, fs)).

(** The file is created first and the stream copied into it; a stream that
    breaks leaves what was received. *)
Definition Rclone_DownloadFile (remotePath localPath : string) : ST (DS * LocalFS) (result unit) :=
  let? obj := at_remote (on_api (fs_NewObject remotePath)) ?: "rcloneclient: open remote " +:+ remotePath in
  if String.eqb (rb_MimeType obj) danglingShortcutMimeType
  then st_ret (Err (EWrap ("rcloneclient: download " +:+ remotePath) (ESent ErrDanglingShortcut)))
  else
    let? stream := at_remote (on_api (obj_Open obj)) ?: "rcloneclient: open stream " +:+ remotePath in
    let '(bytes, broken) := stream in
    let? _ := at_local (os_MkdirAll (Dir localPath)) ?: "rcloneclient: mkdirall for " +:+ localPath in
    let? _ := at_local (os_WriteFile localPath bytes) ?: "rcloneclient: create " +:+ localPath in
    match broken with
    | Some e => st_ret (Err (EWrap ("rcloneclient: download " +:+ localPath) e))
    | None =>
        at_local (os_Chtimes localPath (rb_ModTime obj)) ;;
        st_ret (Ok tt)
    end.

Definition RcloneFS : RemoteFS DS := {|
  CopyFile := Rclone_CopyFile;
  DeleteFile := Rclone_DeleteFile;
  MoveFile := Rclone_MoveFile;
  RemoteStat := Rclone_Stat;
  RemoteList := Rclone_List;
  ListChanges := Rclone_ListChanges;
  GetStartPageToken := Drive_GetStartPageToken r;
  DownloadFile := Rclone_DownloadFile;
  RemoteQuota := Rclone_Quota;
|}.

End rclone.

(** ** What rclone promises

    [drive_tree] is the tree of objects as rclone presents them; the calls that
    read leave it alone, and a successful write does to it what its
    documentation says. *)
Class RcloneLaws (D : Type) `{DriveAPI D} `{RcloneBackend D}
    (drive_tree : D -> gmap string RemoteObject) := {
  bl_new : forall p d, drive_tree (snd (fs_NewObject p d)) = drive_tree d;
  bl_found : forall p d o d', fs_NewObject p d = (Ok o, d') ->
    rb_Remote o = p /\ drive_tree d !! p = Some (remoteObjectFromRclone o);
  bl_list : forall p d, drive_tree (snd (fs_List p d)) = drive_tree d;
  bl_open : forall o d, drive_tree (snd (obj_Open o d)) = drive_tree d;
  bl_about : forall m d, fs_About = Some m -> drive_tree (snd (m d)) = drive_tree d;
  bl_changes : forall t d, drive_tree (snd (Changes_List t d)) = drive_tree d;
  bl_start : forall d, drive_tree (snd (Changes_GetStartPageToken d)) = drive_tree d;
  bl_root : forall d, drive_tree (snd (Files_Get_root d)) = drive_tree d;
  bl_files : forall q d, drive_tree (snd (Files_List q d)) = drive_tree d;
  bl_service : forall d, drive_tree (snd (NewService d)) = drive_tree d;
  bl_rcat : forall p c t d o d', op_Rcat p c t d = (Ok o, d') ->
    drive_tree d' = <[p := remoteObjectFromRclone o]> (drive_tree d);
  bl_delete : forall o d d', op_DeleteFile o d = (Ok tt, d') ->
    drive_tree d' = delete (rb_Remote o) (drive_tree d);
  bl_move : forall q o d d', drive_tree d !! rb_Remote o = Some (remoteObjectFromRclone o) ->
    op_Move q o d = (Ok tt, d') ->
    drive_tree d' = <[q := retitle q (remoteObjectFromRclone o)]> (delete (rb_Remote o) (drive_tree d));
}.

(** ** Lemmas *)

Section rclone_lemmas.
Context {D : Type} `{DriveAPI D} `{RcloneBackend D} (drive_tree : D -> gmap string RemoteObject)
  `{!RcloneLaws D drive_tree}.
Abbreviation DS := (DriveState D).
Variable r : RcloneCfg.

Definition state_tree (s : DS) : gmap string RemoteObject := drive_tree (ds_api s).

Definition same_tree (s s' : DS) : Prop := state_tree s' = state_tree s.

#[local] Instance same_tree_equiv : Equivalence same_tree.
Proof. unfold same_tree. split; [intros s|intros s s'|intros s s1 s2]; congruence. Qed.

Lemma keeps_api {A} (m : ST D A) :
  (forall d, drive_tree (snd (m d)) = drive_tree d) -> preserves same_tree (on_api m).
Proof.
  intros Hm s. specialize (Hm (ds_api s)). unfold on_api. by destruct (m (ds_api s)) as [a d].
Qed.

#[local] Hint Resolve keeps_api bl_new bl_list bl_open bl_changes bl_start bl_root bl_files bl_service : homedrive.

Ltac solve_tree := solve_preserves; try (apply keeps_api; eauto with homedrive); try by intros ?.

Lemma tree_oauthHTTPClient : preserves same_tree (oauthHTTPClient r).
Proof. unfold oauthHTTPClient. solve_tree. Qed.

Lemma tree_driveService : preserves same_tree (driveService r).
Proof.
  intros s. unfold driveService. destruct (ds_service s); [done|].
  set (m := st_try _ _ _). enough (Hm : preserves same_tree m) by apply Hm. subst m.
  pose proof tree_oauthHTTPClient. solve_tree.
Qed.

Lemma tree_resolve_segments segs id : preserves same_tree (resolve_segments segs id).
Proof.
  revert id. induction segs as [|seg segs IH]; intros id; cbn [resolve_segments]; [solve_tree|].
  preserves_step; [|apply IH]. unfold findChildFolderID. solve_tree.
Qed.

Lemma tree_ensureRootID : preserves same_tree (ensureRootID r).
Proof.
  intros s. unfold ensureRootID. destruct (negb _); [done|].
  set (m := st_try _ _ _). enough (Hm : preserves same_tree m) by apply Hm. subst m.
  preserves_step; [|solve_tree]. unfold resolveRootID.
  destruct (_ || _); [solve_tree|apply tree_resolve_segments].
Qed.

Lemma tree_translate_page cs : preserves same_tree (translate_page r cs).
Proof.
  intros s. unfold same_tree, state_tree. f_equal. revert s.
  induction cs as [|c cs IH]; intros s; cbn; [done|]. unfold st_bind.
  pose proof (translateChange_keeps_api r c s) as Hc.
  destruct (translateChange r c s) as [o s1]. cbn in Hc. specialize (IH s1).
  destruct (translate_page r cs s1) as [l s2]. cbn in *. congruence.
Qed.

Lemma tree_poll_pages fuel tok items : preserves same_tree (poll_pages r fuel tok items).
Proof.
  revert tok items. induction fuel as [|fuel IH]; intros tok items; cbn; [solve_tree|]. intros s.
  pose proof (keeps_api (Changes_List tok) (bl_changes tok) s) as H1.
  destruct (on_api (Changes_List tok) s) as [[l|e] s1]; [|exact H1].
  pose proof (tree_translate_page (dl_Changes l) s1) as H2.
  destruct (translate_page r (dl_Changes l) s1) as [chs s2].
  assert (Hs : same_tree s s2) by (etrans; [exact H1|exact H2]).
  repeat case_match; try exact Hs. etrans; [exact Hs|apply IH].
Qed.

Lemma tree_walk_entries rec es items :
  (forall p items, preserves same_tree (rec p items)) -> preserves same_tree (walk_entries r rec es items).
Proof.
  intros Hrec. revert items. induction es as [|[o|p id] es IH]; intros items; cbn [walk_entries].
  - solve_tree.
  - destruct (remote_excluded _ _ _); [apply IH|]. preserves_step; [by intros ?|apply IH].
  - preserves_step; [by intros ?|]. destruct (remote_excluded _ _ _); [apply IH|].
    preserves_step; [apply Hrec|apply IH].
Qed.

Lemma tree_listRecursive fuel dir items : preserves same_tree (listRecursive r fuel dir items).
Proof.
  revert dir items. induction fuel as [|fuel IH]; intros dir items; cbn [listRecursive]; [solve_tree|].
  preserves_step; [apply keeps_api; eauto with homedrive|]. apply tree_walk_entries, IH.
Qed.

Lemma tree_start : preserves same_tree (Drive_GetStartPageToken r).
Proof. unfold Drive_GetStartPageToken. preserves_step; [apply tree_driveService|solve_tree]. Qed.

Lemma tree_ListChanges tok : preserves same_tree (Rclone_ListChanges r tok).
Proof.
  unfold Rclone_ListChanges. destruct (_ || _).
  - unfold fullWalkThenResume. preserves_step.
    + destruct (String.eqb _ ""); [|solve_tree]. preserves_step; [apply tree_start|solve_tree].
    + preserves_step; [apply tree_listRecursive|solve_tree].
  - unfold pollChanges. preserves_step; [apply tree_driveService|].
    preserves_step; [apply tree_ensureRootID|apply tree_poll_pages].
Qed.

(** A download leaves the remote's tree alone and changes, of the files and
    folders that exist, only the one it writes. *)
Definition download_frame (l : string) (x y : DS * LocalFS) : Prop :=
  same_tree (fst x) (fst y) /\
  forall k n, fs_nodes (snd x) !! k = Some n -> k <> path_key l -> fs_nodes (snd y) !! k = Some n.

#[local] Instance download_frame_preorder l : PreOrder (download_frame l).
Proof.
  split; [by intros [s fs]|]. intros [s fs] [s1 fs1] [s2 fs2] [H1 H2] [H3 H4]. cbn in *.
  split; [by etrans|]. cbn. auto.
Qed.

Lemma frame_remote {A} l (m : ST DS A) :
  preserves same_tree m -> preserves (download_frame l) (at_remote m).
Proof. intros Hm [s fs]. specialize (Hm s). unfold at_remote. by destruct (m s) as [a s1]. Qed.

Lemma frame_local {A} l (m : ST LocalFS A) :
  (forall fs k n, fs_nodes fs !! k = Some n -> k <> path_key l -> fs_nodes (snd (m fs)) !! k = Some n) ->
  preserves (download_frame l) (at_local m).
Proof. intros Hm [s fs]. specialize (Hm fs). unfold at_local. by destruct (m fs) as [a fs1]. Qed.

Lemma download_keeps p l : preserves (download_frame l) (Rclone_DownloadFile p l).
Proof.
  unfold Rclone_DownloadFile. preserves_step; [apply frame_remote; solve_tree|].
  destruct (String.eqb _ _); [by intros []|].
  preserves_step; [apply frame_remote; solve_tree|]. destruct a0 as [bytes broken].
  preserves_step; [apply frame_local; eauto using os_MkdirAll_keeps|].
  preserves_step; [apply frame_local; eauto using os_WriteFile_keeps|].
  destruct broken; [by intros []|].
  preserves_step; [apply frame_local; eauto using os_Chtimes_keeps|by intros []].
Qed.

(** C23: the production remote keeps the promises the sync engine is verified
    against: provided rclone and the Drive client do what they document, every
    reading call of [RcloneFS] (a poll, a full walk and a download included)
    leaves the remote's tree as it is, a download touches one existing local
    file at most, and a successful upload, delete or move changes the tree by
    exactly that object. *)
Theorem RcloneFS_implements :
  @RemoteLaws DS (RcloneFS r) state_tree /\ @RemoteWriteLaws DS (RcloneFS r) state_tree.
Proof.
  split; constructor; cbn.
  - intros p. change (preserves same_tree (Rclone_Stat p)). unfold Rclone_Stat. solve_tree.
  - intros p. change (preserves same_tree (Rclone_List p)). unfold Rclone_List. solve_tree.
  - exact tree_ListChanges.
  - exact tree_start.
  - change (preserves same_tree Rclone_Quota). unfold Rclone_Quota.
    destruct fs_About eqn:E; [|solve_tree]. preserves_step; [|solve_tree].
    apply keeps_api. intros d. by apply bl_about.
  - intros p l s fs. by destruct (download_keeps p l (s, fs)) as [Ht _].
  - intros p l s fs. by destruct (download_keeps p l (s, fs)) as [_ Hn].
  - intros src d fs s obj s'. unfold Rclone_CopyFile.
    destruct (fst (os_ReadFile src fs)) as [c|]; [|done].
    destruct (fst (os_Stat src fs)) as [info|]; [|done].
    intros (o & s1 & Ho & [= <- <-])%st_try_Ok. unfold on_api in Ho.
    destruct (op_Rcat _ _ _ _) as [x d1] eqn:E. injection Ho as -> <-. by apply bl_rcat in E.
  - intros p s s'. unfold Rclone_DeleteFile, st_bind, on_api.
    pose proof (bl_new p (ds_api s)) as Hk.
    destruct (fs_NewObject p (ds_api s)) as [[o|e] d1] eqn:E; [|done]. cbn in Hk.
    intros ([] & s1 & Ho & [= <-])%st_try_Ok. apply bl_found in E as [<- _]. cbn in Ho.
    destruct (op_DeleteFile o d1) as [x d2] eqn:E2. injection Ho as -> <-.
    apply bl_delete in E2. unfold state_tree. cbn. congruence.
  - intros p q s s'. unfold Rclone_MoveFile.
    intros (o & s1 & Ho & ([] & s2 & Hm & [= <-])%st_try_Ok)%st_try_Ok. unfold on_api in Ho, Hm.
    pose proof (bl_new p (ds_api s)) as Hk.
    destruct (fs_NewObject p (ds_api s)) as [x d1] eqn:E. cbn in Hk. injection Ho as -> <-.
    apply bl_found in E as [<- Ho]. destruct (op_Move q o _) as [y d2] eqn:E2. injection Hm as -> <-.
    apply bl_move in E2; [|by cbn; rewrite Hk]. exists (remoteObjectFromRclone o). unfold state_tree; cbn in *. split; [done|].
    congruence.
Qed.

End rclone_lemmas.

(** *** Downloads and startup *)

Section calls.
Context {D : Type} `{DriveAPI D} `{RcloneBackend D}.
Abbreviation DS := (DriveState D).

(** What a download leaves behind, whether it succeeds or not: once the
    stream is open and the file can be written, the local path holds exactly
    the bytes that were delivered; the call succeeds if and only if the stream
    did not break, and only then the file carries the remote's modification
    time. *)
Theorem download_exact p l (s : DS) fs o d1 bytes broken d2 fs1 :
  fs_NewObject p (ds_api s) = (Ok o, d1) -> rb_MimeType o <> danglingShortcutMimeType ->
  obj_Open o d1 = (Ok (bytes, broken), d2) ->
  os_MkdirAll (Dir l) fs = (Ok tt, fs1) -> fst (os_WriteFile l bytes fs1) = Ok tt ->
  let '(res, (s', fs')) := Rclone_DownloadFile p l (s, fs) in
  is_ok res = match broken with None => true | Some _ => false end /\
  ds_api s' = d2 /\
  fs_nodes fs' !! path_key l =
    Some (File (match broken with None => rb_ModTime o | Some _ => fs_time fs1 end) bytes).
Proof.
  intros Hnew Hmime Hopen Hmk Hwr.
  unfold Rclone_DownloadFile, st_try, at_remote, at_local, on_api. rewrite Hnew.
  rewrite (proj2 (String.eqb_neq _ _) Hmime). cbn. rewrite Hopen, Hmk. unfold os_WriteFile, with_fault in *.
  destruct (fs_fault fs1 FsWrite (path_key l)) eqn:Ef; [done|].
  set (written := set_nodes (<[path_key l := File (fs_time fs1) bytes]> (fs_nodes fs1)) fs1).
  assert (E : match fs_nodes fs1 !! path_key l with
          | Some (File _ _) => (Ok tt, written)
          | Some (Folder _) => (Err EISDIR, fs1)
          | None => match resolve fs1 (parent (path_key l)) with
                    | Ok (File _ _) => (Err ENOTDIR, fs1)
                    | Ok (Folder _) => (Ok tt, written)
                    | Err e => (Err e, fs1)
                    end
          end = (Ok tt, written)).
  { destruct (fs_nodes fs1 !! path_key l) as [[]|]; [done|done|].
    destruct (resolve fs1 _) as [[]|]; done. }
  rewrite E. assert (Hw : fs_nodes written !! path_key l = Some (File (fs_time fs1) bytes))
    by apply lookup_insert_eq.
  destruct broken as [e|]; cbn; [done|]. unfold st_bind, os_Chtimes, with_fault. cbn. rewrite Ef.
  unfold resolve. cbn [fs_nodes set_nodes] in *. rewrite Hw. cbn. split; [done|]. split; [done|].
  apply lookup_insert_eq.
Qed.

(** A credential the token endpoint rejects stops the agent at startup,
    before rclone's backend is built (issue #86): for every [buildFs] the
    error is the classified one, and nothing was asked of the remote but the
    refresh. *)
Theorem startup_rejects_credential cfg bound m set_path buildFs (d : D) tok configured e code d' :
  let r := mkRcloneCfg (rf_Remote cfg) (rf_Exclude cfg) "" bound m in
  (rf_ConfigPath cfg = "" \/ set_path (rf_ConfigPath cfg) = Ok tt) -> rf_Remote cfg <> "" ->
  readOAuthConfig r = Ok (tok, configured) -> tok <> "" ->
  refresh_token tok d = (Err e, d') -> retrieve_code e = Some code ->
  exists err, newRcloneFS cfg bound m set_path buildFs d = (Err err, d') /\
    errors_Is err (if existsb (String.eqb code) clientSetupErrorCodes
                   then ErrOAuthClientMisconfigured else ErrOAuthTokenInvalid) = true.
Proof.
  intros r Hp Hr Hread Htok Href Hcode. exists (classifyOAuthRefreshErr r code e). split.
  - unfold newRcloneFS. rewrite (proj2 (String.eqb_neq _ _) Hr). fold r.
    assert ((if String.eqb (rf_ConfigPath cfg) "" then Ok tt else set_path (rf_ConfigPath cfg)) = Ok tt) as ->.
    { destruct (String.eqb_spec (rf_ConfigPath cfg) ""); [done|]. by destruct Hp. }
    unfold validateOAuthCredential. rewrite Hread. unfold st_bind, set_oauth.
    rewrite (proj2 (String.eqb_neq _ _) Htok). unfold forceOAuthRefresh, st_bind, on_api. cbn.
    by rewrite Href, Hcode.
  - unfold classifyOAuthRefreshErr. by destruct (existsb _ _).
Qed.

End calls.

(** *** The full walk

    [L] is what the remote lists while the walk runs: the states in [steady]
    answer by it and stay in [steady]. *)

Section walk.
Context {D : Type} `{DriveAPI D} `{RcloneBackend D}.
Abbreviation DS := (DriveState D).
Variable r : RcloneCfg.
Variable L : string -> list DirEntry.
Variable steady : D -> Prop.

Definition walk_excluded (p : string) : bool := remote_excluded (r_match r) (r_exclude r) p.

(** The entries a walk of a directory comes to. *)
Inductive reach : string -> DirEntry -> Prop :=
| reach_here d e : In e (L d) -> reach d e
| reach_sub d p id e :
    In (EDirectory p id) (L d) -> walk_excluded p = false -> reach p e -> reach d e.

(** The directories it lists. *)
Definition visits (d p : string) : Prop :=
  p = d \/ exists id, reach d (EDirectory p id) /\ walk_excluded p = false.

Definition change_of (o : RObject) : Change :=
  mkChange (rb_Remote o) false (Some (remoteObjectFromRclone o)).

Definition reported (d : string) (c : Change) : Prop :=
  exists o, reach d (EObject o) /\ walk_excluded (rb_Remote o) = false /\ c = change_of o.

(** The identifiers a walk learns. *)
Definition named (e : DirEntry) (id p : string) : Prop :=
  id <> "" /\
  match e with
  | EObject o => rb_ID o = Some id /\ rb_Remote o = p /\ walk_excluded p = false
  | EDirectory q i => i = id /\ q = p
  end.

Definition learns (d id p : string) : Prop := exists e, reach d e /\ named e id p.

(** [c'] is [c] with, for every identifier of [F], one of its paths. *)
Definition learned (F : string -> string -> Prop) (c c' : idPathCache) : Prop :=
  forall id, (exists p, F id p /\ c' !! id = Some p) \/ ((forall p, ~ F id p) /\ c' !! id = c !! id).

Lemma learned_seq F G FG c c1 c2 :
  learned F c c1 -> learned G c1 c2 -> (forall id p, FG id p <-> F id p \/ G id p) -> learned FG c c2.
Proof.
  intros HF HG E id. destruct (HG id) as [(p & Hp & Hc)|[Hn Hc]].
  - left. exists p. rewrite E. auto.
  - rewrite Hc. destruct (HF id) as [(p & Hp & Hc')|[Hn' Hc']].
    + left. exists p. rewrite E. auto.
    + right. split; [|done]. intros p. rewrite E. intros [Hp|Hp]; [by eapply Hn'|by eapply Hn].
Qed.

Lemma learned_none F c : (forall id p, ~ F id p) -> learned F c c.
Proof. intros Hn id. right. auto. Qed.

Lemma learned_put (F : string -> string -> Prop) i q (c : gmap string string) :
  (forall id p, F id p <-> id <> "" /\ i = id /\ q = p) -> learned F c (cache_put i q c).
Proof.
  intros E id. unfold cache_put. destruct (String.eqb_spec i "") as [->|Hi].
  - right. split; [|done]. intros p. rewrite E. naive_solver.
  - unfold idPathCache. destruct (decide (id = i)) as [->|Hne].
    + left. exists q. rewrite E, lookup_insert_eq. auto.
    + right. rewrite lookup_insert_ne by done. split; [|done]. intros p. rewrite E. naive_solver.
Qed.

Lemma reach_split d e :
  reach d e <-> In e (L d) \/ exists p id, In (EDirectory p id) (L d) /\ walk_excluded p = false /\ reach p e.
Proof.
  split.
  - intros [|]; [auto|]. right. eauto.
  - intros [|(p & id & ? & ? & ?)]; [by constructor|]. by eapply reach_sub.
Qed.

(** What a part [es] of a listing leads to. *)
Definition leads (es : list DirEntry) (e : DirEntry) : Prop :=
  In e es \/ exists p id, In (EDirectory p id) es /\ walk_excluded p = false /\ reach p e.

Definition es_reported (es : list DirEntry) (c : Change) : Prop :=
  exists o, leads es (EObject o) /\ walk_excluded (rb_Remote o) = false /\ c = change_of o.

Definition es_learns (es : list DirEntry) (id p : string) : Prop := exists e, leads es e /\ named e id p.

(** A walk that reports [F] and learns [G]. *)
Definition walks (F : Change -> Prop) (G : string -> string -> Prop)
    (m : list Change -> ST DS (result (list Change))) : Prop :=
  forall items s, steady (ds_api s) ->
    exists new s', m items s = (Ok (items ++ new), s') /\ steady (ds_api s') /\
      (forall c, In c new <-> F c) /\ learned G (ds_cache s) (ds_cache s').

Lemma leads_cons e es x :
  leads (e :: es) x <->
  x = e \/ (exists p id, e = EDirectory p id /\ walk_excluded p = false /\ reach p x) \/ leads es x.
Proof. unfold leads. cbn [In]. naive_solver. Qed.

Lemma reported_cons e es c :
  es_reported (e :: es) c <->
  match e with
  | EObject o => walk_excluded (rb_Remote o) = false /\ c = change_of o
  | EDirectory p _ => walk_excluded p = false /\ reported p c
  end \/ es_reported es c.
Proof.
  unfold es_reported, reported. setoid_rewrite leads_cons. destruct e as [o|p id]; split.
  - intros (o' & [Hx|[(p & id & [=] & _)|Hl]] & He & ->); [injection Hx as <-|]; eauto 6.
  - intros [[He ->]|(o' & Hl & He & ->)]; eauto 6.
  - intros (o' & [Hx|[(p' & id' & [= <- <-] & Hp & Hr)|Hl]] & He & ->); [done| |]; eauto 6.
  - intros [[Hp (o & Hr & He & ->)]|(o' & Hl & He & ->)]; [|eauto 6].
    exists o. split; [|done]. right. left. eauto.
Qed.

Lemma learns_cons e es i q :
  es_learns (e :: es) i q <->
  named e i q \/
  match e with EObject _ => False | EDirectory p _ => walk_excluded p = false /\ learns p i q end \/
  es_learns es i q.
Proof.
  unfold es_learns, learns. setoid_rewrite leads_cons. destruct e as [o|p id]; split.
  - intros (x & [->|[(p & id & [=] & _)|Hl]] & Hx); eauto 6.
  - intros [Hx|[[]|(x & Hl & Hx)]]; eauto 6.
  - intros (x & [->|[(p' & id' & [= <- <-] & Hp & Hr)|Hl]] & Hx); eauto 8.
  - intros [Hx|[[Hp (x & Hr & Hx)]|(x & Hl & Hx)]]; eauto 6.
    exists x. split; [|done]. right. left. eauto.
Qed.

Lemma walks_weaken (F F' : Change -> Prop) (G G' : string -> string -> Prop) m :
  (forall c, F c <-> F' c) -> (forall i p, G i p <-> G' i p) -> walks F G m -> walks F' G' m.
Proof.
  intros HF HG Hm items s Hs. destruct (Hm items s Hs) as (new & s' & E & Hs' & Hc & Hl).
  exists new, s'. split; [done|]. split; [done|]. split; [intros c; by rewrite Hc|].
  eapply learned_seq; [exact Hl|apply (learned_none (fun _ _ => False)); tauto|].
  intros i p. rewrite HG. tauto.
Qed.

Lemma walks_ext F G m m' : (forall items s, m' items s = m items s) -> walks F G m -> walks F G m'.
Proof. intros E Hm items s Hs. destruct (Hm items s Hs) as (n & s' & Hn). exists n, s'. by rewrite E. Qed.

Lemma walks_seq F1 G1 F2 G2 m1 m2 :
  walks F1 G1 m1 -> walks F2 G2 m2 ->
  walks (fun c => F1 c \/ F2 c) (fun i p => G1 i p \/ G2 i p)
    (fun items => st_try (fun e => e) (m1 items) m2).
Proof.
  intros H1 H2 items s Hs. destruct (H1 items s Hs) as (n1 & s1 & E1 & Hs1 & Hc1 & Hl1).
  destruct (H2 (items ++ n1) s1 Hs1) as (n2 & s2 & E2 & Hs2 & Hc2 & Hl2).
  exists (n1 ++ n2), s2. unfold st_try. rewrite E1, E2, app_assoc.
  split; [done|]. split; [done|]. split.
  - intros c. by rewrite in_app_iff, Hc1, Hc2.
  - eapply learned_seq; [exact Hl1|exact Hl2|]. tauto.
Qed.

(** A [put] before a walk, with or without a change of its own. *)
Lemma walks_put i q own F G m :
  walks F G m ->
  walks (fun c => In c own \/ F c) (fun j p => (j <> "" /\ i = j /\ q = p) \/ G j p)
    (fun items => put_path i q ;; m (items ++ own)).
Proof.
  intros Hm items s Hs. unfold st_bind, put_path.
  set (s1 := mkDriveState _ _ _ _ _ _). destruct (Hm (items ++ own) s1 Hs) as (n & s' & E & Hs' & Hc & Hl).
  exists (own ++ n), s'. rewrite E, app_assoc. split; [done|]. split; [done|]. split.
  - intros c. by rewrite in_app_iff, Hc.
  - apply (learned_seq (fun j p => j <> "" /\ i = j /\ q = p) G _ _ (ds_cache s1)); [|done|done].
    by apply learned_put.
Qed.

Lemma walks_entries rec es :
  (forall p id, In (EDirectory p id) es -> walk_excluded p = false ->
     walks (reported p) (learns p) (rec p)) ->
  walks (es_reported es) (es_learns es) (walk_entries r rec es).
Proof.
  induction es as [|e es IH]; intros Hrec.
  { intros items s Hs. exists [], s. rewrite app_nil_r. split; [done|]. split; [done|].
    unfold es_reported, es_learns, leads. split; [|apply learned_none]; naive_solver. }
  specialize (IH (fun p id Hi => Hrec p id (or_intror Hi))).
  destruct e as [o|p id].
  - destruct (walk_excluded (rb_Remote o)) eqn:Ex.
    + refine (walks_weaken _ _ _ _ _ _ _ (walks_ext _ _ _ _ _ IH)).
      * intros c. rewrite reported_cons. naive_solver congruence.
      * intros i q. rewrite learns_cons. unfold named. naive_solver congruence.
      * intros items s. cbn [walk_entries ro_Path remoteObjectFromRclone]. fold (walk_excluded (rb_Remote o)). by rewrite Ex.
    + refine (walks_weaken _ _ _ _ _ _ _ (walks_ext _ _ _ _ _
        (walks_put (ro_RemoteID (remoteObjectFromRclone o)) (rb_Remote o) [change_of o] _ _ _ IH))).
      * intros c. rewrite reported_cons. cbn [In]. naive_solver.
      * intros i q. rewrite learns_cons. unfold named. cbn [ro_RemoteID remoteObjectFromRclone].
        destruct (rb_ID o); naive_solver congruence.
      * intros items s. cbn [walk_entries ro_Path remoteObjectFromRclone]. fold (walk_excluded (rb_Remote o)). by rewrite Ex.
  - destruct (walk_excluded p) eqn:Ex.
    + refine (walks_weaken _ _ _ _ _ _ _ (walks_ext _ _ _ _ _ (walks_put id p [] _ _ _ IH))).
      * intros c. rewrite reported_cons. cbn [In]. naive_solver congruence.
      * intros i q. rewrite learns_cons. unfold named. naive_solver congruence.
      * intros items s. cbn [walk_entries]. fold (walk_excluded p). by rewrite Ex, app_nil_r.
    + refine (walks_weaken _ _ _ _ _ _ _ (walks_ext _ _ _ _ _ (walks_put id p [] _ _ _
        (walks_seq _ _ _ _ _ _ (Hrec p id (or_introl eq_refl) Ex) IH)))).
      * intros c. rewrite reported_cons. cbn [In]. naive_solver.
      * intros i q. rewrite learns_cons. unfold named. naive_solver.
      * intros items s. cbn [walk_entries]. fold (walk_excluded p). by rewrite Ex, app_nil_r.
Qed.

Lemma visits_sub d p id :
  visits "" d -> In (EDirectory p id) (L d) -> walk_excluded p = false -> visits "" p.
Proof.
  intros Hd Hin Hp. right. exists id. split; [|done].
  destruct Hd as [->|(i & Hr & Hd)]; [by constructor|].
  remember (EDirectory d i) as e eqn:Ee. revert Ee.
  induction Hr as [d0 e He|d0 q j e He Hq Hr IH]; intros ->.
  - eapply reach_sub; [exact He|done|by constructor].
  - eapply reach_sub; [exact He|exact Hq|by apply IH].
Qed.

(** A visited directory's listing, and a height that decreases downwards. *)
Context (Hlist : forall p d, visits "" p -> steady d ->
  exists d', fs_List p d = (Ok (L p), d') /\ steady d').
Variable height : string -> nat.
Context (Hheight : forall d p id, visits "" d -> In (EDirectory p id) (L d) -> walk_excluded p = false ->
  (height p < height d)%nat).

Lemma walks_listRecursive fuel d :
  visits "" d -> (height d < fuel)%nat -> walks (reported d) (learns d) (listRecursive r fuel d).
Proof.
  revert d. induction fuel as [|fuel IH]; intros d Hd Hf; [lia|]. intros items s Hs.
  destruct (Hlist d (ds_api s) Hd Hs) as (d' & El & Hd').
  destruct (walks_entries (listRecursive r fuel) (L d)) with (items := items) (s := with_api d' s)
    as (new & s' & E & Hs' & Hc & Hl); [|done|].
  - intros p id Hin Hp. apply IH; [by eapply visits_sub|].
    specialize (Hheight d p id Hd Hin Hp). lia.
  - exists new, s'. cbn [listRecursive]. unfold st_try, on_api. rewrite El. fold (with_api d' s).
    split; [exact E|]. split; [done|]. split.
    + intros c. rewrite Hc. unfold es_reported, reported. by setoid_rewrite reach_split.
    + eapply learned_seq; [exact Hl|apply (learned_none (fun _ _ => False)); tauto|].
      intros i p. unfold es_learns, learns. setoid_rewrite reach_split. unfold leads. tauto.
Qed.

(** C24: the first poll of a new installation is complete: the full walk
    returns without error, reports exactly the objects below the root that are
    neither excluded nor under an excluded folder, each at its own path with
    rclone's metadata, hands back the page token the changes continue from,
    and leaves every identifier it met in the path cache. The depth bound only
    has to exceed the height of the tree. *)
Theorem full_walk_exact tok (s : DS) :
  tok <> "" -> steady (ds_api s) -> (height "" < r_bound r)%nat ->
  (forall id p q, learns "" id p -> learns "" id q -> p = q) ->
  exists items s', Rclone_ListChanges r (initialSyncPrefix +:+ tok) s = (Ok (mkChanges items tok), s') /\
    (forall c, In c items <-> reported "" c) /\
    (forall id p, learns "" id p -> cache_get id (ds_cache s') = Some p).
Proof.
  intros Ht Hs Hb Hu.
  destruct (walks_listRecursive (r_bound r) "" (or_introl eq_refl) Hb [] s Hs) as (new & s' & E & _ & Hc & Hl).
  exists new, s'. split; [|split; [exact Hc|]].
  - unfold Rclone_ListChanges. assert (Hp : HasPrefix (initialSyncPrefix +:+ tok) initialSyncPrefix = true).
    { apply HasPrefix_spec. by exists tok. }
    rewrite Hp, orb_true_r. unfold TrimPrefix. rewrite Hp.
    change (str_drop _ _) with tok. unfold fullWalkThenResume.
    rewrite (proj2 (String.eqb_neq _ _) Ht). unfold st_try, st_ret. by rewrite E.
  - intros id p Hp. unfold cache_get. destruct (Hl id) as [(q & Hq & Hcache)|[Hn _]].
    + rewrite (Hu id p q Hp Hq), Hcache. destruct Hp as (e & _ & Hid & _).
      by rewrite (proj2 (String.eqb_neq _ _) Hid).
    + by destruct (Hn p).
Qed.
End walk.

(** ** The in-memory backend *)

Definition object_at (p : string) (x : string * Time * string * option nat) : RObject :=
  let '(id, t, c, _) := x in mkRObject p (Z.of_nat (strlen c)) t (Some id) "text/plain".

Definition parent_dir (p : string) : string :=
  match LastIndex p "/" with None => "" | Some i => str_take i p end.

Definition with_files (fs : gmap string (string * Time * string * option nat)) (d : MemDrive) : MemDrive :=
  mkMemDrive fs (md_dirs d) (md_next d + 1) (md_pages d) (md_refresh d).

Definition mem_list (dir : string) (d : MemDrive) : list DirEntry :=
  map (fun '(p, id) => EDirectory p id)
    (base.filter (fun kv => parent_dir (fst kv) = dir) (map_to_list (md_dirs d))) ++
  map (fun '(p, x) => EObject (object_at p x))
    (base.filter (fun kv => parent_dir (fst kv) = dir) (map_to_list (md_files d))).

#[export] Instance MemDrive_backend : RcloneBackend MemDrive := {
  fs_NewObject p d :=
    (match md_files d !! p, md_dirs d !! p with
     | Some x, _ => Ok (object_at p x)
     | None, Some _ => Err (EText "is a directory not a file")
     | None, None => Err (EText "object not found")
     end, d);
  fs_List dir d :=
    (if String.eqb dir "" || bool_decide (is_Some (md_dirs d !! dir)) then Ok (mem_list dir d)
     else Err (EText "directory not found"), d);
  obj_Open o d :=
    (match md_files d !! rb_Remote o with
     | Some (_, _, c, None) => Ok (c, None)
     | Some (_, _, c, Some n) => Ok (str_take n c, Some (EText "unexpected EOF"))
     | None => Err (EText "object not found")
     end, d);
  op_Rcat p c t d :=
    let x := ("id-" +:+ Itoa (md_next d), t, c, None) in
    (Ok (object_at p x), with_files (<[p := x]> (md_files d)) d);
  op_DeleteFile o d := (Ok tt, with_files (delete (rb_Remote o) (md_files d)) d);
  op_Move q o d :=
    match md_files d !! rb_Remote o with
    | Some x => (Ok tt, with_files (<[q := x]> (delete (rb_Remote o) (md_files d))) d)
    | None => (Err (EText "object not found"), d)
    end;
  fs_About := Some (fun d => (Ok (Some (md_next d), None), d));
  is_ErrorObjectNotFound e := match e with EText m => String.eqb m "object not found" | _ => false end;
  is_ErrorIsDir e := match e with EText m => String.eqb m "is a directory not a file" | _ => false end;
}.

Definition mem_tree (d : MemDrive) : gmap string RemoteObject :=
  map_imap (fun p x => Some (remoteObjectFromRclone (object_at p x))) (md_files d).

#[export] Instance MemDrive_laws : RcloneLaws MemDrive mem_tree.
Proof.
  constructor; cbn; try done.
  - intros p d o d'. destruct (md_files d !! p) as [x|] eqn:E.
    + intros [= <- <-]. split; [by destruct x as [[[]]]|]. unfold mem_tree. by rewrite map_lookup_imap, E.
    + by destruct (md_dirs d !! p).
  - by intros m d [= <-].
  - intros p c t d o d' [= <- <-]. unfold mem_tree. cbn [md_files with_files].
    by rewrite map_imap_insert.
  - intros o d d' [= <-]. unfold mem_tree. cbn [md_files with_files]. by rewrite map_imap_delete.
  - intros q o d d' Ho. unfold mem_tree in *. rewrite map_lookup_imap in Ho.
    destruct (md_files d !! rb_Remote o) as [x|]; [|done]. intros [= <-].
    cbn [md_files with_files]. rewrite map_imap_insert, map_imap_delete.
    cbn in Ho. destruct x as [[[id t] c] b]. injection Ho as H1 H2 H3.
    f_equal. destruct o as [p n t' i mime]; cbn in *. subst. unfold retitle, remoteObjectFromRclone; cbn.
    by destruct i.
Qed.

Lemma RcloneFS_implements_witness :
  @RemoteLaws (DriveState MemDrive) (RcloneFS demo_rclone) (state_tree mem_tree) /\
  @RemoteWriteLaws (DriveState MemDrive) (RcloneFS demo_rclone) (state_tree mem_tree).
Proof. exact (RcloneFS_implements mem_tree demo_rclone). Defined.

(** A folder with a file, beside a file. *)
Definition tree_drive : MemDrive :=
  mkMemDrive (<["a/x" := ("id-x", 5, "hello", None)]> (<["y" := ("id-y", 6, "bye", None)]> ∅))
    (<["a" := "id-a"]> ∅) 10 two_pages (Ok tt).

Definition tree_list (d : string) : list DirEntry :=
  if String.eqb d "" then [EDirectory "a" "id-a"; EObject (mkRObject "y" 3 6 (Some "id-y") "text/plain")]
  else if String.eqb d "a" then [EObject (mkRObject "a/x" 5 5 (Some "id-x") "text/plain")]
  else [].

Lemma tree_reach d e : reach demo_rclone tree_list d e ->
  (d = "" -> In e (tree_list "" ++ tree_list "a")) /\ (d = "a" -> In e (tree_list "a")).
Proof.
  induction 1 as [d e He|d p id e He _ _ [_ IH]].
  - split; intros ->; [|done]. apply in_or_app. by left.
  - split; intros ->; cbn in He.
    + destruct He as [[= <- <-]|[?|[]]]; [|discriminate]. apply in_or_app. right. by apply IH.
    + destruct He as [?|[]]; discriminate.
Qed.

Lemma tree_visits p : visits demo_rclone tree_list "" p -> p = "" \/ p = "a".
Proof.
  intros [->|(id & Hr & _)]; [by left|]. apply tree_reach in Hr as [Hr _].
  destruct (Hr eq_refl) as [[= <- <-]|[?|[?|[]]]]; [by right|discriminate..].
Qed.

Lemma full_walk_exact_witness :
  exists items s',
    Rclone_ListChanges demo_rclone "initial_sync:7" (ready tree_drive ∅) = (Ok (mkChanges items "7"), s') /\
    In (change_of (mkRObject "a/x" 5 5 (Some "id-x") "text/plain")) items /\
    cache_get "id-a" (ds_cache s') = Some "a".
Proof.
  assert (Ha : reach demo_rclone tree_list "a" (EObject (mkRObject "a/x" 5 5 (Some "id-x") "text/plain"))).
  { apply reach_here. left. reflexivity. }
  destruct (full_walk_exact demo_rclone tree_list (fun d => d = tree_drive)) with
    (height := fun p => if String.eqb p "" then 1%nat else 0%nat) (tok := "7") (s := ready tree_drive ∅)
    as (items & s' & E & Hi & Hc).
  - intros p d Hp ->. exists tree_drive. split; [|reflexivity].
    destruct (tree_visits p Hp) as [->| ->]; vm_compute; reflexivity.
  - intros d p id Hd Hin _.
    destruct (tree_visits d Hd) as [->| ->]; cbn in Hin.
    + destruct Hin as [[= <- <-]|[?|[]]]; [vm_compute; lia|discriminate].
    + destruct Hin as [?|[]]; discriminate.
  - discriminate.
  - reflexivity.
  - cbn. lia.
  - intros id p q (e1 & H1 & Hn1) (e2 & H2 & Hn2).
    apply tree_reach in H1 as [H1 _]. apply tree_reach in H2 as [H2 _].
    specialize (H1 eq_refl). specialize (H2 eq_refl). unfold named in Hn1, Hn2.
    cbn in H1, H2. destruct H1 as [<-|[<-|[<-|[]]]], H2 as [<-|[<-|[<-|[]]]]; cbn in Hn1, Hn2; intuition congruence.
  - exists items, s'. split; [exact E|]. split.
    + apply Hi. exists (mkRObject "a/x" 5 5 (Some "id-x") "text/plain"). split; [|split; reflexivity].
      eapply reach_sub; [left; reflexivity|reflexivity|exact Ha].
    + apply Hc. exists (EDirectory "a" "id-a"). split; [apply reach_here; left; reflexivity|].
      split; [discriminate|]. split; reflexivity.
Defined.

Definition revoked_drive : MemDrive :=
  mkMemDrive ∅ ∅ 0 two_pages (Err (EText "oauth2: invalid_grant")).

Lemma startup_rejects_credential_witness :
  exists err, newRcloneFS (mkRcloneFSConfig "gdrive:" "" []) 10 (fun _ _ => false) (fun _ => Ok tt)
      (fun _ d => (Ok (true, ""), d)) revoked_drive = (Err err, revoked_drive) /\
    errors_Is err ErrOAuthTokenInvalid = true.
Proof.
  apply (startup_rejects_credential (mkRcloneFSConfig "gdrive:" "" []) 10 (fun _ _ => false) (fun _ => Ok tt)
    (fun _ d => (Ok (true, ""), d)) revoked_drive "token" false (EText "oauth2: invalid_grant") "invalid_grant").
  - left. reflexivity.
  - discriminate.
  - vm_compute. reflexivity.
  - discriminate.
  - reflexivity.
  - reflexivity.
Defined.

Definition broken_drive : MemDrive :=
  mkMemDrive (<["y" := ("id-y", 6, "hello world", Some 5%nat)]> ∅) ∅ 10 two_pages (Ok tt).

Definition home_fs : LocalFS := mkFS (<[[] := Folder 0]> (<[["home"] := Folder 0]> ∅)) (fun _ _ => None) 9.

Lemma download_exact_witness :
  let '(res, (_, fs')) := Rclone_DownloadFile "y" "/home/y" (ready broken_drive ∅, home_fs) in
  is_ok res = false /\ fs_nodes fs' !! ["home"; "y"] = Some (File 9 "hello").
Proof.
  pose proof (download_exact "y" "/home/y" (ready broken_drive ∅) home_fs
    (mkRObject "y" 11 6 (Some "id-y") "text/plain") broken_drive "hello" (Some (EText "unexpected EOF"))
    broken_drive home_fs) as T.
  destruct (Rclone_DownloadFile "y" "/home/y" (ready broken_drive ∅, home_fs)) as [res [s' fs']].
  destruct T as (T1 & _ & T2).
  - vm_compute. reflexivity.
  - discriminate.
  - vm_compute. reflexivity.
  - vm_compute. reflexivity.
  - vm_compute. reflexivity.
  - split; [exact T1|exact T2].
Defined.
