(* ===== verification/Production.v ===== *)
(** The sync engine over the production remote: Push.v, Pull.v and Bisync.v run
    on [RcloneFS] over the in-memory Drive, for what only shows when the parts
    meet. *)
From S2P Require Import Prelude.
From S2P Require Import GoStrings.
From S2P Require Import GoRuntime.
From S2P Require Import OldSuffix.
From S2P Require Import LocalFS.
From S2P Require Import Remote.
From S2P Require Import Bolt.
From S2P Require Import Journal.
From S2P Require Import World.
From S2P Require Import Prune.
From S2P Require Import Retry.
From S2P Require Import Push.
From S2P Require Import PullConflict.
From S2P Require Import Pull.
From S2P Require Import BisyncJournal.
From S2P Require Import Bisync.
From S2P Require Import Drive.
From S2P Require Import RcloneFS.

(** ** Directory renames *)

Section renames.
Context {D S : Type} `{DriveAPI D} `{RcloneBackend D} `{Store S} `{Env}.
Context (drive_tree : D -> gmap string RemoteObject) `{!RcloneLaws D drive_tree}.
Variable r : RcloneCfg.
#[local] Existing Instance RcloneFS.

(** Files, remote tree and journal are those of [w0]. *)
Definition untouched (w0 w : World (DriveState D) S) : Prop :=
  w_fs w = w_fs w0 /\ state_tree drive_tree (w_remote w) = state_tree drive_tree (w_remote w0) /\
  w_store w = w_store w0.

Lemma untouched_same w0 x y : same_data x y -> untouched w0 x -> untouched w0 y.
Proof. intros (F & R & T) (F' & R' & T'). unfold untouched. by rewrite F, R, T. Qed.

Lemma quiet_dir_rename_failed s dr e t : quiet (R := DriveState D) (S := S) (dir_rename_failed s dr e t).
Proof. unfold dir_rename_failed. solve_quiet. Qed.

Lemma untouched_quiet {A} (m : ST (World (DriveState D) S) A) w0 w :
  quiet m -> untouched w0 w -> untouched w0 (snd (m w)).
Proof. intros Hq (F & R & T). destruct (Hq w) as (F' & R' & T'). unfold untouched. by rewrite F', R', T'. Qed.

(** A directory rename never reaches the production remote: rclone looks
    objects up by path and a folder is none, so [MoveFile] of the directory
    fails at every attempt and the handler ends with the local files, the
    remote tree and the journal as they were, however often it retries (the
    finding's counterexample: the local directory has moved already, and the
    remote keeps the old one). *)
Theorem dir_rename_never_moves s dr (w : World (DriveState D) S) :
  cfg_DryRun (s_cfg s) = false ->
  (forall d, drive_tree d = state_tree drive_tree (w_remote w) ->
     is_ok (fst (fs_NewObject (dr_From dr) d)) = false) ->
  untouched w (snd (@handleDirRename _ _ (RcloneFS r) _ _ s dr w)).
Proof.
  intros Hdry Hdir.
  assert (Hmv : forall x res y, untouched w x ->
    on_remote (@MoveFile _ (RcloneFS r) (dr_From dr) (dr_To dr)) x = (res, y) ->
    is_ok res = false /\ untouched w y).
  { intros x res y (F & R & T) E. unfold on_remote in E. cbn in E.
    unfold Rclone_MoveFile, st_try, on_api in E. specialize (Hdir _ R).
    pose proof (bl_new (dr_From dr) (ds_api (w_remote x))) as Hk.
    destruct (fs_NewObject _ _) as [[o|e1] d]; [done|]. injection E as <- <-. cbn in Hk.
    split; [done|]. unfold untouched, state_tree in *. cbn. by rewrite Hk. }
  unfold handleDirRename. rewrite Hdry. unfold st_bind at 1.
  assert (Hw1 : untouched w (snd (now w))) by (apply untouched_quiet; [apply quiet_now|by split_and!]).
  destruct (now w) as [t w1]. cbn [snd] in Hw1.
  unfold st_bind at 1. destruct (retryFunc _ _ _ _ w1) as [res w2] eqn:Er.
  apply (retry_all_fail (untouched w)) in Er as [Hres Hw2];
    [|exact Hmv|by apply untouched_same|intros d x; by apply untouched_quiet|exact Hw1].
  destruct res as [[]|e]; [done|].
  unfold st_bind. pose proof (untouched_quiet now w w2 quiet_now Hw2) as Hw3.
  destruct (now w2) as [t2 w3]. apply untouched_quiet; [apply quiet_dir_rename_failed|exact Hw3].
Qed.

End renames.

(** ** Definitions *)

#[local] Existing Instance demo_env.

#[local] Instance production : RemoteFS (DriveState MemDrive) := RcloneFS demo_rclone.

Abbreviation PW := (World (DriveState MemDrive) (JournalStore MemBolt)).

(** A fresh journal, with a page token or none. *)
Definition fresh_store (token : string) : JournalStore MemBolt :=
  mkJournalStore (mkMemBolt true ∅ (if String.eqb token "" then ∅ else <[keyPageToken := token]> ∅)) None.

Definition world_of (fs : LocalFS) (d : MemDrive) (token : string) : PW :=
  mkWorld fs (ready d root_cache) (fresh_store token) 0 [].

Definition run_poll (w : PW) : result unit * PW :=
  let '(r, (w, _)) := poll (demo_puller false) (w, mkPullState 0 ∅) in (r, w).

(** What a local file, and a remote one, holds. *)
Definition local_content (p : string) (w : PW) : option string :=
  match fs_nodes (w_fs w) !! path_key p with Some (File _ c) => Some c | _ => None end.

Definition remote_content (p : string) (w : PW) : option string :=
  match md_files (ds_api (w_remote w)) !! p with Some (_, _, c, _) => Some c | None => None end.

(** [docs/b.txt] holds 11 bytes, and its stream breaks after 5. *)
Definition flaky_drive : MemDrive :=
  mkMemDrive (<["docs/b.txt" := ("id-b", 900 * Second, "hello world", Some 5%nat)]> ∅)
    (<["docs" := "id-docs"]> ∅) 10 (fun _ => Ok (mkDChangeList [] "2" "")) (Ok tt).

Definition after_break : PW := snd (run_poll (world_of demo_fs flaky_drive "")).

Definition after_push : PW :=
  snd (handleEvent demo_syncer (mkEvent "docs/b.txt" OpCreate 0) (snd (run_poll after_break))).

(** A download that breaks half-way costs the remote version: the file is
    written in place, so the bytes received so far stay at its path; the page
    token moves on all the same, so no later poll repeats the download; the
    journal has no entry by which the watcher could recognise its own write;
    and the push of the watcher's event replaces the remote file by the
    fragment (the finding's counterexample). *)
Theorem truncated_download_pushed :
  is_ok (fst (run_poll (world_of demo_fs flaky_drive ""))) = false /\
  local_content "/home/docs/b.txt" after_break = Some "hello" /\
  is_ok (fst (run_poll after_break)) = true /\
  local_content "/home/docs/b.txt" (snd (run_poll after_break)) = Some "hello" /\
  fst (Get "docs/b.txt" (w_store after_break)) = Ok None /\
  remote_content "docs/b.txt" after_break = Some "hello world" /\
  remote_content "docs/b.txt" after_push = Some "hello".
Proof. vm_compute. split_and!; reflexivity. Qed.

(** [b.txt] in the sync root, changed on the remote since the token. *)
Definition changed_drive : MemDrive :=
  mkMemDrive (<["b.txt" := ("id-b", 946684800 * Second + unix_epoch, "hello", None)]> ∅) ∅ 10
    (fun tok => Ok (mkDChangeList
      (if String.eqb tok "1" then
         [mkDChange "id-b" false (Some (mkDFile "b.txt" ["id-root"] "text/plain" "2000-01-01T00:00:00Z" "md5" 5 false))]
       else []) "2" "")) (Ok tt).

Definition after_pull : PW := snd (run_poll (world_of demo_fs changed_drive "1")).

Definition after_pass : PW := fst (snd (execute (demo_bisync false) (after_pull, idle_state0))).

(** A file that was pulled and then left alone on both sides is a conflict
    for the next bisync pass: the pull journals the hash the change feed
    reports, the listing the pass compares with carries none, so the versions
    count as diverged; the pass renames the remote file to [.old.1] and
    uploads the identical local one (the finding's counterexample). *)
Theorem pulled_file_conflicts :
  is_ok (fst (run_poll (world_of demo_fs changed_drive "1"))) = true /\
  local_content "/home/b.txt" after_pull = Some "hello" /\
  remote_content "b.txt" after_pull = Some "hello" /\
  remote_content "b.txt.old.1" after_pull = None /\
  local_content "/home/b.txt" after_pass = Some "hello" /\
  remote_content "b.txt" after_pass = Some "hello" /\
  remote_content "b.txt.old.1" after_pass = Some "hello".
Proof. vm_compute. split_and!; reflexivity. Qed.

Lemma dir_rename_never_moves_witness :
  untouched mem_tree (world_of demo_fs flaky_drive "")
    (snd (handleDirRename demo_syncer (mkDirRename "docs" "papers" 0) (world_of demo_fs flaky_drive ""))).
Proof.
  apply (dir_rename_never_moves mem_tree demo_rclone); [reflexivity|].
  intros d Hd. cbn. assert (E : mem_tree d !! "docs" = None) by (rewrite Hd; reflexivity).
  unfold mem_tree in E. rewrite map_lookup_imap in E.
  destruct (md_files d !! "docs"); [discriminate E|]. destruct (md_dirs d !! "docs"); reflexivity.
Defined.
