(* ===== verification/BisyncConverge.v ===== *)
(** The bisync pass reaches a fixed point: a pass that had no conflict and
    whose transfers all succeeded leaves local tree, remote listing and journal
    in an agreement in which the next diff is empty. The remote's side of this
    is the interface [RemoteListed]; [MemFS] has it. *)
From S2P Require Import Prelude.
From S2P Require Import GoStrings.
From S2P Require Import GoRuntime.
From S2P Require Import OldSuffix.
From S2P Require Import GoPath.
From S2P Require Import LocalFS.
From S2P Require Import Remote.
From S2P Require Import MemFS.
From S2P Require Import Bolt.
From S2P Require Import Journal.
From S2P Require Import World.
From S2P Require Import Prune.
From S2P Require Import Push.
From S2P Require Import BisyncJournal.
From S2P Require Import Bisync.

(** ** What both sides look like to the diff *)

(** The objects [List] of the remote root returns. *)
Definition root_objects (tree : gmap string RemoteObject) : gmap string RemoteObject :=
  filter (fun kv => remoteDir (fst kv) = "") tree.

(** The path [walkLocal] files an address below the root under. *)
Definition walk_name (k : list string) : string :=
  if bool_decide (k = []) then "." else Join k "/".

(** The names of files are path elements. *)
Definition files_named (ns : gmap (list string) node) : Prop :=
  forall k t c, ns !! k = Some (File t c) -> Forall (fun x => valid_elem x = true) k.

Definition local_view (root : list string) (ns : gmap (list string) node) :
    gmap string LocalFileInfo :=
  local_map (omap (walk_entry root) (walk_nodes root ns)).

(** A remote that lists what its uploads reported and whose downloads write
    exactly the file, with the object's modification time. [remote_ok] is what
    it keeps invariant. *)
Class RemoteListed (R : Type) `{RemoteFS R} (tree : R -> gmap string RemoteObject) := {
  remote_ok : R -> Prop;
  law_listed : forall r l r', remote_ok r -> RemoteList "" r = (Ok l, r') ->
    remote_ok r' /\ remote_map l = root_objects (tree r);
  law_md5 : forall r p o, remote_ok r -> tree r !! p = Some o ->
    to_valid_utf8 (ro_MD5 o) = ro_MD5 o;
  law_copied : forall src d fs r obj r', remote_ok r -> CopyFile src d fs r = (Ok obj, r') ->
    remote_ok r';
  law_downloaded : forall p l r fs r' fs', remote_ok r ->
    DownloadFile p l (r, fs) = (Ok tt, (r', fs')) ->
    remote_ok r' /\
    (forall o, tree r !! p = Some o -> IsZero (ro_ModTime o) = false ->
       exists c, fs_nodes fs' !! path_key l = Some (File (ro_ModTime o) c)) /\
    (forall k t c, k <> path_key l -> fs_nodes fs' !! k = Some (File t c) ->
       fs_nodes fs !! k = Some (File t c));
}.

(** The journal can be read: whatever it holds is found. *)
Definition readable {S} `{BJournalLaws S} (s : S) : Prop :=
  forall p e, bj_view s !! p = Some e -> bj_read s p = Ok (Some e).

(** A one-sided difference of a file directly below the root. *)
Definition plain (d : FileDiff) : bool :=
  rel_path (fd_Path d) && String.eqb (remoteDir (fd_Path d)) "" &&
  match fd_Kind d, fd_RemoteInfo d with
  | DiffLocalOnly, _ => true
  | DiffRemoteOnly, Some r => negb (IsZero (ro_ModTime r))
  | _, _ => false
  end.

(** Both sides hold the file and the journal records both versions. *)
Definition in_step (lv : gmap string LocalFileInfo) (rv : gmap string RemoteObject)
    (jv : gmap string JournalEntry) (p : string) : Prop :=
  exists l r e, lv !! p = Some l /\ rv !! p = Some r /\ jv !! p = Some e /\
    lf_ModTime l = je_LocalMtime e /\ ro_ModTime r = je_RemoteMtime e /\ ro_MD5 r = je_RemoteMD5 e.

(** ** Lemmas *)

(** *** Maps built from a listing *)

Section keyed.
Context {A : Type} (f : A -> string).

Definition keyed (l : list A) (m : gmap string A) : gmap string A :=
  foldl (fun m x => <[f x := x]> m) m l.

Lemma keyed_other l m p : p ∉ map f l -> keyed l m !! p = m !! p.
Proof.
  revert m. induction l as [|x l IH]; intros m Hp; [done|]. cbn [map] in Hp.
  change (keyed (x :: l) m) with (keyed l (<[f x := x]> m)).
  apply not_elem_of_cons in Hp as [Hne Hp]. rewrite IH by done. by apply lookup_insert_ne.
Qed.

Lemma keyed_lookup l m p x :
  NoDup (map f l) -> (forall y, y ∈ l -> m !! f y = None) ->
  keyed l m !! p = Some x <-> (x ∈ l /\ f x = p) \/ m !! p = Some x.
Proof.
  revert m. induction l as [|y l IH]; intros m Hnd Hm.
  - cbn. rewrite elem_of_nil. tauto.
  - change (keyed (y :: l) m) with (keyed l (<[f y := y]> m)). cbn [map] in Hnd.
    apply NoDup_cons in Hnd as [Hy Hnd]. rewrite IH; [|done|].
    + rewrite elem_of_cons, lookup_insert_Some. assert (m !! f y = None) as Hn by (apply Hm; by left).
      split; [intuition congruence|]. intros [[[->|Hx] <-]|Hmp]; [tauto|tauto|].
      right. right. split; [|done]. intros E. congruence.
    + intros z Hz. rewrite lookup_insert_ne; [apply Hm; by right|].
      intros E. apply Hy. rewrite E. by apply list_elem_of_fmap_2.
Qed.

Lemma keyed_empty_lookup l p x :
  NoDup (map f l) -> keyed l ∅ !! p = Some x <-> x ∈ l /\ f x = p.
Proof.
  intros Hnd. rewrite keyed_lookup; [|done|intros; apply lookup_empty].
  rewrite lookup_empty. intuition congruence.
Qed.

End keyed.

(** *** The walk as a map *)

Lemma walk_name_inj k1 k2 :
  Forall (fun x => valid_elem x = true) k1 -> Forall (fun x => valid_elem x = true) k2 ->
  walk_name k1 = walk_name k2 -> k1 = k2.
Proof.
  intros H1 H2. unfold walk_name.
  assert (forall k, k <> [] -> Forall (fun x => valid_elem x = true) k ->
    SplitByte (Join k "/") slash = k) as Hsp.
  { intros k Hk Hv. apply SplitByte_Join; [done|]. by apply valid_elems_no_slash. }
  assert (forall k, k <> [] -> Forall (fun x => valid_elem x = true) k -> Join k "/" <> ".") as Hdot.
  { intros k Hk Hv E. specialize (Hsp k Hk Hv). rewrite E in Hsp. cbn in Hsp. subst k.
    by apply Forall_cons in Hv as [Hv _]. }
  destruct (decide (k1 = [])) as [->|N1], (decide (k2 = [])) as [->|N2];
    rewrite ?bool_decide_eq_true_2, ?bool_decide_eq_false_2 by done; [done| | |].
  - intros E. by destruct (Hdot k2 N2 H2).
  - intros E. by destruct (Hdot k1 N1 H1).
  - intros E. by rewrite <- (Hsp k1), <- (Hsp k2), E.
Qed.

Lemma walk_name_rel p : rel_path p = true -> walk_name (SplitByte p slash) = p.
Proof.
  intros _. unfold walk_name.
  rewrite bool_decide_eq_false_2 by apply SplitByte_nonempty. apply Join_SplitByte.
Qed.

Lemma rel_elems p : rel_path p = true -> Forall (fun x => valid_elem x = true) (SplitByte p slash).
Proof. unfold rel_path. intros [_ H]%andb_true_iff. by apply forallb_Forall. Qed.

(** An entry of the walk is a file below the root. *)
Lemma walk_entry_Some root k n x :
  walk_entry root (k, n) = Some x -> root `prefix_of` k ->
  exists r t c, k = root ++ r /\ n = File t c /\
    x = mkLocalFileInfo (walk_name r) (Z.of_nat (strlen c)) t.
Proof.
  unfold walk_entry. cbn [fst snd]. destruct n as [t c|]; [|done]. intros [= <-] [r ->].
  exists r, t, c. by rewrite rel_of_app.
Qed.

(** The walk names no path twice. *)
Lemma walk_paths_NoDup root ns :
  files_named ns -> NoDup (map lf_Path (omap (walk_entry root) (walk_nodes root ns))).
Proof.
  intros Hn. unfold walk_nodes.
  assert (forall k n, (k, n) ∈ map_to_list ns -> ns !! k = Some n) as Hl
    by (intros; by apply elem_of_map_to_list).
  pose proof (NoDup_fst_map_to_list ns) as Hnd. revert Hl Hnd.
  generalize (map_to_list ns). intros l. induction l as [|[k n] l IH]; intros Hl Hnd; [constructor|].
  apply NoDup_cons in Hnd as [Hk Hnd].
  specialize (IH (fun k' n' Hin => Hl k' n' (list_elem_of_further _ _ _ Hin)) Hnd).
  rewrite filter_cons. destruct (decide _) as [Hp|]; [|done]. cbn [fst] in Hp.
  change (omap ?f (?a :: ?l)) with (match f a with Some d => d :: omap f l | None => omap f l end).
  destruct (walk_entry root (k, n)) as [x|] eqn:E; [|done]. cbn. constructor; [|done].
  apply walk_entry_Some in E as (r & t & c & -> & -> & ->); [|done]. cbn [lf_Path].
  intros (y & Ey & ([k' n'] & [Hp' Hin]%list_elem_of_filter & Hy)%list_elem_of_omap)%list_elem_of_fmap.
  apply walk_entry_Some in Hy as (r' & t' & c' & -> & -> & ->); [|exact Hp']. cbn in Ey.
  apply Hk. replace r with r'; [by apply (list_elem_of_fmap_2 fst _ (root ++ r', File t' c'))|].
  pose proof (Hn _ _ _ (Hl _ _ (list_elem_of_here _ _))) as [_ V]%Forall_app.
  pose proof (Hn _ _ _ (Hl _ _ (list_elem_of_further _ _ _ Hin))) as [_ V']%Forall_app.
  by apply walk_name_inj.
Qed.

Lemma local_view_lookup root ns p x :
  files_named ns ->
  local_view root ns !! p = Some x <-> exists k t c,
    ns !! (root ++ k) = Some (File t c) /\ walk_name k = p /\
    x = mkLocalFileInfo p (Z.of_nat (strlen c)) t.
Proof.
  intros Hn. unfold local_view.
  change (local_map ?l) with (keyed lf_Path l ∅). rewrite keyed_empty_lookup.
  - rewrite list_elem_of_omap. split.
    + intros [([k n] & [Hp Hk]%list_elem_of_filter & Hx) <-].
      apply walk_entry_Some in Hx as (r & t & c & -> & -> & ->); [|exact Hp].
      apply elem_of_map_to_list in Hk. by exists r, t, c.
    + intros (k & t & c & Hk & <- & ->). split; [|done]. exists (root ++ k, File t c). split.
      * apply list_elem_of_filter. split; [by exists k|]. by apply elem_of_map_to_list.
      * unfold walk_entry. cbn [fst snd]. by rewrite rel_of_app.
  - by apply walk_paths_NoDup.
Qed.

(** Writing one file changes the walk at its path only. *)
Lemma local_view_write root ns ns' p t c :
  files_named ns -> files_named ns' -> rel_path p = true ->
  ns' !! (root ++ SplitByte p slash) = Some (File t c) ->
  (forall k t c, k <> root ++ SplitByte p slash ->
     ns' !! k = Some (File t c) <-> ns !! k = Some (File t c)) ->
  local_view root ns' !! p = Some (mkLocalFileInfo p (Z.of_nat (strlen c)) t) /\
  forall q, q <> p -> local_view root ns' !! q = local_view root ns !! q.
Proof.
  intros Hn Hn' Hp Hw Ho. split.
  - apply local_view_lookup; [done|]. exists (SplitByte p slash), t, c.
    split; [done|]. split; [by apply walk_name_rel|done].
  - intros q Hq. apply option_eq. intros x. rewrite !local_view_lookup by done.
    assert (forall k, walk_name k = q -> root ++ k <> root ++ SplitByte p slash) as Hk.
    { intros k Hk E%app_inv_head. subst k. rewrite walk_name_rel in Hk by done. congruence. }
    split; intros (k & t' & c' & Hl & Hk' & ->); exists k, t', c'; (split; [|done]);
      apply (Ho _ _ _ (Hk k Hk')), Hl.
Qed.

Lemma mkdirs_files t ns done k ns' l t' c :
  mkdirs t ns done k = Ok ns' -> ns' !! l = Some (File t' c) -> ns !! l = Some (File t' c).
Proof.
  revert ns done. induction k as [|x k IH]; intros ns done; cbn; [by intros [= ->]|].
  destruct (ns !! (done ++ [x])) as [[]|]; [discriminate|apply IH|].
  intros Hm Hl. specialize (IH _ _ Hm Hl). apply lookup_insert_Some in IH as [[_ [=]]|[_ ?]]; done.
Qed.

Lemma os_MkdirAll_files p fs l t c :
  fs_nodes (snd (os_MkdirAll p fs)) !! l = Some (File t c) <-> fs_nodes fs !! l = Some (File t c).
Proof.
  split; [|apply os_MkdirAll_keeps]. unfold os_MkdirAll, with_fault. destruct (fs_fault _ _ _); [done|].
  destruct (mkdirs _ _ _ _) eqn:E; [|done]. cbn. by eapply mkdirs_files.
Qed.

Lemma root_objects_insert p o m :
  remoteDir p = "" -> root_objects (<[p := o]> m) = <[p := o]> (root_objects m).
Proof. intros Hp. by apply map_filter_insert_True. Qed.

Lemma root_objects_lookup m p o :
  root_objects m !! p = Some o <-> m !! p = Some o /\ remoteDir p = "".
Proof. apply map_lookup_filter_Some. Qed.

(** *** One transfer *)

(** What the diff said of a one-sided path is still so. *)
Definition sided (lv : gmap string LocalFileInfo) (rv : gmap string RemoteObject) (d : FileDiff) : Prop :=
  match fd_Kind d with
  | DiffLocalOnly => exists l, fd_LocalInfo d = Some l /\ lv !! fd_Path d = Some l
  | DiffRemoteOnly => exists r, fd_RemoteInfo d = Some r /\ rv !! fd_Path d = Some r
  | DiffConflict => False
  end.

Lemma sided_drift read lv rv d :
  plain d = true -> drift read lv rv (fd_Path d) = Some d -> sided lv rv d.
Proof.
  unfold plain, drift, sided. destruct d as [p k l r]. cbn.
  destruct (lv !! p) as [l'|], (rv !! p) as [r'|]; [destruct (divergent _ _ _); [|done]| | |done];
    intros Hp E; injection E as <- <- <-; [|by eauto..].
  by rewrite andb_false_r in Hp.
Qed.

Section transfer.
Context {R S : Type} `{RemoteFS R} `{BJournalLaws S} `{Env}.
Context (tree : R -> gmap string RemoteObject) `{!RemoteLaws R tree} `{!RemoteWriteLaws R tree}
  `{!RemoteListed R tree}.
Abbreviation W := (World R S).
Variable b : Bisync.
Hypothesis Hroot : is_rooted (bc_LocalRoot (b_cfg b)) = true.
Hypothesis Hdry : bc_DryRun (b_cfg b) = false.

Definition lv (w : W) : gmap string LocalFileInfo :=
  local_view (path_key (bc_LocalRoot (b_cfg b))) (fs_nodes (w_fs w)).
Definition rv (w : W) : gmap string RemoteObject := root_objects (tree (w_remote w)).
Definition jv (w : W) : gmap string JournalEntry := bj_view (w_store w).

Definition pass_ok (w : W) : Prop := remote_ok (w_remote w) /\ files_named (fs_nodes (w_fs w)).

(** Both sides and the journal are as they were at [q]. *)
Definition same_at (q : string) (w w' : W) : Prop :=
  lv w' !! q = lv w !! q /\ rv w' !! q = rv w !! q /\ jv w' !! q = jv w !! q.

(** [p] has been brought in step and nothing else has changed. *)
Definition brought (p : string) (w w' : W) : Prop :=
  pass_ok w' /\ in_step (lv w') (rv w') (jv w') p /\ forall q, q <> p -> same_at q w w'.

Lemma file_key p : rel_path p = true ->
  path_key (bisync_file b p) = path_key (bc_LocalRoot (b_cfg b)) ++ SplitByte p slash.
Proof. intros Hp. by apply path_key_join. Qed.

Lemma plain_path d : plain d = true -> rel_path (fd_Path d) = true /\ remoteDir (fd_Path d) = "".
Proof. unfold plain. rewrite !andb_true_iff. intros [[? ?%String.eqb_eq] _]. done. Qed.

Lemma push_brings d l (w w' : W) :
  plain d = true -> pass_ok w -> fd_LocalInfo d = Some l -> lv w !! fd_Path d = Some l ->
  syncLocalToRemote b d w = (Ok tt, w') -> brought (fd_Path d) w w'.
Proof.
  intros [Hrel Hdir]%plain_path [Hr Hf] Hl Hlv Hrun. unfold syncLocalToRemote in Hrun.
  rewrite Hdry, Hl in Hrun.
  apply st_try_Ok in Hrun as (obj & w1 & Hcp & Hrun). apply st_try_Ok in Hrun as (l' & w2 & [= <- <-] & Hrun).
  apply st_bind_inv in Hrun as (t & w3 & Ht & Hrun).
  apply (quiet_run _ _ _ _ quiet_now) in Ht as (F3 & R3 & S3).
  unfold on_upload, on_remote in Hcp. destruct (CopyFile _ _ _ _) as [x r1] eqn:Ec. injection Hcp as -> <-.
  unfold on_store in Hrun. destruct (BPut _ (w_store w3)) as [y s3] eqn:Ep. injection Hrun as -> <-.
  cbn in *. apply bj_put in Ep as [Ev _].
  pose proof (law_copied _ _ _ _ _ _ Hr Ec) as Hr1. pose proof (law_copy _ _ _ _ _ _ Ec) as Et.
  unfold bisync_file in Et. rewrite upload_path in Et; [|by intros E; rewrite E in Hroot|done].
  assert (to_valid_utf8 (ro_MD5 obj) = ro_MD5 obj) as Hmd.
  { apply (law_md5 r1 (fd_Path d)); [done|]. by rewrite Et, lookup_insert_eq. }
  unfold brought, pass_ok, same_at, in_step, lv, rv, jv. cbn. rewrite F3, R3, Ev, S3, Et.
  rewrite root_objects_insert by done. split_and!; [done|done| |].
  - exists l, obj. eexists. rewrite !lookup_insert_eq. split_and!; try done.
  - intros q Hq. by rewrite !lookup_insert_ne by done.
Qed.

Lemma download_brings p r o fs r' fs' :
  rel_path p = true -> remote_ok r -> files_named (fs_nodes fs) ->
  tree r !! p = Some o -> IsZero (ro_ModTime o) = false ->
  DownloadFile p (bisync_file b p) (r, fs) = (Ok tt, (r', fs')) ->
  let root := path_key (bc_LocalRoot (b_cfg b)) in
  remote_ok r' /\ files_named (fs_nodes fs') /\ tree r' = tree r /\
  (exists l, local_view root (fs_nodes fs') !! p = Some l /\ lf_ModTime l = ro_ModTime o) /\
  forall q, q <> p -> local_view root (fs_nodes fs') !! q = local_view root (fs_nodes fs) !! q.
Proof.
  intros Hrel Hr Hf Ho Hz Hd root. pose proof (file_key p Hrel) as Ek. fold root in Ek.
  pose proof (law_download p (bisync_file b p) r fs) as Ht. rewrite Hd in Ht. cbn in Ht.
  destruct (law_downloaded _ _ _ _ _ _ Hr Hd) as (Hr' & Hw & Hold).
  destruct (Hw o Ho Hz) as [c Hc]. rewrite Ek in Hc, Hold.
  assert (files_named (fs_nodes fs')) as Hf'.
  { intros k t' c' Hk. destruct (decide (k = root ++ SplitByte p slash)) as [->|Hne].
    - apply Forall_app. split; [apply path_key_valid|by apply rel_elems].
    - by eapply Hf, Hold. }
  destruct (local_view_write root (fs_nodes fs) (fs_nodes fs') p (ro_ModTime o) c Hf Hf' Hrel Hc)
    as [Hp Hq].
  { intros k t' c' Hne. split; [by apply Hold|]. intros Hk.
    pose proof (law_download_local p (bisync_file b p) r fs k _ Hk) as Hl.
    rewrite Hd, Ek in Hl. by apply Hl. }
  split_and!; [done|done|done| |done]. by eexists.
Qed.

Lemma files_named_mkdir p fs :
  files_named (fs_nodes fs) -> files_named (fs_nodes (snd (os_MkdirAll p fs))).
Proof. intros Hf k t c Hk. by eapply Hf, os_MkdirAll_files. Qed.

Lemma local_view_mkdir root p fs q :
  files_named (fs_nodes fs) ->
  local_view root (fs_nodes (snd (os_MkdirAll p fs))) !! q = local_view root (fs_nodes fs) !! q.
Proof.
  intros Hf. apply option_eq. intros x.
  rewrite !local_view_lookup by (done || by apply files_named_mkdir).
  by setoid_rewrite os_MkdirAll_files.
Qed.

Lemma pull_brings d o (w w' : W) :
  plain d = true -> fd_Kind d = DiffRemoteOnly -> pass_ok w ->
  fd_RemoteInfo d = Some o -> rv w !! fd_Path d = Some o ->
  syncRemoteToLocal b d w = (Ok tt, w') -> brought (fd_Path d) w w'.
Proof.
  intros Hpl Hk [Hr Hf] Ho Hrv Hrun. destruct (plain_path d Hpl) as [Hrel Hdir].
  assert (IsZero (ro_ModTime o) = false) as Hz.
  { unfold plain in Hpl. rewrite Hk, Ho, !andb_true_iff in Hpl. by destruct Hpl as [_ ?%negb_true_iff]. }
  unfold syncRemoteToLocal in Hrun. rewrite Hdry, Ho in Hrun.
  apply st_try_Ok in Hrun as ([] & w1 & Hmk & Hrun). apply st_try_Ok in Hrun as ([] & w2 & Hdl & Hrun).
  apply st_try_Ok in Hrun as (o' & w3 & [= <- <-] & Hrun). apply st_bind_inv in Hrun as (t & w4 & Ht & Hrun).
  apply (quiet_run _ _ _ _ quiet_now) in Ht as (F4 & R4 & S4).
  unfold on_fs in Hmk. pose proof (files_named_mkdir (Dir (bisync_file b (fd_Path d))) (w_fs w) Hf) as Hf1.
  pose proof (fun root q => local_view_mkdir root (Dir (bisync_file b (fd_Path d))) (w_fs w) q Hf) as Hv1.
  destruct (os_MkdirAll _ _) as [x fs1]. injection Hmk as -> <-. cbn in Hf1, Hv1.
  unfold on_download in Hdl. destruct (DownloadFile _ _ _) as [x [r2 fs2]] eqn:Ed. injection Hdl as -> <-.
  unfold on_store in Hrun. destruct (BPut _ (w_store w4)) as [y s4] eqn:Ep. injection Hrun as -> <-.
  cbn in *. apply bj_put in Ep as [Ev _]. apply root_objects_lookup in Hrv as Hrv'. destruct Hrv' as [Hto _].
  destruct (download_brings _ _ _ _ _ _ Hrel Hr Hf1 Hto Hz Ed) as (Hr2 & Hf2 & Et & (l & Hl & El) & Hq).
  unfold brought, pass_ok, same_at, in_step, lv, rv, jv. cbn. rewrite F4, R4, Ev, S4, Et.
  split_and!; [done|done| |].
  - exists l, o. eexists. rewrite !lookup_insert_eq. split_and!; try done. cbn.
    symmetry. by apply (law_md5 (w_remote w) (fd_Path d)).
  - intros q Hne. rewrite Hq, Hv1, lookup_insert_ne by done. done.
Qed.

(** *** The whole list *)

Definition transferred (n : counts) : Z := pushed n + pulled n.

Lemma sync_one_count d n (w : W) st n' wst :
  plain d = true -> sync_one b d n (w, st) = (n', wst) -> transferred n' <= transferred n + 1.
Proof.
  unfold sync_one, plain, transferred. intros Hp Hs.
  destruct (fd_Kind d); [..|by rewrite andb_false_r in Hp]; unfold st_bind, in_world in Hs;
    [destruct (syncLocalToRemote b d w) as [r w1]|destruct (syncRemoteToLocal b d w) as [r w1]];
    destruct r; inversion Hs; subst; cbn; lia.
Qed.

Lemma sync_loop_count ds n (w : W) st n' wst :
  forallb plain ds = true -> sync_loop b ds n (w, st) = (n', wst) ->
  transferred n' <= transferred n + Z.of_nat (length ds).
Proof.
  revert n w st. induction ds as [|d ds IH]; intros n w st Hp Hs; [injection Hs as <- _; cbn; lia|].
  cbn [forallb] in Hp. apply andb_true_iff in Hp as [Hd Hp]. cbn [sync_loop length] in *.
  apply st_bind_inv in Hs as (c & [w1 st1] & _ & Hs). destruct c; [injection Hs as <- _; lia|].
  apply st_bind_inv in Hs as (n1 & [w2 st2] & Hone & Hs).
  apply sync_one_count in Hone; [|done]. apply IH in Hs; [lia|done].
Qed.

Lemma sync_one_brings d n (w : W) st n' w' st' :
  plain d = true -> pass_ok w -> sided (lv w) (rv w) d ->
  sync_one b d n (w, st) = (n', (w', st')) -> transferred n' = transferred n + 1 ->
  brought (fd_Path d) w w'.
Proof.
  unfold sync_one, sided, transferred. intros Hp Hok Hsd Hs Hn. destruct (fd_Kind d) eqn:Hk; [..|done].
  - destruct Hsd as (l & Hl & Hlv). unfold st_bind, in_world in Hs.
    destruct (syncLocalToRemote b d w) as [[[]|e] w1] eqn:E; inversion Hs; subst; cbn in Hn; [|lia].
    by eapply push_brings.
  - destruct Hsd as (o & Ho & Hrv). unfold st_bind, in_world in Hs.
    destruct (syncRemoteToLocal b d w) as [[[]|e] w1] eqn:E; inversion Hs; subst; cbn in Hn; [|lia].
    by eapply pull_brings.
Qed.

Lemma same_at_world q (w w' : W) :
  same_data w w' -> same_at q w w' /\ (pass_ok w -> pass_ok w').
Proof. intros (F & Er & Es). unfold same_at, pass_ok, lv, rv, jv. by rewrite F, Er, Es. Qed.

Lemma same_at_trans q (w1 w2 w3 : W) : same_at q w1 w2 -> same_at q w2 w3 -> same_at q w1 w3.
Proof. unfold same_at. intuition congruence. Qed.

Lemma sided_same (w w' : W) d : same_at (fd_Path d) w w' -> sided (lv w) (rv w) d -> sided (lv w') (rv w') d.
Proof. unfold same_at, sided. intros (El & Er & _). by rewrite El, Er. Qed.

Lemma in_step_same (w w' : W) p :
  same_at p w w' -> in_step (lv w) (rv w) (jv w) p -> in_step (lv w') (rv w') (jv w') p.
Proof. unfold same_at, in_step. intros (El & Er & Ej). by rewrite El, Er, Ej. Qed.

Lemma sync_loop_brings ds n (w : W) st n' w' st' :
  forallb plain ds = true -> NoDup (map fd_Path ds) -> pass_ok w -> Forall (sided (lv w) (rv w)) ds ->
  sync_loop b ds n (w, st) = (n', (w', st')) ->
  transferred n' = transferred n + Z.of_nat (length ds) ->
  pass_ok w' /\ Forall (fun d => in_step (lv w') (rv w') (jv w') (fd_Path d)) ds /\
  forall q, q ∉ map fd_Path ds -> same_at q w w'.
Proof.
  revert n w st. induction ds as [|d ds IH]; intros n w st Hp Hnd Hok Hsd Hs Hn.
  { injection Hs as <- <- <-. by split_and!. }
  cbn [forallb map] in Hp, Hnd. apply andb_true_iff in Hp as [Hd Hp].
  apply NoDup_cons in Hnd as [Hnin Hnd]. apply Forall_cons in Hsd as [Hsd Hsds].
  cbn [sync_loop length] in *. apply st_bind_inv in Hs as (c & [w1 st1] & Hc & Hs).
  unfold in_world in Hc. destruct (ctx_Err w) as [c' w1'] eqn:Ec. injection Hc as -> -> ->.
  apply (quiet_run _ _ _ _ quiet_ctx) in Ec.
  pose proof (fun q => proj1 (same_at_world q _ _ Ec)) as S1. destruct (same_at_world "" _ _ Ec) as [_ Hok1].
  destruct c; [injection Hs as <- _ _; lia|]. apply st_bind_inv in Hs as (n1 & [w2 st2] & Hone & Hs).
  pose proof (sync_one_count _ _ _ _ _ _ Hd Hone) as Hc1.
  pose proof (sync_loop_count _ _ _ _ _ _ Hp Hs) as Hc2.
  apply sync_one_brings in Hone as (Hok2 & Hin & S2); [|done|by auto|by eapply sided_same|lia].
  assert (forall q, q <> fd_Path d -> same_at q w w2) as S3 by (intros; by eapply same_at_trans; auto).
  eapply IH in Hs as (Hok' & Hins & S4); [|done|done|done| |lia].
  - split; [done|]. split.
    + constructor; [|done]. by eapply in_step_same, Hin; auto.
    + intros q Hq. cbn [map] in Hq. apply not_elem_of_cons in Hq as [Hq1 Hq2].
      eapply same_at_trans; [by apply S3|by apply S4].
  - rewrite Forall_forall in Hsds |- *. intros x Hx. eapply sided_same, Hsds, Hx. apply S3.
    intros E. apply Hnin. rewrite <- E. by apply list_elem_of_fmap_2.
Qed.

(** *** The diff as a statement about the views *)

Lemma diff_Ok (w : W) ds w' :
  pass_ok w -> diff b w = (Ok ds, w') ->
  pass_ok w' /\ (forall q, same_at q w w') /\ w_store w' = w_store w /\ NoDup (map fd_Path ds) /\
  forall d, d ∈ ds <-> drift (bj_read (w_store w)) (lv w) (rv w) (fd_Path d) = Some d.
Proof.
  intros [Hr Hf] Hd. unfold diff in Hd.
  apply st_try_Ok in Hd as (ls & w1 & Hl & Hd). apply st_try_Ok in Hd as (rs & w2 & Hs & Hd).
  destruct (diff_after_listing (local_map ls) (remote_map rs) w2) as (ls' & rs' & w3 & E & Pl & Pr & Hw3).
  rewrite E in Hd. injection Hd as <- <-. apply walkLocal_Ok in Hl as Els.
  apply (quiet_run _ _ _ _ (quiet_walkLocal b)) in Hl as (F1 & R1 & S1).
  pose proof (listRemote_same_state tree w1) as Hq. rewrite Hs in Hq. destruct Hq as (F2 & R2 & S2).
  unfold listRemote in Hs. apply st_try_Ok in Hs as (rs0 & w2' & Hs & [= -> ->]).
  unfold on_remote in Hs. destruct (RemoteList "" _) as [x r1] eqn:El. injection Hs as -> <-.
  rewrite R1 in El. apply law_listed in El as [Hr1 Erm]; [|done]. cbn in *.
  destruct Hw3 as (F3 & R3 & S3). cbn in *.
  assert (local_map ls = lv w) as El1 by (by rewrite Els). assert (remote_map rs = rv w) as Er1 by done.
  assert (forall q, same_at q w w3) as Hsame.
  { intros q. unfold same_at, lv, rv, jv. by rewrite F3, R3, S3, F1, R2, R1, S1. }
  rewrite El1, Er1 in *. split; [by unfold pass_ok; rewrite R3, F3, F1|]. split; [done|].
  split; [congruence|]. split; [by eapply NoDup_drift|].
  intros d. rewrite <- S1. by apply elem_of_drift.
Qed.

(** A path in step, or without a difference before and untouched since, has
    none. *)
Lemma in_step_no_drift s lv' rv' p :
  readable s -> in_step lv' rv' (bj_view s) p -> drift (bj_read s) lv' rv' p = None.
Proof.
  intros Hs (l & r & e & El & Er & Ee & E1 & E2 & E3). unfold drift, divergent.
  rewrite El, Er, (Hs _ _ Ee). unfold Equal. by rewrite E1, E2, E3, !Z.eqb_refl, String.eqb_refl.
Qed.

Lemma same_no_drift (w w' : W) p :
  readable (w_store w) -> readable (w_store w') -> same_at p w w' ->
  drift (bj_read (w_store w)) (lv w) (rv w) p = None ->
  drift (bj_read (w_store w')) (lv w') (rv w') p = None.
Proof.
  intros Hs Hs' (El & Er & Ej). unfold jv in Ej. unfold drift, divergent. rewrite El, Er.
  destruct (lv w !! p) as [l|], (rv w !! p) as [r|]; try done.
  destruct (bj_view (w_store w) !! p) as [e|] eqn:Ee.
  - by rewrite (Hs _ _ Ee), (Hs' _ _ Ej).
  - assert (forall s, bj_view s !! p = None -> bj_read s p = Ok None \/ exists x, bj_read s p = Err x) as Hn.
    { intros s Hv. destruct (bj_read s p) as [[e|]|x] eqn:E; [|by auto|by eauto].
      apply bj_read_view in E. congruence. }
    destruct (Hn _ Ee) as [->|[x ->]], (Hn _ Ej) as [->|[y ->]]; done.
Qed.

End transfer.

(** ** Properties *)

Section converge.
Context {R S : Type} `{RemoteFS R} `{BJournalLaws S} `{Env}.
Context (tree : R -> gmap string RemoteObject) `{!RemoteLaws R tree} `{!RemoteWriteLaws R tree}
  `{!RemoteListed R tree}.

(** C4: a bisync pass converges: when its differences were all one-sided files
    at the root and each was transferred, every one of them is afterwards on
    both sides with the versions the journal records, everything else is as it
    was, and the diff of the next pass is empty. *)
Theorem bisync_converges b (w w1 w2 : World R S) ds st st2 n :
  is_rooted (bc_LocalRoot (b_cfg b)) = true -> bc_DryRun (b_cfg b) = false ->
  pass_ok tree w -> readable (w_store w) -> readable (w_store w2) ->
  diff b w = (Ok ds, w1) -> forallb plain ds = true ->
  syncDiffs b ds (w1, st) = (n, (w2, st2)) -> transferred n = Z.of_nat (length ds) ->
  (forall d, d ∈ ds -> in_step (lv b w2) (rv tree w2) (jv w2) (fd_Path d)) /\
  (forall q, q ∉ map fd_Path ds -> same_at tree b q w w2) /\
  forall ds' w3, diff b w2 = (Ok ds', w3) -> ds' = [].
Proof.
  intros Hroot Hdry Hok Hs Hs2 Hd Hp Hsync Hn.
  destruct (diff_Ok tree b w ds w1 Hok Hd) as (Hok1 & S1 & E1 & Hnd & Hdrift).
  assert (Forall (sided (lv b w1) (rv tree w1)) ds) as Hsd.
  { apply Forall_forall. intros d Hin. eapply sided_same; [apply S1|].
    eapply sided_drift; [|by apply Hdrift]. rewrite forallb_forall in Hp.
    by apply Hp, list_elem_of_In. }
  destruct (sync_loop_brings tree b Hroot Hdry ds _ w1 st n w2 st2 Hp Hnd Hok1 Hsd Hsync)
    as (Hok2 & Hin & S2); [unfold transferred in *; cbn; lia|].
  rewrite Forall_forall in Hin.
  assert (forall q, q ∉ map fd_Path ds -> same_at tree b q w w2) as S3.
  { intros q Hq. eapply same_at_trans; [apply S1|by apply S2]. }
  split; [done|]. split; [done|]. intros ds' w3 Hd2.
  destruct (diff_Ok tree b w2 ds' w3 Hok2 Hd2) as (_ & _ & _ & _ & Hdrift2).
  destruct ds' as [|d ds']; [done|]. exfalso.
  assert (drift (bj_read (w_store w2)) (lv b w2) (rv tree w2) (fd_Path d) = Some d) as Hdd
    by (apply Hdrift2; by left).
  enough (drift (bj_read (w_store w2)) (lv b w2) (rv tree w2) (fd_Path d) = None) by congruence.
  destruct (decide (fd_Path d ∈ map fd_Path ds)) as [(d' & -> & Hd')%list_elem_of_fmap|Hnin].
  - apply in_step_no_drift; [done|]. by apply Hin.
  - apply (same_no_drift tree b w); [done|done|by apply S3|].
    destruct (drift (bj_read (w_store w)) _ _ (fd_Path d)) as [x|] eqn:E; [|done]. exfalso.
    assert (fd_Path x = fd_Path d) as Ex.
    { unfold drift in E. destruct (lv b w !! _), (rv tree w !! _); [destruct (divergent _ _ _)| | |];
        by simplify_eq. }
    apply Hnin. rewrite <- Ex. apply list_elem_of_fmap_2. apply Hdrift. by rewrite Ex.
Qed.

End converge.

(** ** The in-memory remote lists what it holds *)

(** The order of Go's maps is a permutation and every object is filed under its
    own path with a valid checksum. *)
Definition mem_ok (m : MemFS) : Prop :=
  (forall n l, m_order m n l ≡ₚ l) /\
  forall p o, m_files m !! p = Some o -> ro_Path o = p /\ valid_utf8 (ro_MD5 o) = true.

Lemma in_root p : Is_true (in_dir "" p) <-> remoteDir p = "".
Proof.
  unfold in_dir, remoteDir. change ("" =? "")%string with true.
  destruct (String.eqb_spec (Dir p) ""), (String.eqb_spec (Dir p) "."); cbn; split; done || congruence.
Qed.

Lemma MemFS_listed m :
  mem_ok m ->
  remote_map (map snd (filter (fun '(p, _) => Is_true (in_dir "" p))
    (m_order m (m_ticks m) (map_to_list (m_files m))))) = root_objects (m_files m).
Proof.
  intros [Ho Hf]. set (l := filter _ _).
  assert (forall p o, (p, o) ∈ l <-> m_files m !! p = Some o /\ remoteDir p = "") as Hl.
  { intros p o. unfold l. rewrite list_elem_of_filter, Ho, elem_of_map_to_list, in_root. tauto. }
  assert (map ro_Path (map snd l) = map fst l) as Ep.
  { rewrite map_map. apply map_ext_in. intros [p o] Hin. apply list_elem_of_In, Hl in Hin.
    cbn. exact (proj1 (Hf _ _ (proj1 Hin))). }
  apply map_eq. intros p. apply option_eq. intros o. rewrite root_objects_lookup, <- Hl.
  change (remote_map ?x) with (keyed ro_Path x ∅). rewrite keyed_empty_lookup.
  - rewrite list_elem_of_fmap. split.
    + intros [([q o'] & -> & Hin) <-]. pose proof (proj1 (Hl _ _) Hin) as [Hq _].
      cbn. by rewrite (proj1 (Hf _ _ Hq)).
    + intros Hin. split; [by exists (p, o)|]. apply Hl in Hin as [Hq _]. exact (proj1 (Hf _ _ Hq)).
  - rewrite Ep. apply NoDup_fmap_fst.
    + intros q o1 o2 [H1 _]%Hl [H2 _]%Hl. congruence.
    + apply NoDup_filter. rewrite Ho. apply NoDup_map_to_list.
Qed.

#[export] Instance MemFS_RemoteListed : RemoteListed MemFS m_files.
Proof.
  refine {| remote_ok := mem_ok |}; cbn.
  - intros m l m' Hm [= <- <-]. split; [exact Hm|]. by apply MemFS_listed.
  - intros m p o Hm Hp. apply Hm in Hp as [_ Hv]. by apply to_valid_utf8_id.
  - intros src d fs m obj m' [Ho Hf] [= <- <-]. split; [exact Ho|]. cbn.
    intros p o [[<- <-]|[_ Hp]]%lookup_insert_Some; [|by apply Hf]. cbn. split; [done|].
    apply valid_utf8_ascii. exact (Itoa_ascii _).
  - intros p l m fs m' fs' Hm (-> & o & t & Ho & Ht & Efs)%MemFS_download_exact.
    split; [done|]. rewrite Efs. split.
    + intros o' Ho' Hz. rewrite lookup_insert_eq. simplify_eq. rewrite Ht by done. by eexists.
    + intros k t' c' Hne. rewrite lookup_insert_ne by done. apply os_MkdirAll_files.
Defined.

Lemma MemBolt_readable (s : JournalStore MemBolt) : mb_open (js_J s) = true -> readable s.
Proof.
  destruct s as [[op j k] m]. cbn. intros -> p e. cbn. intros Hv%jview_lookup.
  unfold Journal_Get, bolt_View. cbn. by rewrite Hv.
Qed.

(** ** Witness: [a.txt] only here, [b.txt] only there *)

Definition apart_fs : LocalFS :=
  mkFS (<[[] := Folder 0]> (<[["home"] := Folder 0]>
    (<[["home"; "a.txt"] := File (500 * Second) "hello"]> ∅))) (fun _ _ => None) (700 * Second).

Definition apart_world : World MemFS (JournalStore MemBolt) :=
  mkWorld apart_fs (Seed "b.txt" (650 * Second) "r1" demo_mem)
    (mkJournalStore emptyMemBolt None) 0 [].

Lemma apart_ok : pass_ok m_files apart_world.
Proof.
  split.
  - split; [done|]. cbn. intros p o [[<- <-]|[_ Hp]]%lookup_insert_Some; [done|].
    by rewrite lookup_empty in Hp.
  - cbn. intros k t c [[_ [=]]|[_ [[_ [=]]|[_ [[<- _]|[_ Hk]]%lookup_insert_Some]]%lookup_insert_Some]]%lookup_insert_Some.
    + by repeat constructor.
    + by rewrite lookup_empty in Hk.
Defined.

Lemma bisync_converges_witness :
  let b := demo_bisync false in
  let r := @diff _ _ _ _ demo_env b apart_world in
  let ds := match fst r with Ok ds => ds | Err _ => [] end in
  let s := @syncDiffs _ _ _ _ demo_env b ds (snd r, idle_state0) in
  let w2 := fst (snd s) in
  map fd_Kind ds = [DiffLocalOnly; DiffRemoteOnly] /\
  in_step (lv b w2) (rv m_files w2) (jv w2) "a.txt" /\
  in_step (lv b w2) (rv m_files w2) (jv w2) "b.txt" /\
  fst (@diff _ _ _ _ demo_env b w2) = Ok [].
Proof.
  intros b r ds s w2.
  assert (fst r = Ok ds) as Hr by (vm_compute; reflexivity).
  destruct (bisync_converges (H2 := demo_env) m_files b apart_world (snd r) w2 ds idle_state0
    (snd (snd s)) (fst s)) as (Hin & _ & Hd).
  - reflexivity.
  - reflexivity.
  - exact apart_ok.
  - by apply MemBolt_readable.
  - apply MemBolt_readable. vm_compute. reflexivity.
  - rewrite <- Hr. apply surjective_pairing.
  - vm_compute. reflexivity.
  - change (s = (fst s, (fst (snd s), snd (snd s)))). clearbody s. by destruct s as [n [w3 st3]].
  - vm_compute. reflexivity.
  - split; [vm_compute; reflexivity|].
    destruct (is_ok_Ok (fst (@diff _ _ _ _ demo_env b w2))) as [l El]; [vm_compute; reflexivity|].
    split; [|split].
    + apply (Hin (nth 0 ds (mkFileDiff "" DiffConflict None None))). vm_compute. left.
    + apply (Hin (nth 1 ds (mkFileDiff "" DiffConflict None None))). vm_compute. right. left.
    + rewrite El. f_equal. apply (Hd l (snd (@diff _ _ _ _ demo_env b w2))).
      rewrite <- El. apply surjective_pairing.
Defined.
