(* ===== verification/ChainRepair.v ===== *)
(** The chain repair of a bisync pass on the files and the remote it renames:
    [runChainRepair] (internal/syncer/bisync.go) gives every listed
    thing one name, loses none, and flattens the nested [.old] chains. *)
From S2P Require Import Prelude.
From S2P Require Import GoStrings.
From S2P Require Import GoRuntime.
From S2P Require Import OldSuffix.
From S2P Require Import GoPath.
From S2P Require Import LocalFS.
From S2P Require Import Remote.
From S2P Require Import MemFS.
From S2P Require Import Bolt.
From S2P Require Import Journal.
From S2P Require Import World.
From S2P Require Import Prune.
From S2P Require Import PullConflict.
From S2P Require Import Repair.
From S2P Require Import BisyncJournal.
From S2P Require Import Bisync.
From S2P Require Import BisyncConverge.

(** ** What a name stands for *)

(** A local file is its time and content, a remote object all but its path. *)
Definition thing : Type := Time * string + RemoteObject.

Section chain.
Context {R S : Type} `{RemoteFS R} `{BJournalLaws S} `{Env}.
Context (tree : R -> gmap string RemoteObject) `{!RemoteLaws R tree} `{!RemoteWriteLaws R tree}.
Abbreviation W := (World R S).
Variable b : Bisync.

Definition look (w : W) (sd : side) (p : string) : option thing :=
  match sd with
  | SLocal =>
      match fs_nodes (w_fs w) !! path_key (bisync_file b p) with
      | Some (File t c) => Some (inl (t, c))
      | _ => None
      end
  | SRemote => inr <$> (retitle "" <$> tree (w_remote w) !! p)
  end.

(** ** Lemmas *)

Lemma look_ext (w w' : W) :
  w_fs w' = w_fs w -> tree (w_remote w') = tree (w_remote w) ->
  forall sd q, look w' sd q = look w sd q.
Proof. intros F T [] q; unfold look; by rewrite ?F, ?T. Qed.

Lemma look_store {A} (m : ST S A) (w : W) sd q : look (snd (on_store m w)) sd q = look w sd q.
Proof. apply look_ext; unfold on_store; by destruct (m (w_store w)). Qed.

(** A chain of calls to the store. *)
Definition same_look (w w' : W) : Prop := forall sd q, look w' sd q = look w sd q.

#[export] Instance same_look_preorder : PreOrder same_look.
Proof. unfold same_look. split; [done|]. intros w1 w2 w3 A B sd q. by rewrite B, A. Qed.

Lemma same_look_store {A} (m : ST S A) : preserves same_look (on_store m).
Proof. intros w sd q. apply look_store. Qed.

Lemma same_look_carry dry c target : preserves same_look (carry_entry (bisync_repairDeps b dry) c target).
Proof.
  unfold carry_entry. cbn [rd_JournalGet rd_JournalDelete rd_JournalPut bisync_repairDeps].
  apply preserves_bind; [typeclasses eauto|apply same_look_store|intros entry].
  apply preserves_bind; [typeclasses eauto|apply same_look_store|intros _].
  destruct entry as [[e|]|e]; try (apply preserves_ret; typeclasses eauto).
  apply preserves_try; [typeclasses eauto|apply same_look_store|intros _].
  apply preserves_ret. typeclasses eauto.
Qed.

Context (Hroot : is_rooted (bc_LocalRoot (b_cfg b)) = true).
Context (move_fails : forall p q r e r', MoveFile p q r = (Err e, r') -> tree r' = tree r).

Lemma bisync_file_inj p q : rel_path p = true -> rel_path q = true ->
  path_key (bisync_file b p) = path_key (bisync_file b q) -> p = q.
Proof. by apply path_key_join_inj. Qed.

Lemma look_rename_local (c : candidate) target (w w' : W) :
  c_side c = SLocal -> rel_path (c_path c) = true -> rel_path target = true -> c_path c <> target ->
  is_Some (look w SLocal (c_path c)) ->
  on_fs (os_Rename (bisync_file b (c_path c)) (bisync_file b target)) w = (Ok tt, w') ->
  look w' SLocal target = look w SLocal (c_path c) /\ look w' SLocal (c_path c) = None /\
  (forall q, rel_path q = true -> q <> target -> q <> c_path c -> look w' SLocal q = look w SLocal q) /\
  forall q, look w' SRemote q = look w SRemote q.
Proof.
  intros Hs Hp Ht Hne [x Hx] Hren. unfold on_fs in Hren.
  destruct (os_Rename _ _ (w_fs w)) as [r fs] eqn:E. injection Hren as -> <-. cbn in Hx |- *.
  destruct (fs_nodes (w_fs w) !! path_key (bisync_file b (c_path c))) as [[t cs|]|] eqn:Ek; [|done..].
  assert (path_key (bisync_file b (c_path c)) <> path_key (bisync_file b target)) as Hk
    by (by intros Ekey%bisync_file_inj).
  apply (os_Rename_file _ _ _ _ t cs) in E; [|done|done]. rewrite E. split_and!.
  - by rewrite lookup_insert_eq.
  - by rewrite lookup_insert_ne, lookup_delete_eq by done.
  - intros q Hq N1 N2. rewrite lookup_insert_ne, lookup_delete_ne; [done| |].
    + intros Ekey%bisync_file_inj; [by subst|done..].
    + intros Ekey%bisync_file_inj; [by subst|done..].
  - done.
Qed.

Lemma look_rename_remote (c : candidate) target (w w' : W) :
  c_path c <> target -> on_remote (MoveFile (c_path c) target) w = (Ok tt, w') ->
  look w' SRemote target = look w SRemote (c_path c) /\ look w' SRemote (c_path c) = None /\
  (forall q, q <> target -> q <> c_path c -> look w' SRemote q = look w SRemote q) /\
  forall q, look w' SLocal q = look w SLocal q.
Proof.
  intros Hne Hren. unfold on_remote in Hren.
  destruct (MoveFile _ _ (w_remote w)) as [r rm] eqn:E. injection Hren as -> <-. cbn.
  apply law_move in E as (o & Ho & Et). rewrite Et. split_and!.
  - by rewrite lookup_insert_eq, Ho.
  - by rewrite lookup_insert_ne, lookup_delete_eq by done.
  - intros q N1 N2. by rewrite lookup_insert_ne, lookup_delete_ne by done.
  - done.
Qed.

(** The callbacks of [bisync_repairDeps] are renames. *)
Lemma bisync_view dry : RepairView (bisync_repairDeps b dry) look (fun p => rel_path p = true).
Proof.
  constructor.
  - intros c target w w' Hp Ht Hne Hx Hren. unfold rename_side in Hren.
    destruct (c_side c) eqn:Es; apply st_try_Ok in Hren as ([] & w1 & Hren & [= <-]).
    + destruct (look_rename_local c target w w1) as (L1 & L2 & L3 & L4); [done..|].
      split_and!; [done|done|done|]. by intros [] q Hq.
    + destruct (look_rename_remote c target w w1) as (L1 & L2 & L3 & L4); [done..|].
      split_and!; [done|done|auto|]. by intros [] q Hq.
  - intros c target w e w' Hren. unfold rename_side in Hren.
    destruct (c_side c); unfold st_try, st_ret in Hren; cbn [rd_RenameLocal rd_RenameRemote bisync_repairDeps] in Hren.
    + unfold on_fs in Hren. destruct (os_Rename _ _ (w_fs w)) as [[[]|e'] fs] eqn:E; [done|].
      injection Hren as _ <-. apply os_Rename_Err in E as ->. by apply look_ext.
    + unfold on_remote in Hren. destruct (MoveFile _ _ (w_remote w)) as [[[]|e'] r] eqn:E; [done|].
      injection Hren as _ <-. apply move_fails in E. by apply look_ext.
  - intros. apply same_look_carry.
  - intros w w' (F & T & _). apply look_ext; [done|by rewrite T].
Qed.

(** The local listing names exactly the files below the root. *)
Lemma walk_names locals (w w1 : W) :
  files_named (fs_nodes (w_fs w)) ->
  (forall t c, fs_nodes (w_fs w) !! path_key (bc_LocalRoot (b_cfg b)) <> Some (File t c)) ->
  walkLocal b w = (Ok locals, w1) ->
  (forall p, p ∈ map lf_Path locals -> rel_path p = true) /\
  (forall p, rel_path p = true -> p ∈ map lf_Path locals <-> is_Some (look w SLocal p)).
Proof.
  intros Hf Hr Hw. pose proof (fun x => walkLocal_exact b w w1 locals x Hw) as Hx.
  assert (forall p, p ∈ map lf_Path locals -> exists k t c, k <> [] /\ Forall (fun x => valid_elem x = true) k /\
    p = Join k "/" /\ fs_nodes (w_fs w) !! (path_key (bc_LocalRoot (b_cfg b)) ++ k) = Some (File t c)) as Hp.
  { intros p (x & -> & Hin)%list_elem_of_fmap. apply Hx in Hin as (k & t & c & Hk & ->). cbn [lf_Path].
    destruct (decide (k = [])) as [->|Hne]; [rewrite app_nil_r in Hk; by apply Hr in Hk|].
    exists k, t, c. rewrite bool_decide_eq_false_2 by done. split_and!; [done| |done|done].
    pose proof (Hf _ _ _ Hk) as Hv. by apply Forall_app in Hv as [_ Hv]. }
  assert (forall p, rel_path p = true -> path_key (bisync_file b p) =
    path_key (bc_LocalRoot (b_cfg b)) ++ SplitByte p slash) as Hkey by (intros; by apply path_key_join).
  split.
  - intros p (k & t & c & Hne & Hv & -> & _)%Hp. apply rel_path_spec. by exists k.
  - intros p Hrel. split.
    + intros (k & t & c & Hne & Hv & -> & Hk)%Hp. unfold look. rewrite Hkey by done.
      rewrite SplitByte_Join by (done || by apply valid_elems_no_slash). by rewrite Hk.
    + unfold look. rewrite Hkey by done.
      destruct (fs_nodes (w_fs w) !! (_ ++ _)) as [[t c|]|] eqn:Ek; [intros _|by intros []..].
      apply list_elem_of_fmap. eexists. split; [|apply Hx; exists (SplitByte p slash), t, c; split; [done|reflexivity]].
      cbn [lf_Path]. rewrite bool_decide_eq_false_2; [by rewrite Join_SplitByte|].
      intros E. pose proof (SplitByte_nonempty p slash) as Hn. by rewrite E in Hn.
Qed.

(** The pass behind [runChainRepair]. *)
Lemma runChainRepair_inv dry mark locals remotes report (w w1 w2 w' : W) :
  walkLocal b w = (Ok locals, w1) -> listRemote w1 = (Ok remotes, w2) ->
  runChainRepair b dry mark w = (Ok report, w') ->
  exists w3, RepairChains (bisync_repairDeps b dry) (map lf_Path locals) (map ro_Path remotes) w2 = (Ok report, w3) /\
    forall sd q, look w' sd q = look w3 sd q.
Proof.
  intros Hl Hr Hrun. unfold runChainRepair, st_try in Hrun. rewrite Hl, Hr in Hrun.
  destruct (RepairChains _ _ _ w2) as [[rep|e] w3] eqn:E; [|done]. exists w3.
  destruct (dry || negb mark); [by injection Hrun as -> ->|].
  unfold st_bind at 1 in Hrun. pose proof (look_store (BSetMeta keyChainRepair "done") w3) as Hs.
  destruct (on_store (BSetMeta keyChainRepair "done") w3) as [x w4]. injection Hrun as -> <-. done.
Qed.

(** ** Property *)

(** C31: the chain repair keeps and flattens, on the files and on the remote.
    Whatever renames fail, every listed file and object is afterwards under
    exactly one name, with its content: its own, or -- if it had two or more
    suffixes over a listed base -- a name of one suffix over that base. Different
    things have different names; a name given up holds nothing, and nothing that
    was not listed is touched. Each reported link names the thing it moved. If
    every candidate is reported, no name of two or more suffixes is left above a
    base that is there, on either side. *)
Theorem chain_repair_flattens mark locals remotes report (w w1 w2 w' : W) :
  let m := bc_Matcher (b_cfg b) in
  let sets := sets_of (map lf_Path locals) (map ro_Path remotes) in
  good_matcher m -> has_slash (pre m) = false -> has_slash (post m) = false ->
  files_named (fs_nodes (w_fs w)) ->
  (forall t c, fs_nodes (w_fs w) !! path_key (bc_LocalRoot (b_cfg b)) <> Some (File t c)) ->
  (forall p, p ∈ map ro_Path remotes -> rel_path p = true /\ is_Some (tree (w_remote w) !! p)) ->
  (forall q, q ∉ map ro_Path remotes -> snd (Base m q) = 1%nat -> fst (Base m q) ∈ map ro_Path remotes ->
     tree (w_remote w) !! q = None) ->
  (forall sd, Z.of_nat (size (sets sd)) < maxProbe) ->
  (forall sd p, p ∈ sets sd -> (snd (Base m p) < maxDepth)%nat) ->
  walkLocal b w = (Ok locals, w1) -> listRemote w1 = (Ok remotes, w2) ->
  runChainRepair b false mark w = (Ok report, w') ->
  (forall p, rel_path p = true -> p ∈ sets SLocal <-> is_Some (look w SLocal p)) /\
  exists r : side -> string -> string,
    (forall sd p q, p ∈ sets sd -> q ∈ sets sd -> r sd p = r sd q -> p = q) /\
    (forall sd p, p ∈ sets sd -> is_Some (look w sd p) /\ look w' sd (r sd p) = look w sd p) /\
    (forall sd p, p ∈ sets sd -> r sd p = p \/
       ((2 <= snd (Base m p))%nat /\ fst (Base m p) ∈ sets sd /\ Base m (r sd p) = (fst (Base m p), 1%nat))) /\
    (forall sd q, q ∈ sets sd -> (forall p, p ∈ sets sd -> r sd p <> q) -> look w' sd q = None) /\
    (forall sd q, rel_path q = true -> q ∉ sets sd -> is_Some (look w sd q) -> look w' sd q = look w sd q) /\
    (forall l, l ∈ Links report -> OldPath l ∈ sets (Side l) /\ r (Side l) (OldPath l) = NewPath l /\
       snd (Base m (NewPath l)) = 1%nat) /\
    Z.of_nat (length (Links report)) <= Scanned report /\
    (Z.of_nat (length (Links report)) = Scanned report ->
     forall sd p q, p ∈ sets sd -> q ∈ sets sd -> (2 <= snd (Base m (r sd p)))%nat ->
       fst (Base m (r sd p)) <> r sd q).
Proof.
  intros m sets Hgood Hpre Hpost Hf Hrf Hrem Hfree Hsize Hdepth Hl Hr Hrun.
  destruct (walk_names locals w w1 Hf Hrf Hl) as [Hrel Hlocal].
  assert (forall sd q, look w2 sd q = look w sd q) as E2.
  { pose proof (quiet_run _ _ _ _ (quiet_walkLocal b) Hl) as (F1 & R1 & _).
    pose proof (listRemote_same_state tree w1) as Hq. rewrite Hr in Hq. destruct Hq as (F2 & T2 & _).
    cbn in F2, T2. apply look_ext; congruence. }
  assert (forall p, p ∈ sets SLocal <-> p ∈ map lf_Path locals) as Es1 by (intros; apply elem_of_list_to_set).
  assert (forall p, p ∈ sets SRemote <-> p ∈ map ro_Path remotes) as Es2 by (intros; apply elem_of_list_to_set).
  assert (forall sd p, p ∈ sets sd -> rel_path p = true /\ is_Some (look w sd p)) as Hlisted.
  { intros [] p Hp.
    - apply Es1 in Hp. split; [by apply Hrel|apply Hlocal; [by apply Hrel|done]].
    - apply Es2 in Hp. destruct (Hrem p Hp) as [? [o Ho]]. split; [done|]. cbn. by rewrite Ho. }
  destruct (runChainRepair_inv false mark locals remotes report w w1 w2 w' Hl Hr Hrun) as (w3 & Hrep & E3).
  destruct (RepairChains_repaired (bisync_repairDeps b false) look (fun p => rel_path p = true)
    (map lf_Path locals) (map ro_Path remotes) w2 w3 report) as (r & [P1 P2 P3 P4 P5 P6] & Hlen & Hflat);
    [apply bisync_view|done| | |done|done|done|done|].
  { intros base n Hb Hn. by apply Format_rel. }
  { intros sd p Hp. rewrite E2. by apply Hlisted. }
  split; [intros p Hp; rewrite Es1; by apply Hlocal|]. exists r.
  split; [exact P1|]. split; [intros sd p Hp; split; [by apply Hlisted|by rewrite E3, P2, E2]|].
  split; [exact P3|]. split; [intros sd q Hq Hno; rewrite E3; by apply P4|].
  split; [|split; [exact P6|split; [exact Hlen|exact Hflat]]].
  intros sd q Hq Hnot Hsome. rewrite E3, P5, E2; [done|done|done|].
  intros p Hp <-. destruct (P3 sd p Hp) as [Ep|(_ & Hb & Eb)]; [by rewrite Ep in Hnot|].
  destruct sd.
  - apply Hnot, Es1, Hlocal; done.
  - cbn in Hsome. rewrite Hfree in Hsome; [by destruct Hsome| | |].
    + by rewrite <- Es2.
    + exact (f_equal snd Eb).
    + assert (fst (Base m (r SRemote p)) = fst (Base m p)) as -> by exact (f_equal fst Eb). by apply Es2.
Qed.

End chain.

(** ** Witness: a nested loser on either side *)

Definition chain_fs : LocalFS :=
  mkFS (<[[] := Folder 0]> (<[["home"] := Folder 0]>
    (<[["home"; "f"] := File (500 * Second) "top"]>
    (<[["home"; "f.old.1"] := File (400 * Second) "first"]>
    (<[["home"; "f.old.1.old.1"] := File (300 * Second) "nested"]> ∅))))) (fun _ _ => None) (700 * Second).

Definition chain_world : World MemFS (JournalStore MemBolt) :=
  mkWorld chain_fs (Seed "g" (650 * Second) "r1" (Seed "g.old.2.old.1" (600 * Second) "r2" demo_mem))
    (mkJournalStore emptyMemBolt None) 0 [].

Definition chain_walk := @walkLocal MemFS (JournalStore MemBolt) demo_env (demo_bisync false) chain_world.

Definition chain_list := @listRemote MemFS (JournalStore MemBolt) _ (snd chain_walk).

Definition chain_run :=
  @runChainRepair MemFS (JournalStore MemBolt) _ _ demo_env (demo_bisync false) false true chain_world.

Definition chain_locals : list LocalFileInfo := match fst chain_walk with Ok l => l | Err _ => [] end.

Definition chain_remotes : list RemoteObject := match fst chain_list with Ok l => l | Err _ => [] end.

Definition chain_report : Report := match fst chain_run with Ok r => r | Err _ => mkReport 0 [] end.

Lemma chain_files_named : files_named (fs_nodes chain_fs).
Proof.
  intros k t c Hk. cbn in Hk.
  repeat (apply lookup_insert_Some in Hk as [[E1 E2]|[_ Hk]];
    [first [discriminate|rewrite <- E1; repeat constructor]|]).
  by rewrite lookup_empty in Hk.
Qed.

Lemma mem_move_fails p q (r : MemFS) e r' : MoveFile p q r = (Err e, r') -> m_files r' = m_files r.
Proof.
  cbn. unfold MemFS_MoveFile. destruct (m_files r !! p); [destruct (m_files r !! q)|]; by intros [= _ <-].
Qed.

Lemma chain_depths q :
  q ∈ ["f"; "f.old.1"; "f.old.1.old.1"; "g"; "g.old.2.old.1"] -> (snd (Base default_matcher q) < maxDepth)%nat.
Proof.
  intros Hq. repeat (apply elem_of_cons in Hq as [->|Hq]; [apply Nat.ltb_lt; vm_compute; reflexivity|]).
  by apply elem_of_nil in Hq.
Qed.

Lemma chain_repair_flattens_witness :
  let look := @look MemFS (JournalStore MemBolt) m_files (demo_bisync false) in
  let w' := snd chain_run in
  let sets := sets_of (map lf_Path chain_locals) (map ro_Path chain_remotes) in
  fst chain_run = Ok chain_report /\ Scanned chain_report = 2 /\ length (Links chain_report) = 2%nat /\
  look w' SLocal "f.old.2" = Some (inl (300 * Second, "nested")) /\
  exists r : side -> string -> string,
    (forall sd p, p ∈ sets sd -> look w' sd (r sd p) = look chain_world sd p) /\
    (forall sd p q, p ∈ sets sd -> q ∈ sets sd -> (2 <= snd (Base default_matcher (r sd p)))%nat ->
       fst (Base default_matcher (r sd p)) <> r sd q).
Proof.
  intros look w' sets.
  assert (fst chain_walk = Ok chain_locals) as Hl by (vm_compute; reflexivity).
  assert (fst chain_list = Ok chain_remotes) as Hr by (vm_compute; reflexivity).
  assert (fst chain_run = Ok chain_report) as Hrun by (vm_compute; reflexivity).
  assert (map lf_Path chain_locals ≡ₚ ["f"; "f.old.1"; "f.old.1.old.1"]) as El
    by (apply (bool_decide_unpack _); vm_compute; exact I).
  assert (map ro_Path chain_remotes ≡ₚ ["g"; "g.old.2.old.1"]) as Er
    by (apply (bool_decide_unpack _); vm_compute; exact I).
  split; [exact Hrun|]. split; [vm_compute; reflexivity|]. split; [vm_compute; reflexivity|].
  split; [vm_compute; reflexivity|].
  destruct (chain_repair_flattens (S := JournalStore MemBolt) (H2 := demo_env) m_files (demo_bisync false) eq_refl
    mem_move_fails
    true chain_locals chain_remotes chain_report chain_world (snd chain_walk) (snd chain_list) w')
    as (_ & r & _ & Hk & _ & _ & _ & _ & _ & Hflat); [reflexivity|reflexivity|reflexivity|exact chain_files_named| | | | | | | | |].
  - intros t c. cbn. done.
  - intros p. rewrite Er, !elem_of_cons, elem_of_nil. intros [->|[->|[]]]; (split; [reflexivity|by eexists]).
  - intros q Hq Hd Hb. cbn. rewrite !lookup_insert_ne; [done| |];
      intros <-; apply Hq; rewrite Er; clear; set_solver.
  - intros []; vm_compute; reflexivity.
  - intros [] p Hp; apply chain_depths; unfold sets_of in Hp; apply elem_of_list_to_set in Hp.
    + rewrite El in Hp. clear -Hp. set_solver.
    + rewrite Er in Hp. clear -Hp. set_solver.
  - rewrite <- Hl. apply surjective_pairing.
  - rewrite <- Hr. apply surjective_pairing.
  - change (chain_run = (Ok chain_report, w')). rewrite <- Hrun. apply surjective_pairing.
  - exists r. split; [intros sd p Hp; by apply Hk|].
    apply Hflat. vm_compute. reflexivity.
Defined.
