(* ===== verification/PushSteps.v ===== *)
(** The handler of a file event (internal/syncer/syncer.go, [handleEvent]) call
    by call, so that the calls of concurrent workers -- which share the read
    lock -- can interleave with each other and with whatever else runs. *)
From S2P Require Import Prelude.
From S2P Require Import GoStrings.
From S2P Require Import GoRuntime.
From S2P Require Import GoPath.
From S2P Require Import LocalFS.
From S2P Require Import Remote.
From S2P Require Import MemFS.
From S2P Require Import OldSuffix.
From S2P Require Import Bolt.
From S2P Require Import Journal.
From S2P Require Import World.
From S2P Require Import Retry.
From S2P Require Import Push.
From S2P Require Import Prune.
From S2P Require Import PullConflict.
From S2P Require Import Pull.

(** ** Definitions *)

(** Where a handler stands, with its local variables. [HTry] has [todo]
    attempts left; [HDone] keeps the object and the entry of an upload that was
    also journaled. *)
Inductive hstate :=
| HStart
| HTry (start : Time) (todo : nat) (backoff : Duration) (lastErr : option error)
| HSleep (start : Time) (todo : nat) (backoff : Duration) (err : error)
| HEnd (start : Time) (r : result (option RemoteObject))
| HRecord (elapsed : Duration) (r : result (option RemoteObject))
| HPut (elapsed : Duration) (obj : option RemoteObject) (record : JournalEntry)
| HReport (elapsed : Duration) (saved : option (RemoteObject * JournalEntry))
| HDone (saved : option (RemoteObject * JournalEntry)).

Section steps.
Context {R S : Type} `{RemoteFS R} `{Store S} `{Env}.
Abbreviation W := (World R S).
Variable s : Syncer.
Variable ev : Event.

(** The part of [recordResult] after the journal entry of a success. *)
Definition reportSuccess (elapsed : Duration) : ST W unit :=
  let* ts := now in
  appendAudit s (mkAudit ts (Op_String (ev_Op ev)) (ev_Path ev) "" 0 (Milliseconds elapsed) "" ""
    false "" "" "" 0) ;;
  let* ts := now in
  publishEvent s "push.success" [("ts", PTime ts); ("type", PStr (Op_String (ev_Op ev)));
    ("path", PStr (ev_Path ev)); ("duration_ms", PInt (Milliseconds elapsed))].

(** One turn: at most one call on the remote, the store or the file system,
    except at the start, which holds no lock and changes nothing. [None] when
    the handler has returned. *)
Definition hstep (h : hstate) : option (ST W hstate) :=
  match h with
  | HStart => Some (
      let* start := now in
      let* skip := skipDirEvent s ev in
      if skip : bool then st_ret (HDone None)
      else if cfg_DryRun (s_cfg s) then logDryRun s ev ;; st_ret (HDone None)
      else st_ret (HTry start (Z.to_nat (MaxAttempts (Retry (s_cfg s))))
                     (InitialBackoff (Retry (s_cfg s))) None))
  | HTry start O backoff lastErr =>
      Some (st_ret (HEnd start (Err (exhausted (Op_String (ev_Op ev)) lastErr))))
  | HTry start (Datatypes.S todo) backoff lastErr => Some (
      let* c := ctx_Err in
      match c with
      | Some e => st_ret (HEnd start (Err (EWrap "retry cancelled" e)))
      | None =>
          let* r := execEvent s ev in
          st_ret (match r, todo with
                  | Ok a, _ => HEnd start (Ok a)
                  | Err e, O => HTry start O backoff (Some e)
                  | Err e, _ => HSleep start todo backoff e
                  end)
      end)
  | HSleep start todo backoff err => Some (
      contextSleep backoff ;;
      st_ret (HTry start todo (nextBackoff backoff (MaxBackoff (Retry (s_cfg s)))) (Some err)))
  | HEnd start r => Some (let* finished := now in st_ret (HRecord (Sub finished start) r))
  | HRecord elapsed (Err err) => Some (
      recordResult s (ev_Path ev) (Op_String (ev_Op ev)) (Err err) elapsed ;; st_ret (HDone None))
  | HRecord elapsed (Ok obj) => Some (
      let* record := pushEntry s (ev_Path ev) obj in st_ret (HPut elapsed obj record))
  | HPut elapsed obj record => Some (
      let* r := on_store (Put record) in
      st_ret (HReport elapsed
        (match r, obj with Ok _, Some obj => Some (obj, record) | _, _ => None end)))
  | HReport elapsed saved => Some (reportSuccess elapsed ;; st_ret (HDone saved))
  | HDone _ => None
  end.

(** A handler that is never interrupted. *)
Fixpoint run_steps (fuel : nat) (h : hstate) : ST W hstate :=
  match fuel with
  | O => st_ret h
  | Datatypes.S fuel =>
      match hstep h with
      | Some m => let* h := m in run_steps fuel h
      | None => st_ret h
      end
  end.

(** The turns a handler can still take. *)
Definition turns_left (h : hstate) : nat :=
  match h with
  | HStart => 2 * Z.to_nat (MaxAttempts (Retry (s_cfg s))) + 6
  | HTry _ todo _ _ => 2 * todo + 5
  | HSleep _ todo _ _ => 2 * todo + 6
  | HEnd _ _ => 4
  | HRecord _ _ => 3
  | HPut _ _ _ => 2
  | HReport _ _ => 1
  | HDone _ => 0
  end.

(** What [handleEvent] still has to do. *)
Definition remaining (h : hstate) : ST W unit :=
  match h with
  | HStart => handleEvent s ev
  | HTry start todo backoff lastErr =>
      let* r := retry_loop (Retry (s_cfg s)) (Op_String (ev_Op ev)) contextSleep (execEvent s ev)
                  todo backoff lastErr in
      let* finished := now in
      recordResult s (ev_Path ev) (Op_String (ev_Op ev)) r (Sub finished start)
  | HSleep start todo backoff err =>
      contextSleep backoff ;;
      let* r := retry_loop (Retry (s_cfg s)) (Op_String (ev_Op ev)) contextSleep (execEvent s ev)
                  todo (nextBackoff backoff (MaxBackoff (Retry (s_cfg s)))) (Some err) in
      let* finished := now in
      recordResult s (ev_Path ev) (Op_String (ev_Op ev)) r (Sub finished start)
  | HEnd start r =>
      let* finished := now in
      recordResult s (ev_Path ev) (Op_String (ev_Op ev)) r (Sub finished start)
  | HRecord elapsed r => recordResult s (ev_Path ev) (Op_String (ev_Op ev)) r elapsed
  | HPut elapsed _ record => on_store (Put record) ;; reportSuccess elapsed
  | HReport elapsed _ => reportSuccess elapsed
  | HDone _ => st_ret tt
  end.

(** ** Lemmas *)

(** A turn does the first part of what remains. *)
Lemma hstep_remaining h m (w : W) :
  hstep h = Some m -> remaining h w = (let '(h', w') := m w in remaining h' w').
Proof.
  destruct h as [|start [|todo] b last|start todo b e|start r|el [obj|e]|el obj rc|el sv|sv];
    intros E; (discriminate E || (apply (inj Some) in E; subst m)); cbn [remaining].
  - unfold handleEvent, retryFunc, st_bind. destruct (now w) as [start w1].
    destruct (skipDirEvent s ev w1) as [[] w2]; [done|].
    destruct (cfg_DryRun (s_cfg s)); [|done]. by destruct (logDryRun s ev w2) as [[] w3].
  - done.
  - unfold st_bind. cbn [retry_loop]. unfold st_bind. destruct (ctx_Err w) as [[c|] w1]; [done|].
    destruct (execEvent s ev w1) as [[a|e] w2]; [done|]. by destruct todo.
  - done.
  - done.
  - unfold st_bind, recordResult. unfold st_bind. destruct (pushEntry s _ obj w) as [rc w1]. done.
  - unfold st_bind. by destruct (recordResult s _ _ (Err e) el w) as [[] w1].
  - unfold st_bind. by destruct (on_store (Put rc) w) as [r w1].
  - unfold st_bind. by destruct (reportSuccess el w) as [[] w1].
Qed.

Lemma hstep_turns h m (w : W) :
  hstep h = Some m -> (turns_left (fst (m w)) < turns_left h)%nat.
Proof.
  destruct h as [|start [|todo] b last|start todo b e|start r|el [obj|e]|el obj rc|el sv|sv];
    intros E; (discriminate E || (apply (inj Some) in E; subst m)); unfold st_bind; cbn [turns_left].
  - destruct (now w) as [start w1]. destruct (skipDirEvent s ev w1) as [[] w2]; [cbn; lia|].
    destruct (cfg_DryRun (s_cfg s)); [destruct (logDryRun s ev w2)|]; cbn; lia.
  - cbn. lia.
  - destruct (ctx_Err w) as [[c|] w1]; [cbn; lia|].
    destruct (execEvent s ev w1) as [[a|e] w2]; [cbn; lia|]. destruct todo; cbn; lia.
  - cbn. lia.
  - cbn. lia.
  - destruct (pushEntry s _ obj w). cbn. lia.
  - destruct (recordResult _ _ _ _ _ w). cbn. lia.
  - destruct (on_store (Put rc) w). cbn. lia.
  - destruct (reportSuccess el w). cbn. lia.
Qed.

Lemma hstep_None h : hstep h = None -> exists saved, h = HDone saved.
Proof. destruct h as [|? [|]| | |? []| | |]; try done. eauto. Qed.

Lemma run_steps_remaining fuel h (w : W) :
  (turns_left h <= fuel)%nat ->
  exists saved, run_steps fuel h w = (HDone saved, snd (remaining h w)).
Proof.
  revert h w. induction fuel as [|fuel IH]; intros h w Hl; cbn [run_steps].
  - destruct h; cbn in Hl; try lia. by eexists.
  - destruct (hstep h) as [m|] eqn:E; [|apply hstep_None in E as [saved ->]; by eexists].
    pose proof (hstep_turns h m w E) as Ht. rewrite (hstep_remaining h m w E). unfold st_bind.
    destruct (m w) as [h' w']. cbn in Ht. apply IH. lia.
Qed.

End steps.

(** ** Concurrent handlers *)

(** Whatever its result, a write to the remote touches only the paths it
    names. *)
Class RemoteFrame (R : Type) `{RemoteFS R} (tree : R -> gmap string RemoteObject) := {
  frame_copy : forall src d fs r q, q <> PathJoin d (PathBase src) ->
    tree (snd (CopyFile src d fs r)) !! q = tree r !! q;
  frame_delete : forall p r q, q <> p -> tree (snd (DeleteFile p r)) !! q = tree r !! q;
  frame_move : forall src dst r q, q <> src -> q <> dst ->
    tree (snd (MoveFile src dst r)) !! q = tree r !! q;
}.

Section interleaving.
Context {R S : Type} `{RemoteFS R} `{StoreLaws S} `{Env}.
Context (tree : R -> gmap string RemoteObject) `{!RemoteWriteLaws R tree} `{!RemoteFrame R tree}.
Abbreviation W := (World R S).
Variable s : Syncer.

(** The handlers that run and the world they share. *)
Definition running : Type := list (Event * hstate) * W.

(** Remote and journal are the same at [q]. *)
Definition path_same (q : string) (w w' : W) : Prop :=
  tree (w_remote w') !! q = tree (w_remote w) !! q /\
  store_view (w_store w') !! q = store_view (w_store w) !! q.

(** A turn of one handler, or anything else that leaves their paths alone. *)
Inductive turn : running -> running -> Prop :=
| turn_handler i ev h m hs (w : W) :
    hs !! i = Some (ev, h) -> hstep s ev h = Some m ->
    turn (hs, w) (<[i := (ev, fst (m w))]> hs, snd (m w))
| turn_other hs (w w' : W) :
    (forall ev h, (ev, h) ∈ hs -> path_same (ev_Path ev) w w') -> turn (hs, w) (hs, w').

(** The entry is the baseline the next poll compares the object against. *)
Definition baseline (p : string) (obj : RemoteObject) (e : JournalEntry) : Prop :=
  je_Path e = p /\ je_RemoteMtime e = ro_ModTime obj /\ je_RemoteMD5 e = ro_MD5 obj /\
  je_RemoteID e = ro_RemoteID obj.

(** What a handler may rely on at its own path. *)
Definition achieved (ev : Event) (h : hstate) (w : W) : Prop :=
  let p := ev_Path ev in
  match h with
  | HEnd _ (Ok (Some obj)) | HRecord _ (Ok (Some obj)) => tree (w_remote w) !! p = Some obj
  | HPut _ None e => je_Path e = p
  | HPut _ (Some obj) e => tree (w_remote w) !! p = Some obj /\ baseline p obj e
  | HReport _ (Some (obj, e)) | HDone (Some (obj, e)) =>
      tree (w_remote w) !! p = Some obj /\ baseline p obj e /\
      store_view (w_store w) !! p = Some (json_norm e)
  | _ => True
  end.

Lemma achieved_same ev h (w w' : W) :
  path_same (ev_Path ev) w w' -> achieved ev h w -> achieved ev h w'.
Proof.
  intros [Et Es]. unfold achieved.
  destruct h as [| | |? [[]|]|? [[]|]|? [] ?|? [[]|]|[[]|]]; rewrite ?Et, ?Es; done.
Qed.

Lemma path_same_quiet q (w w' : W) : same_data w w' -> path_same q w w'.
Proof. intros (_ & Er & Es). unfold path_same. by rewrite Er, Es. Qed.

Lemma execEvent_frame ev (w : W) r w' :
  cfg_LocalRoot (s_cfg s) <> "" -> rel_path (ev_Path ev) = true ->
  execEvent s ev w = (r, w') ->
  (forall q, q <> ev_Path ev -> path_same q w w') /\
  forall obj, r = Ok (Some obj) -> tree (w_remote w') !! ev_Path ev = Some obj.
Proof.
  intros Hroot Hrel Hx. pose proof (execEvent_local s ev w) as [Es _]. rewrite Hx in Es. cbn in Es.
  unfold path_same. rewrite Es. unfold execEvent in Hx.
  destruct (ev_Op ev); [| | |injection Hx as <- <-; done].
  1-2: unfold st_try, on_upload, on_remote in Hx;
    destruct (CopyFile _ _ _ _) as [x r1] eqn:Ec; cbn in Hx;
    pose proof (frame_copy (local_path s (ev_Path ev)) (remoteDir (ev_Path ev)) (w_fs w) (w_remote w)) as Hf;
    rewrite Ec in Hf; unfold local_path in Hf; rewrite upload_path in Hf by done; cbn in Hf;
    (destruct x as [obj|e]; injection Hx as <- <-; cbn in *;
      [split; [intros q Hq; split; [by apply Hf|done]|intros obj' [= <-]];
       apply law_copy in Ec; unfold local_path in Ec; rewrite upload_path in Ec by done;
       by rewrite Ec, lookup_insert_eq
      |split; [intros q Hq; split; [by apply Hf|done]|done]]).
  unfold st_try, execRemove, st_bind, on_remote in Hx.
  pose proof (frame_delete (ev_Path ev) (w_remote w)) as Hf.
  destruct (DeleteFile _ _) as [x r1]. cbn in Hf.
  assert (w_remote w' = r1 /\ forall obj, r <> Ok (Some obj)) as [-> Hno].
  { destruct x as [|e]; [by injection Hx as <- <-|]. cbn in Hx.
    destruct (errors_Is e ErrNotFound); [by injection Hx as <- <-|].
    destruct (errors_Is e ErrIsDir); by injection Hx as <- <-. }
  split; [intros q Hq; split; [by apply Hf|done]|]. intros obj E. by destruct (Hno obj).
Qed.

Lemma pushEntry_baseline p obj (w : W) :
  let e := fst (pushEntry s p obj w) in
  je_Path e = p /\ forall o, obj = Some o -> baseline p o e.
Proof.
  unfold pushEntry, st_bind. destruct (now w) as [ts w1]. destruct obj as [o|].
  - destruct (on_fs _ w1) as [r w2]. cbn. split; [done|]. intros o' [= <-]. done.
  - cbn. done.
Qed.

(** A turn establishes what the next state relies on and touches only the
    handler's own path. *)
Lemma hstep_achieved ev h m (w : W) :
  cfg_LocalRoot (s_cfg s) <> "" -> rel_path (ev_Path ev) = true ->
  hstep s ev h = Some m -> achieved ev h w ->
  achieved ev (fst (m w)) (snd (m w)) /\ forall q, q <> ev_Path ev -> path_same q w (snd (m w)).
Proof.
  intros Hroot Hrel E Ha.
  assert (forall (m' : ST W hstate), quiet m' -> achieved ev (fst (m' w)) w ->
    achieved ev (fst (m' w)) (snd (m' w)) /\ forall q, q <> ev_Path ev -> path_same q w (snd (m' w))) as Hquiet.
  { intros m' Hq Hm. split; [eapply achieved_same, Hm|intros q _]; by apply path_same_quiet, Hq. }
  destruct h as [|start [|todo] b last|start todo b e|start r|el [obj|e]|el obj rc|el sv|sv];
    (discriminate E || (apply (inj Some) in E; subst m)).
  - apply Hquiet; [unfold logDryRun; solve_quiet|]. unfold st_bind.
    destruct (now w) as [t w1]. destruct (skipDirEvent s ev w1) as [[] w2]; [done|].
    destruct (cfg_DryRun _); [|done]. by destruct (logDryRun s ev w2).
  - done.
  - unfold st_bind. pose proof (quiet_ctx w) as Qc. destruct (ctx_Err w) as [[c|] w1]; cbn in Qc.
    + split; [done|]. intros q _. by apply path_same_quiet.
    + destruct (execEvent s ev w1) as [r w2] eqn:Ex.
      destruct (execEvent_frame ev w1 r w2 Hroot Hrel Ex) as [Hf Ho]. cbn. split.
      * destruct r as [[obj|]|]; cbn; [by apply Ho|done|by destruct todo].
      * intros q Hq. destruct (Hf q Hq) as [E1 E2]. destruct Qc as (_ & R1 & S1).
        unfold path_same. rewrite E1, E2. by rewrite R1, S1.
  - apply Hquiet; [solve_quiet|done].
  - apply Hquiet; [solve_quiet|]. unfold st_bind. by destruct (now w).
  - apply Hquiet; [solve_quiet|]. pose proof (pushEntry_baseline (ev_Path ev) obj w) as [Hp Hb].
    unfold st_bind. destruct (pushEntry s (ev_Path ev) obj w) as [rc w1]. cbn in *.
    destruct obj as [o|]; [split; [exact Ha|by apply Hb]|done].
  - apply Hquiet.
    + apply quiet_bind; [apply recordResult_err|intros; apply quiet_ret].
    + unfold st_bind. by destruct (recordResult s _ _ _ _ w).
  - assert (je_Path rc = ev_Path ev) as Hp by (destruct obj; [apply Ha|exact Ha]).
    unfold st_bind, on_store. destruct (Put rc (w_store w)) as [[[]|e] s1] eqn:Ep; cbn.
    + apply store_put in Ep as [Ev _]. split.
      * destruct obj as [o|]; [|done]. destruct Ha as [Ht Hb]. cbn. rewrite Ev, Hp, lookup_insert_eq. done.
      * intros q Hq. split; [done|]. cbn. rewrite Ev, Hp. by rewrite lookup_insert_ne.
    + apply store_put_err in Ep as ->. split; [by destruct obj|]. done.
  - apply Hquiet; [unfold reportSuccess; solve_quiet|]. unfold st_bind. by destruct (reportSuccess s ev el w).
Qed.

(** The invariant of all handlers together. *)
Definition all_achieved (x : running) : Prop :=
  forall i ev h, fst x !! i = Some (ev, h) -> achieved ev h (snd x).

Lemma turn_paths x y : turn x y -> map (fun eh => ev_Path (fst eh)) (fst y) = map (fun eh => ev_Path (fst eh)) (fst x).
Proof.
  destruct 1 as [i ev h m hs w Hi Hm|]; [|done]. cbn.
  apply list_eq. intros j. rewrite !list_lookup_fmap.
  destruct (decide (i = j)) as [<-|Hne]; [|by rewrite list_lookup_insert_ne].
  rewrite list_lookup_insert_eq by (by eapply lookup_lt_Some). by rewrite Hi.
Qed.

Lemma turn_achieved x y :
  cfg_LocalRoot (s_cfg s) <> "" ->
  Forall (fun p => rel_path p = true) (map (fun eh => ev_Path (fst eh)) (fst x)) ->
  NoDup (map (fun eh => ev_Path (fst eh)) (fst x)) ->
  turn x y -> all_achieved x -> all_achieved y.
Proof.
  intros Hroot Hrel Hnd Ht Hx. destruct Ht as [i ev h m hs w Hi Hm|hs w w' Hs]; cbn in *.
  - assert (rel_path (ev_Path ev) = true) as Hr.
    { rewrite Forall_forall in Hrel. apply Hrel.
      apply (list_elem_of_fmap_2 (fun eh => ev_Path (fst eh)) _ (ev, h)). by eapply list_elem_of_lookup_2. }
    destruct (hstep_achieved ev h m w Hroot Hr Hm (Hx i ev h Hi)) as [Ha Hf].
    intros j ev' h' Hj. cbn in Hj |- *. destruct (decide (i = j)) as [<-|Hne].
    + rewrite list_lookup_insert_eq in Hj by (by eapply lookup_lt_Some). by injection Hj as <- <-.
    + rewrite list_lookup_insert_ne in Hj by done. eapply achieved_same; [|by eapply Hx].
      apply Hf. intros E. apply Hne. eapply (NoDup_lookup _ _ _ _ Hnd);
        rewrite list_lookup_fmap; [by rewrite Hi|rewrite Hj; cbn; by rewrite E].
  - intros j ev h Hj. eapply achieved_same; [|by eapply Hx]. eapply Hs. by eapply list_elem_of_lookup_2.
Qed.

Lemma turns_achieved x y :
  cfg_LocalRoot (s_cfg s) <> "" ->
  Forall (fun p => rel_path p = true) (map (fun eh => ev_Path (fst eh)) (fst x)) ->
  NoDup (map (fun eh => ev_Path (fst eh)) (fst x)) ->
  rtc turn x y -> all_achieved x -> all_achieved y.
Proof.
  intros Hroot Hrel Hnd Ht. induction Ht as [x|x y z Hxy _ IH]; [done|]. intros Hx.
  apply turn_paths in Hxy as Ep. apply IH; [by rewrite Ep|by rewrite Ep|].
  by eapply turn_achieved.
Qed.

Lemma turns_paths x y : rtc turn x y ->
  map (fun eh => ev_Path (fst eh)) (fst y) = map (fun eh => ev_Path (fst eh)) (fst x).
Proof. induction 1 as [x|x y z Hxy _ IH]; [done|]. by rewrite IH; apply turn_paths. Qed.

(** What handlers of different files have achieved, however they were
    interleaved. *)
Lemma started_achieved evs (w w' : W) hs :
  cfg_LocalRoot (s_cfg s) <> "" -> Forall (fun ev => rel_path (ev_Path ev) = true) evs ->
  NoDup (map ev_Path evs) ->
  rtc turn (map (fun ev => (ev, HStart)) evs, w) (hs, w') ->
  forall i ev h, hs !! i = Some (ev, h) ->
  match h with
  | HDone (Some (obj, e)) =>
      tree (w_remote w') !! ev_Path ev = Some obj /\
      store_view (w_store w') !! ev_Path ev = Some (json_norm e) /\ baseline (ev_Path ev) obj e
  | HDone None => True
  | _ => exists m, hstep s ev h = Some m /\ (turns_left s (fst (m w')) < turns_left s h)%nat
  end.
Proof.
  intros Hroot Hrel Hnd Hrun i ev h Hi.
  assert (map (fun eh : Event * hstate => ev_Path (fst eh)) (map (fun ev => (ev, HStart)) evs) = map ev_Path evs) as Ep
    by (by rewrite map_map).
  assert (all_achieved (map (fun ev => (ev, HStart)) evs, w)) as Hall.
  { intros j ev' h' Hj. cbn in Hj. rewrite list_lookup_fmap in Hj.
    destruct (evs !! j); [|done]. by injection Hj as <- <-. }
  assert (all_achieved (hs, w')) as Hall'.
  { refine (turns_achieved _ _ Hroot _ _ Hrun Hall); cbn [fst]; rewrite Ep; [by apply Forall_map|done]. }
  specialize (Hall' i ev h Hi). cbn in Hall'.
  assert (forall m, hstep s ev h = Some m ->
    exists m, hstep s ev h = Some m /\ (turns_left s (fst (m w')) < turns_left s h)%nat) as Hm
    by (intros m Em; exists m; split; [done|by apply (hstep_turns s ev)]).
  destruct h as [|? [|]| | |? []| | |[[obj e]|]]; [by eapply Hm..|by destruct Hall' as (?&?&?)|done].
Qed.

End interleaving.

(** The turns of a schedule, one after the other. *)
Section schedule.
Context {R S : Type} `{RemoteFS R} `{Store S} `{Env}.
Variable s : Syncer.

Definition take_turn (i : nat) (x : running (R := R) (S := S)) : running :=
  match fst x !! i with
  | Some (ev, h) =>
      match hstep s ev h with
      | Some m => let '(h', w') := m (snd x) in (<[i := (ev, h')]> (fst x), w')
      | None => x
      end
  | None => x
  end.

Definition interleave (sched : list nat) (x : running) : running :=
  fold_left (fun x i => take_turn i x) sched x.

End schedule.

Lemma interleave_turns {R S} `{RemoteFS R} `{StoreLaws S} `{Env} (tree : R -> gmap string RemoteObject)
    s sched (x : running (R := R) (S := S)) : rtc (turn tree s) x (interleave s sched x).
Proof.
  revert x. induction sched as [|i sched IH]; intros x; [done|]. cbn.
  etrans; [|apply IH]. destruct x as [hs w]. unfold take_turn. cbn [fst snd].
  destruct (hs !! i) as [[ev h]|] eqn:Hi; [|done]. destruct (hstep s ev h) as [m|] eqn:Hm; [|done].
  rewrite (surjective_pairing (m w)). by apply rtc_once, turn_handler with (h := h).
Qed.

#[export] Instance MemFS_frame : RemoteFrame MemFS m_files.
Proof.
  constructor; cbn.
  - intros src d fs m q Hq. by rewrite lookup_insert_ne.
  - intros p m q Hq. unfold MemFS_DeleteFile. destruct (m_files m !! p); [|done].
    cbn. by rewrite lookup_delete_ne.
  - intros src dst m q Hs Hd. unfold MemFS_MoveFile. destruct (m_files m !! src); [|done].
    destruct (m_files m !! dst); [done|]. cbn. by rewrite lookup_delete_ne, lookup_insert_ne.
Qed.

(** ** Properties *)

Section properties.
Context {R S : Type} `{RemoteFS R} `{StoreLaws S} `{Env}.
Abbreviation W := (World R S).

(** The push handler call by call is the push handler: left alone it takes
    at most [2 * MaxAttempts + 6] turns, has then returned, and the world is the
    one [handleEvent] leaves. *)
Theorem handler_steps s ev (w : W) :
  exists saved, run_steps s ev (2 * Z.to_nat (MaxAttempts (Retry (s_cfg s))) + 6) HStart w
    = (HDone saved, snd (handleEvent s ev w)).
Proof. exact (run_steps_remaining s ev _ HStart w (le_n _)). Qed.

(** Concurrent pushes of different files do not disturb each other: under
    every interleaving of their calls, with each other and with anything that
    leaves their paths alone, a handler that has returned with its upload
    journaled leaves on the remote the object it uploaded and in the journal
    the baseline of that object; and a handler that has not returned has a next
    turn, of which only finitely many are left. *)
Theorem interleaved_pushes tree `{!RemoteWriteLaws R tree} `{!RemoteFrame R tree} s evs (w w' : W) hs :
  cfg_LocalRoot (s_cfg s) <> "" -> Forall (fun ev => rel_path (ev_Path ev) = true) evs ->
  NoDup (map ev_Path evs) ->
  rtc (turn tree s) (map (fun ev => (ev, HStart)) evs, w) (hs, w') ->
  forall i ev h, hs !! i = Some (ev, h) ->
  match h with
  | HDone (Some (obj, e)) =>
      tree (w_remote w') !! ev_Path ev = Some obj /\
      store_view (w_store w') !! ev_Path ev = Some (json_norm e) /\ baseline (ev_Path ev) obj e
  | HDone None => True
  | _ => exists m, hstep s ev h = Some m /\ (turns_left s (fst (m w')) < turns_left s h)%nat
  end.
Proof.
  intros Hroot Hrel Hnd Hrun. by apply (started_achieved tree s evs w w' hs).
Qed.

End properties.

(** *** A poll between the upload and its journal entry

    Pushes and polls share the read lock, so a poll can run while a handler
    holds an upload that it has not journaled yet. *)

(** [docs/a.txt] was synced at 400 s and edited at 500 s. *)
Definition edited_db : MemBolt :=
  mkMemBolt true
    (<["docs/a.txt" := Encoded (mkJournalEntry "docs/a.txt" (400 * Second) (400 * Second) "r1" "id-1"
         (401 * Second) "local")]> ∅) ∅.

Definition edited_world : World MemFS (JournalStore MemBolt) :=
  mkWorld demo_fs (SetStartPageToken "0" (Seed "docs/a.txt" (400 * Second) "r1" demo_mem))
    (mkJournalStore edited_db None) 0 [].

(** The remote puts the upload on its change list. *)
Definition announce (w : World MemFS (JournalStore MemBolt)) : World MemFS (JournalStore MemBolt) :=
  mkWorld (w_fs w)
    (AddChange (mkChange "docs/a.txt" false (m_files (w_remote w) !! "docs/a.txt")) (w_remote w))
    (w_store w) (w_tick w) (w_out w).

Definition edit_event : Event := mkEvent "docs/a.txt" OpWrite 0.

(** The file after [before] turns of its handler, a poll, and [after] more. *)
Definition poll_after (before after : nat) : World MemFS (JournalStore MemBolt) :=
  let x := @interleave _ _ _ _ demo_env demo_syncer (repeat 0%nat before)
             ([(edit_event, HStart)], edited_world) in
  let '(_, (w, _)) := @poll _ _ _ _ demo_env (demo_puller false) (announce (snd x), mkPullState 0 ∅) in
  snd (@interleave _ _ _ _ demo_env demo_syncer (repeat 0%nat after) (fst x, w)).

(** One edit, no other client: a poll that comes after the handler changes no
    file, but one that comes between the upload and its journal entry takes the
    agent's own upload for a conflict, moves the edited file aside as
    [docs/a.txt.old.1] and downloads the upload in its place; the handler then
    journals a local modification time the file no longer has. *)
Theorem poll_before_journal :
  fs_nodes (w_fs (poll_after 6 0)) = fs_nodes demo_fs /\
  let w := poll_after 4 2 in
  (fs_nodes (w_fs w) !! ["home"; "docs"; "a.txt.old.1"], fs_nodes (w_fs w) !! ["home"; "docs"; "a.txt"],
   option_map je_LocalMtime (store_view (w_store w) !! "docs/a.txt"))
  = (Some (File (500 * Second) "hello"), Some (File (600 * Second) "content-of-docs/a.txt"),
     Some (500 * Second)).
Proof. split; vm_compute; reflexivity. Qed.

(** ** Witnesses *)

Definition saved_of (x : option (Event * hstate)) : option (RemoteObject * JournalEntry) :=
  match x with Some (_, HDone saved) => saved | _ => None end.

Definition is_some {A} (o : option A) : bool := match o with Some _ => true | None => false end.

Lemma interleaved_pushes_witness :
  let evs := [mkEvent "docs/a.txt" OpWrite 0; mkEvent "b.txt" OpCreate 0] in
  let x := @interleave _ _ _ _ demo_env demo_syncer [0; 1; 1; 0; 1; 0; 0; 1; 1; 0; 0; 1]%nat
             (map (fun ev => (ev, HStart)) evs, demo_world demo_db) in
  (exists obj e, fst x !! 0%nat = Some (mkEvent "docs/a.txt" OpWrite 0, HDone (Some (obj, e))) /\
    m_files (w_remote (snd x)) !! "docs/a.txt" = Some obj /\ baseline "docs/a.txt" obj e) /\
  exists obj e, fst x !! 1%nat = Some (mkEvent "b.txt" OpCreate 0, HDone (Some (obj, e))) /\
    m_files (w_remote (snd x)) !! "b.txt" = Some obj /\ baseline "b.txt" obj e.
Proof.
  intros evs x.
  pose proof (interleaved_pushes (H2 := demo_env) m_files demo_syncer evs (demo_world demo_db)
    (snd x) (fst x) ltac:(discriminate) ltac:(by repeat constructor)
    ltac:(by apply (bool_decide_unpack _); vm_compute)) as Hp.
  rewrite <- surjective_pairing in Hp.
  specialize (Hp (interleave_turns (H2 := demo_env) m_files demo_syncer _ _)).
  assert (fst x !! 0%nat = Some (mkEvent "docs/a.txt" OpWrite 0, HDone (saved_of (fst x !! 0%nat)))) as E1
    by (vm_compute; reflexivity).
  assert (fst x !! 1%nat = Some (mkEvent "b.txt" OpCreate 0, HDone (saved_of (fst x !! 1%nat)))) as E2
    by (vm_compute; reflexivity).
  assert (is_some (saved_of (fst x !! 0%nat)) = true) as S1 by (vm_compute; reflexivity).
  assert (is_some (saved_of (fst x !! 1%nat)) = true) as S2 by (vm_compute; reflexivity).
  destruct (saved_of (fst x !! 0%nat)) as [[o1 e1]|]; [|discriminate S1].
  destruct (saved_of (fst x !! 1%nat)) as [[o2 e2]|]; [|discriminate S2].
  destruct (Hp 0%nat _ _ E1) as (T1 & _ & B1). destruct (Hp 1%nat _ _ E2) as (T2 & _ & B2).
  split; [exists o1, e1; exact (conj E1 (conj T1 B1))|exists o2, e2; exact (conj E2 (conj T2 B2))].
Defined.
