(* ===== verification/PullFrame.v ===== *)
(** What a remote change can touch. Processing a change of one path -- delete,
    download, adoption or conflict with its retention -- changes that path and
    the [.old] names of its base, and nothing else; so a poll may run between
    the calls of push handlers of other files. *)
From S2P Require Import Prelude.
From S2P Require Import GoStrings.
From S2P Require Import GoRuntime.
From S2P Require Import OldSuffix.
From S2P Require Import GoPath.
From S2P Require Import LocalFS.
From S2P Require Import Remote.
From S2P Require Import MemFS.
From S2P Require Import Bolt.
From S2P Require Import Journal.
From S2P Require Import World.
From S2P Require Import AuditLog.
From S2P Require Import Prune.
From S2P Require Import Retry.
From S2P Require Import Push.
From S2P Require Import PullConflict.
From S2P Require Import Pull.
From S2P Require Import PushSteps.

(** ** Definitions *)

(** The names a conflict of [path] may use: itself and the numbered names of
    the base. *)
Definition family (m : Matcher) (path base x : string) : Prop :=
  x = path \/ exists n, 1 <= n /\ x = Format m base n.

Section frame.
Context {R S : Type} `{RemoteFS R} `{StoreLaws S} `{Env}.
Context (tree : R -> gmap string RemoteObject) `{!RemoteLaws R tree} `{!RemoteFrame R tree}.
Abbreviation W := (World R S).

(** The base [NextOldN] would choose for [path] in this world. *)
Definition loser_base (path : string) (w : W) : string :=
  fst (NextOldN (store_matcher (w_store w)) path (store_has (w_store w))).

Variable root : string.

Definition local_key (x : string) : list string := path_key (root +:+ "/" +:+ x).

(** Nothing outside the names [X] has changed: neither on the remote nor in the
    journal, and every local file elsewhere is still there as it was. *)
Definition outside (X : string -> Prop) (w w' : W) : Prop :=
  (forall q, ~ X q -> path_same tree q w w') /\
  (forall k t c, (forall x, X x -> local_key x <> k) ->
     fs_nodes (w_fs w) !! k = Some (File t c) -> fs_nodes (w_fs w') !! k = Some (File t c)).

#[export] Instance outside_preorder X : PreOrder (outside X).
Proof.
  unfold outside, path_same. split; [by intros w|].
  intros w1 w2 w3 [A1 B1] [A2 B2]. split; [|eauto].
  intros q Hq. destruct (A1 q Hq), (A2 q Hq). split; congruence.
Qed.

Lemma outside_mono (X Y : string -> Prop) w w' :
  (forall x, X x -> Y x) -> outside X w w' -> outside Y w w'.
Proof. intros HXY [A B]. split; [eauto|]. intros k t c Hk. apply B. eauto. Qed.

(** ** Lemmas *)

(** *** The calls *)

Lemma outside_same X w w' : same_data w w' -> outside X w w'.
Proof. intros (F & Er & Es). unfold outside, path_same. by rewrite F, Er, Es. Qed.

Section calls.
Variable X : string -> Prop.

Lemma out_quiet {A} (m : ST W A) : quiet m -> preserves (outside X) m.
Proof. intros Hm w. apply outside_same, Hm. Qed.

Lemma out_fs {A} (m : ST LocalFS A) :
  (forall fs k t c, (forall x, X x -> local_key x <> k) -> fs_nodes fs !! k = Some (File t c) ->
     fs_nodes (snd (m fs)) !! k = Some (File t c)) ->
  preserves (outside X) (on_fs m).
Proof.
  intros Hm w. specialize (Hm (w_fs w)). unfold on_fs, outside, path_same.
  destruct (m (w_fs w)) as [a fs]. done.
Qed.

Lemma out_remote {A} (m : ST R A) :
  (forall r q, ~ X q -> tree (snd (m r)) !! q = tree r !! q) -> preserves (outside X) (on_remote m).
Proof.
  intros Hm w. specialize (Hm (w_remote w)). unfold on_remote, outside, path_same.
  destruct (m (w_remote w)) as [a r]. split; [|done]. intros q Hq. by split; [apply Hm|].
Qed.

Lemma out_store {A} (m : ST S A) :
  (forall s q, ~ X q -> store_view (snd (m s)) !! q = store_view s !! q) ->
  preserves (outside X) (on_store m).
Proof.
  intros Hm w. specialize (Hm (w_store w)). unfold on_store, outside, path_same.
  destruct (m (w_store w)) as [a s]. split; [|done]. intros q Hq. by split; [|apply Hm].
Qed.

Lemma out_Put e : X (je_Path e) -> preserves (outside X) (on_store (Put e)).
Proof.
  intros Hx. apply out_store. intros s q Hq. destruct (Put e s) as [[[]|err] s'] eqn:E.
  - apply store_put in E as [Hv _]. cbn. rewrite Hv. apply lookup_insert_ne. by intros <-.
  - by apply store_put_err in E as ->.
Qed.

Lemma out_Delete p : X p -> preserves (outside X) (on_store (Delete p)).
Proof.
  intros Hx. apply out_store. intros s q Hq. destruct (Delete p s) as [[[]|err] s'] eqn:E.
  - apply store_delete in E as [Hv _]. cbn. rewrite Hv. apply lookup_delete_ne. by intros <-.
  - by apply store_delete_err in E as ->.
Qed.

Lemma out_Remove p x :
  X x -> path_key p = local_key x -> preserves (outside X) (on_fs (os_Remove p)).
Proof.
  intros Hx Hp. apply out_fs. intros fs k t c Hk Hf. pose proof (os_Remove_spec p fs) as Hr. cbn in Hr.
  destruct (os_Remove p fs) as [[[]|err] fs']; [|by subst fs'].
  destruct Hr as (E & _). cbn. rewrite E, lookup_delete_ne; [done|]. rewrite Hp. by apply Hk.
Qed.

Lemma out_MkdirAll p : preserves (outside X) (on_fs (os_MkdirAll p)).
Proof. apply out_fs. intros fs k t c _. apply os_MkdirAll_keeps. Qed.

Lemma out_Download p l x :
  X x -> path_key l = local_key x -> preserves (outside X) (on_download (DownloadFile p l)).
Proof.
  intros Hx Hl w. pose proof (law_download p l (w_remote w) (w_fs w)) as Ht.
  pose proof (law_download_local p l (w_remote w) (w_fs w)) as Hf. unfold on_download, outside, path_same.
  destruct (DownloadFile p l (w_remote w, w_fs w)) as [a [r fs]]. cbn in *.
  split; [intros q _; by rewrite Ht|]. intros k t c Hk Hn. apply Hf; [done|]. rewrite Hl.
  intros ->. by apply (Hk x).
Qed.

Lemma out_Upload src d x :
  X x -> PathJoin d (PathBase src) = x -> preserves (outside X) (on_upload (CopyFile src d)).
Proof.
  intros Hx Ex w. apply out_remote. intros r q Hq. apply frame_copy. rewrite Ex. by intros ->.
Qed.

Lemma out_DeleteFile p : X p -> preserves (outside X) (on_remote (DeleteFile p)).
Proof. intros Hx. apply out_remote. intros r q Hq. apply frame_delete. by intros ->. Qed.

Lemma out_MoveFile p p' : X p -> X p' -> preserves (outside X) (on_remote (MoveFile p p')).
Proof. intros Hp1 Hp2. apply out_remote. intros r q Hq. apply frame_move; by intros ->. Qed.

Lemma out_Rename src dst x :
  X x -> path_key dst = local_key x -> (exists y, X y /\ path_key src = local_key y) ->
  forall w : W, (forall t, fs_nodes (w_fs w) !! path_key src <> Some (Folder t)) ->
  outside X w (snd (on_fs (os_Rename src dst) w)).
Proof.
  intros Hx Hd (y & Hy & Hs) w Hnf. unfold on_fs, outside, path_same.
  assert (forall k t c, (forall x, X x -> local_key x <> k) -> fs_nodes (w_fs w) !! k = Some (File t c) ->
    fs_nodes (snd (os_Rename src dst (w_fs w))) !! k = Some (File t c)) as Hf.
  { intros k t c Hk Hn. unfold os_Rename, with_fault, resolve.
    destruct (fs_fault _ _ _); [done|].
    destruct (fs_nodes (w_fs w) !! path_key src) as [[ts cs|ts]|] eqn:E; [|by destruct (Hnf ts)|].
    2: by repeat case_match.
    assert (path_key src <> k) as N1 by (rewrite Hs; by apply Hk).
    assert (path_key dst <> k) as N2 by (rewrite Hd; by apply Hk).
    repeat case_match; cbn; try done; rewrite lookup_insert_ne, lookup_delete_ne; done. }
  destruct (os_Rename src dst (w_fs w)) as [a fs]. done.
Qed.

(** Retention after a conflict removes numbered siblings of the base only. *)
Lemma out_prune deps base :
  cd_localRoot deps = root -> (forall x n, TrimOne (cd_matcher deps) x = Some (base, n) -> X x) ->
  preserves (outside X) (conflict_pruneAfterConflict deps base).
Proof.
  intros Hroot HX. unfold conflict_pruneAfterConflict.
  apply preserves_bind; [typeclasses eauto| |intros; apply out_quiet, quiet_ret].
  apply preserves_try; [typeclasses eauto|apply out_quiet, quiet_list|intros cands].
  apply preserves_bind; [typeclasses eauto|apply out_quiet, quiet_now|intros t].
  apply preserves_bind; [typeclasses eauto| |intros; apply out_quiet, quiet_ret].
  match goal with |- preserves _ (evict_all _ _ ?l) => assert (forall ev, ev ∈ l -> X (je_Path (ev_entry ev))) as Hl end.
  { intros ev [n Hn]%selectEvictions_sibling. by eapply HX. }
  revert Hl. generalize (selectEvictions (pd_Matcher (conflict_pruneDeps (R := R) (S := S) deps)) base cands (cd_retention deps) t).
  intros l. induction l as [|ev l IH]; intros Hl; cbn [evict_all].
  { apply out_quiet, quiet_ret. }
  apply preserves_bind; [typeclasses eauto| |intros b; apply preserves_bind;
    [typeclasses eauto|apply IH; set_solver|intros; apply out_quiet, quiet_ret]].
  assert (X (je_Path (ev_entry ev))) as Hx by set_solver.
  unfold evict. destruct (pd_DryRun _).
  { apply out_quiet, quiet_bind; [apply quiet_publishPruned|intros; apply quiet_ret]. }
  apply preserves_bind; [typeclasses eauto| |intros r; destruct r as [[]|e]].
  - unfold removeEvicted. destruct (String.eqb _ _); cbn; apply preserves_bind; try typeclasses eauto.
    + by apply out_DeleteFile.
    + intros. apply out_quiet, quiet_ret.
    + eapply out_Remove; [exact Hx|]. unfold conflict_file. by rewrite Hroot.
    + intros. apply out_quiet, quiet_ret.
  - apply preserves_bind; [typeclasses eauto|by apply out_Delete|intros _]. apply out_quiet.
    apply quiet_bind; [apply quiet_audit_evicted|intros _].
    apply quiet_bind; [apply quiet_publishPruned|intros; apply quiet_ret].
  - apply out_quiet, quiet_ret.
Qed.

End calls.

(** *** The operations of the puller *)

(** The rest of an operation that first made calls without an effect. *)
Lemma out_after {A B} X (m : ST W A) (k : A -> ST W B) (w : W) :
  quiet m -> (forall a w1, same_data w w1 -> fst (m w) = a -> outside X w1 (snd (k a w1))) ->
  outside X w (snd (st_bind m k w)).
Proof.
  intros Hm Hk. pose proof (Hm w) as Q. pose proof (out_quiet X m Hm w) as O. unfold st_bind.
  destruct (m w) as [a w1]. cbn in *. etrans; [exact O|]. by apply Hk.
Qed.

Lemma out_after_try {A B} X f (m : ST W (result A)) (k : A -> ST W (result B)) (w : W) :
  quiet m -> (forall a w1, same_data w w1 -> fst (m w) = Ok a -> outside X w1 (snd (k a w1))) ->
  outside X w (snd (st_try f m k w)).
Proof.
  intros Hm Hk. pose proof (Hm w) as Q. pose proof (out_quiet X m Hm w) as O. unfold st_try.
  destruct (m w) as [[a|e] w1]; cbn in *; [|exact O]. etrans; [exact O|]. by apply Hk.
Qed.

Lemma out_try_keep {A B} X f (m : ST W (result A)) (k : A -> ST W (result B)) (w : W) :
  outside X w (snd (m w)) -> (forall a, preserves (outside X) (k a)) ->
  outside X w (snd (st_try f m k w)).
Proof.
  intros Hm Hk. unfold st_try. destruct (m w) as [[a|e] w1]; [|done]. etrans; [exact Hm|apply Hk].
Qed.

Section conflict.
Variable X : string -> Prop.
Variable deps : conflictDeps.
Hypothesis Hroot : cd_localRoot deps = root.

Lemma out_remote_wins path base old lm (w : W) :
  X path -> X old -> (forall x n, TrimOne (cd_matcher deps) x = Some (base, n) -> X x) ->
  (forall t, fs_nodes (w_fs w) !! local_key path <> Some (Folder t)) ->
  outside X w (snd (conflict_remote_wins deps path base old lm w)).
Proof.
  intros Hp Ho HX Hnf. unfold conflict_remote_wins. cbn zeta.
  assert (forall x, path_key (conflict_file deps x) = local_key x) as Hk
    by (intros; unfold conflict_file; by rewrite Hroot).
  apply out_try_keep.
  { apply (out_Rename X _ _ old); [done|apply Hk|eauto|]. intros t. rewrite Hk. apply Hnf. }
  intros _. apply preserves_bind; [typeclasses eauto|apply out_quiet, quiet_now|intros ts].
  apply preserves_try; [typeclasses eauto|by apply out_Put|intros _].
  apply preserves_bind; [typeclasses eauto|by apply out_prune|intros _].
  apply preserves_try; [typeclasses eauto| |intros; apply out_quiet, quiet_ret].
  by apply (out_Download X _ _ path).
Qed.

Lemma out_local_wins path base old obj :
  rel_path path = true ->
  X path -> X old -> (forall x n, TrimOne (cd_matcher deps) x = Some (base, n) -> X x) ->
  preserves (outside X) (conflict_local_wins deps path base old obj).
Proof.
  intros Hrel Hp Ho HX. unfold conflict_local_wins.
  apply preserves_try; [typeclasses eauto|by apply out_MoveFile|intros _].
  apply preserves_bind; [typeclasses eauto|apply out_quiet, quiet_now|intros ts].
  apply preserves_try; [typeclasses eauto|by apply out_Put|intros _].
  apply preserves_bind; [typeclasses eauto|by apply out_prune|intros _].
  apply preserves_try; [typeclasses eauto| |intros; apply out_quiet, quiet_ret].
  apply (out_Upload X _ _ path); [done|]. by apply sprintf_lands.
Qed.

End conflict.

Lemma out_resolveConflict deps path obj lm base (w : W) :
  cd_localRoot deps = root -> rel_path path = true -> base = loser_base path w ->
  (forall t, fs_nodes (w_fs w) !! local_key path <> Some (Folder t)) ->
  outside (family (cd_matcher deps) path base) w (snd (resolveConflict deps path obj lm w)).
Proof.
  intros Hroot Hrel -> Hnf. unfold resolveConflict. cbn zeta.
  apply out_after; [apply quiet_conflict_publish|intros _ w1 (F1 & R1 & S1) _].
  apply out_after_try; [apply quiet_next|intros [b n] w2 (F2 & R2 & S2) E].
  assert (b = loser_base path w) as ->.
  { unfold on_store in E. rewrite store_next in E. injection E as E. unfold loser_base.
    rewrite <- S1. by rewrite E. }
  destruct (cd_dryRun deps); [done|]. cbn [fst snd].
  set (X := family (cd_matcher deps) path (loser_base path w)).
  assert (X path) as Hp by by left.
  assert (X (Format (cd_matcher deps) (loser_base path w) n)) as Ho by (right; exists n; split; [|done]; unfold on_store in E; rewrite store_next in E; injection E as E;
      pose proof (NextOldN_pos (store_matcher (w_store w1)) path (store_has (w_store w1))) as Hn; by rewrite E in Hn).
  assert (forall x i, TrimOne (cd_matcher deps) x = Some (loser_base path w, i) -> X x) as HX
    by (intros x i (-> & ? & _)%TrimOne_sound; right; exists i; split; [lia|done]).
  apply out_try_keep.
  - destruct (String.eqb _ "remote").
    + apply out_remote_wins; try done. intros t. rewrite F2, F1. apply Hnf.
    + by apply out_local_wins.
  - intros _. apply preserves_bind; [typeclasses eauto|apply out_quiet, quiet_conflict_publish|].
    intros _. apply out_quiet, quiet_ret.
Qed.

Section puller.
Variable p : Puller.
Hypothesis Hroot : pc_LocalRoot (p_cfg p) = root.
Hypothesis Hrooted : is_rooted root = true.

Lemma root_file_key x : path_key (root_file p x) = local_key x.
Proof.
  unfold root_file, local_key. rewrite Hroot, PathJoin_rooted by done.
  apply path_key_Clean. by apply is_rooted_app.
Qed.

Lemma out_handleConflict path obj lm start (w : W) :
  rel_path path = true -> (forall t, fs_nodes (w_fs w) !! local_key path <> Some (Folder t)) ->
  outside (family (pc_Matcher (p_cfg p)) path (loser_base path w)) w
    (snd (handleConflict p path obj lm start w)).
Proof.
  intros Hrel Hnf. unfold handleConflict.
  pose proof (out_resolveConflict (puller_deps p) path obj lm _ w Hroot Hrel eq_refl Hnf) as O.
  cbn [puller_deps cd_matcher] in O. unfold st_bind at 1.
  set (X := family (pc_Matcher (p_cfg p)) path (loser_base path w)) in *.
  destruct (resolveConflict (puller_deps p) path obj lm w) as [r w1]. cbn [snd] in O.
  assert (X path) as Hx by by left.
  etrans; [exact O|]. clearbody X. destruct r as [res|e].
  - refine (preserves_try (outside X) _ _ _ _ _ w1).
    + destruct (pc_DryRun (p_cfg p)); [apply out_quiet, quiet_ret|].
      intros w2. unfold buildConflictEntry, st_bind.
      pose proof (out_quiet X now quiet_now w2) as Q. destruct (now w2) as [ts w3]. cbn in Q |- *.
      etrans; [exact Q|]. by apply out_Put.
    + intros _. apply out_quiet. solve_quiet.
  - refine (out_quiet X _ _ w1). solve_quiet.
Qed.

Section ops.
Variable X : string -> Prop.

Lemma out_removeLocal x : X x -> preserves (outside X) (removeLocal (root_file p x)).
Proof.
  intros Hx. unfold removeLocal. apply preserves_bind; [typeclasses eauto| |].
  - by apply (out_Remove X _ x), root_file_key.
  - intros r. apply out_quiet. destruct r as [[]|e]; [apply quiet_ret|].
    destruct (os_IsNotExist e); [apply quiet_ret|]. apply quiet_bind; [apply quiet_Stat|intros i].
    destruct i as [i|]; [destruct (IsDir i)|]; apply quiet_ret.
Qed.

Lemma out_processDelete ch start :
  X (ch_Path ch) -> preserves (outside X) (processDelete p ch start).
Proof.
  intros Hx. unfold processDelete. destruct (pc_DryRun (p_cfg p)); [apply out_quiet; solve_quiet|].
  apply preserves_try; [typeclasses eauto|by apply out_removeLocal|intros _].
  apply preserves_try; [typeclasses eauto|by apply out_Delete|intros _].
  apply out_quiet. solve_quiet.
Qed.

Lemma out_adopt path obj j : X path -> preserves (outside X) (adoptIdenticalRemote p path obj j).
Proof.
  intros Hx. unfold adoptIdenticalRemote. destruct (_ || _); [apply out_quiet, quiet_ret|].
  apply preserves_bind; [typeclasses eauto|apply out_quiet, quiet_Stat|intros r].
  destruct r as [i|]; [|apply out_quiet, quiet_ret]. destruct (IsDir i); [apply out_quiet, quiet_ret|].
  apply preserves_try; [typeclasses eauto|apply out_quiet, quiet_fileMD5|intros sum].
  destruct (negb _); [apply out_quiet, quiet_ret|].
  destruct (pc_DryRun (p_cfg p)); [apply out_quiet, quiet_ret|].
  apply preserves_bind; [typeclasses eauto|apply out_quiet, quiet_now|intros ts].
  apply preserves_try; [typeclasses eauto|by apply out_Put|intros; apply out_quiet, quiet_ret].
Qed.

Lemma out_recordDownload path obj l start :
  X path -> preserves (outside X) (recordDownload p path obj l start).
Proof.
  intros Hx. unfold recordDownload.
  apply preserves_try; [typeclasses eauto|apply out_quiet, quiet_Stat|intros info].
  apply preserves_bind; [typeclasses eauto|apply out_quiet, quiet_now|intros ts].
  apply preserves_try; [typeclasses eauto|by apply out_Put|intros _].
  apply out_quiet. solve_quiet.
Qed.

Lemma out_downloadFile ch obj start :
  X (ch_Path ch) -> preserves (on_fst (outside X)) (downloadFile p ch obj start).
Proof.
  intros Hx. unfold downloadFile.
  assert (forall A (m : ST W A), preserves (outside X) m -> preserves (on_fst (outside X)) (in_world (St := PullState) m)) as Hw
    by (intros; by apply preserves_world).
  destruct (pc_DryRun (p_cfg p)).
  { apply Hw, out_quiet. unfold recordDryRunDownload. solve_quiet. }
  apply preserves_bind; [typeclasses eauto|apply preserves_state; typeclasses eauto|intros k].
  destruct k; [apply preserves_ret; typeclasses eauto|].
  apply preserves_try; [typeclasses eauto|apply Hw, out_MkdirAll|intros _].
  apply preserves_bind; [typeclasses eauto| |intros r].
  { apply Hw, (out_Download X _ _ (ch_Path ch)); [done|apply root_file_key]. }
  destruct r as [[]|e]; [by apply Hw, out_recordDownload|].
  destruct (errors_Is e ErrDanglingShortcut).
  - apply preserves_bind; [typeclasses eauto| |intros; apply preserves_ret; typeclasses eauto].
    apply preserves_bind; [typeclasses eauto|apply preserves_state; typeclasses eauto|intros _].
    apply Hw, out_quiet. solve_quiet.
  - apply preserves_bind; [typeclasses eauto| |intros; apply preserves_ret; typeclasses eauto].
    apply Hw, out_quiet. solve_quiet.
Qed.

End ops.

(** Where the change is not adopted, nothing has happened yet. *)
Lemma adopt_false path obj j (w w' : W) :
  adoptIdenticalRemote p path obj j w = (Ok false, w') -> same_data w w'.
Proof.
  unfold adoptIdenticalRemote. destruct (_ || _); [by intros [= <-]|]. intros Hr.
  apply st_bind_inv in Hr as (r & w1 & Hs & Hr).
  pose proof (quiet_Stat (R := R) (S := S) (root_file p path) w) as Q. rewrite Hs in Q. cbn in Q.
  destruct r as [i|]; [|by injection Hr as <-]. destruct (IsDir i); [by injection Hr as <-|].
  apply st_try_Ok in Hr as (sum & w2 & Hm & Hr).
  pose proof (quiet_fileMD5 (R := R) (S := S) (root_file p path) w1) as Q2. rewrite Hm in Q2. cbn in Q2.
  assert (same_data w w2) by by etrans.
  destruct (negb _); [by injection Hr as <-|]. destruct (pc_DryRun _); [done|].
  apply st_bind_inv in Hr as (ts & w3 & _ & Hr). by apply st_try_Ok in Hr as ([] & w4 & _ & Hr).
Qed.

(** A quiet first step leaves the base and the local file as they were. *)
Lemma loser_base_same path (w w' : W) : same_data w w' -> loser_base path w' = loser_base path w.
Proof. intros (_ & _ & E). unfold loser_base. by rewrite E. Qed.

Lemma out_process_known ch obj j start (w : W) st :
  rel_path (ch_Path ch) = true ->
  (forall t, fs_nodes (w_fs w) !! local_key (ch_Path ch) <> Some (Folder t)) ->
  on_fst (outside (family (pc_Matcher (p_cfg p)) (ch_Path ch) (loser_base (ch_Path ch) w))) (w, st)
    (snd (process_known p ch obj j start (w, st))).
Proof.
  intros Hrel Hnf. unfold process_known. set (path := ch_Path ch) in *.
  set (X := family (pc_Matcher (p_cfg p)) path (loser_base path w)).
  assert (X path) as Hx by by left.
  unfold st_try at 1, in_world at 1.
  pose proof (out_adopt X path obj j Hx w) as Oa.
  destruct (adoptIdenticalRemote p path obj j w) as [[[]|e] w1] eqn:Ea; [exact Oa| |exact Oa].
  apply adopt_false in Ea. unfold st_try at 1, in_world at 1.
  pose proof (quiet_detectConflict (R := R) (S := S) p path obj j w1) as Q.
  destruct (detectConflict p path obj j w1) as [[[[] lm]|e] w2]; cbn in Q.
  1: assert (on_fst (outside X) (w, st) (w2, st)) as O2
    by (apply (outside_same X); by etrans).
  - etrans; [exact O2|]. cbn [fst snd]. refine (_ : on_fst _ _ _).
    assert (same_data w w2) as Q2 by by etrans.
    pose proof (out_handleConflict path obj lm start w2 Hrel) as O.
    rewrite (loser_base_same path w w2 Q2) in O. destruct Q2 as (F & _ & _). rewrite F in O.
    specialize (O Hnf). fold X in O. unfold in_world, on_fst. cbn [fst snd].
    by destruct (handleConflict p path obj lm start w2).
  - assert (on_fst (outside X) (w, st) (w2, st)) as O2 by (apply (outside_same X); by etrans).
    etrans; [exact O2|]. cbn [fst snd]. destruct (within_second _ _); [done|].
    by apply (out_downloadFile X).
  - apply (outside_same X). by etrans.
Qed.

Lemma out_processFileChange ch start (w : W) st :
  rel_path (ch_Path ch) = true ->
  (forall t, fs_nodes (w_fs w) !! local_key (ch_Path ch) <> Some (Folder t)) ->
  on_fst (outside (family (pc_Matcher (p_cfg p)) (ch_Path ch) (loser_base (ch_Path ch) w))) (w, st)
    (snd (processFileChange p ch start (w, st))).
Proof.
  intros Hrel Hnf. unfold processFileChange.
  set (X := family (pc_Matcher (p_cfg p)) (ch_Path ch) (loser_base (ch_Path ch) w)).
  unfold st_try at 1, in_world at 1. pose proof (quiet_Get (R := R) (S := S) (ch_Path ch) w) as Q.
  destruct (on_store (Get (ch_Path ch)) w) as [[j|e] w1]; cbn in Q; [|by apply (outside_same X)].
  assert (on_fst (outside X) (w, st) (w1, st)) as O by by apply (outside_same X).
  etrans; [exact O|]. destruct (ch_Object ch) as [obj|]; [|done]. destruct j as [j|].
  - pose proof (out_process_known ch obj j start w1 st Hrel) as Op.
    rewrite (loser_base_same _ w w1 Q) in Op. destruct Q as (F & _ & _). rewrite F in Op. by apply Op.
  - apply (out_downloadFile X). by left.
Qed.

End puller.

Lemma out_processChange p ch (w : W) st :
  pc_LocalRoot (p_cfg p) = root -> is_rooted root = true -> rel_path (ch_Path ch) = true ->
  (forall t, fs_nodes (w_fs w) !! local_key (ch_Path ch) <> Some (Folder t)) ->
  on_fst (outside (family (pc_Matcher (p_cfg p)) (ch_Path ch) (loser_base (ch_Path ch) w))) (w, st)
    (snd (processChange p ch (w, st))).
Proof.
  intros Hroot Hr Hrel Hnf. unfold processChange.
  set (X := family (pc_Matcher (p_cfg p)) (ch_Path ch) (loser_base (ch_Path ch) w)).
  unfold st_bind at 1, in_world at 1. pose proof (quiet_now (R := R) (S := S) w) as Q.
  destruct (now w) as [start w1]. cbn in Q.
  assert (on_fst (outside X) (w, st) (w1, st)) as O by by apply (outside_same X).
  etrans; [exact O|]. destruct (ch_Deleted ch).
  - apply preserves_world, (out_processDelete p Hroot Hr); by left.
  - destruct (is_dir_change ch); [done|].
    pose proof (out_processFileChange p Hroot Hr ch start w1 st Hrel) as Op.
    rewrite (loser_base_same _ w w1 Q) in Op. destruct Q as (F & _ & _). rewrite F in Op. by apply Op.
Qed.

End frame.

(** *** Names below the root *)

(** Different relative paths have different addresses below the root. *)
Lemma local_key_inj root x y :
  rel_path x = true -> rel_path y = true -> local_key root x = local_key root y -> x = y.
Proof.
  intros Hx Hy. unfold local_key. rewrite !path_key_sprintf by done. intros E%app_inv_head.
  by rewrite <- (Join_SplitByte x), <- (Join_SplitByte y), E.
Qed.

(** *** Pushes and polls together *)

Section together.
Context {R S : Type} `{RemoteFS R} `{StoreLaws S} `{Env}.
Context (tree : R -> gmap string RemoteObject).
Abbreviation W := (World R S).
Variable s : Syncer.
Variable p : Puller.

Definition pulled_names (ch : Change) (w : W) : string -> Prop :=
  family (pc_Matcher (p_cfg p)) (ch_Path ch) (loser_base (ch_Path ch) w).

(** No name the change may touch is [q]: neither the path nor its place on disk. *)
Definition away (ch : Change) (w : W) (q : string) : Prop :=
  forall x, pulled_names ch w x -> local_key (pc_LocalRoot (p_cfg p)) x <> local_key (pc_LocalRoot (p_cfg p)) q.

(** A change of a file: its path is relative and names no local folder. *)
Definition file_change (ch : Change) (w : W) : Prop :=
  rel_path (ch_Path ch) = true /\
  forall t, fs_nodes (w_fs w) !! local_key (pc_LocalRoot (p_cfg p)) (ch_Path ch) <> Some (Folder t).

(** The change is no business of the handlers that run. *)
Definition polite (hs : list (Event * hstate)) (ch : Change) (w : W) : Prop :=
  file_change ch w /\ forall ev h, (ev, h) ∈ hs -> away ch w (ev_Path ev).

(** One turn of a push handler, one change of a poll that is no business of the
    handlers that run, or what a poll does besides its changes: tokens, backoff,
    messages. *)
Inductive work : running (R := R) (S := S) * PullState -> running * PullState -> Prop :=
| work_push i ev h m hs (w : W) st :
    hs !! i = Some (ev, h) -> hstep s ev h = Some m ->
    work ((hs, w), st) ((<[i := (ev, fst (m w))]> hs, snd (m w)), st)
| work_change ch hs (w w' : W) st st' r :
    polite hs ch w -> processChange p ch (w, st) = (r, (w', st')) -> work ((hs, w), st) ((hs, w'), st')
| work_rest hs (w w' : W) st st' : same_trees tree w w' -> work ((hs, w), st) ((hs, w'), st').

(** Each change of the list is polite when its turn comes. *)
Fixpoint all_polite (hs : list (Event * hstate)) (chs : list Change) (x : W * PullState) : Prop :=
  match chs with
  | [] => True
  | ch :: chs =>
      let '(c, x) := in_world ctx_Err x in
      match c with
      | Some _ => True
      | None => polite hs ch (fst x) /\ all_polite hs chs (snd (processChange p ch x))
      end
  end.

(** The same for the changes a poll would fetch. *)
Definition polite_poll (hs : list (Event * hstate)) (x : W * PullState) : Prop :=
  match in_world ensurePageToken x with
  | (Err _, _) => True
  | (Ok token, x) =>
      match fetchChanges p token x with
      | (Err _, _) => True
      | (Ok changes, x) => all_polite hs (Items changes) x
      end
  end.

Context `{!RemoteLaws R tree} `{!RemoteWriteLaws R tree} `{!RemoteFrame R tree}.

(** A push changes no local file. *)
Lemma hstep_fs ev h m (w : W) : hstep s ev h = Some m -> w_fs (snd (m w)) = w_fs w.
Proof.
  assert (forall m' : ST W hstate, quiet m' -> w_fs (snd (m' w)) = w_fs w) as Hq by (intros m' Hm; apply Hm).
  destruct h as [|start [|todo] b last|start todo b e|start r|el [obj|e]|el obj rc|el sv|sv];
    intros E; (discriminate E || (apply (inj Some) in E; subst m)).
  - apply Hq. unfold logDryRun. solve_quiet.
  - done.
  - unfold st_bind. pose proof (quiet_ctx w) as Qc. destruct (ctx_Err w) as [[c|] w1]; [apply Qc|].
    pose proof (execEvent_local s ev w1) as [_ Ef]. destruct (execEvent s ev w1) as [r w2]. cbn in *.
    rewrite Ef. apply Qc.
  - apply Hq. solve_quiet.
  - apply Hq. solve_quiet.
  - apply Hq. solve_quiet.
  - apply Hq, quiet_bind; [apply recordResult_err|intros; apply quiet_ret].
  - unfold st_bind, on_store. by destruct (Put rc (w_store w)).
  - apply Hq. unfold reportSuccess. solve_quiet.
Qed.

Lemma change_outside ch (w w' : W) st st' r :
  is_rooted (pc_LocalRoot (p_cfg p)) = true -> file_change ch w ->
  processChange p ch (w, st) = (r, (w', st')) ->
  outside tree (pc_LocalRoot (p_cfg p)) (pulled_names ch w) w w'.
Proof.
  intros Hr [Hrel Hnf] E. pose proof (out_processChange tree _ p ch w st eq_refl Hr Hrel Hnf) as O.
  by rewrite E in O.
Qed.

Lemma work_turn x st y st' :
  is_rooted (pc_LocalRoot (p_cfg p)) = true -> work (x, st) (y, st') ->
  turn tree s x y /\
  forall ev h t c, (ev, h) ∈ fst x ->
    fs_nodes (w_fs (snd x)) !! local_key (pc_LocalRoot (p_cfg p)) (ev_Path ev) = Some (File t c) ->
    fs_nodes (w_fs (snd y)) !! local_key (pc_LocalRoot (p_cfg p)) (ev_Path ev) = Some (File t c).
Proof.
  intros Hr Hw. inversion Hw as [i ev h m hs w st0 Hi Hm|ch hs w w' st0 st0' r [Hch Ha] Hrun|hs w w' st0 st0' Hs]; subst.
  - split; [by eapply turn_handler|]. intros ev' h' t c _ Hf. cbn in *. by erewrite hstep_fs.
  - apply change_outside in Hrun as [A B]; [|done..]. split.
    + apply turn_other. intros ev h Hi. apply A. intros Hx. by eapply (Ha ev h Hi).
    + intros ev h t c Hi. apply B. intros x Hx. by apply (Ha ev h Hi).
  - destruct Hs as (F & Et & Es). cbn. split.
    + apply turn_other. intros ev h _. unfold path_same. by rewrite Et, Es.
    + intros ev h t c _. by rewrite F.
Qed.

(** *** A poll is made of such steps *)

Definition works (hs : list (Event * hstate)) (x y : W * PullState) : Prop :=
  rtc work ((hs, fst x), snd x) ((hs, fst y), snd y).

#[export] Instance works_preorder hs : PreOrder (works hs).
Proof. unfold works. split; [intros x; apply rtc_refl|]. intros x y z A B. by etrans. Qed.

Lemma rest_step hs (x y : W * PullState) : on_fst (same_trees tree) x y -> works hs x y.
Proof. intros Hxy. apply rtc_once. by apply work_rest. Qed.

Lemma process_all_works hs chs last (x : W * PullState) :
  all_polite hs chs x -> works hs x (snd (process_all p chs last x)).
Proof.
  revert last x. induction chs as [|ch chs IH]; intros last x Hp; [done|].
  cbn [process_all all_polite] in *. unfold st_bind.
  pose proof (dryP_world tree ctx_Err (dry_quiet tree _ quiet_ctx) x) as Hc.
  destruct (in_world ctx_Err x) as [[e|] x1]; cbn [snd] in Hc; [by apply rest_step|].
  destruct Hp as [H1' H2']. etrans; [by apply rest_step|].
  destruct x1 as [w1 st1]. destruct (processChange p ch (w1, st1)) as [r [w2 st2]] eqn:E.
  transitivity (w2, st2); [by eapply rtc_once, work_change|]. apply (IH _ (w2, st2)), H2'.
Qed.

Lemma poll_works hs (x : W * PullState) :
  polite_poll hs x -> works hs x (snd (poll p x)).
Proof.
  unfold polite_poll, poll. intros Hp.
  unfold st_try at 1. pose proof (dryP_token tree x) as Ht.
  destruct (in_world ensurePageToken x) as [[token|e] x1]; cbn [snd] in Ht; [|by apply rest_step].
  etrans; [by apply rest_step|]. unfold st_try at 1. pose proof (dryP_fetchChanges tree p token x1) as Hf.
  destruct (fetchChanges p token x1) as [[changes|e] x2]; cbn [snd] in Hf; [|by apply rest_step].
  etrans; [by apply rest_step|].
  pose proof (process_all_works hs (Items changes) None x2 Hp) as Ha.
  assert (forall y, works hs y (snd (in_world (persistToken (NextPageToken changes)) y))) as Hpt.
  { intros y. apply rest_step, (dryP_world tree), dry_persist. }
  destruct (Items changes) as [|ch chs]; [apply Hpt|].
  unfold st_try at 1. destruct (process_all p (ch :: chs) None x2) as [[last|e] x3]; cbn [snd] in Ha; [|done].
  etrans; [exact Ha|]. unfold st_try. specialize (Hpt x3).
  destruct (in_world (persistToken (NextPageToken changes)) x3) as [[[]|e] x4]; [|done]. by destruct last.
Qed.

Lemma works_turns x st y st' :
  is_rooted (pc_LocalRoot (p_cfg p)) = true -> rtc work (x, st) (y, st') ->
  rtc (turn tree s) x y /\
  forall i q t c, (fun eh => ev_Path (fst eh)) <$> fst x !! i = Some q ->
    fs_nodes (w_fs (snd x)) !! local_key (pc_LocalRoot (p_cfg p)) q = Some (File t c) ->
    fs_nodes (w_fs (snd y)) !! local_key (pc_LocalRoot (p_cfg p)) q = Some (File t c).
Proof.
  intros Hr Hw. remember (x, st) as xs eqn:Ex. remember (y, st') as ys eqn:Ey.
  revert x st Ex. induction Hw as [xs|xs zs ys Hxz _ IH]; intros x st ->.
  { injection Ey as -> ->. split; [constructor|done]. }
  destruct zs as [z stz]. destruct (IH Ey z stz eq_refl) as [IHt IHf].
  apply work_turn in Hxz as [Ht Hf]; [|done]. split; [by econstructor|].
  intros i q t c Hq Hk. apply (IHf i).
  - assert ((fun eh : Event * hstate => ev_Path (fst eh)) <$> fst z = (fun eh => ev_Path (fst eh)) <$> fst x)
      as Ep by exact (turn_paths tree s x z Ht).
    rewrite <- list_lookup_fmap in Hq |- *. by rewrite Ep.
  - destruct (fst x !! i) as [[ev h]|] eqn:Hi; [|done]. cbn in Hq. injection Hq as <-.
    eapply Hf; [by eapply list_elem_of_lookup_2|done].
Qed.

End together.

(** ** Properties *)

Section properties.
Context {R S : Type} `{RemoteFS R} `{StoreLaws S} `{Env}.
Abbreviation W := (World R S).

(** C12: a remote change stays where it belongs: whatever it is -- a deletion, a
    download, an adoption or a conflict with the retention that follows -- and
    however it ends, processing it changes neither the remote object, nor the
    journal entry, nor the local file of any name but its own path and the
    numbered names of its conflict base. The path must not name a
    local folder ([folder_moved_aside]). *)
Theorem processChange_frame tree `{!RemoteLaws R tree} `{!RemoteFrame R tree} p ch (w : W) st :
  let root := pc_LocalRoot (p_cfg p) in
  let w' := fst (snd (processChange p ch (w, st))) in
  let names := family (pc_Matcher (p_cfg p)) (ch_Path ch) (loser_base (ch_Path ch) w) in
  is_rooted root = true -> rel_path (ch_Path ch) = true ->
  (forall t, fs_nodes (w_fs w) !! local_key root (ch_Path ch) <> Some (Folder t)) ->
  (forall q, ~ names q -> tree (w_remote w') !! q = tree (w_remote w) !! q /\
     store_view (w_store w') !! q = store_view (w_store w) !! q) /\
  (forall k t c, (forall x, names x -> local_key root x <> k) ->
     fs_nodes (w_fs w) !! k = Some (File t c) -> fs_nodes (w_fs w') !! k = Some (File t c)).
Proof.
  intros root w' names Hr Hrel Hnf.
  exact (out_processChange tree root p ch w st eq_refl Hr Hrel Hnf).
Qed.

(** C11: pushes and polls of different files do not disturb each other: under
    every interleaving of the calls of concurrent push handlers with the changes
    of polls that are no business of theirs, a handler that has returned with
    its upload journaled leaves on the remote the object it uploaded and in the
    journal the baseline of that object; its local file is untouched; and a
    handler that has not returned has a next turn, of which only finitely many
    are left.
    A whole poll is a sequence of such changes ([poll_works]). *)
Theorem pushes_and_polls tree `{!RemoteLaws R tree} `{!RemoteWriteLaws R tree} `{!RemoteFrame R tree}
    s p evs (w w' : W) hs st st' :
  cfg_LocalRoot (s_cfg s) <> "" -> is_rooted (pc_LocalRoot (p_cfg p)) = true ->
  Forall (fun ev => rel_path (ev_Path ev) = true) evs -> NoDup (map ev_Path evs) ->
  rtc (work tree s p) ((map (fun ev => (ev, HStart)) evs, w), st) ((hs, w'), st') ->
  forall i ev h, hs !! i = Some (ev, h) ->
  (forall t c, fs_nodes (w_fs w) !! local_key (pc_LocalRoot (p_cfg p)) (ev_Path ev) = Some (File t c) ->
     fs_nodes (w_fs w') !! local_key (pc_LocalRoot (p_cfg p)) (ev_Path ev) = Some (File t c)) /\
  match h with
  | HDone (Some (obj, e)) =>
      tree (w_remote w') !! ev_Path ev = Some obj /\
      store_view (w_store w') !! ev_Path ev = Some (json_norm e) /\ baseline (ev_Path ev) obj e
  | HDone None => True
  | _ => exists m, hstep s ev h = Some m /\ (turns_left s (fst (m w')) < turns_left s h)%nat
  end.
Proof.
  intros Hroot Hr Hrel Hnd Hrun i ev h Hi.
  destruct (works_turns tree s p _ _ _ _ Hr Hrun) as [Ht Hf]. split.
  - intros t c Hk. apply (Hf i); [|done]. cbn.
    pose proof (f_equal (fun l => l !! i) (turns_paths tree s _ _ Ht)) as Ep. cbn [fst] in Ep.
    rewrite !list_lookup_fmap, Hi in Ep. rewrite list_lookup_fmap. by rewrite <- Ep.
  - by eapply (started_achieved tree s evs w w' hs).
Qed.

End properties.

Lemma interleave_works {R S} `{RemoteFS R} `{StoreLaws S} `{Env} (tree : R -> gmap string RemoteObject)
    s p sched x st :
  rtc (work (R := R) (S := S) tree s p) (x, st) (interleave s sched x, st).
Proof.
  revert x. induction sched as [|i sched IH]; intros x; [done|]. cbn.
  etrans; [|apply IH]. destruct x as [hs w]. unfold take_turn. cbn [fst snd].
  destruct (hs !! i) as [[ev h]|] eqn:Hi; [|done]. destruct (hstep s ev h) as [m|] eqn:Hm; [|done].
  rewrite (surjective_pairing (m w)). by apply rtc_once, work_push with (h := h).
Qed.

(** *** Why the theorems ask for a path that names no local folder

    [detectConflict] does not look whether the local path is a folder. *)

(** [docs/a.txt] was a synced file; it is a folder now. *)
Definition folder_world : World MemFS (JournalStore MemBolt) :=
  mkWorld
    (set_nodes (<[["home"; "docs"; "a.txt"] := Folder (500 * Second)]>
      (<[["home"; "docs"; "a.txt"; "x"] := File (500 * Second) "inside"]> (fs_nodes demo_fs))) demo_fs)
    (Seed "docs/a.txt" (650 * Second) "r2" demo_mem) (mkJournalStore edited_db None) 0 [].

Definition conflict_change : Change :=
  mkChange "docs/a.txt" false
    (Some (mkRemoteObject "docs/a.txt" 1024 (650 * Second) "r2" "id-1" false false)).

(** A change of the remote file then counts as a conflict with the folder, which
    is moved aside with everything in it; the file is downloaded in its place. *)
Theorem folder_moved_aside :
  let w' := fst (snd (@processChange _ _ _ _ demo_env (demo_puller false) conflict_change
                        (folder_world, mkPullState 0 ∅))) in
  fs_nodes (w_fs w') !! ["home"; "docs"; "a.txt"; "x"] = None /\
  fs_nodes (w_fs w') !! ["home"; "docs"; "a.txt.old.1"; "x"] = Some (File (500 * Second) "inside") /\
  fs_nodes (w_fs w') !! ["home"; "docs"; "a.txt"] = Some (File (650 * Second) "content-of-docs/a.txt").
Proof. vm_compute. split_and!; reflexivity. Qed.

(** ** Witnesses *)

(** [docs/a.txt] was changed on both sides; [b.txt] is a local file not pushed
    yet. *)
Definition two_files_world : World MemFS (JournalStore MemBolt) :=
  mkWorld (set_nodes (<[["home"; "b.txt"] := File (550 * Second) "bee"]> (fs_nodes demo_fs)) demo_fs)
    (Seed "docs/a.txt" (650 * Second) "r2" demo_mem) (mkJournalStore edited_db None) 0 [].

Lemma default_away base n : rel_path base = true -> 1 <= n -> rel_path (Format default_matcher base n) = true.
Proof. intros Hb Hn. by apply Format_rel. Qed.

Lemma processChange_frame_witness :
  let w := two_files_world in
  let x := @processChange _ _ _ _ demo_env (demo_puller false) conflict_change (w, mkPullState 0 ∅) in
  let w' := fst (snd x) in
  fs_nodes (w_fs w') !! ["home"; "docs"; "a.txt.old.1"] = Some (File (500 * Second) "hello") /\
  m_files (w_remote w') !! "b.txt" = m_files (w_remote w) !! "b.txt" /\
  fs_nodes (w_fs w') !! ["home"; "b.txt"] = Some (File (550 * Second) "bee").
Proof.
  intros w x w'.
  assert (loser_base "docs/a.txt" w = "docs/a.txt") as Eb by (vm_compute; reflexivity).
  destruct (processChange_frame (H2 := demo_env) m_files (demo_puller false) conflict_change w (mkPullState 0 ∅))
    as [A B].
  - reflexivity.
  - reflexivity.
  - vm_compute. discriminate.
  - split; [vm_compute; reflexivity|]. split.
    + apply A. cbn [ch_Path conflict_change]. rewrite Eb. intros [E|(n & _ & E)]; discriminate E.
    + apply B; [|vm_compute; reflexivity]. cbn [ch_Path conflict_change]. rewrite Eb. intros y Hy E.
      change ["home"; "b.txt"] with (local_key (pc_LocalRoot (p_cfg (demo_puller false))) "b.txt") in E.
      apply local_key_inj in E as ->; [|destruct Hy as [->|(n & Hn & ->)]; [|apply default_away]; done|done].
      destruct Hy as [E|(n & _ & E)]; discriminate E.
Defined.

(** [b.txt] is uploaded; a poll then finds the conflict on [docs/a.txt] before
    the handler has journaled; the handler goes on. *)
Definition run_uploaded : running (R := MemFS) (S := JournalStore MemBolt) :=
  @interleave _ _ _ _ demo_env demo_syncer [0; 0; 0; 0]%nat
    ([(mkEvent "b.txt" OpCreate 0, HStart)], two_files_world).

Definition run_polled : result unit * (World MemFS (JournalStore MemBolt) * PullState) :=
  @processChange _ _ _ _ demo_env (demo_puller false) conflict_change (snd run_uploaded, mkPullState 0 ∅).

Definition run_end : running (R := MemFS) (S := JournalStore MemBolt) :=
  @interleave _ _ _ _ demo_env demo_syncer [0; 0; 0]%nat (fst run_uploaded, fst (snd run_polled)).

Lemma pushes_and_polls_witness :
  let y := run_end in
  (exists obj e, fst y !! 0%nat = Some (mkEvent "b.txt" OpCreate 0, HDone (Some (obj, e))) /\
    m_files (w_remote (snd y)) !! "b.txt" = Some obj /\ baseline "b.txt" obj e) /\
  fs_nodes (w_fs (snd y)) !! ["home"; "b.txt"] = Some (File (550 * Second) "bee") /\
  fs_nodes (w_fs (snd y)) !! ["home"; "docs"; "a.txt.old.1"] = Some (File (500 * Second) "hello").
Proof.
  intros y. set (ev := mkEvent "b.txt" OpCreate 0). set (st := mkPullState 0 ∅).
  assert (loser_base "docs/a.txt" (snd run_uploaded) = "docs/a.txt") as Eb by (vm_compute; reflexivity).
  assert (map (fun eh => ev_Path (fst eh)) (fst run_uploaded) = ["b.txt"]) as Ex by (vm_compute; reflexivity).
  assert (rtc (work (H2 := demo_env) m_files demo_syncer (demo_puller false))
    ([(ev, HStart)], two_files_world, st) (y, snd (snd run_polled))) as Hrun.
  { etrans.
    { exact (interleave_works (H2 := demo_env) m_files demo_syncer (demo_puller false) [0; 0; 0; 0]%nat
        ([(ev, HStart)], two_files_world) st). }
    change (interleave _ _ _) with run_uploaded.
    etrans; [|exact (interleave_works (H2 := demo_env) m_files demo_syncer (demo_puller false) [0; 0; 0]%nat
        (fst run_uploaded, fst (snd run_polled)) (snd (snd run_polled)))].
    apply rtc_once. rewrite (surjective_pairing run_uploaded) at 1.
    apply (work_change (H2 := demo_env) m_files demo_syncer (demo_puller false) conflict_change _ _ _ st _ (fst run_polled)).
    - split; [split; [reflexivity|]; vm_compute; discriminate|].
      intros ev' h' Hin%(list_elem_of_fmap_2 (fun eh => ev_Path (fst eh))). cbn [fst] in Hin.
      change (ev_Path ev' ∈ map (fun eh => ev_Path (fst eh)) (fst run_uploaded)) in Hin.
      rewrite Ex in Hin. apply list_elem_of_singleton in Hin. rewrite Hin.
      intros z Hz E. unfold pulled_names in Hz. cbn [ch_Path conflict_change] in Hz. rewrite Eb in Hz.
      apply local_key_inj in E as ->; [|destruct Hz as [->|(n & Hn & ->)]; [|apply default_away]; done|done].
      destruct Hz as [E|(n & _ & E)]; discriminate E.
    - unfold run_polled. subst st. match goal with |- ?x = _ => generalize x end. by intros [? []]. }
  rewrite (surjective_pairing y) in Hrun.
  assert (fst y !! 0%nat = Some (ev, HDone (saved_of (fst y !! 0%nat)))) as E1 by (vm_compute; reflexivity).
  assert (is_some (saved_of (fst y !! 0%nat)) = true) as S1 by (vm_compute; reflexivity).
  assert (fs_nodes (w_fs (snd y)) !! ["home"; "docs"; "a.txt.old.1"] = Some (File (500 * Second) "hello")) as Ea
    by (vm_compute; reflexivity).
  destruct (pushes_and_polls (H2 := demo_env) m_files demo_syncer (demo_puller false) [ev] two_files_world
    (snd y) (fst y) st (snd (snd run_polled)) ltac:(discriminate) ltac:(reflexivity) ltac:(by repeat constructor)
    ltac:(by apply (bool_decide_unpack _); vm_compute) Hrun 0%nat ev _ E1) as [Hf Hh].
  destruct (saved_of (fst y !! 0%nat)) as [[o e]|]; [|discriminate S1].
  destruct Hh as (T & _ & B).
  split; [exists o, e; exact (conj E1 (conj T B))|]. split; [|exact Ea].
  apply (Hf (550 * Second) "bee"). vm_compute. reflexivity.
Defined.
