(* ===== verification/Cli.v ===== *)
(** The command line (cmd/homedrive/main.go): the command tree of [newRootCmd],
    what each command runs, and [main]. cobra and pflag are the class [Cobra]
    with what their documentation promises; help texts and logging are left
    out. *)
From S2P Require Import Prelude.
From S2P Require Import GoStrings.
From S2P Require Import GoRuntime.
From S2P Require Import GoDuration.
From S2P Require Import LocalFS.
From S2P Require Import Remote.
From S2P Require Import MemFS.
From S2P Require Import Bolt.
From S2P Require Import Journal.
From S2P Require Import World.
From S2P Require Import Watcher.
From S2P Require Import Http.
From S2P Require Import AgentConfig.
From S2P Require Import Agent.
From S2P Require Import Engine.
From S2P Require Import AgentControl.
From S2P Require Import AgentRun.
From S2P Require Import Ctl.
From S2P Require Import Startup.

(** ** Definitions *)

(** *** Commands and flags, as cobra has them *)

Inductive flagval :=
| VBool (b : bool)
| VString (s : string)
| VDuration (d : Duration).

Record Flag := mkFlag {
  fl_Name : string;
  fl_Default : flagval;
}.

(** A flag where a command runs: the depth of the command that declares it, its
    value, and whether the command line set it. *)
Record FlagState := mkFlagState {
  fs_Owner : nat;
  fs_Value : flagval;
  fs_Changed : bool;
}.

Definition FlagSet : Type := gmap string FlagState.

(** [RunE] and [PersistentPreRun] see the flags of the command that runs; the
    hook's result is the value of [DryRunKey] in the context. *)
Inductive Command (N : Type) := mkCommand
  (Use : string)
  (Version : string)
  (PersistentFlags Flags : list Flag)
  (PersistentPreRun : option (FlagSet -> bool))
  (RunE : option (FlagSet -> option bool -> ST N (result unit)))
  (Commands : list (Command N)).
Arguments mkCommand {N} _ _ _ _ _ _ _.

Section cobra.
Context {N : Type}.

Definition Name (c : Command N) : string := let '(mkCommand use _ _ _ _ _ _) := c in fst (fst (Cut use " ")).

Definition Version (c : Command N) : string := let '(mkCommand _ v _ _ _ _ _) := c in v.

Definition persistent (c : Command N) : list Flag := let '(mkCommand _ _ pf _ _ _ _) := c in pf.

Definition local_flags (c : Command N) : list Flag := let '(mkCommand _ _ _ lf _ _ _) := c in lf.

Definition pre_run (c : Command N) : option (FlagSet -> bool) := let '(mkCommand _ _ _ _ pre _ _) := c in pre.

Definition run_e (c : Command N) : option (FlagSet -> option bool -> ST N (result unit)) :=
  let '(mkCommand _ _ _ _ _ run _) := c in run.

Definition children (c : Command N) : list (Command N) := let '(mkCommand _ _ _ _ _ _ cs) := c in cs.

(** The commands from [c] down along the names. *)
Fixpoint walk (c : Command N) (names : list string) : option (list (Command N)) :=
  match names with
  | [] => Some [c]
  | n :: names =>
      match List.find (fun c => String.eqb (Name c) n) (children c) with
      | Some c' => match walk c' names with Some chain => Some (c :: chain) | None => None end
      | None => None
      end
  end.

Definition declare (depth : nat) (l : list Flag) : FlagSet :=
  list_to_map (map (fun f => (fl_Name f, mkFlagState depth (fl_Default f) false)) l).

(** The flags of the last command: its own and the persistent ones of the others,
    of which a nearer one hides one further up. *)
Fixpoint scope (depth : nat) (chain : list (Command N)) : FlagSet :=
  match chain with
  | [] => ∅
  | [c] => declare depth (local_flags c) ∪ declare depth (persistent c)
  | c :: chain => scope (Datatypes.S depth) chain ∪ declare depth (persistent c)
  end.

(** The hook nearest to the command that runs. *)
Definition nearest_hook (chain : list (Command N)) : option (FlagSet -> bool) :=
  fold_left (fun hook c => match pre_run c with Some pre => Some pre | None => hook end) chain None.

(** The flag [name], where the program declares none of that name. *)
Definition auto_flag (depth : nat) (name : string) (fs : FlagSet) : FlagSet :=
  match fs !! name with
  | Some _ => fs
  | None => <[name := mkFlagState depth (VBool false) false]> fs
  end.

(** The flags of a command that runs: cobra adds [help] to every command and
    [version] to a command with a [Version]. *)
Definition flags_of (chain : list (Command N)) : FlagSet :=
  let depth := (length chain - 1)%nat in
  let fs := auto_flag depth "help" (scope 0 chain) in
  match last chain with
  | Some c => if String.eqb (Version c) "" then fs else auto_flag depth "version" fs
  | None => fs
  end.

Definition GetBool (fs : FlagSet) (name : string) : bool :=
  match fs !! name with Some (mkFlagState _ (VBool b) _) => b | _ => false end.

(** [--help] prints the help and [--version] the version, before anything else;
    a command without [RunE] prints its help. *)
Definition executed (chain : list (Command N)) (fs : FlagSet) : ST N (result unit) :=
  match last chain with
  | Some c =>
      if GetBool fs "help" then st_ret (Ok tt)
      else if negb (String.eqb (Version c) "") && GetBool fs "version" then st_ret (Ok tt)
      else
        match run_e c with
        | Some run => run fs (match nearest_hook chain with Some pre => Some (pre fs) | None => None end)
        | None => st_ret (Ok tt)
        end
  | None => st_ret (Ok tt)
  end.

(** One [--name=text] argument. *)
Definition flag_arg (s : string * string) : string := "--" +:+ fst s +:+ "=" +:+ snd s.

Definition set_flag (Set_ : flagval -> string -> result flagval) (s : string * string) (fs : FlagSet) :
    result FlagSet :=
  match fs !! fst s with
  | None => Err (EText ("unknown flag: --" +:+ fst s))
  | Some st =>
      match Set_ (fs_Value st) (snd s) with
      | Err e => Err e
      | Ok v => Ok (<[fst s := mkFlagState (fs_Owner st) v true]> fs)
      end
  end.

Fixpoint set_flags (Set_ : flagval -> string -> result flagval) (sets : list (string * string)) (fs : FlagSet) :
    result FlagSet :=
  match sets with
  | [] => Ok fs
  | s :: sets => match set_flag Set_ s fs with Ok fs => set_flags Set_ sets fs | Err e => Err e end
  end.

Definition plain_name (n : string) : bool := negb (HasPrefix n "-").

Definition plain_flag (s : string * string) : bool := (CountByte (fst s) "="%char =? 0)%nat.

End cobra.

(** What the program uses of cobra: a value of a flag's type from its text, and
    the execution of a command line. *)
Class Cobra (N : Type) := {
  pflag_Set : flagval -> string -> result flagval;
  ExecuteContext : Command N -> list string -> ST N (result unit);
}.

Class CobraLaws (N : Type) `{Cobra N} := {
  set_string : forall s t, pflag_Set (VString s) t = Ok (VString t);
  set_bool : forall b, pflag_Set (VBool b) "true" = Ok (VBool true);
  set_duration : forall d t d', ParseDuration t = Ok d' -> pflag_Set (VDuration d) t = Ok (VDuration d');
  execute_found : forall root names sets chain fs,
    forallb plain_name names = true -> forallb plain_flag sets = true ->
    walk root names = Some chain -> set_flags pflag_Set sets (flags_of chain) = Ok fs ->
    ExecuteContext root (names ++ map flag_arg sets) = executed chain fs;
  execute_bad_flag : forall root names sets chain e w,
    forallb plain_name names = true -> forallb plain_flag sets = true ->
    walk root names = Some chain -> set_flags pflag_Set sets (flags_of chain) = Err e ->
    exists e', ExecuteContext root (names ++ map flag_arg sets) w = (Err e', w);
}.

(** [BoolVar] and [StringVar]: the variable of a flag declared at a depth. *)
Definition bool_var (depth : nat) (name : string) (fs : FlagSet) (def : bool) : bool :=
  match fs !! name with
  | Some (mkFlagState o (VBool b) _) => if (o =? depth)%nat then b else def
  | _ => def
  end.

Definition string_var (depth : nat) (name : string) (fs : FlagSet) (def : string) : string :=
  match fs !! name with
  | Some (mkFlagState o (VString s) _) => if (o =? depth)%nat then s else def
  | _ => def
  end.

(** [cmd.Flags().GetString], whose error is dropped. *)
Definition GetString (fs : FlagSet) (name : string) : string :=
  match fs !! name with Some (mkFlagState _ (VString s) _) => s | _ => "" end.

(** [Changed] and then [GetDuration]. *)
Definition changed_duration (fs : FlagSet) (name : string) : option Duration :=
  match fs !! name with Some (mkFlagState _ (VDuration d) true) => Some d | _ => None end.

(** *** The commands of the program *)

Section program.
Context {N : Type} `{Cobra N}.
Context {R DB F : Type} `{Bolt DB} `{Fsnotify F} `{Env}.

(** What [os.UserConfigDir] and [config.Load] return, the network of the [ctl]
    commands with their JSON decoders, and the host, the files and the remote on
    which [run] starts the agent; [Agent_Run] is its life from there, however
    its goroutines are scheduled. *)
Variable userConfigDir : result string.
Variable load : string -> result AppConfig.
Variable net : string -> Duration -> Request -> ST N (result Response).
Variable body_text : Body -> string.
Variable decode_status : Body -> result StatusInfo.
Variable decode_fields : Body -> result (list (string * string)).
Variable decode_report : Body -> result RepairReport.
Variable doublestar_Match : string -> string -> bool.
Variable host : string -> Host DB F.
Variable fs0 : LocalFS.
Variable r0 : R.
Variable running_since : nat.
Variable level : option Z.
Variable Agent_Run : Agent -> Running R (JournalStore DB) F -> ST N (result unit).

(** [version], ["dev"] unless the build sets it. *)
Variable version : string.

(** The result of a call is logged and dropped. *)
Definition logged {A} (m : ST N (result A)) : ST N (result unit) :=
  let* r := m in st_ret (match r with Ok _ => Ok tt | Err e => Err e end).

(** [runAgent]: the dry-run mode comes from the context. *)
Definition cmd_runAgent (configPath : string) (dryRunKey : option bool) : ST N (result unit) :=
  let dryRun := match dryRunKey with Some b => b | None => false end in
  match runAgent doublestar_Match (host configPath) dryRun fs0 r0 running_since level with
  | Err e => st_ret (Err e)
  | Ok (ag, u) => Agent_Run ag u
  end.

Definition newRunCmd : Command N :=
  mkCommand "run" "" [] [mkFlag "config" (VString (defaultConfigPath userConfigDir))] None
    (Some (fun fs key => cmd_runAgent (string_var 1 "config" fs (defaultConfigPath userConfigDir)) key)) [].

Definition ctlConfigPath (fs : FlagSet) : string := GetString fs "config".

(** A [ctl] call with the configuration and timeout its flags name. *)
Definition ctl_with {A} (call : result AppConfig -> option Duration -> ST N (result A)) (fs : FlagSet) :
    ST N (result unit) :=
  logged (call (load (ctlConfigPath fs)) (changed_duration fs "timeout")).

Definition newCtlStatusCmd : Command N :=
  mkCommand "status" "" [] [] None
    (Some (fun fs _ => ctl_with (fun cfg flag => ctlRunStatus net body_text cfg flag decode_status) fs)) [].

Definition newCtlPauseCmd : Command N :=
  mkCommand "pause" "" [] [] None
    (Some (fun fs _ => ctl_with (fun cfg flag => ctlRunAction net body_text cfg flag decode_fields "pause") fs)) [].

Definition newCtlResumeCmd : Command N :=
  mkCommand "resume" "" [] [] None
    (Some (fun fs _ => ctl_with (fun cfg flag => ctlRunAction net body_text cfg flag decode_fields "resume") fs)) [].

Definition newCtlResyncCmd : Command N :=
  mkCommand "resync" "" [] [] None
    (Some (fun fs _ => ctl_with (fun cfg flag => ctlRunAction net body_text cfg flag decode_fields "resync") fs)) [].

Definition newCtlConflictRepairCmd : Command N :=
  mkCommand "repair" "" [] [mkFlag "dry-run" (VBool false)] None
    (Some (fun fs _ =>
      let dryRun := bool_var 3 "dry-run" fs false in
      ctl_with (fun cfg flag => ctlRunConflictRepair net body_text cfg flag decode_report dryRun) fs)) [].

Definition newCtlConflictCmd : Command N :=
  mkCommand "conflict" "" [] [] None None [newCtlConflictRepairCmd].

Definition newCtlCmd : Command N :=
  mkCommand "ctl" ""
    [mkFlag "config" (VString (defaultConfigPath userConfigDir)); mkFlag "timeout" (VDuration 0)] [] None None
    [newCtlStatusCmd; newCtlPauseCmd; newCtlResumeCmd; newCtlResyncCmd; newCtlConflictCmd].

(** The hook puts the variable of the root's own flag into the context. *)
Definition newRootCmd : Command N :=
  mkCommand "homedrive" version [mkFlag "dry-run" (VBool false)] []
    (Some (fun fs => bool_var 0 "dry-run" fs false)) None
    [newRunCmd; newCtlCmd].

(** [main]: the exit status. *)
Definition main (args : list string) : ST N Z :=
  let* r := ExecuteContext newRootCmd args in
  st_ret (match r with Ok _ => 0 | Err _ => 1 end).

End program.

(** ** Lemmas *)

Section lemmas.
Context {N : Type} `{CobraLaws N}.

Lemma set_flags_cons name t sets fs st v :
  fs !! name = Some st -> pflag_Set (fs_Value st) t = Ok v ->
  set_flags pflag_Set ((name, t) :: sets) fs = set_flags pflag_Set sets (<[name := mkFlagState (fs_Owner st) v true]> fs).
Proof. intros Hl Hs. cbn [set_flags]. unfold set_flag. cbn [fst snd]. by rewrite Hl, Hs. Qed.

End lemmas.

(** *** Commands without a version *)

Section unversioned.
Context {N : Type}.

Inductive unversioned : Command N -> Prop :=
| unversioned_intro c : Version c = "" -> Forall unversioned (children c) -> unversioned c.

Lemma walk_elem (c : Command N) names chain :
  unversioned c -> walk c names = Some chain -> exists l, last chain = Some l /\ Version l = "".
Proof.
  revert c chain. induction names as [|n names IH]; intros c chain Hc; cbn [walk].
  { intros [= <-]. exists c. split; [done|]. by destruct Hc. }
  destruct (List.find _ _) as [c'|] eqn:E; [|done]. apply List.find_some in E as [Hin _].
  destruct (walk c' names) as [chain'|] eqn:Ew; [|done]. intros [= <-].
  destruct Hc as [c _ Hf]. rewrite List.Forall_forall in Hf.
  destruct (IH c' chain' (Hf c' Hin) Ew) as (l & Hl & Hv). exists l. split; [|done].
  rewrite last_cons, Hl. done.
Qed.

Lemma walk_below (c : Command N) n names chain :
  Forall unversioned (children c) -> walk c (n :: names) = Some chain ->
  exists l, last chain = Some l /\ Version l = "".
Proof.
  intros Hf. cbn [walk]. destruct (List.find _ _) as [c'|] eqn:E; [|done].
  apply List.find_some in E as [Hin _]. rewrite List.Forall_forall in Hf.
  destruct (walk c' names) as [chain'|] eqn:Ew; [|done]. intros [= <-].
  destruct (walk_elem c' names chain' (Hf c' Hin) Ew) as (l & Hl & Hv). exists l. split; [|done].
  rewrite last_cons, Hl. done.
Qed.

Lemma auto_flag_ne depth name other fs :
  name <> other -> auto_flag depth other fs !! name = fs !! name.
Proof. intros Hne. unfold auto_flag. destruct (fs !! other); [done|]. by apply lookup_insert_ne. Qed.

(** The automatic flags are the only ones added. *)
Lemma flags_of_None (chain : list (Command N)) name :
  scope 0 chain !! name = None -> name <> "help" ->
  (name <> "version" \/ exists l, last chain = Some l /\ Version l = "") ->
  flags_of chain !! name = None.
Proof.
  intros Hs Hh Hv. unfold flags_of.
  assert (auto_flag (length chain - 1) "help" (scope 0 chain) !! name = None) as Ha
    by by rewrite auto_flag_ne.
  destruct (last chain) as [c|] eqn:El; [|exact Ha].
  destruct (String.eqb_spec (Version c) ""); [exact Ha|].
  destruct Hv as [Hv|(l & [= <-] & Hl)]; [|done]. by rewrite auto_flag_ne.
Qed.

End unversioned.

(** *** A command-line parser that meets the laws *)

Fixpoint split_args (args : list string) : list string * list string :=
  match args with
  | [] => ([], [])
  | a :: rest =>
      if HasPrefix a "-" then ([], args) else let '(names, flags) := split_args rest in (a :: names, flags)
  end.

Definition parse_arg (a : string) : string * string :=
  let '(name, text, _) := Cut (TrimPrefix a "--") "=" in (name, text).

Definition set_text (v : flagval) (t : string) : result flagval :=
  match v with
  | VString _ => Ok (VString t)
  | VBool _ => if String.eqb t "true" then Ok (VBool true)
               else if String.eqb t "false" then Ok (VBool false) else Err (EText "invalid boolean value")
  | VDuration _ => match ParseDuration t with Ok d => Ok (VDuration d) | Err e => Err e end
  end.

Definition execute_args {N} (root : Command N) (args : list string) : ST N (result unit) :=
  let '(names, flags) := split_args args in
  match walk root names with
  | None => st_ret (Err (EText "unknown command"))
  | Some chain =>
      match set_flags set_text (map parse_arg flags) (flags_of chain) with
      | Ok fs => executed chain fs
      | Err e => st_ret (Err e)
      end
  end.

#[export] Instance PlainCobra N : Cobra N := {| pflag_Set := set_text; ExecuteContext := execute_args |}.

Lemma Cut_flag n t : CountByte n "="%char = 0%nat -> Cut (n +:+ "=" +:+ t) "=" = (n, t, true).
Proof.
  intros Hn. unfold Cut.
  assert (Index (n +:+ "=" +:+ t) "=" = Some (strlen n)) as ->.
  { induction n as [|a n IH].
    - cbn. by destruct t.
    - rewrite sapp_cons. cbn [CountByte] in Hn. destruct (Ascii.eqb_spec a "="%char) as [|Ha]; [done|].
      cbn [Index]. rewrite IH by done. unfold HasPrefix. cbn [String.prefix].
      by destruct (ascii_dec "=" a) as [<-|]. }
  rewrite str_take_app. change 1%nat with (strlen "="). by rewrite str_drop_app_plus, str_drop_app.
Qed.

Lemma parse_flag_arg sets : forallb plain_flag sets = true -> map parse_arg (map flag_arg sets) = sets.
Proof.
  induction sets as [|[n t] sets IH]; [done|]. cbn [forallb map]. intros [Hn Hs]%andb_true_iff. rewrite IH by done.
  f_equal. unfold parse_arg, flag_arg. cbn [fst snd]. rewrite TrimPrefix_app, Cut_flag; [done|].
  by apply Nat.eqb_eq.
Qed.

Lemma split_plain_args names sets :
  forallb plain_name names = true -> split_args (names ++ map flag_arg sets) = (names, map flag_arg sets).
Proof.
  induction names as [|n names IH]; cbn [forallb app].
  - intros _. by destruct sets.
  - intros [Hn Hs]%andb_true_iff. cbn [split_args]. unfold plain_name in Hn. apply negb_true_iff in Hn.
    by rewrite Hn, IH.
Qed.

#[export] Instance PlainCobra_laws N : CobraLaws N.
Proof.
  constructor; cbn.
  - done.
  - done.
  - intros d t d' ->. done.
  - intros root names sets chain fs Hn Hs Hw Hf. unfold execute_args.
    by rewrite split_plain_args, Hw, parse_flag_arg, Hf.
  - intros root names sets chain e w Hn Hs Hw Hf. unfold execute_args.
    rewrite split_plain_args, Hw, parse_flag_arg, Hf by done. by exists e.
Qed.

(** The optional flags of a command line. *)
Definition config_flag (conf : option string) : list (string * string) :=
  match conf with Some p => [("config", p)] | None => [] end.

Definition timeout_flag (tmo : option (string * Duration)) : list (string * string) :=
  match tmo with Some (t, _) => [("timeout", t)] | None => [] end.

Definition dry_flag (dry : bool) : list (string * string) := if dry then [("dry-run", "true")] else [].

(** Every command of the program. *)
Definition command_paths : list (list string) :=
  [[]; ["run"]; ["ctl"]; ["ctl"; "status"]; ["ctl"; "pause"]; ["ctl"; "resume"]; ["ctl"; "resync"];
   ["ctl"; "conflict"]; ["ctl"; "conflict"; "repair"]].

(** The exit status of a command. *)
Definition exits {N} (m : ST N (result unit)) : ST N Z :=
  let* r := m in st_ret (match r with Ok _ => 0 | Err _ => 1 end).

(** ** Properties *)

Section properties.
Context {N : Type} `{CobraLaws N}.
Context {R DB F : Type} `{Bolt DB} `{Fsnotify F} `{Env}.
Variable userConfigDir : result string.
Variable load : string -> result AppConfig.
Variable net : string -> Duration -> Request -> ST N (result Response).
Variable body_text : Body -> string.
Variable decode_status : Body -> result StatusInfo.
Variable decode_fields : Body -> result (list (string * string)).
Variable decode_report : Body -> result RepairReport.
Variable doublestar_Match : string -> string -> bool.
Variable host : string -> Host DB F.
Variable fs0 : LocalFS.
Variable r0 : R.
Variable running_since : nat.
Variable level : option Z.
Variable Agent_Run : Agent -> Running R (JournalStore DB) F -> ST N (result unit).
Variable version : string.

Abbreviation homedrive names sets :=
  (main userConfigDir load net body_text decode_status decode_fields decode_report doublestar_Match host fs0 r0
     running_since level Agent_Run version (names ++ map flag_arg sets)).
Abbreviation root :=
  (newRootCmd userConfigDir load net body_text decode_status decode_fields decode_report doublestar_Match host fs0 r0
     running_since level Agent_Run version).

Lemma main_found names sets chain fs :
  forallb plain_name names = true -> forallb plain_flag sets = true ->
  walk root names = Some chain -> set_flags pflag_Set sets (flags_of chain) = Ok fs ->
  homedrive names sets = exits (executed chain fs).
Proof. intros Hn Hs Hw Hf. unfold main, exits. by rewrite (execute_found root names sets chain fs). Qed.

(** Sets one flag after the other, then runs the command. *)
Ltac run_command names :=
  cbn [config_flag timeout_flag dry_flag app];
  etrans; [eapply (main_found names); [reflexivity|reflexivity|reflexivity|];
    repeat (erewrite set_flags_cons;
      [|reflexivity|first [apply set_string|apply set_bool|apply set_duration; eauto]]); reflexivity
  |reflexivity].

Lemma root_children : Forall unversioned (children root).
Proof. repeat (constructor; try reflexivity). Qed.

(** [--help] is an automatic flag of every command. *)
Lemma every_command_helps names :
  names ∈ command_paths -> homedrive names [("help", "true")] = st_ret 0.
Proof.
  intros Hn. unfold command_paths in Hn. rewrite !elem_of_cons, elem_of_nil in Hn.
  destruct (String.eqb version "") eqn:Ev;
    repeat (destruct Hn as [->|Hn]; [|try done]);
    (etrans; [eapply (main_found _ [("help", "true")]); [reflexivity|reflexivity|reflexivity|];
      cbn [flags_of last Version newRootCmd]; rewrite ?Ev;
      erewrite set_flags_cons; [|reflexivity|apply set_bool]; reflexivity
    |reflexivity]).
Qed.

Lemma version_shown : version <> "" -> homedrive [] [("version", "true")] = st_ret 0.
Proof.
  intros Hv. apply String.eqb_neq in Hv. etrans.
  - eapply (main_found [] [("version", "true")]); [reflexivity|reflexivity|reflexivity|].
    cbn [flags_of last Version newRootCmd]. rewrite Hv.
    erewrite set_flags_cons; [|reflexivity|apply set_bool]. reflexivity.
  - unfold executed. cbn [last Version newRootCmd]. rewrite Hv. reflexivity.
Qed.

Lemma root_helps : homedrive [] [] = st_ret 0.
Proof.
  etrans; [by eapply (main_found [] [])|]. unfold executed, flags_of. cbn [last Version newRootCmd].
  by destruct (String.eqb version "").
Qed.

Lemma unknown_flag_fails names chain name text w :
  forallb plain_name names = true -> walk root names = Some chain ->
  plain_flag (name, text) = true -> scope 0 chain !! name = None ->
  name <> "help" -> (name <> "version" \/ names <> [] \/ version = "") ->
  homedrive names [(name, text)] w = (1, w).
Proof.
  intros Hn Hw Hp Hl Hh Hv. unfold main, st_bind.
  destruct (execute_bad_flag root names [(name, text)] chain (EText ("unknown flag: --" +:+ name)) w)
    as [e' ->]; [done|cbn [forallb]; by rewrite Hp|done| |done].
  cbn [set_flags]. unfold set_flag. cbn [fst]. rewrite flags_of_None; [done..|].
  destruct Hv as [Hv|[Hv|Hv]]; [by left|right..].
  - destruct names as [|n names]; [done|]. eapply walk_below; [apply root_children|exact Hw].
  - destruct names as [|n names]; [|eapply walk_below; [apply root_children|exact Hw]].
    injection Hw as <-. eexists. split; [reflexivity|exact Hv].
Qed.

(** C22: every command line does what its command says: [run] starts the agent
    from the named or default configuration with the dry-run mode of the global
    flag; each [ctl] command makes its one call to the endpoint of that
    configuration, within the given timeout; only [ctl conflict repair] passes a
    dry-run flag on -- its own, which hides the global one -- and the other
    [ctl] commands act whatever it says. The exit status is 1 exactly when the
    call fails; a command without an action prints its help and succeeds, as
    [--help] does on every command and [--version] on the program itself, with
    nothing done; a flag that is neither declared nor one of these two fails
    before anything is done, [--version] of a subcommand included. *)
Theorem cli_commands conf tmo dry :
  (forall t d, tmo = Some (t, d) -> ParseDuration t = Ok d) ->
  let path := match conf with Some p => p | None => defaultConfigPath userConfigDir end in
  let ctl_sets := config_flag conf ++ timeout_flag tmo ++ dry_flag dry in
  let flag := match tmo with Some (_, d) => Some d | None => None end in
  homedrive ["run"] (config_flag conf ++ dry_flag dry) =
    exits (cmd_runAgent doublestar_Match host fs0 r0 running_since level Agent_Run path (Some dry)) /\
  homedrive ["ctl"; "status"] ctl_sets =
    exits (logged (ctlRunStatus net body_text (load path) flag decode_status)) /\
  (forall name, name ∈ ["pause"; "resume"; "resync"] ->
     homedrive ["ctl"; name] ctl_sets =
       exits (logged (ctlRunAction net body_text (load path) flag decode_fields name))) /\
  homedrive ["ctl"; "conflict"; "repair"] ctl_sets =
    exits (logged (ctlRunConflictRepair net body_text (load path) flag decode_report dry)) /\
  (forall names, names ∈ [[]; ["ctl"]; ["ctl"; "conflict"]] -> homedrive names [] = st_ret 0) /\
  (forall names, names ∈ command_paths -> homedrive names [("help", "true")] = st_ret 0) /\
  (version <> "" -> homedrive [] [("version", "true")] = st_ret 0) /\
  (forall names chain name text w, forallb plain_name names = true -> walk root names = Some chain ->
     plain_flag (name, text) = true -> scope 0 chain !! name = None ->
     name <> "help" -> (name <> "version" \/ names <> [] \/ version = "") ->
     homedrive names [(name, text)] w = (1, w)).
Proof.
  intros Ht path ctl_sets flag. unfold ctl_sets. split_and!.
  - destruct conf as [p|], dry; run_command ["run"].
  - destruct conf as [p|], tmo as [[t d]|], dry; run_command ["ctl"; "status"].
  - intros name Hn. rewrite !elem_of_cons, elem_of_nil in Hn. destruct Hn as [->|[->|[->|[]]]].
    + destruct conf as [p|], tmo as [[t d]|], dry; run_command ["ctl"; "pause"].
    + destruct conf as [p|], tmo as [[t d]|], dry; run_command ["ctl"; "resume"].
    + destruct conf as [p|], tmo as [[t d]|], dry; run_command ["ctl"; "resync"].
  - destruct conf as [p|], tmo as [[t d]|], dry; run_command ["ctl"; "conflict"; "repair"].
  - intros names Hn. rewrite !elem_of_cons, elem_of_nil in Hn. destruct Hn as [->|[->|[->|[]]]].
    + apply root_helps.
    + etrans; [by eapply (main_found ["ctl"] [])|reflexivity].
    + etrans; [by eapply (main_found ["ctl"; "conflict"] [])|reflexivity].
  - apply every_command_helps.
  - apply version_shown.
  - apply unknown_flag_fails.
Qed.
End properties.

(** ** Witnesses *)

(** The endpoint of [remote_cfg], whose file is [/c.yaml]; [run] finds a host on
    which the start fails. *)
Definition demo_load (path : string) : result AppConfig :=
  if String.eqb path "/c.yaml" then Ok remote_cfg else Err (EText "no file").

Definition remote_server : ServerConfig := mkServerConfig "0.0.0.0:7000" true "secret".

#[local] Existing Instances demo_env demo_Fsnotify.

Definition demo_net : string -> Duration -> Request ->
    ST (ControlState MemFS (JournalStore MemBolt) * Metrics) (result Response) :=
  net_to engine_agent control_env remote_server.

Definition demo_main (args : list string) : ST (ControlState MemFS (JournalStore MemBolt) * Metrics) Z :=
  main (Ok "/root/.config") demo_load demo_net (fun _ => "") read_status read_fields read_report
    (fun _ _ => false) (fun _ => quiet_host exposed_config) demo_fs demo_mem 0%nat None (fun _ _ => st_ret (Ok tt)) "dev" args.

Lemma cli_commands_witness :
  let args := ["ctl"; "pause"; "--config=/c.yaml"; "--timeout=2s"; "--dry-run=true"] in
  let call := ctlRunAction demo_net (fun _ => "") (demo_load "/c.yaml") (Some (2 * Second)) read_fields "pause" in
  demo_main args (demo_control, NewMetrics) = exits (logged call) (demo_control, NewMetrics) /\
  fst (demo_main args (demo_control, NewMetrics)) = 0 /\
  e_paused (co_engine (fst (snd (demo_main args (demo_control, NewMetrics))))) = true /\
  fst (demo_main ["ctl"; "pause"; "--config=/d.yaml"] (demo_control, NewMetrics)) = 1 /\
  demo_main ["run"; "--verbose=1"] (demo_control, NewMetrics) = (1, (demo_control, NewMetrics)) /\
  demo_main ["--version=true"] (demo_control, NewMetrics) = (0, (demo_control, NewMetrics)) /\
  demo_main ["run"; "--version=true"] (demo_control, NewMetrics) = (1, (demo_control, NewMetrics)) /\
  demo_main ["run"; "--help=true"] (demo_control, NewMetrics) = (0, (demo_control, NewMetrics)).
Proof.
  intros args call.
  destruct (cli_commands (Ok "/root/.config") demo_load demo_net (fun _ => "")
    read_status read_fields read_report (fun _ _ => false) (fun _ => quiet_host exposed_config)
    demo_fs demo_mem 0%nat None (fun _ _ => st_ret (Ok tt)) "dev" (Some "/c.yaml") (Some ("2s", 2 * Second)) true)
    as (_ & _ & Ha & _ & _ & Hh & Hv & Hu).
  { intros t d [= <- <-]. vm_compute. reflexivity. }
  assert (demo_main args = exits (logged call)) as E.
  { apply (Ha "pause"). apply elem_of_cons. by left. }
  split; [by rewrite E|]. split; [vm_compute; reflexivity|]. split; [vm_compute; reflexivity|].
  split; [vm_compute; reflexivity|].
  split; [|split; [|split]].
  - epose proof (Hu ["run"] _ "verbose" "1" (demo_control, NewMetrics) eq_refl eq_refl eq_refl eq_refl) as U.
    apply U; [done|by left].
  - specialize (Hv ltac:(done)). exact (f_equal (fun m => m (demo_control, NewMetrics)) Hv).
  - epose proof (Hu ["run"] _ "version" "true" (demo_control, NewMetrics) eq_refl eq_refl eq_refl eq_refl) as U.
    apply U; [done|right; by left].
  - specialize (Hh ["run"] ltac:(apply elem_of_cons; right; apply elem_of_cons; by left)).
    exact (f_equal (fun m => m (demo_control, NewMetrics)) Hh).
Defined.
