(* ===== verification/PullAgain.v ===== *)
(** A remote change that is delivered again. Drive may report a change more than
    once, and a poll that ends before its page token is persisted reads the page
    again; processing a change again right after it succeeded does nothing. *)
From S2P Require Import Prelude.
From S2P Require Import GoStrings.
From S2P Require Import GoRuntime.
From S2P Require Import OldSuffix.
From S2P Require Import GoPath.
From S2P Require Import LocalFS.
From S2P Require Import Remote.
From S2P Require Import MemFS.
From S2P Require Import Bolt.
From S2P Require Import Journal.
From S2P Require Import World.
From S2P Require Import AuditLog.
From S2P Require Import Prune.
From S2P Require Import Retry.
From S2P Require Import Push.
From S2P Require Import PullConflict.
From S2P Require Import Pull.
From S2P Require Import PushSteps.
From S2P Require Import PullFrame.

Lemma st_try_inv {W A B} f (m : ST W (result A)) (k : A -> ST W (result B)) w r w' :
  st_try f m k w = (r, w') ->
  (exists e, m w = (Err e, w') /\ r = Err (f e)) \/ exists a w1, m w = (Ok a, w1) /\ k a w1 = (r, w').
Proof. unfold st_try. destruct (m w) as [[a|e] w1]; [eauto|]. intros [= <- <-]. eauto. Qed.

Lemma in_world_inv {R S St A} (m : ST (World R S) A) w (st : St) a x :
  in_world m (w, st) = (a, x) -> exists w', m w = (a, w') /\ x = (w', st).
Proof. unfold in_world. destruct (m w) as [a' w']. intros [= <- <-]. eauto. Qed.

Section again.
Context {R S : Type} `{RemoteFS R} `{StoreLaws S} `{Env}.
Context (tree : R -> gmap string RemoteObject) `{!RemoteLaws R tree}.
Abbreviation W := (World R S).
Variable p : Puller.

(** ** Definitions *)

(** The journal holds the object's version as the baseline. *)
Definition recorded (path : string) (obj : RemoteObject) (w : W) : Prop :=
  exists j, store_view (w_store w) !! path = Some j /\
    je_RemoteMD5 j = ro_MD5 obj /\ je_RemoteMtime j = ro_ModTime obj.

(** The change of the object has nothing to do: neither an adoption nor a
    conflict nor a download. *)
Definition resting (path : string) (obj : RemoteObject) (w : W) : Prop :=
  exists j, store_view (w_store w) !! path = Some j /\
    within_second (ro_ModTime obj) (je_RemoteMtime j) = true /\
    fst (adoptIdenticalRemote p path obj j w) = Ok false /\
    forall lm, fst (detectConflict p path obj j w) <> Ok (true, lm).

(** ** Lemmas *)

Lemma recorded_resting path obj w : recorded path obj w -> resting path obj w.
Proof.
  intros (j & Hj & Em & Et). exists j. split_and!; [done| | |].
  - rewrite Et. apply within_second_refl.
  - unfold adoptIdenticalRemote. rewrite Em.
    destruct (String.eqb (ro_MD5 obj) ""); cbn; by rewrite ?orb_true_r.
  - intros lm. unfold detectConflict, st_bind, on_fs.
    destruct (os_Stat (root_file p path) (w_fs w)) as [[info|e] fs].
    + by rewrite Em, String.eqb_refl.
    + by destruct (os_IsNotExist e).
Qed.

Lemma Stat_same q (w w' : W) : same_data w w' -> fst (on_fs (os_Stat q) w') = fst (on_fs (os_Stat q) w).
Proof. intros (F & _ & _). unfold on_fs. rewrite F. by destruct (os_Stat q (w_fs w)). Qed.

Lemma detect_same path obj j (w w' : W) :
  same_data w w' -> fst (detectConflict p path obj j w') = fst (detectConflict p path obj j w).
Proof.
  intros Hs. pose proof (Stat_same (root_file p path) w w' Hs) as E. unfold detectConflict, st_bind.
  destruct (on_fs _ w) as [r w1], (on_fs _ w') as [r' w1']. cbn in E. subst r'.
  destruct r as [info|e]; [|by destruct (os_IsNotExist e)].
  by repeat case_match.
Qed.

Lemma fileMD5_same q (w w' : W) : same_data w w' -> fst (fileMD5 q w') = fst (fileMD5 q w).
Proof.
  intros (F & _ & _). unfold fileMD5, st_try, on_fs. rewrite F. by destruct (os_ReadFile q (w_fs w)) as [[] fs].
Qed.

Lemma adopt_same path obj j (w w' : W) :
  same_data w w' -> fst (adoptIdenticalRemote p path obj j w) = Ok false ->
  fst (adoptIdenticalRemote p path obj j w') = Ok false.
Proof.
  intros Hs. destruct (adoptIdenticalRemote p path obj j w) as [r w0] eqn:Hr. cbn. intros ->. revert Hr.
  unfold adoptIdenticalRemote. destruct (_ || _); [done|]. intros Hr.
  apply st_bind_inv in Hr as (r & w1 & E1 & Hr).
  pose proof (Stat_same (root_file p path) w w' Hs) as E. rewrite E1 in E. cbn in E.
  pose proof (quiet_Stat (R := R) (S := S) (root_file p path) w') as Q'.
  apply (quiet_run _ _ _ _ (quiet_Stat _)) in E1 as Q.
  unfold st_bind at 1. destruct (on_fs _ w') as [r' w1']. cbn in E, Q'. subst r'.
  destruct r as [info|e]; [|done]. destruct (IsDir info); [done|].
  apply st_try_Ok in Hr as (sum & w2 & E2 & Hr).
  assert (same_data w1 w1') as Hs1 by (etrans; [symmetry; exact Q|]; by transitivity w').
  pose proof (fileMD5_same (root_file p path) w1 w1' Hs1) as Em. rewrite E2 in Em. cbn in Em.
  unfold st_try at 1. destruct (fileMD5 _ w1') as [m' w2']. cbn in Em. subst m'.
  destruct (negb _); [done|]. destruct (pc_DryRun _); [done|].
  apply st_bind_inv in Hr as (ts & w3 & _ & Hr). by apply st_try_Ok in Hr as ([] & w4 & _ & Hr).
Qed.

Lemma resting_same path obj (w w' : W) : same_data w w' -> resting path obj w -> resting path obj w'.
Proof.
  intros Hs (j & Hj & Hm & Ha & Hd). exists j. destruct Hs as (F & Er & Es). split_and!.
  - by rewrite Es.
  - done.
  - by apply (adopt_same path obj j w).
  - intros lm. rewrite (detect_same path obj j w w') by done. apply Hd.
Qed.

Lemma Get_view path (w w' : W) o :
  on_store (Get path) w = (Ok o, w') -> o = store_view (w_store w) !! path /\ same_data w w'.
Proof.
  intros E. pose proof (quiet_run _ _ _ _ (quiet_Get path) E) as Q. split; [|done]. unfold on_store in E.
  destruct (Get path (w_store w)) as [r s'] eqn:Eg. injection E as -> <-.
  apply store_get in Eg as [_ Ho]. by apply Ho.
Qed.

(** A resting change does nothing. *)
Lemma resting_idle ch obj (w w' : W) st st' r :
  ch_Deleted ch = false -> ch_Object ch = Some obj -> resting (ch_Path ch) obj w ->
  processChange p ch (w, st) = (r, (w', st')) -> same_data w w' /\ st' = st.
Proof.
  intros Hdel Hobj Hr Hrun. unfold processChange in Hrun. rewrite Hdel in Hrun.
  apply st_bind_inv in Hrun as (start & x1 & Hn & Hrun). apply in_world_inv in Hn as (w1 & Hn & ->).
  apply (quiet_run _ _ _ _ quiet_now) in Hn as Q1. apply (resting_same _ _ w w1 Q1) in Hr as (j & Hj & Hm & Ha & Hd).
  destruct (is_dir_change ch); [by injection Hrun as <- <- <-|].
  apply st_try_inv in Hrun as [(e & Hg & ->)|(o & x2 & Hg & Hrun)]; apply in_world_inv in Hg as (w2 & Hg & Ex).
  { injection Ex as <- <-. split; [|done]. etrans; [exact Q1|]. by apply (quiet_run _ _ _ _ (quiet_Get _) Hg). }
  subst x2. apply Get_view in Hg as [-> Q2]. rewrite Hj, Hobj in Hrun.
  apply (adopt_same _ _ _ w1 w2 Q2) in Ha. assert (same_data w w2) as Q by by etrans.
  apply st_try_inv in Hrun as [(e & Hg & ->)|(c & x3 & Hg & Hrun)]; apply in_world_inv in Hg as (w3 & Hg & Ex);
    rewrite Hg in Ha; [done|]. cbn in Ha. injection Ha as ->. subst x3. apply adopt_false in Hg as Q3.
  assert (same_data w1 w3) as Q13 by by etrans. assert (same_data w w3) as Q03 by by etrans.
  apply st_try_inv in Hrun as [(e & Hg' & ->)|(c & x4 & Hg' & Hrun)]; apply in_world_inv in Hg' as (w4 & Hg' & Ex);
    apply (quiet_run _ _ _ _ (quiet_detectConflict _ _ _ _)) in Hg' as Q4.
  { injection Ex as <- <-. split; [by etrans|done]. }
  subst x4. pose proof (detect_same (ch_Path ch) obj j w1 w3 Q13) as Ed. rewrite Hg' in Ed. cbn in Ed.
  destruct c as [[] lm]; [by destruct (Hd lm)|]. cbn [fst snd] in Hrun. rewrite Hm in Hrun.
  injection Hrun as <- <- <-. split; [by etrans|done].
Qed.

(** *** What a success leaves behind *)

Section success.
Variables (path : string) (obj : RemoteObject).
Hypothesis Hmd5 : to_valid_utf8 (ro_MD5 obj) = ro_MD5 obj.

Lemma recorded_same (w w' : W) : same_data w w' -> recorded path obj w -> recorded path obj w'.
Proof. intros (_ & _ & Es) (j & Hj & E). exists j. by rewrite Es. Qed.

Lemma Put_recorded lt id ts origin (w w' : W) :
  on_store (Put (mkJournalEntry path lt (ro_ModTime obj) (ro_MD5 obj) id ts origin)) w = (Ok tt, w') ->
  recorded path obj w'.
Proof.
  unfold on_store. destruct (Put _ (w_store w)) as [r s'] eqn:Ep. intros [= -> <-].
  apply store_put in Ep as [Hv _]. cbn in Hv. eexists. cbn. rewrite Hv, lookup_insert_eq. split; [done|].
  by unfold json_norm; cbn.
Qed.

Lemma quiet_recorded {A} (m : ST W A) w a w' :
  quiet m -> m w = (a, w') -> recorded path obj w -> recorded path obj w'.
Proof. intros Hq Hm. apply recorded_same. by apply (quiet_run m w a w'). Qed.

Lemma recordDownload_recorded l start (w w' : W) :
  recordDownload p path obj l start w = (Ok tt, w') -> recorded path obj w'.
Proof.
  intros Hrun. apply st_try_Ok in Hrun as (info & w1 & _ & Hrun).
  apply st_bind_inv in Hrun as (ts & w2 & _ & Hrun). apply st_try_Ok in Hrun as ([] & w3 & Hp & Hrun).
  eapply quiet_recorded; [|exact Hrun|by eapply Put_recorded]. solve_quiet.
Qed.

Lemma adopted_recorded j (w w' : W) :
  pc_DryRun (p_cfg p) = false -> adoptIdenticalRemote p path obj j w = (Ok true, w') -> recorded path obj w'.
Proof.
  intros Hdry. unfold adoptIdenticalRemote. destruct (_ || _); [done|]. intros Hrun.
  apply st_bind_inv in Hrun as (r & w1 & _ & Hrun). destruct r as [info|e]; [|done].
  destruct (IsDir info); [done|]. apply st_try_Ok in Hrun as (sum & w2 & _ & Hrun).
  destruct (negb _); [done|]. rewrite Hdry in Hrun. apply st_bind_inv in Hrun as (ts & w3 & _ & Hrun).
  apply st_try_Ok in Hrun as ([] & w4 & Hp & [= <-]). by eapply Put_recorded.
Qed.

Lemma handleConflict_recorded lm start (w w' : W) :
  pc_DryRun (p_cfg p) = false -> handleConflict p path obj lm start w = (Ok tt, w') -> recorded path obj w'.
Proof.
  intros Hdry Hrun. apply st_bind_inv in Hrun as (r & w1 & _ & Hrun). destruct r as [res|e].
  - apply st_try_Ok in Hrun as ([] & w2 & Hp & Hrun). rewrite Hdry in Hp.
    apply st_bind_inv in Hp as (entry & w3 & He & Hp). apply st_bind_inv in He as (ts & w4 & _ & [= <- _]).
    eapply quiet_recorded; [|exact Hrun|by eapply Put_recorded]. solve_quiet.
  - apply st_bind_inv in Hrun as (u & w2 & _ & Hrun). apply st_bind_inv in Hrun as (ms & w3 & _ & Hrun).
    by apply st_bind_inv in Hrun as (u' & w4 & _ & Hrun).
Qed.

End success.

Lemma downloadFile_recorded ch obj start (w w' : W) st st' :
  to_valid_utf8 (ro_MD5 obj) = ro_MD5 obj -> pc_DryRun (p_cfg p) = false ->
  downloadFile p ch obj start (w, st) = (Ok tt, (w', st')) -> newDanglingKey ch ∉ ps_dangling st' ->
  recorded (ch_Path ch) obj w'.
Proof.
  intros Hmd5 Hdry Hrun Hd. unfold downloadFile in Hrun. rewrite Hdry in Hrun.
  apply st_bind_inv in Hrun as (k & x1 & Hk & Hrun). injection Hk as <- <-.
  destruct (bool_decide _) eqn:Hb.
  { injection Hrun as <- <-. by apply bool_decide_eq_true in Hb. }
  apply st_try_Ok in Hrun as (u & x1 & Hm & Hrun). apply in_world_inv in Hm as (w1 & _ & ->).
  apply st_bind_inv in Hrun as (r & x2 & Hm & Hrun). apply in_world_inv in Hm as (w2 & _ & ->).
  destruct r as [v|e].
  - apply in_world_inv in Hrun as (w3 & Hrun & [= <- <-]). by eapply recordDownload_recorded.
  - exfalso. destruct (errors_Is e ErrDanglingShortcut).
    + apply st_bind_inv in Hrun as (v & x3 & Hs & Hrun). apply st_bind_inv in Hs as (v' & x4 & Hs & Hw).
      injection Hs as _ <-. apply in_world_inv in Hw as (w3 & _ & ->). injection Hrun as <- <-.
      apply Hd. cbn. set_solver.
    + by apply st_bind_inv in Hrun as (v & x3 & _ & Hrun).
Qed.

(** After a success the change rests. *)
Lemma processChange_rests ch obj (w w' : W) st st' :
  ch_Deleted ch = false -> ch_Object ch = Some obj -> ro_IsDir obj = false ->
  to_valid_utf8 (ro_MD5 obj) = ro_MD5 obj -> pc_DryRun (p_cfg p) = false ->
  processChange p ch (w, st) = (Ok tt, (w', st')) -> newDanglingKey ch ∉ ps_dangling st' ->
  resting (ch_Path ch) obj w'.
Proof.
  intros Hdel Hobj Hdir Hmd5 Hdry Hrun Hd. unfold processChange in Hrun. rewrite Hdel in Hrun.
  apply st_bind_inv in Hrun as (start & x1 & Hn & Hrun). apply in_world_inv in Hn as (w1 & _ & ->).
  unfold is_dir_change in Hrun. rewrite Hobj, Hdir in Hrun.
  apply st_try_Ok in Hrun as (o & x2 & Hg & Hrun). apply in_world_inv in Hg as (w2 & Hg & ->).
  apply Get_view in Hg as [Ho Q2]. rewrite Hobj in Hrun.
  destruct o as [j|]; [|by eapply recorded_resting, downloadFile_recorded].
  apply st_try_Ok in Hrun as (same & x3 & Ha & Hrun). apply in_world_inv in Ha as (w3 & Ha & ->).
  destruct same.
  { injection Hrun as <- <-. by eapply recorded_resting, adopted_recorded. }
  apply adopt_false in Ha as Q3. apply st_try_Ok in Hrun as (c & x4 & Hc & Hrun).
  apply in_world_inv in Hc as (w4 & Hc & ->). apply (quiet_run _ _ _ _ (quiet_detectConflict _ _ _ _)) in Hc as Q4.
  destruct c as [[] lm]; cbn [fst snd] in Hrun.
  { apply in_world_inv in Hrun as (w5 & Hrun & [= <- <-]). by eapply recorded_resting, handleConflict_recorded. }
  destruct (within_second _ _) eqn:Hw; [|by eapply recorded_resting, downloadFile_recorded].
  injection Hrun as <- <-. apply (resting_same _ _ w3 w4 Q4), (resting_same _ _ w2 w3 Q3).
  exists j. split_and!.
  - rewrite Ho. destruct Q2 as (_ & _ & Es). by rewrite Es.
  - done.
  - by rewrite Ha.
  - intros lm'. pose proof (detect_same (ch_Path ch) obj j w2 w3 Q3) as E. rewrite Hc in E. cbn in E. by rewrite <- E.
Qed.

(** *** Deletions *)

Lemma same_data_trees (w w' : W) : same_data w w' -> same_trees tree w w'.
Proof. intros (F & Er & Es). unfold same_trees. by rewrite F, Er, Es. Qed.

(** What [removeLocal] leaves behind it does not change again. *)
Lemma removeLocal_settled q (w w1 w1' w2 : W) r :
  removeLocal q w = (Ok tt, w1) -> w_fs w1' = w_fs w1 -> removeLocal q w1' = (r, w2) ->
  same_data w1' w2 /\ w_remote w1 = w_remote w /\ w_store w1 = w_store w.
Proof.
  unfold removeLocal. intros Ha Hf Hb.
  apply st_bind_inv in Ha as (ra & wa & Ha & Ha'). apply st_bind_inv in Hb as (rb & wb & Hb & Hb').
  assert (same_data wa w1) as Qa.
  { destruct ra as [[]|e]; [by injection Ha' as <-|]. destruct (os_IsNotExist e); [by injection Ha' as <-|].
    apply st_bind_inv in Ha' as (i & wc & Hs & Ha'). apply (quiet_run _ _ _ _ (quiet_Stat _)) in Hs.
    destruct i as [i|]; [destruct (IsDir i)|]; first [done|by injection Ha' as <-]. }
  assert (same_data wb w2) as Qb.
  { destruct rb as [[]|e]; [by injection Hb' as _ <-|]. destruct (os_IsNotExist e); [by injection Hb' as _ <-|].
    apply st_bind_inv in Hb' as (i & wc & Hs & Hb'). apply (quiet_run _ _ _ _ (quiet_Stat _)) in Hs.
    destruct i as [i|]; [destruct (IsDir i)|]; by injection Hb' as _ <-. }
  assert (w_remote wa = w_remote w /\ w_store wa = w_store w /\
    (forall v fs, os_Remove q (w_fs wa) = (Ok v, fs) -> False)) as (Ra & Sa & Hno).
  { unfold on_fs in Ha. pose proof (os_Remove_spec q (w_fs w)) as Hs. cbn in Hs.
    destruct (os_Remove q (w_fs w)) as [r0 fs0] eqn:E0. injection Ha as <- <-. cbn. split_and!; [done|done|].
    intros v fs E1. pose proof (os_Remove_spec q fs0) as Hs1. cbn in Hs1. rewrite E1 in Hs1.
    destruct Hs1 as (_ & (n & Hn) & _). destruct r0 as [v0|e].
    - destruct Hs as (Ed & _). rewrite Ed, lookup_delete_eq in Hn. done.
    - subst fs0. congruence. }
  assert (same_data w1' wb) as Q.
  { unfold on_fs in Hb. pose proof (os_Remove_spec q (w_fs w1')) as Hs. cbn in Hs.
    destruct (os_Remove q (w_fs w1')) as [r0 fs0] eqn:E0. injection Hb as <- <-. destruct r0 as [v0|e].
    - exfalso. destruct Qa as (F & _ & _). rewrite Hf, F in E0. by apply (Hno v0 fs0).
    - by subst fs0. }
  split; [by etrans|]. destruct Qa as (_ & R1 & S1). split; congruence.
Qed.

Lemma processDelete_again ch start start' (w w1 w2 : W) r :
  pc_DryRun (p_cfg p) = false -> processDelete p ch start w = (Ok tt, w1) ->
  forall w1', same_data w1 w1' -> processDelete p ch start' w1' = (r, w2) -> same_trees tree w1 w2.
Proof.
  intros Hdry Ha w1' Q Hb. unfold processDelete in *. rewrite Hdry in *.
  apply st_try_Ok in Ha as ([] & wa & Hra & Ha). apply st_try_Ok in Ha as ([] & wb & Hda & Ha).
  assert (same_data wb w1) as Qa by (eapply quiet_run; [|exact Ha]; solve_quiet).
  unfold on_store in Hda. destruct (Delete (ch_Path ch) (w_store wa)) as [ra sa] eqn:Ed. injection Hda as -> <-.
  apply store_delete in Ed as [Vd _]. destruct Qa as (Fa & Ra & Sa). cbn in Fa, Ra, Sa.
  destruct Q as (F1 & R1 & S1).
  apply st_try_inv in Hb as [(e & Hrb & ->)|([] & wc & Hrb & Hb)].
  { destruct (removeLocal_settled _ w wa w1' w2 (Err e) Hra) as [Q _]; [congruence|exact Hrb|].
    transitivity w1'; by apply same_data_trees. }
  destruct (removeLocal_settled _ w wa w1' wc (Ok tt) Hra) as [Q _]; [congruence|exact Hrb|].
  transitivity w1'; [by apply same_data_trees|]. transitivity wc; [by apply same_data_trees|].
  apply st_try_inv in Hb as [(e & Hdb & ->)|([] & wd & Hdb & Hb)].
  - unfold on_store in Hdb. destruct (Delete (ch_Path ch) (w_store wc)) as [rb sb] eqn:Ed. injection Hdb as -> <-.
    apply store_delete_err in Ed as ->. apply same_data_trees. by destruct wc.
  - transitivity wd; [|apply same_data_trees; eapply quiet_run; [|exact Hb]; solve_quiet].
    unfold on_store in Hdb. destruct (Delete (ch_Path ch) (w_store wc)) as [rb sb] eqn:Ed. injection Hdb as -> <-.
    apply store_delete in Ed as [Vd' _]. unfold same_trees. cbn. split_and!; [done|done|]. rewrite Vd'.
    destruct Q as (_ & _ & Sc). rewrite Sc, S1, Sa, Vd. apply delete_delete_eq.
Qed.

End again.

(** ** Properties *)

(** C13: a remote change may be delivered more than once: once it has been
    processed successfully -- by a deletion, a download, an adoption, a conflict
    or by being skipped -- processing it again changes no local file, nothing on
    the remote, no journal entry and nothing in the puller, whatever the second
    attempt returns. Left out is a shortcut without a target, which the puller
    remembers instead of the journal. *)
Theorem processChange_again {R S} `{RemoteFS R} `{StoreLaws S} `{Env} tree `{!RemoteLaws R tree} p ch
    (w w1 w2 : World R S) st st1 st2 r :
  pc_DryRun (p_cfg p) = false ->
  (forall obj, ch_Object ch = Some obj -> to_valid_utf8 (ro_MD5 obj) = ro_MD5 obj) ->
  processChange p ch (w, st) = (Ok tt, (w1, st1)) -> newDanglingKey ch ∉ ps_dangling st1 ->
  processChange p ch (w1, st1) = (r, (w2, st2)) -> same_trees tree w1 w2 /\ st2 = st1.
Proof.
  intros Hdry Hmd5 Ha Hd Hb. destruct (ch_Deleted ch) eqn:Hdel.
  - unfold processChange in Ha, Hb. rewrite Hdel in Ha, Hb.
    apply st_bind_inv in Ha as (t & x & Hn & Ha). apply in_world_inv in Hn as (wa & _ & ->).
    apply in_world_inv in Ha as (wb & Ha & [= <- <-]).
    apply st_bind_inv in Hb as (t' & x & Hn & Hb). apply in_world_inv in Hn as (wc & Hn & ->).
    apply in_world_inv in Hb as (wd & Hb & [= <- <-]). split; [|done].
    by eapply processDelete_again; [| |apply (quiet_run _ _ _ _ quiet_now Hn)|].
  - destruct (is_dir_change ch) eqn:Hdir.
    + unfold processChange in Hb. rewrite Hdel, Hdir in Hb. apply st_bind_inv in Hb as (t & x & Hn & [= <- ->]).
      apply in_world_inv in Hn as (wa & Hn & [= -> ->]). split; [|done].
      by apply same_data_trees, (quiet_run _ _ _ _ quiet_now Hn).
    + destruct (ch_Object ch) as [obj|] eqn:Hobj.
      * assert (ro_IsDir obj = false) as Hf by (unfold is_dir_change in Hdir; by rewrite Hobj in Hdir).
        destruct (resting_idle p ch obj w1 w2 st1 st2 r Hdel Hobj) as [Q ->]; [|exact Hb|split; [by apply same_data_trees|done]].
        by eapply processChange_rests; [..|exact Ha|exact Hd]; auto.
      * exfalso. unfold processChange in Ha. rewrite Hdel, Hdir in Ha. apply st_bind_inv in Ha as (t & x & _ & Ha).
        apply st_try_Ok in Ha as (j & x' & _ & Ha). by rewrite Hobj in Ha.
Qed.

(** ** Witnesses *)

(** The conflict on [docs/a.txt], delivered twice. *)
Definition delivered_once : result unit * (World MemFS (JournalStore MemBolt) * PullState) :=
  @processChange _ _ _ _ demo_env (demo_puller false) conflict_change (two_files_world, mkPullState 0 ∅).

Definition delivered_twice : result unit * (World MemFS (JournalStore MemBolt) * PullState) :=
  @processChange _ _ _ _ demo_env (demo_puller false) conflict_change (snd delivered_once).

Lemma processChange_again_witness :
  fst delivered_once = Ok tt /\
  fs_nodes (w_fs (fst (snd delivered_once))) !! ["home"; "docs"; "a.txt.old.1"] = Some (File (500 * Second) "hello") /\
  same_trees m_files (fst (snd delivered_once)) (fst (snd delivered_twice)).
Proof.
  assert (fst delivered_once = Ok tt) as E by (vm_compute; reflexivity).
  assert (bool_decide (newDanglingKey conflict_change ∉ ps_dangling (snd (snd delivered_once))) = true) as Ed
    by (vm_compute; reflexivity).
  split; [exact E|]. split; [vm_compute; reflexivity|].
  destruct (processChange_again (H2 := demo_env) m_files (demo_puller false) conflict_change two_files_world
    (fst (snd delivered_once)) (fst (snd delivered_twice)) (mkPullState 0 ∅) (snd (snd delivered_once))
    (snd (snd delivered_twice)) (fst delivered_twice)) as [Hs _].
  - reflexivity.
  - intros obj [= <-]. vm_compute. reflexivity.
  - rewrite <- E. unfold delivered_once. match goal with |- ?x = _ => generalize x end. by intros [? []].
  - exact (bool_decide_unpack _ ltac:(rewrite Ed; exact I)).
  - rewrite <- surjective_pairing. unfold delivered_twice. match goal with |- ?x = _ => generalize x end. by intros [? []].
  - exact Hs.
Defined.
